(* ===== verification/_CoqProject ===== *)
-Q . S2P
Prelude.v
Text.v
Json.v
Schema.v
Env.v
World.v
Tables.v
Laws.v
Projects.v
Concrete.v
LocalDisk.v
Registry.v
Remote.v
S3Backend.v
AzureBackend.v
GcsBackend.v
HetznerBackend.v
FileServers.v
RemoteBackends.v
Scenario.v
Storages.v
Files.v
SyncTasks.v
Users.v
Links.v
Backups.v
Search.v
Resolver.v
FileService.v
TierService.v
BulkService.v
SharedLinkService.v
BackupService.v
SyncWorker.v
Auth.v
Access.v
Uploads.v
ApiProjects.v
ApiFiles.v
ApiBackups.v
Dashboard.v
ApiBulk.v
Config.v
Server.v
System.v
Routes.v
Frames.v
SystemLaws.v
Typing.v
TypingSpec.v
Integrity.v
SystemSpec.v
DiskSpec.v
RoundTrip.v
SearchSpec.v
BulkSpec.v
LinkSpec.v
AuthSpec.v
SyncSpec.v
ClaimSpec.v
QueueSpec.v
TierSpec.v
BackupSpec.v
UploadSpec.v
DisclosureSpec.v
S3Spec.v
WebSpec.v
FileServerSpec.v
ConcreteNet.v
RemoteSpec.v
PropfindSpec.v
ServerSpec.v
RoutesSpec.v
Interleave.v
Threads.v
Workers.v
InterleaveSpec.v
WorkersSpec.v
Defects.v
ExportSpec.v
