(* ===== verification/Prelude.v ===== *)
(** * Simply Storage: a verification development

    Simply Storage (src/src) is an HTTP server that keeps one copy of every
    distinct content, however often it is uploaded. A content is a row of
    [files], named by its SHA-256; each upload by a project is a row of
    [file_references]; each copy on a storage is a row of [file_locations],
    under the path [content_addressed_path] spells from the hash. Uploads go
    to one hot storage of the project, and rows of [sync_tasks] ask the workers
    to copy them to the others. Other workers archive what lies idle, back the
    database up, and sweep abandoned resumable uploads. Metadata filters are
    compiled to SQL; shared links give out single files under a quota.

    ** How the program is modelled

    The embedding is shallow: a function of the code is a Rocq function, of the
    same name where Rocq allows it, that can be evaluated. [World] (World.v) is
    the state the code acts on: the database (one finite map per table), the
    local file system, the state of the remote services, the registry of
    backends, the clock, the random draws made, the advisory locks other
    sessions hold. Handlers, services and worker rounds are values of
    [M A := World -> World * Result A], where [Result] is a value, an
    [AppError] or a panic; what was done before an error stays done, except
    inside [transaction]. SQL statements are operations on tables (class
    [Table], instances in Tables.v with the constraints, cascades and triggers
    of src/migrations); a statement is atomic, a function is the sequence of its
    statements. Concurrency is seen at two grains: System.v interleaves whole
    operations, Interleave.v and Threads.v cut every operation into the
    statements it executes (SQL statements and transactions, calls to the file
    system, to remote services and to the registry) and interleave those.

    Code outside the repository is a field of the class [Env] (Env.v): hashing,
    argon2, JWT, UUIDs, cron expressions, [ILIKE], the remote services. What is
    relied on of it is a class of its own ([ShaStream], [UuidText], [JwtExpiry],
    [RemoteReadback], ...), and Concrete.v is an instance of all of them, on
    which every theorem with a hypothesis is instantiated. The remote services
    are seen twice: the files above see them through the operations of [Env] on
    remote storages; the remote backends themselves are programs over the calls
    of their client libraries (Remote.v and the files after it), and
    [services_env] (RemoteBackends.v) is the environment in which the operations
    on remote storages are those programs.

    Integers are [Z], with [i64] saturation, wrap-around and [BIGINT] overflow
    written out where the code can reach them. Strings are Rocq strings of
    bytes. A slice of text that may come from outside (the PROPFIND response of
    a WebDAV server, the prefix of a listing) panics off a character boundary of
    its UTF-8 form (Text.v), and trimming knows the white space of Unicode; the
    lowercase of a character beyond ASCII is a parameter ([UnicodeCase]). Digests,
    UUIDs and the other texts the code slices or pads are ASCII.

    ** Files

    - Prelude: errors, results, [ORDER BY], automation. Text: strings. Json: serde
      values. Schema, Tables: the rows and their constraints. Env, Concrete: the
      environment. World, Laws: the monad and the laws of statements.
    - Projects, Storages, Files, SyncTasks, Users, Links, Backups, Search,
      Dashboard: the statements of src/src/db/models.rs, table by table.
    - LocalDisk (storage/local.rs), Registry (storage/registry.rs, traits.rs).
    - Remote: the network, HTTP, paths and prefixes. S3Backend, AzureBackend,
      GcsBackend, HetznerBackend, FileServers (storage/s3.rs, azure.rs, gcs.rs,
      hetzner.rs; ftp.rs, sftp.rs, samba.rs): the remote backends. RemoteBackends:
      the trait's operations of each (traits.rs) and the environment they make.
    - Resolver, FileService, TierService, BulkService, SharedLinkService,
      BackupService (services/*.rs, with tier_worker.rs, backup_worker.rs),
      SyncWorker (workers/sync_worker.rs), Uploads (api/uploads.rs,
      workers/upload_cleanup_worker.rs).
    - Auth (auth_service.rs, api/auth.rs, api/auth_routes.rs), Access, ApiProjects,
      ApiFiles, ApiBackups, ApiBulk, Dashboard: the handlers with their authorisation.
    - Config (config.rs): settings, defaults, their reading. Server (main.rs,
      lib.rs): start-up, the first administrator, the node, the rounds of the
      workers with their settings. Routes (the configure functions): which
      handler a request reaches, and what it asks of the caller.
    - System: the handlers, tasks and rounds as one inductive, [operation], and
      the system they make, [system_step]. Interleave: programs of statements, how
      they are cut from a computation, and pools of them in which statements take
      turns, fail, or are never executed. Threads: every operation cut into
      statements. Workers (main.rs and the [run] and [spawn] of workers/): the
      process, in which the rounds of the workers, the requests and the tasks they
      leave behind, tracked or not, take turns statement by statement; the
      cancellation token and the way main waits and returns.
    - Scenario: a small deployment. Frames, SystemLaws, Typing, Integrity,
      RoundTrip and the files ending in Spec: the theorems. Defects: runs that
      depart from intent.

    ** What the theorems show

    - Content (RoundTrip, UploadSpec, DiskSpec): what is uploaded, in
      one piece or in resumed chunks, is what is downloaded; known content is
      not stored again; the streamed hash is the hash; the primary storage
      is the one the code means to choose; no path leaves a storage; a listing of
      the local disk gives the files it should, every stored digest among them. However many requests append to an
      upload at once (InterleaveSpec), no byte of it is acknowledged twice.
    - State (SystemSpec and InterleaveSpec over Integrity and TypingSpec, BulkSpec):
      in every state the system reaches, statement by statement, one row per hash,
      one copy per storage, no dangling row; after every operation, every row well
      typed; bulk deletion removes exactly what its preview counted and only
      contents nobody else references.
    - Process (ServerSpec, WorkersSpec, RoutesSpec): the first start makes an
      administrator and there is one ever after; the shutdown of the process ends,
      with any configuration, and not before every worker and every tracked task
      has, while exports may be cut short; every route is reachable, and only the open
      ones without a valid token.
    - Queue (ClaimSpec, SyncSpec, QueueSpec, TierSpec): the batch a worker
      claims; a round refines the life cycle of a task; attempts are bounded; a
      due task is claimed; archiving never gives up the last copy.
    - Search (SearchSpec): compiled filters mean what the filters mean; the
      depth bound; the answer of a search.
    - Access (AuthSpec, LinkSpec, DisclosureSpec, InterleaveSpec): the
      gates of shared links and the life of their tokens; answers do not depend on
      the credentials, which are named by a list of their own; the quota of a link and
      the single use of a refresh token, however many requests overlap.
    - Backups and exports (BackupSpec, ExportSpec): retention keeps the newest,
      outcomes are recorded; an export archives the readable copies, once.
    - Remote (S3Spec, WebSpec, FileServerSpec, RemoteSpec, PropfindSpec): under the
      documented behaviour of the services ([ObjectStore], [WebStore], [FtpStore],
      ...), what a backend uploaded, in one request or in parts, is what it
      downloads, to memory or to a file; tokens are kept until they expire;
      listings collect every page, and a PROPFIND response is read in full when
      lowercasing keeps the sizes of its characters. ConcreteNet is an instance of all the
      services, on which RemoteSpec runs the file service.

    ** Fuel and bounds

    Loops over data are structural. [hash_loop] has the length of the file plus
    one for fuel (each read delivers at least a byte). Filters nest at most 32
    deep by the code's own check, which is what the compiler recurses on.
    [collect_files] has the length of the longest path plus one (each descent adds
    a name to the directory). Multipart uploads have the size of the object for fuel (a part has at least
    a byte, or the part size is zero and the code itself never ends, which the
    model reports as a lack of fuel); listings have the number of pages.

    The scan of a PROPFIND response has the length of its lowercase for fuel: each
    round moves past a tag.

    The end of the shutdown is a matter of a well-founded order rather than of
    a number ([one_lighter], WorkersSpec.v): after the cancellation every step
    takes a worker, a request, a task or main a statement or a stage further,
    unless a [select!] whose two branches are ready takes the other one. tokio
    takes either at random, so that this happens any number of times with
    probability zero only; the theorem says that nothing else can keep main from
    returning. A statement, with the call to a storage it may make, is one step:
    it is taken to end.

    ** Not modelled

    TLS and HTTP framing; the decoding of requests and the encoding of responses
    as JSON, beyond what the handlers compute; matching of paths to patterns
    (a parameter, [Router]); the files of the frontend; logging; the connection
    pool, the running of migrations and the distribution of tables over Citus
    nodes; the frontend, deployment and tests. A transaction is one step: what
    two of them see of each other before they commit is not modelled. The delay of
    a retry is the one of fewer than 44 retries, from which on PostgreSQL refuses
    the interval. The types
    of the rows and the life cycle of tasks are stated of whole operations. *)

From stdpp Require Export base gmap sets list strings sorting pretty numbers.
From Stdlib Require Export ZArith Lia Strings.Ascii.

(** ** Scopes and basic types *)

Declare Scope app_scope.
Delimit Scope app_scope with app.
#[global] Open Scope Z_scope.
#[export] Set Warnings "-clear-no-such-hyp,-level-tolerance".


(** Lemmas that automate the common cases are collected in [app]. *)
Create HintDb app.

(** A [Uuid] is the 128-bit number its sixteen bytes spell. *)
Abbreviation Uuid := N.

(** [DateTime<Utc>] and [TIMESTAMPTZ]: microseconds since the epoch. *)
Abbreviation Timestamp := Z.

(** Byte buffers ([Bytes], [Vec<u8>], [&[u8]]). *)
Abbreviation bytes := (list Byte.byte).

(** What a read of a request's body yields: the text of an error, or a chunk. *)
Abbreviation Chunk := (string + bytes)%type.

#[export] Instance byte_eq_dec : EqDecision Byte.byte.
Proof. intros x y. destruct (Byte.byte_eq_dec x y); [by left | by right]. Defined.

Definition usec_per_sec : Z := 1000000.
Definition seconds (n : Z) : Z := n * usec_per_sec.
Definition minutes (n : Z) : Z := seconds (n * 60).
Definition days (n : Z) : Z := seconds (n * 86400).

(** ** Integers at their width *)

Definition i64_min : Z := - 2 ^ 63.
Definition i64_max : Z := 2 ^ 63 - 1.

(** [i64::saturating_sub] and [i64::saturating_mul]. *)
Definition i64_saturate (z : Z) : Z := Z.max i64_min (Z.min i64_max z).
Definition saturating_sub (a b : Z) : Z := i64_saturate (a - b).
Definition saturating_mul (a b : Z) : Z := i64_saturate (a * b).

(** Two's complement wrap-around of [i64] arithmetic in a release build. *)
Definition i64_wrap (z : Z) : Z := (z + 2 ^ 63) mod 2 ^ 64 - 2 ^ 63.

(** [Ord::clamp] on integers. *)
Definition clamp (z lo hi : Z) : Z := Z.max lo (Z.min hi z).

Definition in_i64 (z : Z) : Prop := i64_min ≤ z ≤ i64_max.

Lemma i64_saturate_bounds z : in_i64 (i64_saturate z).
Proof. unfold in_i64, i64_saturate, i64_min, i64_max. lia. Qed.

Lemma i64_saturate_id z : in_i64 z → i64_saturate z = z.
Proof. unfold in_i64, i64_saturate. lia. Qed.

Lemma i64_wrap_id z : in_i64 z → i64_wrap z = z.
Proof.
  unfold in_i64, i64_wrap, i64_min, i64_max. intros ?.
  rewrite Z.mod_small; lia.
Qed.

Lemma clamp_bounds z lo hi : lo ≤ hi → lo ≤ clamp z lo hi ≤ hi.
Proof. unfold clamp. lia. Qed.

Lemma clamp_id z lo hi : lo ≤ z ≤ hi → clamp z lo hi = z.
Proof. unfold clamp. lia. Qed.

(** ** Errors (src/src/error.rs) *)

(** The part of [sqlx::Error] the code inspects: a missing row for
    [fetch_one], or an error the database reports with its SQLSTATE code. *)
Inductive SqlxError :=
  | RowNotFound
  | DatabaseError (code : string).

#[export] Instance SqlxError_eq_dec : EqDecision SqlxError.
Proof. solve_decision. Defined.

Inductive AppError :=
  | NotFound (msg : string)
  | BadRequest (msg : string)
  | Unauthorized (msg : string)
  | Forbidden (msg : string)
  | Conflict (msg : string)
  | Internal (msg : string)
  | Database (e : SqlxError)
  | Io (msg : string)
  | Config (msg : string).

#[export] Instance AppError_eq_dec : EqDecision AppError.
Proof. solve_decision. Defined.

(** SQLSTATE codes. *)
Definition unique_violation : SqlxError := DatabaseError "23505".
Definition foreign_key_violation : SqlxError := DatabaseError "23503".
Definition check_violation : SqlxError := DatabaseError "23514".

Definition is_unique_violation (e : SqlxError) : bool :=
  match e with
  | DatabaseError code => String.eqb code "23505"
  | RowNotFound => false
  end.

Definition status_code (e : AppError) : Z :=
  match e with
  | NotFound _ => 404
  | BadRequest _ => 400
  | Unauthorized _ => 401
  | Forbidden _ => 403
  | Conflict _ => 409
  | Internal _ => 500
  | Database _ => 500
  | Io _ => 500
  | Config _ => 500
  end.

(** The body of the HTTP response an error becomes: its message and status. *)
Definition error_response (e : AppError) : string * Z :=
  let message :=
    match e with
    | NotFound msg => msg
    | BadRequest msg => msg
    | Unauthorized msg => msg
    | Forbidden msg => msg
    | Conflict msg => msg
    | Internal _ | Database _ | Io _ | Config _ => "Internal server error"
    end in
  (message, status_code e).

(** The outcome of a computation of type [AppResult<A>]: a value, an error,
    or a panic, which unwinds the task and is caught by nobody. *)
Inductive Result (A : Type) :=
  | Ok (a : A)
  | Err (e : AppError)
  | Panic.
Arguments Ok {A} a.
Arguments Err {A} e.
Arguments Panic {A}.

#[export] Instance Result_eq_dec `{EqDecision A} : EqDecision (Result A).
Proof.
  intros [a|e|] [a'|e'|]; try (right; discriminate).
  - destruct (decide (a = a')); [left | right]; congruence.
  - destruct (decide (e = e')); [left | right]; congruence.
  - by left.
Defined.

#[export] Instance Result_ret : MRet Result := @Ok.
#[export] Instance Result_bind : MBind Result := λ A B f m,
  match m with Ok a => f a | Err e => Err e | Panic => Panic end.
#[export] Instance Result_fmap : FMap Result := λ A B f m,
  match m with Ok a => Ok (f a) | Err e => Err e | Panic => Panic end.

Definition ok_or {A} (o : option A) (e : AppError) : Result A :=
  match o with Some a => Ok a | None => Err e end.

Definition is_ok {A} (r : Result A) : bool :=
  match r with Ok _ => true | _ => false end.

Lemma Result_bind_ok {A B} (m : Result A) (f : A → Result B) b :
  m ≫= f = Ok b ↔ ∃ a, m = Ok a ∧ f a = Ok b.
Proof. destruct m; simpl; naive_solver. Qed.

(** ** Strings *)

Definition slash : Ascii.ascii := "/"%char.

(** [str::contains] with a string pattern. *)
Fixpoint str_contains (pat s : string) : bool :=
  String.prefix pat s ||
  match s with
  | EmptyString => false
  | String _ s' => str_contains pat s'
  end.

(** [str::contains] with a character pattern. *)
Fixpoint str_mem (c : Ascii.ascii) (s : string) : bool :=
  match s with
  | EmptyString => false
  | String a s' => Ascii.eqb a c || str_mem c s'
  end.

(** [str::bytes().all(p)]. *)
Fixpoint str_all (p : Ascii.ascii → bool) (s : string) : bool :=
  match s with
  | EmptyString => true
  | String a s' => p a && str_all p s'
  end.

(** [chars().filter(p).collect()]. *)
Fixpoint str_filter (p : Ascii.ascii → bool) (s : string) : string :=
  match s with
  | EmptyString => EmptyString
  | String a s' => if p a then String a (str_filter p s') else str_filter p s'
  end.

(** [str::trim_end_matches(c)]. *)
Fixpoint trim_end_matches (c : Ascii.ascii) (s : string) : string :=
  match s with
  | EmptyString => EmptyString
  | String a s' =>
      match trim_end_matches c s' with
      | EmptyString => if Ascii.eqb a c then EmptyString else String a EmptyString
      | t => String a t
      end
  end.

Fixpoint trim_start_matches (p : Ascii.ascii → bool) (s : string) : string :=
  match s with
  | EmptyString => EmptyString
  | String a s' => if p a then trim_start_matches p s' else s
  end.

Definition str_is_empty (s : string) : bool :=
  match s with EmptyString => true | _ => false end.

(** The slice [&s[a..b]] of a string of ASCII characters: it panics when the
    range is not inside the string. *)
Definition str_slice (a b : nat) (s : string) : Result string :=
  if (Nat.leb a b && Nat.leb b (String.length s))%bool
  then Ok (String.substring a (b - a) s)
  else Panic.

Definition is_ascii_digit (c : Ascii.ascii) : bool :=
  let n := Ascii.nat_of_ascii c in (Nat.leb 48 n && Nat.leb n 57)%bool.
Definition is_ascii_alpha (c : Ascii.ascii) : bool :=
  let n := Ascii.nat_of_ascii c in
  ((Nat.leb 65 n && Nat.leb n 90) || (Nat.leb 97 n && Nat.leb n 122))%bool.
Definition is_ascii_alphanumeric (c : Ascii.ascii) : bool :=
  is_ascii_digit c || is_ascii_alpha c.
Definition is_ascii_hexdigit (c : Ascii.ascii) : bool :=
  let n := Ascii.nat_of_ascii c in
  (is_ascii_digit c || (Nat.leb 65 n && Nat.leb n 70)
   || (Nat.leb 97 n && Nat.leb n 102))%bool.
Definition is_ascii_space (c : Ascii.ascii) : bool :=
  let n := Ascii.nat_of_ascii c in ((Nat.leb 9 n && Nat.leb n 13) || Nat.eqb n 32)%bool.

(** [char::is_whitespace] beyond ASCII, by the UTF-8 bytes of the character:
    U+0085, U+00A0; U+1680, U+2000 to U+200A, U+2028, U+2029, U+202F, U+205F,
    U+3000. *)
Definition is_space_2 (a b : Ascii.ascii) : bool :=
  Nat.eqb (Ascii.nat_of_ascii a) 0xC2 &&
  (let n := Ascii.nat_of_ascii b in Nat.eqb n 0x85 || Nat.eqb n 0xA0).
Definition is_space_3 (a b c : Ascii.ascii) : bool :=
  let z := Ascii.nat_of_ascii c in
  match Ascii.nat_of_ascii a, Ascii.nat_of_ascii b with
  | 0xE1, 0x9A => Nat.eqb z 0x80
  | 0xE2, 0x80 =>
      (Nat.leb 0x80 z && Nat.leb z 0x8A) || Nat.eqb z 0xA8 || Nat.eqb z 0xA9 || Nat.eqb z 0xAF
  | 0xE2, 0x81 => Nat.eqb z 0x9F
  | 0xE3, 0x80 => Nat.eqb z 0x80
  | _, _ => false
  end%nat.
Definition is_space (s : string) : bool :=
  match s with
  | String a EmptyString => is_ascii_space a
  | String a (String b EmptyString) => is_space_2 a b
  | String a (String b (String c EmptyString)) => is_space_3 a b c
  | _ => false
  end.

(** [str::trim]. *)
Fixpoint str_trim_start (s : string) : string :=
  match s with
  | EmptyString => EmptyString
  | String a s1 =>
      if is_ascii_space a then str_trim_start s1
      else match s1 with
           | EmptyString => s
           | String b s2 =>
               if is_space_2 a b then str_trim_start s2
               else match s2 with
                    | EmptyString => s
                    | String c s3 => if is_space_3 a b c then str_trim_start s3 else s
                    end
           end
  end.
Fixpoint str_trim_end (s : string) : string :=
  match s with
  | EmptyString => EmptyString
  | String a s' =>
      let t := String a (str_trim_end s') in if is_space t then EmptyString else t
  end.
Definition str_trim (s : string) : string := str_trim_end (str_trim_start s).

(** [[T]::join(sep)] is [String.concat sep]. *)

Lemma str_app_cons c s1 s2 : String c s1 +:+ s2 = String c (s1 +:+ s2).
Proof. reflexivity. Qed.
Lemma str_app_nil_l s : EmptyString +:+ s = s.
Proof. reflexivity. Qed.

Lemma str_app_assoc s1 s2 s3 : (s1 +:+ s2) +:+ s3 = s1 +:+ (s2 +:+ s3).
Proof. induction s1 as [|c s1 IH]; [done|]. by rewrite !str_app_cons, IH. Qed.

Lemma str_app_nil_r s : s +:+ EmptyString = s.
Proof. induction s as [|c s IH]; [done|]. by rewrite str_app_cons, IH. Qed.

Lemma str_app_length s1 s2 :
  String.length (s1 +:+ s2) = (String.length s1 + String.length s2)%nat.
Proof. induction s1 as [|c s1 IH]; [done|]. rewrite str_app_cons. simpl. by rewrite IH. Qed.

Lemma str_prefix_app s1 s2 : String.prefix s1 (s1 +:+ s2) = true.
Proof.
  induction s1 as [|c s1 IH]; [by destruct s2|]. rewrite str_app_cons. simpl.
  by destruct (Ascii.ascii_dec c c).
Qed.

Lemma str_all_app p s1 s2 : str_all p (s1 +:+ s2) = str_all p s1 && str_all p s2.
Proof.
  induction s1 as [|c s1 IH]; [done|]. rewrite str_app_cons. simpl.
  by rewrite IH, andb_assoc.
Qed.

Lemma str_mem_app c s1 s2 : str_mem c (s1 +:+ s2) = str_mem c s1 || str_mem c s2.
Proof.
  induction s1 as [|a s1 IH]; [done|]. rewrite str_app_cons. simpl.
  by rewrite IH, orb_assoc.
Qed.

Lemma str_all_impl (p q : Ascii.ascii → bool) s :
  (∀ c, p c = true → q c = true) → str_all p s = true → str_all q s = true.
Proof.
  intros Hpq. induction s as [|c s IH]; simpl; [done|].
  rewrite !andb_true_iff. naive_solver.
Qed.

(** ** [ORDER BY] *)

(** A sort key is a three-way comparison; [ORDER BY k1, k2] is their
    lexicographic combination. Rows equal under the comparison may come in any
    order, as in SQL: only sortedness is ever relied on. *)
Section order_by.
Context {A : Type}.
Definition Cmp : Type := A → A → comparison.

Definition asc (key : A → Z) : Cmp := λ x y, Z.compare (key x) (key y).
Definition desc (key : A → Z) : Cmp := λ x y, Z.compare (key y) (key x).
Definition then_by (c1 c2 : Cmp) : Cmp := λ x y,
  match c1 x y with Eq => c2 x y | c => c end.

Definition cmp_le (c : Cmp) : relation A := λ x y, c x y ≠ Gt.
#[export] Instance cmp_le_dec c x y : Decision (cmp_le c x y).
Proof. unfold cmp_le. destruct (c x y); [left | left | right]; congruence. Defined.

Definition order_by (c : Cmp) (l : list A) : list A := merge_sort (cmp_le c) l.

(** A comparison that orders any two rows one way or the other. *)
Class TotalCmp (c : Cmp) := total_cmp x y : c y x = CompOpp (c x y).

#[export] Instance asc_total key : TotalCmp (asc key).
Proof. intros x y. apply Z.compare_antisym. Qed.
#[export] Instance desc_total key : TotalCmp (desc key).
Proof. intros x y. apply Z.compare_antisym. Qed.
#[export] Instance then_by_total c1 c2 :
  TotalCmp c1 → TotalCmp c2 → TotalCmp (then_by c1 c2).
Proof.
  intros H1 H2 x y. unfold then_by. rewrite (H1 x y).
  destruct (c1 x y); simpl; auto.
Qed.

Lemma order_by_perm c l : order_by c l ≡ₚ l.
Proof. apply merge_sort_Permutation. Qed.

Lemma elem_of_order_by c l x : x ∈ order_by c l ↔ x ∈ l.
Proof. by rewrite order_by_perm. Qed.

Lemma order_by_nil c : order_by c [] = [].
Proof. done. Qed.

Lemma order_by_sorted c `{!TotalCmp c} l : Sorted (cmp_le c) (order_by c l).
Proof.
  apply Sorted_merge_sort. intros x y. unfold cmp_le.
  rewrite (total_cmp (c := c) x y). destruct (c x y); simpl; [left|left|right]; done.
Qed.

Lemma Sorted_weaken (R S : relation A) l : (∀ x y, R x y → S x y) → Sorted R l → Sorted S l.
Proof. intros HRS. induction 1 as [|x l Hl IH Hx]; constructor; [done|]. destruct Hx; auto. Qed.

Lemma order_by_desc key l : Sorted (λ x y, key y ≤ key x) (order_by (desc key) l).
Proof.
  eapply Sorted_weaken, order_by_sorted; [|apply _]. intros x y.
  unfold cmp_le, desc. destruct (Z.compare_spec (key y) (key x)); [lia | lia | done].
Qed.

Lemma order_by_asc key l : Sorted (λ x y, key x ≤ key y) (order_by (asc key) l).
Proof.
  eapply Sorted_weaken, order_by_sorted; [|apply _]. intros x y.
  unfold cmp_le, asc. destruct (Z.compare_spec (key x) (key y)); [lia | lia | done].
Qed.
End order_by.
#[global] Arguments Cmp : clear implicits.

(** Keys of other types, as integers: booleans ([false < true]) and nullable
    timestamps, with the two placements of [NULL]. *)
Definition bool_key (b : bool) : Z := if b then 1 else 0.

Definition desc_nulls_last {A} (key : A → option Z) : Cmp A := λ x y,
  match key x, key y with
  | Some a, Some b => Z.compare b a
  | Some _, None => Lt
  | None, Some _ => Gt
  | None, None => Eq
  end.
Definition asc_nulls_first {A} (key : A → option Z) : Cmp A := λ x y,
  match key x, key y with
  | Some a, Some b => Z.compare a b
  | Some _, None => Gt
  | None, Some _ => Lt
  | None, None => Eq
  end.
#[export] Instance desc_nulls_last_total {A} (key : A → option Z) :
  TotalCmp (desc_nulls_last key).
Proof.
  intros x y. unfold desc_nulls_last. destruct (key x), (key y); simpl; try done.
  apply Z.compare_antisym.
Qed.
#[export] Instance asc_nulls_first_total {A} (key : A → option Z) :
  TotalCmp (asc_nulls_first key).
Proof.
  intros x y. unfold asc_nulls_first. destruct (key x), (key y); simpl; try done.
  apply Z.compare_antisym.
Qed.

(** [ORDER BY name ASC] on text, in byte order. *)
Definition asc_str {A} (key : A → string) : Cmp A := λ x y, String.compare (key x) (key y).
#[export] Instance asc_str_total {A} (key : A → string) : TotalCmp (asc_str key).
Proof. intros x y. apply String.compare_antisym. Qed.

(** [LIMIT n OFFSET k]; the code only passes non-negative numbers. *)
Definition limit {A} (n : Z) (l : list A) : list A := take (Z.to_nat n) l.
Definition offset {A} (n : Z) (l : list A) : list A := drop (Z.to_nat n) l.

(** [COALESCE(SUM(f), 0)]. *)
Definition sum_z {A} (f : A → Z) (l : list A) : Z := foldr (λ x acc, f x + acc) 0 l.

Lemma sum_z_app {A} (f : A → Z) l1 l2 : sum_z f (l1 ++ l2) = sum_z f l1 + sum_z f l2.
Proof. induction l1 as [|x l1 IH]; simpl; [done|]. rewrite IH. lia. Qed.

Lemma elem_of_limit {A} n (l : list A) x : x ∈ limit n l → x ∈ l.
Proof. intros (i & ? & _)%elem_of_take. by eapply list_elem_of_lookup_2. Qed.

Lemma filter_ext_in {A} (P Q : A → bool) (l : list A) :
  (∀ x, x ∈ l → P x = Q x) →
  filter (λ x, P x = true) l = filter (λ x, Q x = true) l.
Proof.
  induction l as [|x l IH]; intros H; [done|]. rewrite !filter_cons.
  rewrite (H x) by (by left). rewrite IH by (intros; apply H; by right). done.
Qed.

Lemma filter_map {A B} (P : B → bool) (f : A → B) (l : list A) :
  filter (λ y, P y = true) (map f l) = map f (filter (λ x, P (f x) = true) l).
Proof.
  induction l as [|x l IH]; [done|]. cbn [map]. rewrite !filter_cons, IH.
  by destruct (decide _).
Qed.

(** Splitting a list by a key that takes its values among [ks] loses nothing. *)
Lemma filter_keys_perm {A K} `{EqDecision K} (key : A → K) (ks : list K) (l : list A) :
  NoDup ks → (∀ x, x ∈ l → key x ∈ ks) →
  mjoin (map (λ k, filter (λ x, key x = k) l) ks) ≡ₚ l.
Proof.
  intros Hnd. revert l. induction Hnd as [|k ks Hk _ IH]; intros l Hl.
  - destruct l as [|x l]; [done|]. exfalso. apply (not_elem_of_nil (key x)), Hl. by left.
  - simpl. etrans; [|apply (filter_app_complement (λ x, key x = k))]. apply Permutation_app_head.
    rewrite <- (IH (filter (λ x, ¬ key x = k) l)) at 1.
    + assert (∀ k', k' ∈ ks → filter (λ x, key x = k') l =
        filter (λ x, key x = k') (filter (λ x, ¬ key x = k) l)) as Heq.
      { intros k' Hk'. rewrite list_filter_filter. apply list_filter_iff. intros x.
        split; [|tauto]. intros ->. split; [done|]. by intros ->. }
      clear -Heq. induction ks as [|k' ks IH]; [done|]. simpl.
      rewrite Heq by (by left). apply Permutation_app_head, IH. intros. apply Heq. by right.
    + intros x [Hne Hx]%list_elem_of_filter. apply Hl in Hx. set_solver.
Qed.

(** In a sorted list, what comes first is in the relation to what comes later. *)
Lemma StronglySorted_app_rel {A} (R : relation A) l1 l2 x y :
  StronglySorted R (l1 ++ l2) → x ∈ l1 → y ∈ l2 → R x y.
Proof.
  induction l1 as [|z l1 IH]; [by intros _ ?%not_elem_of_nil|]. intros Hs Hx Hy.
  inversion Hs as [|? ? Hs' Hz]; subst. apply elem_of_cons in Hx as [->|Hx]; [|by apply IH].
  rewrite Forall_forall in Hz. apply Hz, list_elem_of_In, elem_of_app. by right.
Qed.
