(* ===== verification/Text.v ===== *)
(** * Text

    The functions of [str] the components share, on strings of bytes: searching,
    splitting, stripping, slicing at positions a search returned. *)

From S2P Require Import Prelude.

(** [str::ends_with(c)]. *)
Definition ends_with (c : Ascii.ascii) (s : string) : bool :=
  match String.get (String.length s - 1) s with
  | Some a => Ascii.eqb a c
  | None => false
  end.

(** [str::strip_prefix] and [str::strip_suffix]. *)
Definition strip_prefix (pre s : string) : option string :=
  if String.prefix pre s
  then Some (String.substring (String.length pre) (String.length s - String.length pre) s)
  else None.
Definition strip_suffix (suf s : string) : option string :=
  let n := (String.length s - String.length suf)%nat in
  if String.eqb s (String.substring 0 n s +:+ suf) then Some (String.substring 0 n s) else None.

(** The slices [&s[..n]] and [&s[n..]]. *)
Fixpoint str_take (n : nat) (s : string) : string :=
  match n, s with
  | S n', String a s' => String a (str_take n' s')
  | _, _ => EmptyString
  end.
Fixpoint str_drop (n : nat) (s : string) : string :=
  match n, s with
  | O, _ => s
  | S n', String _ s' => str_drop n' s'
  | S _, EmptyString => EmptyString
  end.

(** [str::find]: the position of the first occurrence. *)
Fixpoint str_find (pat s : string) : option nat :=
  if String.prefix pat s then Some O
  else match s with
       | EmptyString => None
       | String _ s' => S <$> str_find pat s'
       end.

(** [str::split(c)]: the pieces between the occurrences of [c]. *)
Fixpoint str_split (c : Ascii.ascii) (s : string) : list string :=
  match s with
  | EmptyString => [EmptyString]
  | String a s' =>
      if Ascii.eqb a c then EmptyString :: str_split c s'
      else match str_split c s' with
           | p :: ps => String a p :: ps
           | [] => [String a EmptyString]
           end
  end.

(** [str::split(pat)] with a string pattern: the pattern has a character, so a
    piece is shorter than what it is taken from, and the length is fuel enough. *)
Fixpoint split_fuel (fuel : nat) (pat s : string) : list string :=
  match fuel with
  | O => [s]
  | S fuel' =>
      match str_find pat s with
      | Some i => str_take i s :: split_fuel fuel' pat (str_drop (i + String.length pat) s)
      | None => [s]
      end
  end.
Definition split_on (pat s : string) : list string := split_fuel (String.length s) pat s.

(** [str::rsplit_once(c)]: around the last occurrence. *)
Fixpoint rsplit_once (c : Ascii.ascii) (s : string) : option (string * string) :=
  match s with
  | EmptyString => None
  | String a s' =>
      match rsplit_once c s' with
      | Some (p, q) => Some (String a p, q)
      | None => if Ascii.eqb a c then Some (EmptyString, s') else None
      end
  end.

(** ** UTF-8 *)

(** A byte that is a character, and one that continues a character; the length
    of the character a byte starts. *)
Definition is_ascii (c : Ascii.ascii) : bool := Nat.ltb (Ascii.nat_of_ascii c) 128.
Definition is_continuation (c : Ascii.ascii) : bool :=
  let n := Ascii.nat_of_ascii c in Nat.leb 128 n && Nat.ltb n 192.
Definition utf8_width (c : Ascii.ascii) : nat :=
  let n := Ascii.nat_of_ascii c in
  if Nat.ltb n 192 then 1 else if Nat.ltb n 224 then 2 else if Nat.ltb n 240 then 3 else 4.

(** [str::chars]: what is left of a character that has [pending] bytes to come,
    and the characters after it. *)
Fixpoint split_chars (pending : nat) (s : string) : string * list string :=
  match s with
  | EmptyString => (EmptyString, [])
  | String a s' =>
      match pending with
      | O => let '(c, l) := split_chars (utf8_width a - 1) s' in (EmptyString, String a c :: l)
      | S pending' => let '(c, l) := split_chars pending' s' in (String a c, l)
      end
  end.
Definition utf8_chars (s : string) : list string := (split_chars 0 s).2.

(** The bytes are those of characters, as a [str] promises. *)
Fixpoint valid_from (pending : nat) (s : string) : bool :=
  match s with
  | EmptyString => Nat.eqb pending 0
  | String a s' =>
      match pending with
      | O => negb (is_continuation a) && valid_from (utf8_width a - 1) s'
      | S pending' => is_continuation a && valid_from pending' s'
      end
  end.
Definition valid_utf8 (s : string) : bool := valid_from 0 s.

(** [str::is_char_boundary], and the slice [&s[a..b]], which panics unless it
    goes from one boundary to another. *)
Definition is_char_boundary (s : string) (n : nat) : bool :=
  match str_drop n s with
  | EmptyString => Nat.eqb n (String.length s)
  | String c _ => negb (is_continuation c)
  end.
Definition utf8_slice (a b : nat) (s : string) : Result string :=
  if Nat.leb a b && is_char_boundary s a && is_char_boundary s b
  then Ok (str_take (b - a) (str_drop a s)) else Panic.

(** [str::to_lowercase]. What becomes of the characters beyond ASCII is a table
    of Unicode, the parameter: the lowercase of a character between the text
    before it and the text after it (which matters for the Greek sigma). *)
Class UnicodeCase := { lower_wide : string → string → string → string }.

Definition ascii_lower (c : Ascii.ascii) : Ascii.ascii :=
  let n := Ascii.nat_of_ascii c in
  if (Nat.leb 65 n && Nat.leb n 90)%bool then Ascii.ascii_of_nat (n + 32) else c.

Section lowercase.
Context {L : UnicodeCase}.

Definition lower_char (before c after : string) : string :=
  match c with
  | String a EmptyString => if is_ascii a then String (ascii_lower a) EmptyString
                            else lower_wide before c after
  | _ => lower_wide before c after
  end.
Fixpoint lower_chars (before : string) (chars : list string) : string :=
  match chars with
  | [] => EmptyString
  | c :: chars' =>
      lower_char before c (String.concat EmptyString chars') +:+ lower_chars (before +:+ c) chars'
  end.
Definition to_lowercase (s : string) : string := lower_chars EmptyString (utf8_chars s).
End lowercase.

(** [str::to_ascii_lowercase]. *)
Fixpoint ascii_lowercase (s : string) : string :=
  match s with
  | EmptyString => EmptyString
  | String a s' => String (ascii_lower a) (ascii_lowercase s')
  end.

(** [char == '/'], and [trim_start_matches('/')]. *)
Definition is_slash (c : Ascii.ascii) : bool := Ascii.eqb c slash.
Definition trim_start_slashes (s : string) : string := trim_start_matches is_slash s.

(** ** Laws *)

Lemma str_take_app s1 s2 : str_take (String.length s1) (s1 +:+ s2) = s1.
Proof. induction s1 as [|c s1 IH]; [by destruct s2|]. rewrite str_app_cons. simpl. by rewrite IH. Qed.

Lemma str_drop_length s1 s2 : str_drop (String.length s1) (s1 +:+ s2) = s2.
Proof. induction s1 as [|c s1 IH]; [done|]. rewrite str_app_cons. simpl. done. Qed.

Lemma str_take_drop n s : str_take n s +:+ str_drop n s = s.
Proof.
  revert s. induction n as [|n IH]; intros [|c s]; simpl; try done.
  rewrite str_app_cons. by rewrite IH.
Qed.

Lemma str_drop_app s1 s2 n :
  (String.length s2 <= n)%nat → String.substring (String.length s1) n (s1 +:+ s2) = s2.
Proof.
  induction s1 as [|c s1 IH]; intros Hn.
  - rewrite str_app_nil_l. simpl. revert n Hn.
    induction s2 as [|c s2 IH]; intros [|n] Hn; simpl in *; try done; try lia.
    by rewrite IH by lia.
  - rewrite str_app_cons. simpl. auto.
Qed.

Lemma substring_drop_prefix s1 s2 :
  String.substring (String.length s1) (String.length (s1 +:+ s2) - String.length s1) (s1 +:+ s2) = s2.
Proof.
  rewrite str_app_length, Nat.add_comm, Nat.add_sub. by apply str_drop_app.
Qed.

Lemma strip_prefix_app pre s : strip_prefix pre (pre +:+ s) = Some s.
Proof. unfold strip_prefix. by rewrite str_prefix_app, substring_drop_prefix. Qed.

Lemma str_prefix_cons b p a s :
  String.prefix (String b p) (String a s) = true ↔ b = a ∧ String.prefix p s = true.
Proof. simpl. destruct (Ascii.ascii_dec b a); naive_solver. Qed.

Lemma str_find_cons pat a s :
  str_find pat (String a s) =
  if String.prefix pat (String a s) then Some O else S <$> str_find pat s.
Proof. reflexivity. Qed.

Lemma str_contains_cons pat a s :
  str_contains pat (String a s) = String.prefix pat (String a s) || str_contains pat s.
Proof. reflexivity. Qed.

(** A pattern is found at the front of a text that starts with it. *)
Lemma str_find_here pat s : str_find pat (pat +:+ s) = Some O.
Proof.
  pose proof (str_prefix_app pat s) as H. revert H.
  by destruct (pat +:+ s); simpl; intros ->.
Qed.

Lemma ascii_lowercase_length s : String.length (ascii_lowercase s) = String.length s.
Proof. induction s; simpl; congruence. Qed.

Lemma ascii_lowercase_app s1 s2 : ascii_lowercase (s1 +:+ s2) = ascii_lowercase s1 +:+ ascii_lowercase s2.
Proof. induction s1 as [|c s1 IH]; [done|]. rewrite str_app_cons. simpl. by rewrite IH, str_app_cons. Qed.
