(* ===== verification/Json.v ===== *)
(** * JSON values ([serde_json::Value])

    The values storage configurations and file metadata are made of, with the
    accessors of [serde_json] the code uses: indexing by key (which yields
    [Null] when there is nothing to read and panics when there is nothing to
    write into), [Map::get], [Map::insert], [as_str], [as_u64], [as_bool]. *)

From S2P Require Import Prelude.

(** [serde_json::Number]: a non-negative or negative integer, or a float,
    kept here as its bit pattern. *)
Inductive Number :=
  | PosInt (n : N)
  | NegInt (z : Z)
  | Float (bits : N).

#[export] Instance Number_eq_dec : EqDecision Number.
Proof. solve_decision. Defined.

#[warnings="-register-all"]
Inductive Json :=
  | JNull
  | JBool (b : bool)
  | JNumber (n : Number)
  | JString (s : string)
  | JArray (l : list Json)
  | JObject (fields : list (string * Json)).

(** Structural equality of values, computed ([Value: PartialEq]). *)
Fixpoint json_eqb (a b : Json) {struct a} : bool :=
  match a, b with
  | JNull, JNull => true
  | JBool x, JBool y => Bool.eqb x y
  | JNumber x, JNumber y => bool_decide (x = y)
  | JString x, JString y => String.eqb x y
  | JArray xs, JArray ys =>
      (fix go xs ys := match xs, ys with
        | [], [] => true
        | x :: xs', y :: ys' => json_eqb x y && go xs' ys'
        | _, _ => false
        end) xs ys
  | JObject xs, JObject ys =>
      (fix go xs ys := match xs, ys with
        | [], [] => true
        | (k, x) :: xs', (k', y) :: ys' => String.eqb k k' && json_eqb x y && go xs' ys'
        | _, _ => false
        end) xs ys
  | _, _ => false
  end.

(** [Map::get] and [Map::insert]: a key keeps its place when overwritten. *)
Fixpoint map_get (k : string) (m : list (string * Json)) : option Json :=
  match m with
  | [] => None
  | (k', v) :: m' => if String.eqb k' k then Some v else map_get k m'
  end.

Fixpoint map_insert (k : string) (v : Json) (m : list (string * Json)) : list (string * Json) :=
  match m with
  | [] => [(k, v)]
  | (k', v') :: m' =>
      if String.eqb k' k then (k', v) :: m' else (k', v') :: map_insert k v m'
  end.

Definition contains_key (k : string) (m : list (string * Json)) : bool :=
  match map_get k m with Some _ => true | None => false end.

(** [value["key"]] read: [Null] when absent or not an object. *)
Definition json_index (k : string) (v : Json) : Json :=
  match v with
  | JObject m => default JNull (map_get k m)
  | _ => JNull
  end.

(** [value["key"] = x]: [Null] becomes an object; any other non-object panics. *)
Definition json_index_set (k : string) (x : Json) (v : Json) : Result Json :=
  match v with
  | JNull => Ok (JObject [(k, x)])
  | JObject m => Ok (JObject (map_insert k x m))
  | _ => Panic
  end.

Definition as_str (v : Json) : option string :=
  match v with JString s => Some s | _ => None end.
Definition as_u64 (v : Json) : option Z :=
  match v with JNumber (PosInt n) => Some (Z.of_N n) | _ => None end.
Definition as_bool (v : Json) : option bool :=
  match v with JBool b => Some b | _ => None end.

(** ** Lemmas *)

Lemma map_get_insert k v m : map_get k (map_insert k v m) = Some v.
Proof.
  induction m as [|[k' v'] m IH]; simpl; [by rewrite String.eqb_refl|].
  destruct (String.eqb k' k) eqn:E; simpl; by rewrite E.
Qed.

Lemma map_get_insert_ne k k' v m : k ≠ k' → map_get k' (map_insert k v m) = map_get k' m.
Proof.
  intros Hne. induction m as [|[j w] m IH]; simpl.
  - by rewrite (proj2 (String.eqb_neq k k') Hne).
  - destruct (String.eqb j k) eqn:E; simpl; [|by rewrite IH].
    apply String.eqb_eq in E as ->. by rewrite (proj2 (String.eqb_neq k k') Hne).
Qed.

Lemma map_insert_get_id k v m : map_get k m = Some v → map_insert k v m = m.
Proof.
  induction m as [|[j w] m IH]; simpl; [done|].
  destruct (String.eqb j k); [by intros [= ->] | by intros ->%IH].
Qed.

Lemma map_insert_insert k v v' m : map_insert k v (map_insert k v' m) = map_insert k v m.
Proof.
  induction m as [|[j w] m IH]; simpl; [by rewrite String.eqb_refl|].
  destruct (String.eqb j k) eqn:E; simpl; rewrite E; [done | by rewrite IH].
Qed.

Lemma json_index_set_same k x v v' :
  json_index_set k x v = Ok v' → json_index k v' = x.
Proof.
  destruct v; simpl; try done; intros [= <-]; simpl; rewrite ?String.eqb_refl; [done|].
  by rewrite map_get_insert.
Qed.

Lemma json_index_set_other k k' x v v' :
  k ≠ k' → json_index_set k x v = Ok v' → json_index k' v' = json_index k' v.
Proof.
  intros Hne. destruct v; simpl; try done; intros [= <-]; simpl.
  - by rewrite (proj2 (String.eqb_neq k k') Hne).
  - by rewrite map_get_insert_ne.
Qed.
