(* ===== verification/Schema.v ===== *)
(** * The database schema

    One record per row type of src/src/db/models.rs (the SQL tables of
    src/migrations), with the column setters the UPDATE statements use, and
    the database as one map per table, keyed by primary key. *)

From S2P Require Import Prelude Json.

(** ** Row types *)

Record Project := mkProject {
  p_id : Uuid;
  p_name : string;
  p_slug : string;
  p_hot_to_cold_days : option Z;
  p_owner_id : option Uuid;
  p_created_at : Timestamp;
  p_updated_at : Timestamp;
  p_deleted_at : option Timestamp
}.

Definition set_p_name (v : string) (r : Project) : Project :=
  mkProject (p_id r) v (p_slug r) (p_hot_to_cold_days r) (p_owner_id r) (p_created_at r) (p_updated_at r) (p_deleted_at r).
Definition set_p_slug (v : string) (r : Project) : Project :=
  mkProject (p_id r) (p_name r) v (p_hot_to_cold_days r) (p_owner_id r) (p_created_at r) (p_updated_at r) (p_deleted_at r).
Definition set_p_hot_to_cold_days (v : option Z) (r : Project) : Project :=
  mkProject (p_id r) (p_name r) (p_slug r) v (p_owner_id r) (p_created_at r) (p_updated_at r) (p_deleted_at r).
Definition set_p_updated_at (v : Timestamp) (r : Project) : Project :=
  mkProject (p_id r) (p_name r) (p_slug r) (p_hot_to_cold_days r) (p_owner_id r) (p_created_at r) v (p_deleted_at r).
Definition set_p_deleted_at (v : option Timestamp) (r : Project) : Project :=
  mkProject (p_id r) (p_name r) (p_slug r) (p_hot_to_cold_days r) (p_owner_id r) (p_created_at r) (p_updated_at r) v.

Record Storage := mkStorage {
  st_id : Uuid;
  st_name : string;
  st_storage_type : string;
  st_config : Json;
  st_is_hot : bool;
  st_project_id : option Uuid;
  st_enabled : bool;
  st_supports_direct_links : bool;
  st_created_at : Timestamp;
  st_updated_at : Timestamp
}.

Definition set_st_config (v : Json) (r : Storage) : Storage :=
  mkStorage (st_id r) (st_name r) (st_storage_type r) v (st_is_hot r) (st_project_id r) (st_enabled r) (st_supports_direct_links r) (st_created_at r) (st_updated_at r).
Definition set_st_enabled (v : bool) (r : Storage) : Storage :=
  mkStorage (st_id r) (st_name r) (st_storage_type r) (st_config r) (st_is_hot r) (st_project_id r) v (st_supports_direct_links r) (st_created_at r) (st_updated_at r).
Definition set_st_updated_at (v : Timestamp) (r : Storage) : Storage :=
  mkStorage (st_id r) (st_name r) (st_storage_type r) (st_config r) (st_is_hot r) (st_project_id r) (st_enabled r) (st_supports_direct_links r) (st_created_at r) v.

Record File := mkFile {
  f_id : Uuid;
  f_hash_sha256 : string;
  f_size : Z;
  f_content_type : string;
  f_created_at : Timestamp
}.

Record FileReference := mkFileReference {
  fr_id : Uuid;
  fr_file_id : Uuid;
  fr_project_id : Uuid;
  fr_original_name : string;
  fr_metadata : Json;
  fr_created_at : Timestamp
}.

Definition set_fr_metadata (v : Json) (r : FileReference) : FileReference :=
  mkFileReference (fr_id r) (fr_file_id r) (fr_project_id r) (fr_original_name r) v (fr_created_at r).

Record FileLocation := mkFileLocation {
  fl_id : Uuid;
  fl_file_id : Uuid;
  fl_storage_id : Uuid;
  fl_storage_path : string;
  fl_status : string;
  fl_synced_at : option Timestamp;
  fl_last_accessed_at : option Timestamp;
  fl_created_at : Timestamp
}.

Definition set_fl_status (v : string) (r : FileLocation) : FileLocation :=
  mkFileLocation (fl_id r) (fl_file_id r) (fl_storage_id r) (fl_storage_path r) v (fl_synced_at r) (fl_last_accessed_at r) (fl_created_at r).
Definition set_fl_synced_at (v : option Timestamp) (r : FileLocation) : FileLocation :=
  mkFileLocation (fl_id r) (fl_file_id r) (fl_storage_id r) (fl_storage_path r) (fl_status r) v (fl_last_accessed_at r) (fl_created_at r).
Definition set_fl_last_accessed_at (v : option Timestamp) (r : FileLocation) : FileLocation :=
  mkFileLocation (fl_id r) (fl_file_id r) (fl_storage_id r) (fl_storage_path r) (fl_status r) (fl_synced_at r) v (fl_created_at r).

Record SyncTask := mkSyncTask {
  tk_id : Uuid;
  tk_file_id : Uuid;
  tk_source_storage_id : Uuid;
  tk_target_storage_id : Uuid;
  tk_status : string;
  tk_retries : Z;
  tk_error_msg : option string;
  tk_retry_after : option Timestamp;
  tk_project_id : option Uuid;
  tk_created_at : Timestamp;
  tk_updated_at : Timestamp
}.

Definition set_tk_status (v : string) (r : SyncTask) : SyncTask :=
  mkSyncTask (tk_id r) (tk_file_id r) (tk_source_storage_id r) (tk_target_storage_id r) v (tk_retries r) (tk_error_msg r) (tk_retry_after r) (tk_project_id r) (tk_created_at r) (tk_updated_at r).
Definition set_tk_retries (v : Z) (r : SyncTask) : SyncTask :=
  mkSyncTask (tk_id r) (tk_file_id r) (tk_source_storage_id r) (tk_target_storage_id r) (tk_status r) v (tk_error_msg r) (tk_retry_after r) (tk_project_id r) (tk_created_at r) (tk_updated_at r).
Definition set_tk_error_msg (v : option string) (r : SyncTask) : SyncTask :=
  mkSyncTask (tk_id r) (tk_file_id r) (tk_source_storage_id r) (tk_target_storage_id r) (tk_status r) (tk_retries r) v (tk_retry_after r) (tk_project_id r) (tk_created_at r) (tk_updated_at r).
Definition set_tk_retry_after (v : option Timestamp) (r : SyncTask) : SyncTask :=
  mkSyncTask (tk_id r) (tk_file_id r) (tk_source_storage_id r) (tk_target_storage_id r) (tk_status r) (tk_retries r) (tk_error_msg r) v (tk_project_id r) (tk_created_at r) (tk_updated_at r).
Definition set_tk_updated_at (v : Timestamp) (r : SyncTask) : SyncTask :=
  mkSyncTask (tk_id r) (tk_file_id r) (tk_source_storage_id r) (tk_target_storage_id r) (tk_status r) (tk_retries r) (tk_error_msg r) (tk_retry_after r) (tk_project_id r) (tk_created_at r) v.

Record ProjectStorage := mkProjectStorage {
  ps_id : Uuid;
  ps_project_id : Uuid;
  ps_storage_id : Uuid;
  ps_container_override : option string;
  ps_prefix_override : option string;
  ps_is_active : bool;
  ps_created_at : Timestamp;
  ps_updated_at : Timestamp
}.

Definition set_ps_container_override (v : option string) (r : ProjectStorage) : ProjectStorage :=
  mkProjectStorage (ps_id r) (ps_project_id r) (ps_storage_id r) v (ps_prefix_override r) (ps_is_active r) (ps_created_at r) (ps_updated_at r).
Definition set_ps_prefix_override (v : option string) (r : ProjectStorage) : ProjectStorage :=
  mkProjectStorage (ps_id r) (ps_project_id r) (ps_storage_id r) (ps_container_override r) v (ps_is_active r) (ps_created_at r) (ps_updated_at r).
Definition set_ps_is_active (v : bool) (r : ProjectStorage) : ProjectStorage :=
  mkProjectStorage (ps_id r) (ps_project_id r) (ps_storage_id r) (ps_container_override r) (ps_prefix_override r) v (ps_created_at r) (ps_updated_at r).
Definition set_ps_updated_at (v : Timestamp) (r : ProjectStorage) : ProjectStorage :=
  mkProjectStorage (ps_id r) (ps_project_id r) (ps_storage_id r) (ps_container_override r) (ps_prefix_override r) (ps_is_active r) (ps_created_at r) v.

Record User := mkUser {
  u_id : Uuid;
  u_username : string;
  u_password_hash : string;
  u_role : string;
  u_created_at : Timestamp;
  u_updated_at : Timestamp
}.

Definition set_u_password_hash (v : string) (r : User) : User :=
  mkUser (u_id r) (u_username r) v (u_role r) (u_created_at r) (u_updated_at r).
Definition set_u_role (v : string) (r : User) : User :=
  mkUser (u_id r) (u_username r) (u_password_hash r) v (u_created_at r) (u_updated_at r).
Definition set_u_updated_at (v : Timestamp) (r : User) : User :=
  mkUser (u_id r) (u_username r) (u_password_hash r) (u_role r) (u_created_at r) v.

Record RefreshToken := mkRefreshToken {
  rt_id : Uuid;
  rt_user_id : Uuid;
  rt_token_hash : string;
  rt_expires_at : Timestamp;
  rt_created_at : Timestamp
}.

Record UserProject := mkUserProject {
  up_id : Uuid;
  up_user_id : Uuid;
  up_project_id : Uuid;
  up_role : string;
  up_created_at : Timestamp
}.

Definition set_up_role (v : string) (r : UserProject) : UserProject :=
  mkUserProject (up_id r) (up_user_id r) (up_project_id r) v (up_created_at r).

Record UserStorage := mkUserStorage {
  us_id : Uuid;
  us_user_id : Uuid;
  us_storage_id : Uuid;
  us_created_at : Timestamp
}.

Record SharedLink := mkSharedLink {
  sl_id : Uuid;
  sl_token : string;
  sl_file_id : Uuid;
  sl_project_id : Uuid;
  sl_original_name : string;
  sl_created_by : Uuid;
  sl_password_hash : option string;
  sl_expires_at : option Timestamp;
  sl_max_downloads : option Z;
  sl_download_count : Z;
  sl_last_accessed_at : option Timestamp;
  sl_is_active : bool;
  sl_created_at : Timestamp
}.

Definition set_sl_download_count (v : Z) (r : SharedLink) : SharedLink :=
  mkSharedLink (sl_id r) (sl_token r) (sl_file_id r) (sl_project_id r) (sl_original_name r) (sl_created_by r) (sl_password_hash r) (sl_expires_at r) (sl_max_downloads r) v (sl_last_accessed_at r) (sl_is_active r) (sl_created_at r).
Definition set_sl_last_accessed_at (v : option Timestamp) (r : SharedLink) : SharedLink :=
  mkSharedLink (sl_id r) (sl_token r) (sl_file_id r) (sl_project_id r) (sl_original_name r) (sl_created_by r) (sl_password_hash r) (sl_expires_at r) (sl_max_downloads r) (sl_download_count r) v (sl_is_active r) (sl_created_at r).
Definition set_sl_is_active (v : bool) (r : SharedLink) : SharedLink :=
  mkSharedLink (sl_id r) (sl_token r) (sl_file_id r) (sl_project_id r) (sl_original_name r) (sl_created_by r) (sl_password_hash r) (sl_expires_at r) (sl_max_downloads r) (sl_download_count r) (sl_last_accessed_at r) v (sl_created_at r).

Record UploadSession := mkUploadSession {
  ss_id : Uuid;
  ss_project_id : Uuid;
  ss_user_id : Uuid;
  ss_original_name : string;
  ss_content_type : string;
  ss_total_size : Z;
  ss_offset_bytes : Z;
  ss_temp_path : string;
  ss_metadata : Json;
  ss_status : string;
  ss_created_at : Timestamp;
  ss_updated_at : Timestamp;
  ss_expires_at : Timestamp
}.

Definition set_ss_offset_bytes (v : Z) (r : UploadSession) : UploadSession :=
  mkUploadSession (ss_id r) (ss_project_id r) (ss_user_id r) (ss_original_name r) (ss_content_type r) (ss_total_size r) v (ss_temp_path r) (ss_metadata r) (ss_status r) (ss_created_at r) (ss_updated_at r) (ss_expires_at r).
Definition set_ss_status (v : string) (r : UploadSession) : UploadSession :=
  mkUploadSession (ss_id r) (ss_project_id r) (ss_user_id r) (ss_original_name r) (ss_content_type r) (ss_total_size r) (ss_offset_bytes r) (ss_temp_path r) (ss_metadata r) v (ss_created_at r) (ss_updated_at r) (ss_expires_at r).
Definition set_ss_updated_at (v : Timestamp) (r : UploadSession) : UploadSession :=
  mkUploadSession (ss_id r) (ss_project_id r) (ss_user_id r) (ss_original_name r) (ss_content_type r) (ss_total_size r) (ss_offset_bytes r) (ss_temp_path r) (ss_metadata r) (ss_status r) (ss_created_at r) v (ss_expires_at r).

Record Node := mkNode {
  nd_id : Uuid;
  nd_node_id : string;
  nd_address : string;
  nd_started_at : Timestamp;
  nd_last_heartbeat : Timestamp;
  nd_created_at : Timestamp
}.

Definition set_nd_address (v : string) (r : Node) : Node :=
  mkNode (nd_id r) (nd_node_id r) v (nd_started_at r) (nd_last_heartbeat r) (nd_created_at r).
Definition set_nd_started_at (v : Timestamp) (r : Node) : Node :=
  mkNode (nd_id r) (nd_node_id r) (nd_address r) v (nd_last_heartbeat r) (nd_created_at r).
Definition set_nd_last_heartbeat (v : Timestamp) (r : Node) : Node :=
  mkNode (nd_id r) (nd_node_id r) (nd_address r) (nd_started_at r) v (nd_created_at r).

Record BackupConfig := mkBackupConfig {
  bc_id : Uuid;
  bc_name : string;
  bc_storage_id : Uuid;
  bc_storage_path : string;
  bc_schedule_cron : string;
  bc_retention_count : Z;
  bc_enabled : bool;
  bc_created_at : Timestamp;
  bc_updated_at : Timestamp
}.

Definition set_bc_updated_at (v : Timestamp) (r : BackupConfig) : BackupConfig :=
  mkBackupConfig (bc_id r) (bc_name r) (bc_storage_id r) (bc_storage_path r) (bc_schedule_cron r) (bc_retention_count r) (bc_enabled r) (bc_created_at r) v.

Record BackupRecord := mkBackupRecord {
  br_id : Uuid;
  br_config_id : option Uuid;
  br_config_name : option string;
  br_storage_id : Uuid;
  br_file_path : string;
  br_file_size_bytes : Z;
  br_status : string;
  br_error_message : option string;
  br_started_at : option Timestamp;
  br_completed_at : option Timestamp;
  br_created_at : Timestamp
}.

Definition set_br_config_id (v : option Uuid) (r : BackupRecord) : BackupRecord :=
  mkBackupRecord (br_id r) v (br_config_name r) (br_storage_id r) (br_file_path r) (br_file_size_bytes r) (br_status r) (br_error_message r) (br_started_at r) (br_completed_at r) (br_created_at r).
Definition set_br_file_path (v : string) (r : BackupRecord) : BackupRecord :=
  mkBackupRecord (br_id r) (br_config_id r) (br_config_name r) (br_storage_id r) v (br_file_size_bytes r) (br_status r) (br_error_message r) (br_started_at r) (br_completed_at r) (br_created_at r).
Definition set_br_file_size_bytes (v : Z) (r : BackupRecord) : BackupRecord :=
  mkBackupRecord (br_id r) (br_config_id r) (br_config_name r) (br_storage_id r) (br_file_path r) v (br_status r) (br_error_message r) (br_started_at r) (br_completed_at r) (br_created_at r).
Definition set_br_status (v : string) (r : BackupRecord) : BackupRecord :=
  mkBackupRecord (br_id r) (br_config_id r) (br_config_name r) (br_storage_id r) (br_file_path r) (br_file_size_bytes r) v (br_error_message r) (br_started_at r) (br_completed_at r) (br_created_at r).
Definition set_br_error_message (v : option string) (r : BackupRecord) : BackupRecord :=
  mkBackupRecord (br_id r) (br_config_id r) (br_config_name r) (br_storage_id r) (br_file_path r) (br_file_size_bytes r) (br_status r) v (br_started_at r) (br_completed_at r) (br_created_at r).
Definition set_br_completed_at (v : option Timestamp) (r : BackupRecord) : BackupRecord :=
  mkBackupRecord (br_id r) (br_config_id r) (br_config_name r) (br_storage_id r) (br_file_path r) (br_file_size_bytes r) (br_status r) (br_error_message r) (br_started_at r) v (br_created_at r).

Record FileAccessEvent := mkFileAccessEvent {
  ev_id : Uuid;
  ev_file_id : Uuid;
  ev_project_id : option Uuid;
  ev_storage_id : option Uuid;
  ev_access_kind : string;
  ev_user_id : option Uuid;
  ev_bytes : option Z;
  ev_created_at : Timestamp
}.

Definition set_ev_user_id (v : option Uuid) (r : FileAccessEvent) : FileAccessEvent :=
  mkFileAccessEvent (ev_id r) (ev_file_id r) (ev_project_id r) (ev_storage_id r) (ev_access_kind r) v (ev_bytes r) (ev_created_at r).

(** ** The database *)

Record Db := mkDb {
  projects : gmap Uuid Project;
  storages : gmap Uuid Storage;
  files : gmap Uuid File;
  file_references : gmap Uuid FileReference;
  file_locations : gmap Uuid FileLocation;
  sync_tasks : gmap Uuid SyncTask;
  project_storages : gmap Uuid ProjectStorage;
  users : gmap Uuid User;
  refresh_tokens : gmap Uuid RefreshToken;
  user_projects : gmap Uuid UserProject;
  user_storages : gmap Uuid UserStorage;
  shared_links : gmap Uuid SharedLink;
  upload_sessions : gmap Uuid UploadSession;
  nodes : gmap Uuid Node;
  backup_configs : gmap Uuid BackupConfig;
  backup_history : gmap Uuid BackupRecord;
  file_access_events : gmap Uuid FileAccessEvent
}.

Definition empty_db : Db := mkDb ∅ ∅ ∅ ∅ ∅ ∅ ∅ ∅ ∅ ∅ ∅ ∅ ∅ ∅ ∅ ∅ ∅.

Definition set_projects (v : gmap Uuid Project) (d : Db) : Db :=
  mkDb v (storages d) (files d) (file_references d) (file_locations d) (sync_tasks d) (project_storages d) (users d) (refresh_tokens d) (user_projects d) (user_storages d) (shared_links d) (upload_sessions d) (nodes d) (backup_configs d) (backup_history d) (file_access_events d).
Definition set_storages (v : gmap Uuid Storage) (d : Db) : Db :=
  mkDb (projects d) v (files d) (file_references d) (file_locations d) (sync_tasks d) (project_storages d) (users d) (refresh_tokens d) (user_projects d) (user_storages d) (shared_links d) (upload_sessions d) (nodes d) (backup_configs d) (backup_history d) (file_access_events d).
Definition set_files (v : gmap Uuid File) (d : Db) : Db :=
  mkDb (projects d) (storages d) v (file_references d) (file_locations d) (sync_tasks d) (project_storages d) (users d) (refresh_tokens d) (user_projects d) (user_storages d) (shared_links d) (upload_sessions d) (nodes d) (backup_configs d) (backup_history d) (file_access_events d).
Definition set_file_references (v : gmap Uuid FileReference) (d : Db) : Db :=
  mkDb (projects d) (storages d) (files d) v (file_locations d) (sync_tasks d) (project_storages d) (users d) (refresh_tokens d) (user_projects d) (user_storages d) (shared_links d) (upload_sessions d) (nodes d) (backup_configs d) (backup_history d) (file_access_events d).
Definition set_file_locations (v : gmap Uuid FileLocation) (d : Db) : Db :=
  mkDb (projects d) (storages d) (files d) (file_references d) v (sync_tasks d) (project_storages d) (users d) (refresh_tokens d) (user_projects d) (user_storages d) (shared_links d) (upload_sessions d) (nodes d) (backup_configs d) (backup_history d) (file_access_events d).
Definition set_sync_tasks (v : gmap Uuid SyncTask) (d : Db) : Db :=
  mkDb (projects d) (storages d) (files d) (file_references d) (file_locations d) v (project_storages d) (users d) (refresh_tokens d) (user_projects d) (user_storages d) (shared_links d) (upload_sessions d) (nodes d) (backup_configs d) (backup_history d) (file_access_events d).
Definition set_project_storages (v : gmap Uuid ProjectStorage) (d : Db) : Db :=
  mkDb (projects d) (storages d) (files d) (file_references d) (file_locations d) (sync_tasks d) v (users d) (refresh_tokens d) (user_projects d) (user_storages d) (shared_links d) (upload_sessions d) (nodes d) (backup_configs d) (backup_history d) (file_access_events d).
Definition set_users (v : gmap Uuid User) (d : Db) : Db :=
  mkDb (projects d) (storages d) (files d) (file_references d) (file_locations d) (sync_tasks d) (project_storages d) v (refresh_tokens d) (user_projects d) (user_storages d) (shared_links d) (upload_sessions d) (nodes d) (backup_configs d) (backup_history d) (file_access_events d).
Definition set_refresh_tokens (v : gmap Uuid RefreshToken) (d : Db) : Db :=
  mkDb (projects d) (storages d) (files d) (file_references d) (file_locations d) (sync_tasks d) (project_storages d) (users d) v (user_projects d) (user_storages d) (shared_links d) (upload_sessions d) (nodes d) (backup_configs d) (backup_history d) (file_access_events d).
Definition set_user_projects (v : gmap Uuid UserProject) (d : Db) : Db :=
  mkDb (projects d) (storages d) (files d) (file_references d) (file_locations d) (sync_tasks d) (project_storages d) (users d) (refresh_tokens d) v (user_storages d) (shared_links d) (upload_sessions d) (nodes d) (backup_configs d) (backup_history d) (file_access_events d).
Definition set_user_storages (v : gmap Uuid UserStorage) (d : Db) : Db :=
  mkDb (projects d) (storages d) (files d) (file_references d) (file_locations d) (sync_tasks d) (project_storages d) (users d) (refresh_tokens d) (user_projects d) v (shared_links d) (upload_sessions d) (nodes d) (backup_configs d) (backup_history d) (file_access_events d).
Definition set_shared_links (v : gmap Uuid SharedLink) (d : Db) : Db :=
  mkDb (projects d) (storages d) (files d) (file_references d) (file_locations d) (sync_tasks d) (project_storages d) (users d) (refresh_tokens d) (user_projects d) (user_storages d) v (upload_sessions d) (nodes d) (backup_configs d) (backup_history d) (file_access_events d).
Definition set_upload_sessions (v : gmap Uuid UploadSession) (d : Db) : Db :=
  mkDb (projects d) (storages d) (files d) (file_references d) (file_locations d) (sync_tasks d) (project_storages d) (users d) (refresh_tokens d) (user_projects d) (user_storages d) (shared_links d) v (nodes d) (backup_configs d) (backup_history d) (file_access_events d).
Definition set_nodes (v : gmap Uuid Node) (d : Db) : Db :=
  mkDb (projects d) (storages d) (files d) (file_references d) (file_locations d) (sync_tasks d) (project_storages d) (users d) (refresh_tokens d) (user_projects d) (user_storages d) (shared_links d) (upload_sessions d) v (backup_configs d) (backup_history d) (file_access_events d).
Definition set_backup_configs (v : gmap Uuid BackupConfig) (d : Db) : Db :=
  mkDb (projects d) (storages d) (files d) (file_references d) (file_locations d) (sync_tasks d) (project_storages d) (users d) (refresh_tokens d) (user_projects d) (user_storages d) (shared_links d) (upload_sessions d) (nodes d) v (backup_history d) (file_access_events d).
Definition set_backup_history (v : gmap Uuid BackupRecord) (d : Db) : Db :=
  mkDb (projects d) (storages d) (files d) (file_references d) (file_locations d) (sync_tasks d) (project_storages d) (users d) (refresh_tokens d) (user_projects d) (user_storages d) (shared_links d) (upload_sessions d) (nodes d) (backup_configs d) v (file_access_events d).
Definition set_file_access_events (v : gmap Uuid FileAccessEvent) (d : Db) : Db :=
  mkDb (projects d) (storages d) (files d) (file_references d) (file_locations d) (sync_tasks d) (project_storages d) (users d) (refresh_tokens d) (user_projects d) (user_storages d) (shared_links d) (upload_sessions d) (nodes d) (backup_configs d) (backup_history d) v.
