(* ===== verification/Env.v ===== *)
(** * The code the program calls but does not contain

    [Env] lists, as parameters, the functions of third-party crates, of the
    PostgreSQL server and of the remote storage services the model needs. No
    definition of the development depends on more than their types; a theorem
    that relies on documented behaviour of one of them says so in a named
    hypothesis (the classes at the end of this file). Also here: the type of
    storage backends, one constructor per implementation of the trait
    [StorageBackend] of src/src/storage, carrying its configuration. *)

From S2P Require Import Prelude Json.

(** ** Backend configurations (src/src/storage/*.rs) *)

Record S3Config := mkS3Config {
  s3_endpoint_url : option string;
  s3_region : string;
  s3_bucket : string;
  s3_prefix : string;
  s3_access_key_id : string;
  s3_secret_access_key : string;
  s3_multipart_threshold : option Z;
  s3_part_size : option Z;
  s3_force_path_style : bool
}.

Record AzureBlobConfig := mkAzureBlobConfig {
  az_account_name : string;
  az_account_key : string;
  az_container : string;
  az_prefix : string;
  az_endpoint : option string
}.

Record GcsConfig := mkGcsConfig {
  gcs_bucket : string;
  gcs_prefix : string;
  gcs_client_email : string;
  gcs_private_key_pem : string;
  gcs_token_uri : option string;
  gcs_gcp_project_id : option string
}.

Record HetznerStorageBoxConfig := mkHetznerStorageBoxConfig {
  hz_host : string;
  hz_username : string;
  hz_password : string;
  hz_port : Z;
  hz_base_path : string;
  hz_sub_account : option string
}.

(** [FtpConfig] and [SftpConfig] have the same fields. *)
Record FtpConfig := mkFtpConfig {
  ftp_host : string;
  ftp_port : Z;
  ftp_username : string;
  ftp_password : string;
  ftp_base_path : string
}.

Record SambaConfig := mkSambaConfig {
  smb_host : string;
  smb_share : string;
  smb_username : string;
  smb_password : string;
  smb_workgroup : string;
  smb_base_path : string
}.

Inductive Backend :=
  | LocalDiskBackend (base_path hmac_secret : string)
  | S3StorageBackend (c : S3Config)
  | AzureBlobBackend (c : AzureBlobConfig)
  | GcsBackend (c : GcsConfig)
  | HetznerStorageBoxBackend (c : HetznerStorageBoxConfig)
  | FtpBackend (c : FtpConfig)
  | SftpBackend (c : FtpConfig)
  | SambaBackend (c : SambaConfig).

#[export] Instance S3Config_eq_dec : EqDecision S3Config.
Proof. solve_decision. Defined.
#[export] Instance AzureBlobConfig_eq_dec : EqDecision AzureBlobConfig.
Proof. solve_decision. Defined.
#[export] Instance GcsConfig_eq_dec : EqDecision GcsConfig.
Proof. solve_decision. Defined.
#[export] Instance HetznerStorageBoxConfig_eq_dec : EqDecision HetznerStorageBoxConfig.
Proof. solve_decision. Defined.
#[export] Instance FtpConfig_eq_dec : EqDecision FtpConfig.
Proof. solve_decision. Defined.
#[export] Instance SambaConfig_eq_dec : EqDecision SambaConfig.
Proof. solve_decision. Defined.
#[export] Instance Backend_eq_dec : EqDecision Backend.
Proof. solve_decision. Defined.

(** ** External functions *)

Class Env := {
  (** [uuid]: the n-th random identifier, printing, parsing. *)
  gen_uuid : N → Uuid;
  uuid_str : Uuid → string;
  uuid_parse : string → option Uuid;
  (** [sha2]: an incremental hasher, finalised to lower-case hex. *)
  Hasher : Type;
  sha_new : Hasher;
  sha_update : bytes → Hasher → Hasher;
  sha_hex : Hasher → string;
  (** [hmac] over SHA-256, finalised to hex; [urlencoding]. *)
  hmac_hex : string → string → string;
  urlencode : string → string;
  (** [argon2]: hash with the n-th random salt, and the complaint where there is
      none; verification. *)
  argon2_hash : N → string → option string;
  argon2_error : N → string → string;
  argon2_verify : string → string → bool;
  (** [rand]: the n-th random token, already encoded. *)
  gen_token : N → string;
  (** [jsonwebtoken]: signing and validation at a time with a leeway, both in
      seconds, with the complaints. *)
  jwt_encode : string → Json → option string;
  jwt_encode_error : string → Json → string;
  jwt_decode : string → Z → Z → string → option Json;
  jwt_decode_error : string → Z → Z → string → string;
  (** [serde_json::from_str], with its complaint; [base64] to UTF-8 text. *)
  json_parse : string → option Json;
  json_error : string → string;
  base64_text : string → option string;
  (** [cron]: parsing, with its complaint, and the first occurrence strictly after
      a time. *)
  Schedule : Type;
  cron_parse : string → option Schedule;
  cron_error : string → string;
  cron_after : Schedule → Timestamp → option Timestamp;
  (** PostgreSQL: [jsonb @> jsonb], [text ILIKE pattern], [DATE(ts)], and the
      text of a driver error. *)
  jsonb_contains : Json → Json → bool;
  ilike : string → string → bool;
  date_of : Timestamp → Z;
  sqlx_display : SqlxError → string;
  (** Key material checks of the Azure and GCS constructors (the decoder's
      complaint, if any); whether the binary has the [samba] feature. *)
  azure_key_error : string → option string;
  gcs_key_error : string → option string;
  samba_feature : bool;
  (** The remote storage services, behind their backends. *)
  RemoteState : Type;
  remote_upload : Backend → string → bytes → RemoteState → RemoteState * Result unit;
  remote_download : Backend → string → RemoteState → Result bytes;
  (** [upload_from_file], given what reading the source file yields (its
      contents, or an error), and [download_to_file]: the bytes written to the
      destination file and, when the connection breaks, the error. *)
  remote_upload_from_file :
    Backend → string → string + bytes → RemoteState → RemoteState * Result unit;
  remote_download_to_file : Backend → string → RemoteState → Result (bytes * option AppError);
  remote_delete : Backend → string → RemoteState → RemoteState * Result unit;
  remote_create_container : Backend → string → RemoteState → RemoteState * Result unit;
  remote_list_containers : Backend → RemoteState → Result (list string);
  remote_temp_url : Backend → string → Z → option string → RemoteState → Result (option string)
}.

(** [thiserror]'s [Display] for [AppError] (src/src/error.rs). *)
Definition display_error `{Env} (e : AppError) : string :=
  match e with
  | NotFound m => "Not found: " +:+ m
  | BadRequest m => "Bad request: " +:+ m
  | Unauthorized m => "Unauthorized: " +:+ m
  | Forbidden m => "Forbidden: " +:+ m
  | Conflict m => "Conflict: " +:+ m
  | Internal m => "Internal error: " +:+ m
  | Database d => "Database error: " +:+ sqlx_display d
  | Io m => "IO error: " +:+ m
  | Config m => "Configuration error: " +:+ m
  end.

(** ** Documented behaviour relied on *)

(** The hasher is a stream: feeding two blocks is feeding their concatenation. *)
Class ShaStream `{Env} := {
  sha_update_nil h : sha_update [] h = h;
  sha_update_app a b h : sha_update (a ++ b) h = sha_update b (sha_update a h)
}.

(** A hex digest has 64 hexadecimal digits. *)
Class ShaHex `{Env} := {
  sha_hex_digits h : str_all is_ascii_hexdigit (sha_hex h) = true;
  sha_hex_length h : String.length (sha_hex h) = 64%nat
}.

(** Canonical UUID text: 36 characters, all hexadecimal digits or hyphens, a
    different text for each UUID; parsing inverts printing. *)
Definition is_uuid_char (c : Ascii.ascii) : bool :=
  is_ascii_hexdigit c || Ascii.eqb c "-"%char.

Definition valid_uuid (u : Uuid) : Prop := (u < 2 ^ 128)%N.

Class UuidText `{Env} := {
  uuid_str_length u : String.length (uuid_str u) = 36%nat;
  uuid_str_chars u : str_all is_uuid_char (uuid_str u) = true;
  uuid_parse_str u : valid_uuid u → uuid_parse (uuid_str u) = Some u
}.

Lemma uuid_str_inj `{UuidText} u v :
  valid_uuid u → valid_uuid v → uuid_str u = uuid_str v → u = v.
Proof.
  intros Hu Hv Eq. apply (f_equal uuid_parse) in Eq.
  rewrite !uuid_parse_str in Eq by done. congruence.
Qed.

(** [jsonwebtoken]: a token is accepted under the key that signed it until its
    expiry plus the leeway, and never later; its claims do not depend on the
    time of reading. *)
Class JwtExpiry `{Env} := {
  jwt_decode_encode key leeway now claims tok e :
    jwt_encode key claims = Some tok → as_u64 (json_index "exp" claims) = Some e →
    now ≤ e + leeway → jwt_decode key leeway now tok = Some claims;
  jwt_decode_fresh key leeway now claims tok :
    jwt_decode key leeway now tok = Some claims →
    ∃ e, as_u64 (json_index "exp" claims) = Some e ∧ now ≤ e + leeway;
  jwt_decode_stable key leeway now1 now2 c1 c2 tok :
    jwt_decode key leeway now1 tok = Some c1 → jwt_decode key leeway now2 tok = Some c2 → c1 = c2
}.

(** [argon2]: the hash of a password verifies that password. *)
Class PasswordHash `{Env} :=
  argon2_verify_hash n pw h : argon2_hash n pw = Some h → argon2_verify pw h = true.

(** The remote services: an object whose upload was acknowledged is read back
    under the same name, and asking for a container loses no object. RemoteSpec
    proves the former of the remote backends over their protocols, with one
    exception: an SMB file written over a longer one keeps the end of the older
    (Defects.smb_overwrite_keeps_tail). Contents are stored under their digests,
    so that a path is written over with the bytes it has. *)
Class RemoteReadback `{Env} := {
  remote_download_upload b p data st st' :
    remote_upload b p data st = (st', Ok tt) → remote_download b p st' = Ok data;
  remote_download_upload_from_file b p data st st' :
    remote_upload_from_file b p (inr data) st = (st', Ok tt) → remote_download b p st' = Ok data;
  remote_download_container b p data b' n st :
    remote_download b p st = Ok data →
    remote_download b p (remote_create_container b' n st).1 = Ok data;
  remote_container_no_panic b n st : (remote_create_container b n st).2 ≠ Panic
}.
