(* ===== verification/World.v ===== *)
(** * State, effects and SQL statements

    The state the handlers, services and workers act on ([World]), the monad
    they run in ([M]: a state transformer whose outcome is a [Result]), the
    combinators for the control flow of the code, and the SQL statements as
    operations on the tables, with the constraints of src/migrations. *)

From S2P Require Import Prelude Json Schema Env.

Section world.
Context {E : Env}.

(** ** State *)

Record World := mkWorld {
  (** The database, between two statements. *)
  db : Db;
  (** The local file system: contents by path. *)
  fs : gmap string bytes;
  (** Whether writes to the local file system succeed. *)
  fs_writable : bool;
  (** The remote storage services. *)
  remote : RemoteState;
  (** [StorageRegistry.backends]. *)
  backends : gmap Uuid Backend;
  (** Wall-clock time ([Utc::now()], [NOW()]). *)
  now : Timestamp;
  (** Random draws made so far. *)
  draws : N;
  (** Advisory locks held by other database sessions. *)
  other_locks : gset (Z * Z)
}.

Definition set_db (d : Db) (w : World) : World :=
  mkWorld d (fs w) (fs_writable w) (remote w) (backends w) (now w) (draws w) (other_locks w).
Definition set_fs (f : gmap string bytes) (w : World) : World :=
  mkWorld (db w) f (fs_writable w) (remote w) (backends w) (now w) (draws w) (other_locks w).
Definition set_remote (r : RemoteState) (w : World) : World :=
  mkWorld (db w) (fs w) (fs_writable w) r (backends w) (now w) (draws w) (other_locks w).
Definition set_backends (b : gmap Uuid Backend) (w : World) : World :=
  mkWorld (db w) (fs w) (fs_writable w) (remote w) b (now w) (draws w) (other_locks w).
Definition set_draws (n : N) (w : World) : World :=
  mkWorld (db w) (fs w) (fs_writable w) (remote w) (backends w) (now w) n (other_locks w).
Definition set_now (t : Timestamp) (w : World) : World :=
  mkWorld (db w) (fs w) (fs_writable w) (remote w) (backends w) t (draws w) (other_locks w).

(** ** The monad *)

Definition M (A : Type) : Type := World → World * Result A.

#[export] Instance M_ret : MRet M := λ A a w, (w, Ok a).
#[export] Instance M_bind : MBind M := λ A B k m w,
  match m w with
  | (w', Ok a) => k a w'
  | (w', Err e) => (w', Err e)
  | (w', Panic) => (w', Panic)
  end.

Definition throw {A} (e : AppError) : M A := λ w, (w, Err e).
Definition lift {A} (r : Result A) : M A := λ w, (w, r).
Definition gets {A} (f : World → A) : M A := λ w, (w, Ok (f w)).
Definition modify (f : World → World) : M unit := λ w, (f w, Ok tt).

(** [match m.await { Ok(x) => ok(x), Err(e) => err(e) }]. *)
Definition try_with {A B} (m : M A) (ok : A → M B) (err : AppError → M B) : M B := λ w,
  match m w with
  | (w', Ok a) => ok a w'
  | (w', Err e) => err e w'
  | (w', Panic) => (w', Panic)
  end.

(** [m.await.ok()], and [let _ = m.await;]. *)
Definition ok {A} (m : M A) : M (option A) :=
  try_with m (λ a, mret (Some a)) (λ _, mret None).
Definition ignore {A} (m : M A) : M unit :=
  try_with m (λ _, mret tt) (λ _, mret tt).

(** [m.await.map_err(f)?]. *)
Definition map_err {A} (f : AppError → AppError) (m : M A) : M A :=
  try_with m mret (λ e, throw (f e)).

(** [if c { return Err(e) }]. *)
Definition ensure (b : bool) (e : AppError) : M unit :=
  if b then mret tt else throw e.

(** [for x in l { body }], threading an accumulator. *)
Fixpoint foldM {A B} (f : B → A → M B) (b : B) (l : list A) : M B :=
  match l with
  | [] => mret b
  | x :: l' => f b x ≫= λ b', foldM f b' l'
  end.
Definition for_each {A} (f : A → M unit) (l : list A) : M unit :=
  foldM (λ _, f) tt l.

(** [pool.begin() ... tx.commit()]: what the statements did to the database is
    undone when the body does not reach the commit. *)
Definition transaction {A} (m : M A) : M A := λ w,
  match m w with
  | (w', Ok a) => (w', Ok a)
  | (w', r) => (set_db (db w) w', r)
  end.

(** A random draw. *)
Definition draw : M N := λ w, (set_draws (draws w + 1)%N w, Ok (draws w)).
Definition new_uuid : M Uuid := n ← draw; mret (gen_uuid n).

(** ** Tables *)

(** What the SQL statements need of a table: its place in the database, the
    primary key of a row, the constraint a new or changed row would violate
    against the other rows, the [BEFORE UPDATE] trigger, and the [ON DELETE]
    actions of the rows that reference a deleted one ([None]: the deletion is
    refused). *)
Class Table (R : Type) := {
  tbl : Db → gmap Uuid R;
  set_tbl : gmap Uuid R → Db → Db;
  row_id : R → Uuid;
  violates : R → Db → option SqlxError;
  touch : Timestamp → R → R;
  on_delete : Uuid → Db → option Db
}.

Definition rows_of {R} (t : gmap Uuid R) : list R := (map_to_list t).*2.
Definition exists_row {R} (P : R → bool) (t : gmap Uuid R) : bool := existsb P (rows_of t).

(** [SELECT * FROM t WHERE P], in no particular order. *)
Definition select_in `{Table R} (P : R → bool) (d : Db) : list R :=
  filter (λ r, P r = true) (rows_of (tbl d)).
Definition sql_select `{Table R} (P : R → bool) : M (list R) :=
  gets (λ w, select_in P (db w)).
(** A statement whose result [fetch_optional] takes the first row of. *)
Definition sql_select_first `{Table R} (P : R → bool) : M (option R) :=
  gets (λ w, head (select_in P (db w))).
(** [SELECT * FROM t WHERE id = $1]. *)
Definition sql_find `{Table R} (id : Uuid) : M (option R) :=
  gets (λ w, tbl (db w) !! id).

(** [SELECT * FROM t WHERE id = $1 AND P]. *)
Definition sql_find_if `{Table R} (id : Uuid) (P : R → bool) : M (option R) :=
  gets (λ w, r ← tbl (db w) !! id; if P r then Some r else None).

(** [INSERT INTO t ... RETURNING *]: the row gets a fresh identifier and the
    time of the statement. *)
Definition insert_row `{Table R} (id : Uuid) (mk : Uuid → Timestamp → R) : M R := λ w,
  let r := mk id (now w) in
  match tbl (db w) !! id with
  | Some _ => (w, Err (Database unique_violation))
  | None =>
      match violates r (db w) with
      | Some e => (w, Err (Database e))
      | None => (set_db (set_tbl (<[id := r]> (tbl (db w))) (db w)) w, Ok r)
      end
  end.
Definition sql_insert `{Table R} (mk : Uuid → Timestamp → R) : M R :=
  id ← new_uuid; insert_row id mk.

(** [UPDATE t SET ... WHERE P RETURNING *], on columns no constraint mentions. *)
Definition sql_update `{Table R} (P : R → bool) (f : R → R) : M (list R) := λ w,
  let t := tbl (db w) in
  let upd r := if P r then touch (now w) (f r) else r in
  (set_db (set_tbl (upd <$> t) (db w)) w,
   Ok (map (λ r, touch (now w) (f r)) (filter (λ r, P r = true) (rows_of t)))).

(** [UPDATE t SET ... WHERE id = $1 RETURNING *], on any column. *)
Definition sql_update_id `{Table R} (id : Uuid) (f : R → R) : M (option R) := λ w,
  match tbl (db w) !! id with
  | None => (w, Ok None)
  | Some r =>
      let r' := touch (now w) (f r) in
      match violates r' (db w) with
      | Some e => (w, Err (Database e))
      | None => (set_db (set_tbl (<[id := r']> (tbl (db w))) (db w)) w, Ok (Some r'))
      end
  end.

(** [UPDATE t SET ... WHERE id = $1 AND P RETURNING *], on columns no constraint
    mentions. *)
Definition sql_set_id_if `{Table R} (id : Uuid) (P : R → bool) (f : R → R) : M (option R) :=
  λ w,
  match tbl (db w) !! id with
  | None => (w, Ok None)
  | Some r =>
      if P r then
        let r' := touch (now w) (f r) in
        (set_db (set_tbl (<[id := r']> (tbl (db w))) (db w)) w, Ok (Some r'))
      else (w, Ok None)
  end.
Definition sql_set_id `{Table R} (id : Uuid) (f : R → R) : M (option R) :=
  sql_set_id_if id (λ _, true) f.

(** [DELETE FROM t WHERE P RETURNING *]. *)
Definition delete_cascade `{Table R} (ids : list Uuid) (d : Db) : option Db :=
  foldl (λ od id, od ≫= on_delete id) (Some d) ids.
Definition sql_delete `{Table R} (P : R → bool) : M (list R) := λ w,
  let t := tbl (db w) in
  let gone := filter (λ r, P r = true) (rows_of t) in
  let d := set_tbl (filter (λ kv, P kv.2 = false) t) (db w) in
  match delete_cascade (R := R) (map row_id gone) d with
  | None => (w, Err (Database foreign_key_violation))
  | Some d' => (set_db d' w, Ok gone)
  end.

(** [fetch_one]: an error when there is no row. *)
Definition fetch_one {A} (m : M (list A)) : M A :=
  l ← m; match l with x :: _ => mret x | [] => throw (Database RowNotFound) end.

(** [.ok_or_else(...)?]. *)
Definition or_throw {A} (e : AppError) (m : M (option A)) : M A :=
  o ← m; lift (ok_or o e).
End world.

#[global] Arguments World {E}.
#[global] Arguments M {E} A.
