(* ===== verification/Tables.v ===== *)
(** * The tables and their constraints

    The [Table] instance of every row type: PRIMARY KEY, UNIQUE, FOREIGN KEY
    and CHECK constraints, the [updated_at] triggers and the [ON DELETE]
    actions, as the migrations src/migrations/001 to 019 leave them. Lengths
    of VARCHAR columns are not modelled. *)

From S2P Require Import Prelude Json Schema Env World.

(** ** Constraint checks *)

(** A foreign key that names no row. *)
Definition dangling {A} (id : Uuid) (t : gmap Uuid A) : bool :=
  match t !! id with Some _ => false | None => true end.
Definition dangling_opt {A} (oid : option Uuid) (t : gmap Uuid A) : bool :=
  match oid with Some id => dangling id t | None => false end.

(** Another row, by primary key, that satisfies [P]. *)
Definition clash {R} (key : R → Uuid) (id : Uuid) (P : R → bool) (t : gmap Uuid R) : bool :=
  exists_row (λ r, negb (N.eqb (key r) id) && P r) t.

Fixpoint first_violation (l : list (bool * SqlxError)) : option SqlxError :=
  match l with
  | [] => None
  | (true, e) :: _ => Some e
  | (false, _) :: l' => first_violation l'
  end.

(** The rows of [t] that satisfy [P]. *)
Definition keep {R} (P : R → bool) (t : gmap Uuid R) : gmap Uuid R :=
  filter (λ kv, P kv.2 = true) t.

Definition uuid_ne (a b : Uuid) : bool := negb (N.eqb a b).

Definition option_uuid_eqb (a b : option Uuid) : bool := bool_decide (a = b).

(** ** Instances *)

#[export] Instance projects_table : Table Project := {
  tbl := projects; set_tbl := set_projects; row_id := p_id;
  violates r d := first_violation [
    (dangling_opt (p_owner_id r) (users d), foreign_key_violation);
    (clash p_id (p_id r) (λ o, String.eqb (p_slug o) (p_slug r)) (projects d), unique_violation)];
  touch := set_p_updated_at;
  on_delete _ d := Some d }.

#[export] Instance storages_table : Table Storage := {
  tbl := storages; set_tbl := set_storages; row_id := st_id;
  violates r d := first_violation [
    (dangling_opt (st_project_id r) (projects d), foreign_key_violation)];
  touch := set_st_updated_at;
  on_delete _ d := Some d }.

(** Deleting a file cascades to everything recorded about it. *)
Definition forget_file (id : Uuid) (d : Db) : Db :=
  set_file_references (keep (λ r, uuid_ne (fr_file_id r) id) (file_references d))
  (set_file_locations (keep (λ r, uuid_ne (fl_file_id r) id) (file_locations d))
  (set_sync_tasks (keep (λ r, uuid_ne (tk_file_id r) id) (sync_tasks d))
  (set_shared_links (keep (λ r, uuid_ne (sl_file_id r) id) (shared_links d))
  (set_file_access_events (keep (λ r, uuid_ne (ev_file_id r) id) (file_access_events d)) d)))).

#[export] Instance files_table : Table File := {
  tbl := files; set_tbl := set_files; row_id := f_id;
  violates r d := first_violation [
    (clash f_id (f_id r) (λ o, String.eqb (f_hash_sha256 o) (f_hash_sha256 r)) (files d),
     unique_violation)];
  touch _ r := r;
  on_delete id d := Some (forget_file id d) }.

(** Migration 010 dropped the uniqueness of (file, project, name). *)
#[export] Instance file_references_table : Table FileReference := {
  tbl := file_references; set_tbl := set_file_references; row_id := fr_id;
  violates r d := first_violation [
    (dangling (fr_file_id r) (files d), foreign_key_violation);
    (dangling (fr_project_id r) (projects d), foreign_key_violation)];
  touch _ r := r;
  on_delete _ d := Some d }.

#[export] Instance file_locations_table : Table FileLocation := {
  tbl := file_locations; set_tbl := set_file_locations; row_id := fl_id;
  violates r d := first_violation [
    (dangling (fl_file_id r) (files d), foreign_key_violation);
    (dangling (fl_storage_id r) (storages d), foreign_key_violation);
    (clash fl_id (fl_id r) (λ o, N.eqb (fl_file_id o) (fl_file_id r) &&
       N.eqb (fl_storage_id o) (fl_storage_id r)) (file_locations d), unique_violation)];
  touch _ r := r;
  on_delete _ d := Some d }.

#[export] Instance sync_tasks_table : Table SyncTask := {
  tbl := sync_tasks; set_tbl := set_sync_tasks; row_id := tk_id;
  violates r d := first_violation [
    (dangling (tk_file_id r) (files d), foreign_key_violation);
    (dangling (tk_source_storage_id r) (storages d), foreign_key_violation);
    (dangling (tk_target_storage_id r) (storages d), foreign_key_violation);
    (dangling_opt (tk_project_id r) (projects d), foreign_key_violation)];
  touch := set_tk_updated_at;
  on_delete _ d := Some d }.

#[export] Instance project_storages_table : Table ProjectStorage := {
  tbl := project_storages; set_tbl := set_project_storages; row_id := ps_id;
  violates r d := first_violation [
    (dangling (ps_project_id r) (projects d), foreign_key_violation);
    (dangling (ps_storage_id r) (storages d), foreign_key_violation);
    (clash ps_id (ps_id r) (λ o, N.eqb (ps_project_id o) (ps_project_id r) &&
       N.eqb (ps_storage_id o) (ps_storage_id r)) (project_storages d), unique_violation)];
  touch := set_ps_updated_at;
  on_delete _ d := Some d }.

(** Deleting a user cascades to what belongs to them; [projects.owner_id] has
    no ON DELETE action, so a project they own refuses the deletion. *)
Definition forget_user (id : Uuid) (d : Db) : option Db :=
  if exists_row (λ p, option_uuid_eqb (p_owner_id p) (Some id)) (projects d) then None
  else Some (
    set_refresh_tokens (keep (λ r, uuid_ne (rt_user_id r) id) (refresh_tokens d))
    (set_user_projects (keep (λ r, uuid_ne (up_user_id r) id) (user_projects d))
    (set_user_storages (keep (λ r, uuid_ne (us_user_id r) id) (user_storages d))
    (set_shared_links (keep (λ r, uuid_ne (sl_created_by r) id) (shared_links d))
    (set_upload_sessions (keep (λ r, uuid_ne (ss_user_id r) id) (upload_sessions d))
    (set_file_access_events
       ((λ r, if option_uuid_eqb (ev_user_id r) (Some id) then set_ev_user_id None r else r)
          <$> file_access_events d) d)))))).

#[export] Instance users_table : Table User := {
  tbl := users; set_tbl := set_users; row_id := u_id;
  violates r d := first_violation [
    (negb (String.eqb (u_role r) "admin" || String.eqb (u_role r) "user"), check_violation);
    (clash u_id (u_id r) (λ o, String.eqb (u_username o) (u_username r)) (users d),
     unique_violation)];
  touch := set_u_updated_at;
  on_delete := forget_user }.

#[export] Instance refresh_tokens_table : Table RefreshToken := {
  tbl := refresh_tokens; set_tbl := set_refresh_tokens; row_id := rt_id;
  violates r d := first_violation [
    (dangling (rt_user_id r) (users d), foreign_key_violation);
    (clash rt_id (rt_id r) (λ o, String.eqb (rt_token_hash o) (rt_token_hash r))
       (refresh_tokens d), unique_violation)];
  touch _ r := r;
  on_delete _ d := Some d }.

#[export] Instance user_projects_table : Table UserProject := {
  tbl := user_projects; set_tbl := set_user_projects; row_id := up_id;
  violates r d := first_violation [
    (dangling (up_user_id r) (users d), foreign_key_violation);
    (dangling (up_project_id r) (projects d), foreign_key_violation);
    (clash up_id (up_id r) (λ o, N.eqb (up_user_id o) (up_user_id r) &&
       N.eqb (up_project_id o) (up_project_id r)) (user_projects d), unique_violation)];
  touch _ r := r;
  on_delete _ d := Some d }.

#[export] Instance user_storages_table : Table UserStorage := {
  tbl := user_storages; set_tbl := set_user_storages; row_id := us_id;
  violates r d := first_violation [
    (dangling (us_user_id r) (users d), foreign_key_violation);
    (dangling (us_storage_id r) (storages d), foreign_key_violation);
    (clash us_id (us_id r) (λ o, N.eqb (us_user_id o) (us_user_id r) &&
       N.eqb (us_storage_id o) (us_storage_id r)) (user_storages d), unique_violation)];
  touch _ r := r;
  on_delete _ d := Some d }.

#[export] Instance shared_links_table : Table SharedLink := {
  tbl := shared_links; set_tbl := set_shared_links; row_id := sl_id;
  violates r d := first_violation [
    (dangling (sl_file_id r) (files d), foreign_key_violation);
    (dangling (sl_project_id r) (projects d), foreign_key_violation);
    (dangling (sl_created_by r) (users d), foreign_key_violation);
    (clash sl_id (sl_id r) (λ o, String.eqb (sl_token o) (sl_token r)) (shared_links d),
     unique_violation)];
  touch _ r := r;
  on_delete _ d := Some d }.

#[export] Instance upload_sessions_table : Table UploadSession := {
  tbl := upload_sessions; set_tbl := set_upload_sessions; row_id := ss_id;
  violates r d := first_violation [
    (dangling (ss_project_id r) (projects d), foreign_key_violation);
    (dangling (ss_user_id r) (users d), foreign_key_violation)];
  touch _ r := r;
  on_delete _ d := Some d }.

#[export] Instance nodes_table : Table Node := {
  tbl := nodes; set_tbl := set_nodes; row_id := nd_id;
  violates r d := first_violation [
    (clash nd_id (nd_id r) (λ o, String.eqb (nd_node_id o) (nd_node_id r)) (nodes d),
     unique_violation)];
  touch _ r := r;
  on_delete _ d := Some d }.

#[export] Instance backup_configs_table : Table BackupConfig := {
  tbl := backup_configs; set_tbl := set_backup_configs; row_id := bc_id;
  violates r d := first_violation [
    (dangling (bc_storage_id r) (storages d), foreign_key_violation)];
  touch _ r := r;
  on_delete id d := Some (set_backup_history
    ((λ r, if option_uuid_eqb (br_config_id r) (Some id) then set_br_config_id None r else r)
       <$> backup_history d) d) }.

#[export] Instance backup_history_table : Table BackupRecord := {
  tbl := backup_history; set_tbl := set_backup_history; row_id := br_id;
  violates r d := first_violation [
    (dangling_opt (br_config_id r) (backup_configs d), foreign_key_violation);
    (dangling (br_storage_id r) (storages d), foreign_key_violation)];
  touch _ r := r;
  on_delete _ d := Some d }.

#[export] Instance file_access_events_table : Table FileAccessEvent := {
  tbl := file_access_events; set_tbl := set_file_access_events; row_id := ev_id;
  violates r d := first_violation [
    (dangling (ev_file_id r) (files d), foreign_key_violation);
    (dangling_opt (ev_storage_id r) (storages d), foreign_key_violation);
    (dangling_opt (ev_user_id r) (users d), foreign_key_violation)];
  touch _ r := r;
  on_delete _ d := Some d }.
