(* ===== verification/Laws.v ===== *)
(** * Laws of the monad and of the SQL statements

    How the outcome of a composed computation splits into the outcomes of its
    parts ([bind_ok] and its companions, driven by the tactic [m_inv]); what a
    statement reads and changes; and [Guar], the rely-free guarantee of a
    computation: a preorder between the states before and after it, closed
    under the combinators of World.v, used for invariants and frames. *)

From S2P Require Import Prelude Json Schema Env World Tables.

(** ** Tables as sets of rows *)

Section rows.
Context {R : Type}.
Implicit Types (t : gmap Uuid R) (P : R → bool).

Lemma elem_of_rows t r : r ∈ rows_of t ↔ ∃ id, t !! id = Some r.
Proof.
  unfold rows_of. rewrite list_elem_of_fmap. split.
  - intros ([id r'] & -> & Hin). exists id. by apply elem_of_map_to_list.
  - intros [id Hid]. exists (id, r). split; [done|]. by apply elem_of_map_to_list.
Qed.

Lemma exists_row_true P t :
  exists_row P t = true ↔ ∃ id r, t !! id = Some r ∧ P r = true.
Proof.
  unfold exists_row. rewrite existsb_exists. split.
  - intros (r & Hin & HP). apply list_elem_of_In, elem_of_rows in Hin as [id ?]. eauto.
  - intros (id & r & Hid & HP). exists r. split; [|done].
    apply list_elem_of_In, elem_of_rows. eauto.
Qed.

Lemma exists_row_false P t :
  exists_row P t = false ↔ ∀ id r, t !! id = Some r → P r = false.
Proof.
  rewrite <- not_true_iff_false, exists_row_true. split.
  - intros H id r Hid. apply not_true_iff_false. intros HP. apply H. eauto.
  - intros H (id & r & Hid & HP). rewrite (H _ _ Hid) in HP. done.
Qed.

Lemma lookup_keep P t id r : keep P t !! id = Some r ↔ t !! id = Some r ∧ P r = true.
Proof. unfold keep. by rewrite map_lookup_filter_Some. Qed.

Lemma lookup_keep_None P t id :
  keep P t !! id = None ↔ ∀ r, t !! id = Some r → P r = false.
Proof.
  unfold keep. rewrite map_lookup_filter_None. split.
  - intros [H|H] r Hr; [congruence|]. apply not_true_iff_false. by apply (H r).
  - intros H. destruct (t !! id) as [r|] eqn:Hr; [right|by left].
    intros r' [= <-]. simpl. by rewrite (H r).
Qed.

(** The keys of the rows selected from a well-keyed table are distinct. *)
Lemma NoDup_keys (key : R → Uuid) P t :
  (∀ id r, t !! id = Some r → key r = id) →
  NoDup (map key (filter (λ r, P r = true) (rows_of t))).
Proof.
  intros Hk. apply NoDup_fmap_2_strong.
  - intros x y [_ [i Hi]%elem_of_rows]%list_elem_of_filter [_ [j Hj]%elem_of_rows]%list_elem_of_filter.
    rewrite (Hk _ _ Hi), (Hk _ _ Hj). intros ->. congruence.
  - apply list.NoDup_filter, (NoDup_fmap_1 key).
    assert (key <$> rows_of t = (map_to_list t).*1) as ->; [|apply NoDup_fst_map_to_list].
    unfold rows_of. rewrite <- list_fmap_compose. apply list_fmap_ext. intros i [id r] Hi. simpl.
    apply Hk, elem_of_map_to_list. by eapply list_elem_of_lookup_2.
Qed.

Lemma dangling_false id t : dangling id t = false ↔ is_Some (t !! id).
Proof. unfold dangling. destruct (t !! id); split; [done.. | done | by intros []]. Qed.

Lemma dangling_opt_false oid t :
  dangling_opt oid t = false ↔ ∀ id, oid = Some id → is_Some (t !! id).
Proof.
  unfold dangling_opt. destruct oid as [id|]; [|by split].
  rewrite dangling_false. split; [by intros ? ? [= <-] | eauto].
Qed.

Lemma clash_false key id P t :
  clash key id P t = false ↔
  ∀ i r, t !! i = Some r → P r = true → key r = id.
Proof.
  unfold clash. rewrite exists_row_false. split; intros H i r Hi.
  - intros HP. specialize (H _ _ Hi). rewrite HP, andb_true_r in H.
    apply negb_false_iff, N.eqb_eq in H. done.
  - destruct (P r) eqn:HP; [|by rewrite andb_false_r].
    rewrite (H _ _ Hi HP), N.eqb_refl. done.
Qed.

Lemma uuid_ne_true a b : uuid_ne a b = true ↔ a ≠ b.
Proof. unfold uuid_ne. by rewrite negb_true_iff, N.eqb_neq. Qed.
Lemma uuid_ne_false a b : uuid_ne a b = false ↔ a = b.
Proof. unfold uuid_ne. by rewrite negb_false_iff, N.eqb_eq. Qed.
End rows.

Lemma first_violation_cons b e l :
  first_violation ((b, e) :: l) = None ↔ b = false ∧ first_violation l = None.
Proof. destruct b; simpl; naive_solver. Qed.

Lemma first_violation_None l :
  first_violation l = None ↔ ∀ b e, (b, e) ∈ l → b = false.
Proof.
  induction l as [|[[] e] l IH]; simpl.
  - split; [intros _ ? ? []%not_elem_of_nil | done].
  - split; [done|]. intros H. by specialize (H true e ltac:(left)).
  - rewrite IH. split.
    + intros H b e' [[= -> ->]|?]%elem_of_cons; eauto.
    + intros H b e' ?. apply (H b e'). by right.
Qed.

Section laws.
Context {E : Env}.

(** ** Outcomes of composed computations *)

Lemma bind_unfold {A B} (m : M A) (k : A → M B) w :
  (m ≫= k) w = match m w with
               | (w', Ok a) => k a w'
               | (w', Err e) => (w', Err e)
               | (w', Panic) => (w', Panic)
               end.
Proof. reflexivity. Qed.

Lemma bind_ok {A B} (m : M A) (k : A → M B) w w' b :
  (m ≫= k) w = (w', Ok b) → ∃ a w1, m w = (w1, Ok a) ∧ k a w1 = (w', Ok b).
Proof. rewrite bind_unfold. destruct (m w) as [w1 []]; [eauto | done..]. Qed.

Lemma bind_step {A B} (m : M A) (k : A → M B) w w1 a :
  m w = (w1, Ok a) → (m ≫= k) w = k a w1.
Proof. rewrite bind_unfold. by intros ->. Qed.

Lemma bind_err {A B} (m : M A) (k : A → M B) w w1 e :
  m w = (w1, Err e) → (m ≫= k) w = (w1, Err e).
Proof. rewrite bind_unfold. by intros ->. Qed.

Lemma ret_ok {A} (a b : A) w w' : mret (M := M) a w = (w', Ok b) → w' = w ∧ b = a.
Proof. by intros [= <- <-]. Qed.

Lemma gets_ok {A} (f : World → A) w w' a : gets f w = (w', Ok a) → w' = w ∧ a = f w.
Proof. by intros [= <- <-]. Qed.

Lemma throw_ok {A} e w w' (a : A) : throw e w = (w', Ok a) → False.
Proof. done. Qed.

Lemma lift_ok {A} (r : Result A) w w' a : lift r w = (w', Ok a) → w' = w ∧ r = Ok a.
Proof. by intros [= <- <-]. Qed.

Lemma ensure_ok b e w w' u : ensure b e w = (w', Ok u) → w' = w ∧ b = true.
Proof. unfold ensure. destruct b; [by intros [= <- <-] | done]. Qed.

Lemma or_throw_ok {A} e (m : M (option A)) w w' a :
  or_throw e m w = (w', Ok a) → m w = (w', Ok (Some a)).
Proof.
  unfold or_throw. intros (o & w1 & Hm & Hl)%bind_ok.
  apply lift_ok in Hl as [-> Ho]. destruct o; simpl in Ho; congruence.
Qed.

Lemma try_with_ok {A B} (m : M A) (f : A → M B) g w w' b :
  try_with m f g w = (w', Ok b) →
  (∃ a w1, m w = (w1, Ok a) ∧ f a w1 = (w', Ok b)) ∨
  (∃ e w1, m w = (w1, Err e) ∧ g e w1 = (w', Ok b)).
Proof. unfold try_with. destruct (m w) as [w1 []]; eauto 6. done. Qed.

Lemma map_err_ok {A} f (m : M A) w w' a :
  map_err f m w = (w', Ok a) → m w = (w', Ok a).
Proof.
  unfold map_err. intros [(a' & w1 & Hm & Hr)|(e & w1 & _ & Hr)]%try_with_ok; [|done].
  apply ret_ok in Hr as [-> ->]. done.
Qed.

Lemma for_each_ok {A} (f : A → M unit) x l w w' u :
  for_each f (x :: l) w = (w', Ok u) →
  ∃ w1, f x w = (w1, Ok tt) ∧ for_each f l w1 = (w', Ok u).
Proof. intros ([] & w1 & Hx & H)%bind_ok. eauto. Qed.

Lemma transaction_ok {A} (m : M A) w w' a :
  transaction m w = (w', Ok a) ↔ m w = (w', Ok a).
Proof. unfold transaction. destruct (m w) as [w1 []]; naive_solver. Qed.

Lemma transaction_not_ok {A} (m : M A) w w' r :
  transaction m w = (w', r) → is_ok r = false → db w' = db w.
Proof. unfold transaction. destruct (m w) as [w1 []]; by intros [= <- <-]. Qed.

(** Running a computation on a concrete state. *)
Lemma run_ok {A} (r : World * Result A) a : r.2 = Ok a → r = (r.1, Ok a).
Proof. destruct r. by intros [= ->]. Qed.

(** ** Guarantees *)

Definition Guar (R : relation World) {A} (m : M A) : Prop := ∀ w, R w (m w).1.

Section guar.
Context (R : relation World) {HR : PreOrder R}.

Lemma guar_ret {A} (a : A) : Guar R (mret a).
Proof. intros w. simpl. reflexivity. Qed.
Lemma guar_throw {A} e : Guar R (throw e : M A).
Proof. intros w. simpl. reflexivity. Qed.
Lemma guar_lift {A} (r : Result A) : Guar R (lift r).
Proof. intros w. simpl. reflexivity. Qed.
Lemma guar_gets {A} (f : World → A) : Guar R (gets f).
Proof. intros w. simpl. reflexivity. Qed.
Lemma guar_ensure b e : Guar R (ensure b e).
Proof. intros w. unfold ensure. destruct b; simpl; reflexivity. Qed.

Lemma guar_bind {A B} (m : M A) (k : A → M B) :
  Guar R m → (∀ a, Guar R (k a)) → Guar R (m ≫= k).
Proof.
  intros Hm Hk w. specialize (Hm w). rewrite bind_unfold.
  destruct (m w) as [w1 [a|e|]]; simpl in *; [|done..].
  etrans; [done|]. apply (Hk a).
Qed.

Lemma guar_try_with {A B} (m : M A) (f : A → M B) g :
  Guar R m → (∀ a, Guar R (f a)) → (∀ e, Guar R (g e)) → Guar R (try_with m f g).
Proof.
  intros Hm Hf Hg w. specialize (Hm w). unfold try_with.
  destruct (m w) as [w1 [a|e|]]; simpl in *; [| |done]; (etrans; [done|]).
  - apply (Hf a).
  - apply (Hg e).
Qed.

Lemma guar_ok {A} (m : M A) : Guar R m → Guar R (ok m).
Proof. intros. apply guar_try_with; [done | intros; apply guar_ret..]. Qed.
Lemma guar_ignore {A} (m : M A) : Guar R m → Guar R (ignore m).
Proof. intros. apply guar_try_with; [done | intros; apply guar_ret..]. Qed.
Lemma guar_map_err {A} f (m : M A) : Guar R m → Guar R (map_err f m).
Proof. intros. apply guar_try_with; [done | intros; apply guar_ret | intros; apply guar_throw]. Qed.
Lemma guar_or_throw {A} e (m : M (option A)) : Guar R m → Guar R (or_throw e m).
Proof. intros. apply guar_bind; [done | intros; apply guar_lift]. Qed.
Lemma guar_fetch_one {A} (m : M (list A)) : Guar R m → Guar R (fetch_one m).
Proof. intros. apply guar_bind; [done|]. intros []; [apply guar_throw | apply guar_ret]. Qed.

Lemma guar_foldM {A B} (f : B → A → M B) b l :
  (∀ b a, Guar R (f b a)) → Guar R (foldM f b l).
Proof.
  intros Hf. revert b. induction l as [|x l IH]; intros b; simpl; [apply guar_ret|].
  apply guar_bind; [apply Hf | apply IH].
Qed.
Lemma guar_for_each {A} (f : A → M unit) l : (∀ a, Guar R (f a)) → Guar R (for_each f l).
Proof. intros Hf. apply guar_foldM. auto. Qed.
End guar.

(** An observation of the state left unchanged is such a preorder. *)
Definition same {T} (f : World → T) : relation World := λ w w', f w' = f w.
#[export] Instance same_preorder {T} (f : World → T) : PreOrder (same f).
Proof. split; [done | intros ? ? ? H1 H2; unfold same in *; congruence]. Qed.

(** Preservation of an invariant is one too. *)
Definition preserves (I : World → Prop) : relation World := λ w w', I w → I w'.
#[export] Instance preserves_preorder I : PreOrder (preserves I).
Proof. split; [intros ? ?; done | intros ? ? ? H1 H2 H; auto]. Qed.

Lemma guar_outcome (R : relation World) {A} (m : M A) w w' r :
  Guar R m → m w = (w', r) → R w w'.
Proof. intros H Hm. specialize (H w). by rewrite Hm in H. Qed.

(** ** Statements *)

Lemma new_uuid_eq w :
  new_uuid w = (set_draws (draws w + 1)%N w, Ok (gen_uuid (draws w))).
Proof. reflexivity. Qed.

Section statements.
Context {R : Type} `{Table R}.

Lemma elem_of_select_in (P : R → bool) d r :
  r ∈ select_in P d ↔ P r = true ∧ ∃ id, tbl d !! id = Some r.
Proof. unfold select_in. by rewrite list_elem_of_filter, elem_of_rows. Qed.

(** The only row that satisfies a condition. *)
Lemma select_in_unique (P : R → bool) d i r :
  tbl d !! i = Some r → P r = true →
  (∀ j r', tbl d !! j = Some r' → P r' = true → j = i) → select_in P d = [r].
Proof.
  intros Hr HP Hu. unfold select_in, rows_of.
  assert (∀ l : list (Uuid * R),
    filter (λ r, P r = true) l.*2 = (filter (λ kv : Uuid * R, P kv.2 = true) l).*2) as ->.
  { induction l as [|[k x] l IH]; [done|]. cbn [fmap list_fmap]. rewrite !filter_cons. simpl.
    case_decide; [|done]. cbn. by f_equal. }
  set (l := filter _ (map_to_list _)).
  assert (NoDup l) as Hnd by (apply list.NoDup_filter; apply NoDup_map_to_list).
  assert (∀ x, x ∈ l ↔ x = (i, r)) as Hl.
  { intros [j r']. unfold l. rewrite list_elem_of_filter, elem_of_map_to_list. split.
    - intros [HP' Hj]. assert (j = i) as -> by eauto. congruence.
    - by intros [= -> ->]. }
  destruct l as [|x [|y l']].
  - exfalso. apply (not_elem_of_nil (i, r)). by apply Hl.
  - assert (x = (i, r)) as -> by (apply Hl; by left). done.
  - assert (x = (i, r)) by (apply Hl; by left). assert (y = (i, r)) by (apply Hl; set_solver).
    apply list.NoDup_cons in Hnd as [Hx _]. set_solver.
Qed.

Lemma select_in_none (P : R → bool) d :
  (∀ j r, tbl d !! j = Some r → P r = false) → select_in P d = [].
Proof.
  intros Hn. destruct (select_in P d) as [|r l] eqn:Hl; [done|].
  assert (r ∈ select_in P d) as [HP [id Hid]]%elem_of_select_in by (rewrite Hl; by left).
  by rewrite (Hn _ _ Hid) in HP.
Qed.

Lemma head_select_Some (P : R → bool) d r :
  head (select_in P d) = Some r → P r = true ∧ ∃ id, tbl d !! id = Some r.
Proof. intros Hh. apply elem_of_select_in. destruct (select_in P d); simplify_eq/=. by left. Qed.

Lemma head_select_None (P : R → bool) d :
  head (select_in P d) = None ↔ ∀ id r, tbl d !! id = Some r → P r = false.
Proof.
  split.
  - intros Hh id r Hid. apply not_true_iff_false. intros HP.
    assert (r ∈ select_in P d) as Hin by (apply elem_of_select_in; eauto).
    destruct (select_in P d); [by apply not_elem_of_nil in Hin | done].
  - intros Hn. destruct (select_in P d) as [|r l] eqn:Hl; [done|].
    assert (r ∈ select_in P d) as [HP [id Hid]]%elem_of_select_in by (rewrite Hl; by left).
    by rewrite (Hn _ _ Hid) in HP.
Qed.

(** An INSERT that succeeds: the identifier was free, no constraint was
    violated, and the table gained exactly this row. *)
Lemma sql_insert_ok mk w w' (r : R) :
  sql_insert mk w = (w', Ok r) →
  r = mk (gen_uuid (draws w)) (now w) ∧
  tbl (db w) !! gen_uuid (draws w) = None ∧
  violates r (db w) = None ∧
  w' = set_db (set_tbl (<[gen_uuid (draws w) := r]> (tbl (db w))) (db w))
              (set_draws (draws w + 1)%N w).
Proof.
  unfold sql_insert. rewrite bind_unfold, new_uuid_eq. unfold insert_row. simpl.
  destruct (tbl (db w) !! _) eqn:Hid; simpl; [done|].
  destruct (violates _ _) eqn:Hv; [done|]. by intros [= <- <-].
Qed.

(** An INSERT that fails changes nothing (but consumes its random draw), and
    it fails with a database error. *)
Lemma sql_insert_err mk w w' e :
  sql_insert (R := R) mk w = (w', Err e) →
  w' = set_draws (draws w + 1)%N w ∧ ∃ s, e = Database s.
Proof.
  unfold sql_insert. rewrite bind_unfold, new_uuid_eq. unfold insert_row. simpl.
  destruct (tbl (db w) !! _) eqn:Hid; simpl; [intros [= <- <-]; eauto|].
  destruct (violates _ _) eqn:Hv; [intros [= <- <-]; eauto | done].
Qed.

Lemma sql_insert_no_panic mk w w' : sql_insert (R := R) mk w ≠ (w', Panic).
Proof.
  unfold sql_insert. rewrite bind_unfold, new_uuid_eq. unfold insert_row.
  destruct (tbl _ !! _); [done|]. by destruct (violates _ _).
Qed.

Lemma sql_insert_succeeds mk w :
  let r := mk (gen_uuid (draws w)) (now w) in
  tbl (db w) !! gen_uuid (draws w) = None → violates r (db w) = None →
  sql_insert mk w =
    (set_db (set_tbl (<[gen_uuid (draws w) := r]> (tbl (db w))) (db w))
            (set_draws (draws w + 1)%N w), Ok (r : R)).
Proof.
  intros r Hid Hv. unfold sql_insert. rewrite bind_unfold, new_uuid_eq. unfold insert_row. simpl.
  rewrite Hid. fold r. by rewrite Hv.
Qed.

Lemma sql_set_id_if_ok id P f w w' (o : option R) :
  sql_set_id_if id P f w = (w', Ok o) →
  match o with
  | None => w' = w ∧ ∀ r, tbl (db w) !! id = Some r → P r = false
  | Some r' =>
      ∃ r, tbl (db w) !! id = Some r ∧ P r = true ∧ r' = touch (now w) (f r) ∧
           w' = set_db (set_tbl (<[id := r']> (tbl (db w))) (db w)) w
  end.
Proof.
  unfold sql_set_id_if. destruct (tbl (db w) !! id) as [r|] eqn:Hr.
  - destruct (P r) eqn:HP; intros [= <- <-]; [by eauto|].
    split; [done|]. by intros ? [= <-].
  - by intros [= <- <-].
Qed.

Lemma sql_set_id_ok id f w w' (o : option R) :
  sql_set_id id f w = (w', Ok o) →
  match o with
  | None => w' = w ∧ tbl (db w) !! id = None
  | Some r' =>
      ∃ r, tbl (db w) !! id = Some r ∧ r' = touch (now w) (f r) ∧
           w' = set_db (set_tbl (<[id := r']> (tbl (db w))) (db w)) w
  end.
Proof.
  intros Ho%sql_set_id_if_ok. destruct o as [r'|]; [naive_solver|].
  destruct Ho as [-> Hn]. split; [done|].
  destruct (tbl (db w) !! id) as [r|]; [|done]. by specialize (Hn r eq_refl).
Qed.

Lemma sql_find_if_ok id P w w' (o : option R) :
  sql_find_if id P w = (w', Ok o) →
  w' = w ∧ match o with
           | Some r => tbl (db w) !! id = Some r ∧ P r = true
           | None => ∀ r, tbl (db w) !! id = Some r → P r = false
           end.
Proof.
  intros [-> ->]%gets_ok. split; [done|].
  destruct (tbl (db w) !! id) as [r|]; simpl; [|done].
  destruct (P r) eqn:HP; [done|]. by intros ? [= <-].
Qed.

Lemma sql_update_id_ok id f w w' (o : option R) :
  sql_update_id id f w = (w', Ok o) →
  match tbl (db w) !! id with
  | None => w' = w ∧ o = None
  | Some r =>
      let r' := touch (now w) (f r) in
      violates r' (db w) = None ∧
      w' = set_db (set_tbl (<[id := r']> (tbl (db w))) (db w)) w ∧ o = Some r'
  end.
Proof.
  unfold sql_update_id. destruct (tbl (db w) !! id); [|by intros [= <- <-]].
  destruct (violates _ _) eqn:?; [done | by intros [= <- <-]].
Qed.

(** A DELETE on a table whose rows nothing depends on. *)
Lemma sql_delete_plain (P : R → bool) w :
  (∀ id d, on_delete (R := R) id d = Some d) →
  sql_delete P w =
  (set_db (set_tbl (filter (λ kv, P kv.2 = false) (tbl (db w))) (db w)) w,
   Ok (filter (λ r, P r = true) (rows_of (tbl (db w))))).
Proof.
  intros Hc. unfold sql_delete.
  assert (∀ ids d, delete_cascade (R := R) ids d = Some d) as ->; [|done].
  intros ids d. unfold delete_cascade. induction ids as [|i ids IH]; simpl; [done|]. by rewrite Hc.
Qed.

(** What a statement may change: the draw counter and its own table. *)
Section guar.
Context (Rl : relation World) {HRl : PreOrder Rl}.
Hypothesis Hdraws : ∀ w n, Rl w (set_draws n w).
Hypothesis Htbl : ∀ w (t : gmap Uuid R), Rl w (set_db (set_tbl t (db w)) w).

Lemma guar_new_uuid : Guar Rl new_uuid.
Proof. intros w. apply Hdraws. Qed.

Lemma guar_insert_row id mk : Guar Rl (insert_row (R := R) id mk).
Proof.
  intros w. unfold insert_row. destruct (tbl (db w) !! id); simpl; [reflexivity|].
  destruct (violates _ _); simpl; [reflexivity | apply Htbl].
Qed.

Lemma guar_sql_insert mk : Guar Rl (sql_insert (R := R) mk).
Proof. apply guar_bind; [done | apply guar_new_uuid | intros; apply guar_insert_row]. Qed.

Lemma guar_sql_update P f : Guar Rl (sql_update (R := R) P f).
Proof. intros w. apply Htbl. Qed.

Lemma guar_sql_update_id id f : Guar Rl (sql_update_id (R := R) id f).
Proof.
  intros w. unfold sql_update_id. destruct (tbl (db w) !! id); simpl; [|reflexivity].
  destruct (violates _ _); simpl; [reflexivity | apply Htbl].
Qed.

Lemma guar_sql_set_id_if id P f : Guar Rl (sql_set_id_if (R := R) id P f).
Proof.
  intros w. unfold sql_set_id_if. destruct (tbl (db w) !! id) as [r|]; simpl; [|reflexivity].
  destruct (P r); simpl; [apply Htbl | reflexivity].
Qed.
Lemma guar_sql_set_id id f : Guar Rl (sql_set_id (R := R) id f).
Proof. apply guar_sql_set_id_if. Qed.

(** A table whose deletions cascade nowhere. *)
Lemma guar_sql_delete P :
  (∀ id d, on_delete (R := R) id d = Some d) → Guar Rl (sql_delete (R := R) P).
Proof.
  intros Hc w. unfold sql_delete.
  assert (∀ ids d, delete_cascade (R := R) ids d = Some d) as Hd.
  { intros ids d. unfold delete_cascade. induction ids as [|i ids IH]; simpl; [done|].
    by rewrite Hc. }
  rewrite Hd. simpl. apply Htbl.
Qed.
End guar.
End statements.
End laws.

(** ** Tactics *)

(** Split a successful composed computation into its steps. *)
Ltac m_inv1 :=
  match goal with
  | H : (_ ≫= _) ?w = (_, Ok _) |- _ => apply bind_ok in H as (? & ? & ? & H)
  | H : mret _ _ = (_, Ok _) |- _ => apply ret_ok in H as [-> ->]
  | H : gets _ _ = (_, Ok _) |- _ => apply gets_ok in H as [-> ->]
  | H : throw _ _ = (_, Ok _) |- _ => by apply throw_ok in H
  | H : lift _ _ = (_, Ok _) |- _ => apply lift_ok in H as [-> H]
  | H : ensure _ _ _ = (_, Ok _) |- _ => apply ensure_ok in H as [-> H]
  | H : or_throw _ _ _ = (_, Ok _) |- _ => apply or_throw_ok in H
  | H : map_err _ _ _ = (_, Ok _) |- _ => apply map_err_ok in H
  | H : sql_find _ _ = (_, Ok _) |- _ => apply gets_ok in H as [-> H]
  | H : sql_select _ _ = (_, Ok _) |- _ => apply gets_ok in H as [-> ->]
  | H : sql_find_if _ _ _ = (_, Ok _) |- _ => apply sql_find_if_ok in H as [-> H]
  | H : sql_select_first _ _ = (_, Ok _) |- _ => apply gets_ok in H as [-> H]
  end.
Ltac m_inv := repeat m_inv1.

(** Prove a [Guar] goal by the structure of the computation; the statements'
    premises are about record updates and hold by computation. *)
Ltac guar_step :=
  match goal with
  | |- PreOrder _ => apply _
  | |- Guar _ (mret _) => apply guar_ret
  | |- Guar _ (throw _) => apply guar_throw
  | |- Guar _ (lift _) => apply guar_lift
  | |- Guar _ (gets _) => apply guar_gets
  | |- Guar _ (sql_find _) => apply guar_gets
  | |- Guar _ (sql_find_if _ _) => apply guar_gets
  | |- Guar _ (sql_select _) => apply guar_gets
  | |- Guar _ (sql_select_first _) => apply guar_gets
  | |- Guar _ (ensure _ _) => apply guar_ensure
  | |- Guar _ (or_throw _ _) => apply guar_or_throw
  | |- Guar _ (fetch_one _) => apply guar_fetch_one
  | |- Guar _ (map_err _ _) => apply guar_map_err
  | |- Guar _ (ok _) => apply guar_ok
  | |- Guar _ (ignore _) => apply guar_ignore
  | |- Guar _ (try_with _ _ _) => apply guar_try_with
  | |- Guar _ (for_each _ _) => apply guar_for_each
  | |- Guar _ (foldM _ _ _) => apply guar_foldM
  | |- Guar _ (_ ≫= _) => apply guar_bind
  | |- Guar _ new_uuid => apply guar_new_uuid
  | |- Guar _ (sql_insert _) => apply guar_sql_insert
  | |- Guar _ (sql_update _ _) => apply guar_sql_update
  | |- Guar _ (sql_update_id _ _) => apply guar_sql_update_id
  | |- Guar _ (sql_set_id _ _) => apply guar_sql_set_id
  | |- Guar _ (sql_set_id_if _ _ _) => apply guar_sql_set_id_if
  | |- Guar _ (sql_delete _) => apply guar_sql_delete
  | |- Guar _ (match ?x with _ => _ end) => destruct x
  | |- Guar _ (let _ := _ in _) => cbv zeta
  | |- ∀ _, Guar _ _ => intros
  | |- ∀ _ _, Guar _ _ => intros
  | |- ∀ _, _ => intros; reflexivity
  | |- Guar _ _ => solve [eauto with app]
  end.
Ltac guar := repeat guar_step.

(** Evaluate a composed computation as far as its steps are known. *)
Ltac m_run := repeat (progress (rewrite ?bind_unfold; simpl)).
