(* ===== verification/Projects.v ===== *)
(** * Projects and storage assignments (src/src/db/models.rs)

    The operations of [impl Project] and [impl ProjectStorage]. A project is
    deleted by setting [deleted_at]; every lookup ignores deleted projects. *)

From S2P Require Import Prelude Json Schema Env World Tables Laws.

Record CreateProject := mkCreateProject {
  cp_name : string;
  cp_slug : string;
  cp_hot_to_cold_days : option Z
}.

(** The inner option of [hot_to_cold_days] is the new value, the outer one
    whether there is one. *)
Record UpdateProject := mkUpdateProject {
  up_name : option string;
  up_slug : option string;
  up_hot_to_cold_days : option (option Z)
}.

Record CreateProjectStorage := mkCreateProjectStorage {
  cps_storage_id : Uuid;
  cps_container_override : option string;
  cps_prefix_override : option string
}.

Record UpdateProjectStorage := mkUpdateProjectStorage {
  ups_container_override : option (option string);
  ups_prefix_override : option (option string);
  ups_is_active : option bool
}.

(** [ProjectStorageWithDetails]: an assignment with what is shown of its storage. *)
Record ProjectStorageWithDetails := mkProjectStorageWithDetails {
  psd_assignment : ProjectStorage;
  psd_storage_name : string;
  psd_storage_type : string;
  psd_is_hot : bool;
  psd_enabled : bool
}.

Definition is_live (p : Project) : bool :=
  match p_deleted_at p with None => true | Some _ => false end.

Module Project.
Section ops.
Context {E : Env}.

Definition not_found (id : Uuid) : AppError :=
  NotFound ("Project " +:+ uuid_str id +:+ " not found").

Definition create (input : CreateProject) (owner_id : option Uuid) : M Schema.Project :=
  sql_insert (λ id t, mkProject id (cp_name input) (cp_slug input)
    (cp_hot_to_cold_days input) owner_id t t None).

Definition find_by_id (id : Uuid) : M Schema.Project :=
  or_throw (not_found id) (sql_find_if id is_live).

Definition find_by_slug (slug : string) : M Schema.Project :=
  or_throw (NotFound ("Project with slug '" +:+ slug +:+ "' not found"))
    (sql_select_first (λ p, String.eqb (p_slug p) slug && is_live p)).

Definition list : M (list Schema.Project) :=
  l ← sql_select is_live; mret (order_by (desc p_created_at) l).

Definition list_for_owner (owner_id : Uuid) : M (Datatypes.list Schema.Project) :=
  l ← sql_select (λ p, is_live p && option_uuid_eqb (p_owner_id p) (Some owner_id));
  mret (order_by (desc p_created_at) l).

(** [EXISTS (SELECT 1 FROM user_projects ...)]. *)
Definition has_member (d : Db) (project_id user_id : Uuid) : bool :=
  exists_row (λ up, N.eqb (up_project_id up) project_id && N.eqb (up_user_id up) user_id)
    (user_projects d).

Definition list_accessible (user_id : Uuid) : M (Datatypes.list Schema.Project) :=
  d ← gets db;
  l ← sql_select (λ p, is_live p &&
        (option_uuid_eqb (p_owner_id p) (Some user_id) || has_member d (p_id p) user_id));
  mret (order_by (desc p_created_at) l).

Definition update (id : Uuid) (input : UpdateProject) : M Schema.Project :=
  current ← find_by_id id;
  let name := default (p_name current) (up_name input) in
  let slug := default (p_slug current) (up_slug input) in
  let hot_to_cold_days :=
    match up_hot_to_cold_days input with
    | Some val => val
    | None => p_hot_to_cold_days current
    end in
  or_throw (Database RowNotFound)
    (sql_update_id id (λ p, set_p_name name (set_p_slug slug
       (set_p_hot_to_cold_days hot_to_cold_days p)))).

Definition delete (id : Uuid) : M unit :=
  t ← gets now;
  or_throw (not_found id) (sql_set_id_if id is_live (set_p_deleted_at (Some t))) ≫= λ _, mret tt.
End ops.
End Project.

Module ProjectStorage.
Section ops.
Context {E : Env}.

Definition assignment_not_found : AppError :=
  NotFound "Project storage assignment not found".

Definition is_pair (project_id storage_id : Uuid) (ps : Schema.ProjectStorage) : bool :=
  N.eqb (ps_project_id ps) project_id && N.eqb (ps_storage_id ps) storage_id.

Definition create (project_id : Uuid) (input : CreateProjectStorage) : M Schema.ProjectStorage :=
  sql_insert (λ id t, mkProjectStorage id project_id (cps_storage_id input)
    (cps_container_override input) (cps_prefix_override input) true t t).

Definition with_details (d : Db) (ps : Schema.ProjectStorage) :
    option ProjectStorageWithDetails :=
  s ← storages d !! ps_storage_id ps;
  Some (mkProjectStorageWithDetails ps (st_name s) (st_storage_type s) (st_is_hot s)
          (st_enabled s)).

(** The assignments of a project with their storages, hot ones first. *)
Definition list_for_project (project_id : Uuid) : M (list ProjectStorageWithDetails) :=
  d ← gets db;
  l ← sql_select (λ ps, N.eqb (ps_project_id ps) project_id);
  mret (order_by (then_by (desc (λ x, bool_key (psd_is_hot x))) (asc_str psd_storage_name))
    (omap (with_details d) l)).

Definition update (project_id storage_id : Uuid) (input : UpdateProjectStorage) :
    M Schema.ProjectStorage :=
  current ← or_throw assignment_not_found (sql_select_first (is_pair project_id storage_id));
  let container_override :=
    match ups_container_override input with
    | Some v => v
    | None => ps_container_override current
    end in
  let prefix_override :=
    match ups_prefix_override input with
    | Some v => v
    | None => ps_prefix_override current
    end in
  let is_active := default (ps_is_active current) (ups_is_active input) in
  fetch_one (sql_update (is_pair project_id storage_id) (λ ps,
    set_ps_container_override container_override
      (set_ps_prefix_override prefix_override (set_ps_is_active is_active ps)))).

Definition delete (project_id storage_id : Uuid) : M unit :=
  gone ← sql_delete (R := Schema.ProjectStorage) (is_pair project_id storage_id);
  ensure (negb (Nat.eqb (length gone) 0)) assignment_not_found.

Definition list_available_storages (project_id : Uuid) : M (list Storage) :=
  d ← gets db;
  l ← sql_select (λ s, st_enabled s &&
        negb (exists_row (λ ps, N.eqb (ps_project_id ps) project_id &&
                                N.eqb (ps_storage_id ps) (st_id s)) (project_storages d)));
  mret (order_by (asc_str st_name) l).

Definition find_for_project_and_storage (project_id storage_id : Uuid) :
    M (option Schema.ProjectStorage) :=
  sql_select_first (is_pair project_id storage_id).
End ops.
End ProjectStorage.
