(* ===== verification/Concrete.v ===== *)
(** * A concrete environment

    An instance of [Env] to evaluate the model on: identifiers are numbered
    in the order they are drawn and printed in the canonical 8-4-4-4-12 form,
    the hasher accumulates its input, tokens carry their claims, and the
    remote services are one map of objects that can be switched off. It
    satisfies the documented behaviour stated at the end of Env.v, so the
    theorems that rely on it apply to it. *)

From S2P Require Import Prelude Text Json Schema Env World.

(** ** Fixed-width hexadecimal text *)

Definition hex_digit (n : N) : Ascii.ascii :=
  Ascii.ascii_of_N (if (n <? 10)%N then 48 + n else 87 + n)%N.

Definition hex_value (c : Ascii.ascii) : N :=
  let n := Ascii.N_of_ascii c in if (n <? 58)%N then (n - 48)%N else (n - 87)%N.

(** The [k] low hexadecimal digits of [n], most significant first. *)
Fixpoint hex_fixed (k : nat) (n : N) (acc : string) : string :=
  match k with
  | O => acc
  | S k' => hex_fixed k' (n / 16)%N (String (hex_digit (n mod 16)) acc)
  end.

Definition hyphenate (s : string) : string :=
  String.substring 0 8 s +:+ "-" +:+ String.substring 8 4 s +:+ "-" +:+
  String.substring 12 4 s +:+ "-" +:+ String.substring 16 4 s +:+ "-" +:+
  String.substring 20 12 s.

Definition concrete_uuid_str (u : Uuid) : string := hyphenate (hex_fixed 32 u EmptyString).

Fixpoint hex_read (acc : N) (s : string) : N :=
  match s with
  | EmptyString => acc
  | String c s' => hex_read (if Ascii.eqb c "-"%char then acc else acc * 16 + hex_value c)%N s'
  end.

Definition concrete_uuid_parse (s : string) : option Uuid :=
  if Nat.eqb (String.length s) 36 && str_all is_uuid_char s
  then Some (hex_read 0 s) else None.

Definition concrete_digest (h : bytes) : string :=
  hex_fixed 64 (foldl (λ acc b, (acc * 257 + Byte.to_N b + 1) mod 2 ^ 256)%N 0%N h) EmptyString.

(** ** Percent-encoding *)

Definition unreserved (c : Ascii.ascii) : bool :=
  is_ascii_alphanumeric c || str_mem c "-_.~".
Definition upper_digit (n : N) : Ascii.ascii :=
  Ascii.ascii_of_N (if (n <? 10)%N then 48 + n else 55 + n)%N.
Definition percent (c : Ascii.ascii) : string :=
  if unreserved c then String c EmptyString
  else String "%" (String (upper_digit (Ascii.N_of_ascii c / 16))
         (String (upper_digit (Ascii.N_of_ascii c mod 16)) EmptyString)).
Fixpoint percent_encode (s : string) : string :=
  match s with
  | EmptyString => EmptyString
  | String c s' => percent c +:+ percent_encode s'
  end.

Lemma percent_no_slash s : str_mem slash (percent_encode s) = false.
Proof.
  induction s as [|c s IH]; [done|]. simpl. rewrite str_mem_app, IH, orb_false_r.
  by destruct c as [[] [] [] [] [] [] [] []].
Qed.

(** ** Tokens *)

(** Flat claims, as fields that are strings or natural numbers. *)
Definition Flat : Type := list (string * (string + N)).

Definition flat_field (kv : string * Json) : option (string * (string + N)) :=
  match kv.2 with
  | JString s => Some (kv.1, inl s)
  | JNumber (PosInt n) => Some (kv.1, inr n)
  | _ => None
  end.
Definition json_field (kv : string * (string + N)) : string * Json :=
  (kv.1, match kv.2 with inl s => JString s | inr n => JNumber (PosInt n) end).

Fixpoint bits (p : positive) : string :=
  match p with
  | xH => EmptyString
  | xO p => String "0" (bits p)
  | xI p => String "1" (bits p)
  end.
Fixpoint read_bits (s : string) : positive :=
  match s with
  | EmptyString => xH
  | String c s => if Ascii.eqb c "0"%char then xO (read_bits s) else xI (read_bits s)
  end.

Definition token_prefix (key : string) : string := "jwt:" +:+ key +:+ ":".

Definition concrete_encode (key : string) (claims : Json) : option string :=
  match claims with
  | JObject m =>
      fields ← mapM flat_field m;
      Some (token_prefix key +:+ bits (encode (A := Flat) fields))
  | _ => None
  end.

Definition concrete_decode (key : string) (leeway now : Z) (tok : string) : option Json :=
  if String.prefix (token_prefix key) tok then
    fields ← decode (A := Flat) (read_bits
      (String.substring (String.length (token_prefix key)) (String.length tok) tok));
    let claims := JObject (map json_field fields) in
    e ← as_u64 (json_index "exp" claims);
    if now <=? e + leeway then Some claims else None
  else None.

(** ** The environment *)

Record Objects := mkObjects {
  obj_up : bool;
  obj_data : gmap (string * string) bytes
}.

(** The name space of a remote backend: its bucket, container or base path. *)
Definition backend_space (b : Backend) : string :=
  match b with
  | LocalDiskBackend p _ => p
  | S3StorageBackend c => "s3:" +:+ s3_bucket c +:+ ":" +:+ s3_prefix c
  | AzureBlobBackend c => "azure:" +:+ az_container c +:+ ":" +:+ az_prefix c
  | GcsBackend c => "gcs:" +:+ gcs_bucket c +:+ ":" +:+ gcs_prefix c
  | HetznerStorageBoxBackend c => "hetzner:" +:+ hz_base_path c
  | FtpBackend c => "ftp:" +:+ ftp_base_path c
  | SftpBackend c => "sftp:" +:+ ftp_base_path c
  | SambaBackend c => "samba:" +:+ smb_base_path c
  end.

Definition unreachable_storage : AppError := Internal "storage unreachable".

#[export] Instance concrete_env : Env := {|
  gen_uuid n := (n + 1)%N;
  uuid_str := concrete_uuid_str;
  uuid_parse := concrete_uuid_parse;
  Hasher := bytes;
  sha_new := [];
  sha_update b h := h ++ b;
  sha_hex := concrete_digest;
  hmac_hex key msg := "mac:" +:+ key +:+ ":" +:+ msg;
  urlencode := percent_encode;
  argon2_hash n pw := Some ("argon2:" +:+ pw);
  argon2_error n pw := "invalid password";
  argon2_verify pw hash := String.eqb hash ("argon2:" +:+ pw);
  gen_token n := "token-" +:+ pretty n;
  jwt_encode := concrete_encode;
  jwt_encode_error key claims := "claims are not an object";
  jwt_decode := concrete_decode;
  jwt_decode_error key leeway now tok := "invalid token";
  json_parse s :=
    if String.eqb s "{}" then Some (JObject [])
    else token ← strip_prefix "access_token=" s; Some (JObject [("access_token", JString token)]);
  json_error s := "expected value";
  base64_text s := Some s;
  Schedule := Z;
  cron_parse s := if String.eqb s "hourly" then Some (seconds 3600) else None;
  cron_error s := "Invalid expression";
  cron_after period t := Some ((t / period + 1) * period);
  jsonb_contains a b :=
    match a, b with
    | JObject xs, JObject ys =>
        forallb (λ kv, match map_get kv.1 xs with
                       | Some v => json_eqb v kv.2 | None => false end) ys
    | _, _ => json_eqb a b
    end;
  ilike s pat := str_contains (str_filter (λ c, negb (Ascii.eqb c "%"%char)) pat) s;
  date_of t := t / days 1;
  sqlx_display e := match e with RowNotFound => "no rows" | DatabaseError c => c end;
  azure_key_error s := if str_is_empty s then Some "empty key" else None;
  gcs_key_error s := if str_is_empty s then Some "empty key" else None;
  samba_feature := false;
  RemoteState := Objects;
  remote_upload b path data st :=
    if obj_up st
    then (mkObjects true (<[(backend_space b, path) := data]> (obj_data st)), Ok tt)
    else (st, Err unreachable_storage);
  remote_download b path st :=
    if obj_up st then ok_or (obj_data st !! (backend_space b, path)) (NotFound path)
    else Err unreachable_storage;
  remote_upload_from_file b path src st :=
    match src with
    | inl e => (st, Err (Internal e))
    | inr data =>
        if obj_up st
        then (mkObjects true (<[(backend_space b, path) := data]> (obj_data st)), Ok tt)
        else (st, Err unreachable_storage)
    end;
  remote_download_to_file b path st :=
    if obj_up st
    then match obj_data st !! (backend_space b, path) with
         | Some data => Ok (data, None)
         | None => Err (NotFound path)
         end
    else Err unreachable_storage;
  remote_delete b path st :=
    if obj_up st
    then (mkObjects true (base.delete (backend_space b, path) (obj_data st)), Ok tt)
    else (st, Err unreachable_storage);
  remote_create_container b name st := (st, Ok tt);
  remote_list_containers b st := Ok [];
  remote_temp_url b path secs filename st :=
    if obj_up st then Ok (Some (backend_space b +:+ "/" +:+ path)) else Err unreachable_storage
|}.

Definition world0 : World :=
  mkWorld empty_db ∅ true (mkObjects true ∅) ∅ (seconds 1000000) 0%N ∅.

(** ** It behaves as documented *)

Lemma hex_fixed_length k n acc :
  String.length (hex_fixed k n acc) = (k + String.length acc)%nat.
Proof.
  revert n acc. induction k as [|k IH]; intros n acc; simpl; [done|].
  rewrite IH. simpl. lia.
Qed.

Lemma hex_digit_is_hex n : (n < 16)%N → is_ascii_hexdigit (hex_digit n) = true.
Proof.
  intros Hn. assert (∃ i : nat, n = N.of_nat i ∧ (i < 16)%nat) as (i & -> & Hi)
    by (exists (N.to_nat n); lia).
  do 16 (destruct i as [|i]; [reflexivity|]). lia.
Qed.

Lemma hex_fixed_digits k n acc :
  str_all is_ascii_hexdigit acc = true → str_all is_ascii_hexdigit (hex_fixed k n acc) = true.
Proof.
  revert n acc. induction k as [|k IH]; intros n acc Hacc; simpl; [done|].
  apply IH. simpl. rewrite Hacc, hex_digit_is_hex; [done|]. by apply N.mod_lt.
Qed.

#[export] Instance concrete_stream : ShaStream.
Proof. split; simpl; intros; [apply app_nil_r | apply app_assoc]. Qed.

#[export] Instance concrete_hex : ShaHex.
Proof.
  split; intros h.
  - change (str_all is_ascii_hexdigit (concrete_digest h) = true).
    unfold concrete_digest. by apply hex_fixed_digits.
  - change (String.length (concrete_digest h) = 64%nat).
    unfold concrete_digest. rewrite hex_fixed_length. reflexivity.
Qed.

(** *** Identifiers *)

Lemma hex_value_digit n : (n < 16)%N → hex_value (hex_digit n) = n.
Proof.
  intros Hn. assert (∃ i : nat, n = N.of_nat i ∧ (i < 16)%nat) as (i & -> & Hi)
    by (exists (N.to_nat n); lia).
  do 16 (destruct i as [|i]; [reflexivity|]). lia.
Qed.

Lemma hex_digit_not_hyphen n : (n < 16)%N → Ascii.eqb (hex_digit n) "-"%char = false.
Proof.
  intros Hn. assert (∃ i : nat, n = N.of_nat i ∧ (i < 16)%nat) as (i & -> & Hi)
    by (exists (N.to_nat n); lia).
  do 16 (destruct i as [|i]; [reflexivity|]). lia.
Qed.

Lemma hex_read_fixed k acc n rest :
  hex_read acc (hex_fixed k n rest) =
  hex_read (acc * 16 ^ N.of_nat k + n mod 16 ^ N.of_nat k)%N rest.
Proof.
  revert n rest. induction k as [|k IH]; intros n rest.
  - simpl hex_fixed. rewrite N.mod_1_r. f_equal. lia.
  - simpl hex_fixed. rewrite IH. cbn [hex_read].
    rewrite hex_digit_not_hyphen, hex_value_digit by (by apply N.mod_lt).
    f_equal. rewrite Nat2N.inj_succ, N.pow_succ_r'.
    rewrite (N.Div0.mod_mul_r n 16 (16 ^ N.of_nat k)) by done. lia.
Qed.

Lemma hex_read_app acc s1 s2 : hex_read acc (s1 +:+ s2) = hex_read (hex_read acc s1) s2.
Proof.
  revert acc. induction s1 as [|c s1 IH]; intros acc; [done|].
  rewrite str_app_cons. cbn [hex_read]. apply IH.
Qed.

Lemma substring_split i n m s :
  String.substring i (n + m) s = String.substring i n s +:+ String.substring (i + n) m s.
Proof.
  revert i n. induction s as [|c s IH]; intros [|i] n.
  - by destruct n, m.
  - by destruct n, m.
  - destruct n as [|n]; [by rewrite str_app_nil_l|].
    cbn [String.substring Nat.add]. rewrite str_app_cons. f_equal. apply (IH 0%nat).
  - cbn [String.substring Nat.add]. apply IH.
Qed.

Lemma substring_all s n : (String.length s <= n)%nat → String.substring 0 n s = s.
Proof.
  revert n. induction s as [|c s IH]; intros [|n]; simpl; try done; try lia.
  intros ?. by rewrite IH by lia.
Qed.

(** Text of 32 characters, in its five groups. *)
Lemma hyphen_groups s :
  String.length s = 32%nat →
  s = String.substring 0 8 s +:+ String.substring 8 4 s +:+ String.substring 12 4 s +:+
      String.substring 16 4 s +:+ String.substring 20 12 s.
Proof.
  intros Hs. rewrite <- (substring_all s 32) at 1 by lia.
  rewrite (substring_split 0 8 24), (substring_split _ 4 20), (substring_split _ 4 16),
    (substring_split _ 4 12). done.
Qed.

Lemma substring_length i n s :
  (i + n <= String.length s)%nat → String.length (String.substring i n s) = n.
Proof.
  revert i n. induction s as [|c s IH]; intros [|i] [|n]; simpl; try lia; intros Hl.
  - f_equal. apply IH. lia.
  - apply IH. lia.
  - apply IH. lia.
Qed.

Lemma hyphenate_spec s :
  String.length s = 32%nat →
  String.length (hyphenate s) = 36%nat ∧
  (∀ acc, hex_read acc (hyphenate s) = hex_read acc s) ∧
  (str_all is_ascii_hexdigit s = true → str_all is_uuid_char (hyphenate s) = true).
Proof.
  intros Hs. pose proof (hyphen_groups _ Hs) as Hg. unfold hyphenate.
  split; [|split].
  - rewrite !str_app_length, !substring_length by (rewrite Hs; lia). reflexivity.
  - intros acc. rewrite Hg at 6. rewrite !hex_read_app. reflexivity.
  - intros Hx. rewrite Hg in Hx. rewrite !str_all_app, !andb_true_iff in Hx.
    destruct Hx as (H1 & H2 & H3 & H4 & H5).
    assert (∀ c, is_ascii_hexdigit c = true → is_uuid_char c = true) as Hi.
    { intros c Hc. unfold is_uuid_char. by rewrite Hc. }
    rewrite !str_all_app, !andb_true_iff.
    repeat split; try reflexivity; by eapply (str_all_impl _ _ _ Hi).
Qed.

Lemma hex_fixed_32 u :
  String.length (hex_fixed 32 u EmptyString) = 32%nat ∧
  str_all is_ascii_hexdigit (hex_fixed 32 u EmptyString) = true.
Proof. split; [by rewrite hex_fixed_length | by apply hex_fixed_digits]. Qed.

#[export] Instance concrete_uuid_text : UuidText.
Proof.
  split; intros u; destruct (hex_fixed_32 u) as [Hl Hd];
    destruct (hyphenate_spec _ Hl) as (Hlen & Hread & Hchars).
  - exact Hlen.
  - exact (Hchars Hd).
  - intros Hu.
    change (concrete_uuid_parse (concrete_uuid_str u) = Some u).
    unfold concrete_uuid_parse, concrete_uuid_str.
    rewrite Hlen, (Hchars Hd), Hread, hex_read_fixed. cbn [andb Nat.eqb hex_read].
    f_equal. rewrite N.mul_0_l, N.add_0_l. apply N.mod_small. exact Hu.
Qed.

(** *** Tokens *)

Lemma read_bits_bits p : read_bits (bits p) = p.
Proof. induction p as [p IH|p IH|]; simpl; congruence. Qed.

Lemma flat_fields_json m fields : mapM flat_field m = Some fields → map json_field fields = m.
Proof.
  revert fields. induction m as [|[k v] m IH]; intros fields Hm; simpl in Hm.
  - injection Hm as <-. done.
  - apply bind_Some in Hm as (f & Hf & Hm). apply bind_Some in Hm as (fs & Hfs & [= <-]).
    simpl. rewrite (IH _ Hfs). f_equal. unfold flat_field in Hf. simpl in Hf.
    destruct v as [| |[| |]| | |]; try discriminate; injection Hf as <-; done.
Qed.

#[export] Instance concrete_jwt : JwtExpiry.
Proof.
  split.
  - intros key leeway now claims tok e Henc He Hnow.
    change (concrete_encode key claims = Some tok) in Henc.
    change (concrete_decode key leeway now tok = Some claims).
    destruct claims as [| | | | |m]; try discriminate. unfold concrete_encode in Henc.
    apply bind_Some in Henc as (fields & Hf & [= <-]). unfold concrete_decode.
    rewrite str_prefix_app, str_drop_app by (rewrite str_app_length; lia).
    rewrite read_bits_bits, decode_encode. simpl.
    rewrite (flat_fields_json _ _ Hf).
    change (default JNull (map_get "exp" m)) with (json_index "exp" (JObject m)).
    rewrite He. simpl. rewrite (proj2 (Z.leb_le _ _)) by lia. done.
  - intros key leeway now claims tok Hd.
    change (concrete_decode key leeway now tok = Some claims) in Hd.
    unfold concrete_decode in Hd. destruct (String.prefix _ _); [|done].
    apply bind_Some in Hd as (fields & _ & Hd). apply bind_Some in Hd as (e & He & Hd).
    destruct (Z.leb_spec now (e + leeway)); [|done]. injection Hd as <-. eauto.
  - intros key leeway now1 now2 c1 c2 tok H1 H2.
    change (concrete_decode key leeway now1 tok = Some c1) in H1.
    change (concrete_decode key leeway now2 tok = Some c2) in H2.
    unfold concrete_decode in H1, H2. destruct (String.prefix _ _); [|done].
    apply bind_Some in H1 as (f1 & Hf1 & H1), H2 as (f2 & Hf2 & H2). rewrite Hf1 in Hf2.
    injection Hf2 as <-.
    apply bind_Some in H1 as (e1 & _ & H1), H2 as (e2 & _ & H2).
    destruct (now1 <=? _), (now2 <=? _); congruence.
Qed.

#[export] Instance concrete_password : PasswordHash.
Proof.
  intros n pw h Hh. change (Some ("argon2:" +:+ pw) = Some h) in Hh. injection Hh as <-.
  change (String.eqb ("argon2:" +:+ pw) ("argon2:" +:+ pw) = true). apply String.eqb_refl.
Qed.

#[export] Instance concrete_readback : RemoteReadback.
Proof.
  split; [..|done|done]; intros b p data [up objs] st';
    cbv [remote_upload remote_upload_from_file remote_download concrete_env];
    simpl; (destruct up; [|done]); intros [= <-]; simpl; by rewrite lookup_insert_eq.
Qed.
