(* ===== verification/LocalDisk.v ===== *)
(** * The local disk backend (src/src/storage/local.rs)

    Path validation and resolution, the file operations, the listing, and the
    signed temporary links. The file system is a map from paths to contents:
    directories are implicit, so [create_dir_all] only matters when the disk
    cannot be written, and removing empty parents changes no file. What a
    directory holds is read off the paths below it. *)

From S2P Require Import Prelude Text Json Schema Env World Tables Laws.

(** ** Constant-time comparison (src/src/lib.rs) *)

Definition constant_time_eq (a b : bytes) : bool :=
  if negb (Nat.eqb (length a) (length b)) then false
  else
    let diff := foldl (λ d xy, N.lor d (N.lxor (Byte.to_N xy.1) (Byte.to_N xy.2))) 0%N
                  (zip a b) in
    N.eqb diff 0.

(** ** Paths *)

(** [Path::join]. *)
Definition path_join (base p : string) : string :=
  if String.prefix "/" p then p
  else if str_is_empty base then p
  else if ends_with slash base then base +:+ p
  else base +:+ "/" +:+ p.

Definition validate_path (path : string) : Result unit :=
  if str_is_empty path
     || str_contains ".." path
     || String.prefix "/" path
     || String.prefix "\" path
     || str_mem Ascii.zero path
     || str_mem ":"%char path
  then Err (BadRequest ("Invalid storage path: " +:+ path))
  else Ok tt.

Definition resolve_path (base_path path : string) : Result string :=
  _ ← validate_path path;
  let is_hex := str_all is_ascii_hexdigit path in
  if is_hex && Nat.leb 4 (String.length path) then
    dir1 ← str_slice 0 2 path;
    dir2 ← str_slice 2 4 path;
    Ok (path_join (path_join (path_join base_path dir1) dir2) path)
  else Ok (path_join base_path path).

Section local.
Context {E : Env}.

Definition io_error : AppError := Io "No space left on device".

(** What [{}] shows of the [std::io::Error] an operation below failed with. *)
Definition io_text (e : AppError) : string := match e with Io m => m | _ => display_error e end.

(** [{:?}] of a path: between double quotes. *)
Definition debug_path (p : string) : string :=
  let quote := String (Ascii.ascii_of_nat 34) EmptyString in quote +:+ p +:+ quote.

(** [tokio::fs::write]/[create_dir_all]: fail when the disk cannot be written. *)
Definition fs_guard : M unit := b ← gets fs_writable; ensure b io_error.
Definition fs_write (path : string) (data : bytes) : M unit :=
  fs_guard;; modify (λ w, set_fs (<[path := data]> (fs w)) w).
Definition fs_remove (path : string) : M unit :=
  fs_guard;; modify (λ w, set_fs (base.delete path (fs w)) w).
Definition fs_read (path : string) : M bytes :=
  o ← gets (λ w, fs w !! path); lift (ok_or o (Io "No such file or directory")).
Definition fs_exists (path : string) : M bool :=
  gets (λ w, match fs w !! path with Some _ => true | None => false end).

(** [tokio::fs::rename]: the file moves as it is at that moment. *)
Definition fs_rename (src dst : string) : M unit :=
  fs_read src;; fs_guard;;
  modify (λ w, match fs w !! src with
               | Some data => set_fs (<[dst := data]> (base.delete src (fs w))) w
               | None => w
               end).

(** ** Directories *)

(** What a directory holds. A directory is there as long as there are files
    below it: listing an empty one and listing none gives the same. *)
Inductive DirEntry := RegularFile (name : string) | Directory (name : string).

#[export] Instance dir_entry_eq_dec : EqDecision DirEntry.
Proof. solve_decision. Defined.

(** The entry of [dir] that [path] is, or lies in. *)
Definition entry_of (dir path : string) : option DirEntry :=
  rest ← strip_prefix (dir +:+ "/") path;
  match str_split slash rest with
  | [name] => Some (RegularFile name)
  | name :: _ => Some (Directory name)
  | [] => None
  end.

Definition paths (w : World) : list string := (map_to_list (fs w)).*1.

(** [Path::exists] for a directory, or a file. *)
Definition dir_exists (dir : string) : M bool :=
  gets (λ w, existsb (λ p, String.eqb p dir || String.prefix (dir +:+ "/") p) (paths w)).

(** [tokio::fs::read_dir]: the entries, in the order the system gives them. *)
Definition read_dir (dir : string) : M (list DirEntry) :=
  file ← fs_exists dir;
  ensure (negb file) (Io "Not a directory");;
  gets (λ w, remove_dups (omap (entry_of dir) (paths w))).

(** The descent ends where the paths do. *)
Definition depth (w : World) : nat := S (list_max (map String.length (paths w))).

Fixpoint collect_files (fuel : nat) (dir prefix : string) (results : list string) :
    M (list string) :=
  match fuel with
  | O => throw (Internal "out of fuel")
  | S fuel' =>
      entries ← read_dir dir;
      foldM (λ results e,
        match e with
        | Directory name => collect_files fuel' (dir +:+ "/" +:+ name) prefix results
        | RegularFile name =>
            mret (if str_is_empty prefix || String.prefix prefix name
                  then results ++ [name] else results)
        end) results entries
  end.

(** Seconds since the epoch, as [SystemTime::now()] gives them. *)
Definition now_secs : M Z := gets (λ w, now w / usec_per_sec).

Section backend.
Context (base_path hmac_secret : string).

Definition local_not_found (path : string) : AppError :=
  NotFound ("File not found in local storage: " +:+ path).

Definition sign_token (path : string) (expires_at : Z) : string :=
  hmac_hex hmac_secret (path +:+ ":" +:+ pretty expires_at).

Definition verify_temp_url (path : string) (expires_at : Z) (signature : string) : M bool :=
  n ← now_secs;
  mret (if expires_at <? n then false
        else constant_time_eq (String.list_byte_of_string (sign_token path expires_at))
               (String.list_byte_of_string signature)).

Definition local_upload (path : string) (data : bytes) : M unit :=
  file_path ← lift (resolve_path base_path path); fs_write file_path data.

Definition local_upload_from_file (path src : string) : M unit :=
  file_path ← lift (resolve_path base_path path);
  fs_guard;;
  try_with (fs_rename src file_path) mret
    (λ _ : AppError,
      data ← map_err (λ e, Internal ("Failed to copy temp file into storage: " +:+ io_text e))
               (fs_read src);
      fs_write file_path data;;
      ignore (fs_remove src)).

Definition local_download (path : string) : M bytes :=
  file_path ← lift (resolve_path base_path path);
  there ← fs_exists file_path;
  ensure there (local_not_found path);;
  fs_read file_path.

Definition local_download_to_file (path dst : string) : M unit :=
  src ← lift (resolve_path base_path path);
  there ← fs_exists src;
  ensure there (local_not_found path);;
  fs_guard;;
  data ← fs_read src;
  fs_write dst data.

Definition local_delete (path : string) : M unit :=
  file_path ← lift (resolve_path base_path path);
  there ← fs_exists file_path;
  if (there : bool) then fs_remove file_path else mret tt.

Definition local_exists (path : string) : M bool :=
  file_path ← lift (resolve_path base_path path); fs_exists file_path.

(** The directory the names with a prefix are looked for in. *)
Definition search_dir (prefix : string) : Result string :=
  if str_is_empty prefix then Ok base_path
  else if Nat.leb 4 (String.length prefix) then
    dir1 ← utf8_slice 0 2 prefix;
    dir2 ← utf8_slice 2 4 prefix;
    Ok (path_join (path_join base_path dir1) dir2)
  else if Nat.leb 2 (String.length prefix) then
    dir1 ← utf8_slice 0 2 prefix;
    Ok (path_join base_path dir1)
  else Ok base_path.

Definition local_list (prefix : string) : M (list string) :=
  dir ← lift (search_dir prefix);
  there ← dir_exists dir;
  if negb there then mret []
  else
    fuel ← gets depth;
    collect_files fuel dir prefix [].

Definition local_generate_temp_url (path : string) (expires_in : Z) : M (option string) :=
  n ← now_secs;
  let expires_at := n + expires_in in
  let signature := sign_token path expires_at in
  mret (Some ("/download/local?path=" +:+ urlencode path +:+ "&expires=" +:+ pretty expires_at
              +:+ "&sig=" +:+ signature)).
End backend.
End local.
