(* ===== verification/Registry.v ===== *)
(** * Storage backends and their registry

    [create_backend] builds a backend from the type name and JSON
    configuration of a storage row; [StorageRegistry] maps storage ids to
    backends; the [be_] operations are the methods of the trait
    [StorageBackend], dispatched on the implementation: the local disk is
    modelled (LocalDisk.v), the remote services are parameters (Env.v). *)

From S2P Require Import Prelude Json Schema Env World Tables Laws LocalDisk.

Section create.
Context {E : Env}.

(** [config[key].as_str().ok_or_else(|| BadRequest(msg))?]. *)
Definition required (config : Json) (key msg : string) : Result string :=
  ok_or (as_str (json_index key config)) (BadRequest msg).
(** [config[key].as_str().unwrap_or(d)]. *)
Definition str_or (config : Json) (key d : string) : string :=
  default d (as_str (json_index key config)).
(** [config[key].as_str().map(...)]. *)
Definition str_opt (config : Json) (key : string) : option string :=
  as_str (json_index key config).
(** [config["port"].as_u64().unwrap_or(d) as u16]. *)
Definition port_or (config : Json) (d : Z) : Z :=
  default d (as_u64 (json_index "port" config)) mod 2 ^ 16.

(** [replace("\\n", "\n")]: an escaped line feed becomes a line feed. *)
Fixpoint unescape_newlines (s : string) : string :=
  match s with
  | String c1 (String c2 s' as s1) =>
      if Ascii.eqb c1 "\"%char && Ascii.eqb c2 "n"%char
      then String (Ascii.ascii_of_nat 10) (unescape_newlines s')
      else String c1 (unescape_newlines s1)
  | _ => s
  end.

Definition create_backend (storage_type : string) (config : Json) (hmac_secret : string) :
    Result Backend :=
  match storage_type with
  | "local" =>
      path ← required config "path" "local storage requires 'path' config";
      Ok (LocalDiskBackend path hmac_secret)
  | "s3" =>
      access_key_id ← required config "access_key_id" "s3 storage requires 'access_key_id'";
      secret_access_key ←
        required config "secret_access_key" "s3 storage requires 'secret_access_key'";
      Ok (S3StorageBackend {|
        s3_endpoint_url := str_trim <$> str_opt config "endpoint_url";
        s3_region := str_trim (str_or config "region" "us-east-1");
        s3_bucket := str_trim (str_or config "bucket" "");
        s3_prefix := str_or config "prefix" "";
        s3_access_key_id := access_key_id;
        s3_secret_access_key := secret_access_key;
        s3_multipart_threshold := as_u64 (json_index "multipart_threshold" config);
        s3_part_size := as_u64 (json_index "part_size" config);
        s3_force_path_style := default false (as_bool (json_index "force_path_style" config)) |})
  | "azure" =>
      account_name ← required config "account_name" "azure storage requires 'account_name'";
      account_key ← required config "account_key" "azure storage requires 'account_key'";
      match azure_key_error account_key with
      | Some e => Err (Internal ("Invalid Azure account key: " +:+ e))
      | None =>
          Ok (AzureBlobBackend {|
            az_account_name := account_name;
            az_account_key := account_key;
            az_container := str_trim (str_or config "container" "");
            az_prefix := str_or config "prefix" "";
            az_endpoint := str_opt config "endpoint" |})
      end
  | "gcs" =>
      client_email ← required config "client_email" "gcs storage requires 'client_email'";
      pem ← required config "private_key_pem" "gcs storage requires 'private_key_pem'";
      let private_key_pem :=
        str_trim (unescape_newlines (str_filter (λ c, negb (Ascii.eqb c Ascii.zero)) pem)) in
      match gcs_key_error private_key_pem with
      | Some e => Err (Internal ("Invalid GCS private key: " +:+ e))
      | None =>
          Ok (GcsBackend {|
            gcs_bucket := str_trim (str_or config "bucket" "");
            gcs_prefix := str_or config "prefix" "";
            gcs_client_email := client_email;
            gcs_private_key_pem := private_key_pem;
            gcs_token_uri := str_opt config "token_uri";
            gcs_gcp_project_id := str_opt config "gcp_project_id" |})
      end
  | "hetzner" =>
      host ← required config "host" "hetzner storage requires 'host'";
      username ← required config "username" "hetzner storage requires 'username'";
      password ← required config "password" "hetzner storage requires 'password'";
      Ok (HetznerStorageBoxBackend {|
        hz_host := host; hz_username := username; hz_password := password;
        hz_port := port_or config 443;
        hz_base_path := str_or config "base_path" "";
        hz_sub_account := str_opt config "sub_account" |})
  | "ftp" =>
      host ← required config "host" "ftp storage requires 'host'";
      username ← required config "username" "ftp storage requires 'username'";
      password ← required config "password" "ftp storage requires 'password'";
      Ok (FtpBackend {|
        ftp_host := host; ftp_port := port_or config 21; ftp_username := username;
        ftp_password := password; ftp_base_path := str_or config "base_path" "" |})
  | "sftp" =>
      host ← required config "host" "sftp storage requires 'host'";
      username ← required config "username" "sftp storage requires 'username'";
      password ← required config "password" "sftp storage requires 'password'";
      Ok (SftpBackend {|
        ftp_host := host; ftp_port := port_or config 22; ftp_username := username;
        ftp_password := password; ftp_base_path := str_or config "base_path" "" |})
  | "samba" =>
      if samba_feature then
        host ← required config "host" "samba storage requires 'host'";
        share ← required config "share" "samba storage requires 'share'";
        username ← required config "username" "samba storage requires 'username'";
        password ← required config "password" "samba storage requires 'password'";
        Ok (SambaBackend {|
          smb_host := host; smb_share := share; smb_username := username;
          smb_password := password; smb_workgroup := str_or config "workgroup" "WORKGROUP";
          smb_base_path := str_or config "base_path" "" |})
      else Err (BadRequest
        "Samba storage requires the 'samba' feature to be enabled at compile time")
  | other => Err (BadRequest ("Unsupported storage type: " +:+ other))
  end.
End create.

(** ** The trait [StorageBackend] *)

Section backend_ops.
Context {E : Env}.

Definition remote_step {A} (f : RemoteState → RemoteState * Result A) : M A := λ w,
  let '(st, r) := f (remote w) in (set_remote st w, r).

Definition be_upload (b : Backend) (path : string) (data : bytes) : M unit :=
  match b with
  | LocalDiskBackend base _ => local_upload base path data
  | _ => remote_step (remote_upload b path data)
  end.

Definition be_upload_from_file (b : Backend) (path src : string) : M unit :=
  match b with
  | LocalDiskBackend base _ => local_upload_from_file base path src
  | _ =>
      contents ← try_with (fs_read src) (λ data, mret (inr data)) (λ e, mret (inl (io_text e)));
      remote_step (remote_upload_from_file b path contents)
  end.

Definition be_download (b : Backend) (path : string) : M bytes :=
  match b with
  | LocalDiskBackend base _ => local_download base path
  | _ => r ← gets (λ w, remote_download b path (remote w)); lift r
  end.

(** The backends that write the response chunk by chunk; the others use the
    trait's default, which downloads and then writes. *)
Definition streams_downloads (b : Backend) : bool :=
  match b with
  | S3StorageBackend _ | AzureBlobBackend _ | GcsBackend _ | HetznerStorageBoxBackend _ => true
  | LocalDiskBackend _ _ | FtpBackend _ | SftpBackend _ | SambaBackend _ => false
  end.

Definition write_failed (b : Backend) (dst : string) (e : AppError) : AppError :=
  Internal ((if streams_downloads b then "Failed to create temp file "
             else "Failed to write download to ") +:+ debug_path dst +:+ ": " +:+ io_text e).

Definition be_download_to_file (b : Backend) (path dst : string) : M unit :=
  match b with
  | LocalDiskBackend base _ => local_download_to_file base path dst
  | _ =>
      r ← gets (λ w, remote_download_to_file b path (remote w));
      '(data, broken) ← lift r;
      map_err (write_failed b dst) (fs_write dst data);;
      match broken with Some e => throw e | None => mret tt end
  end.

Definition be_delete (b : Backend) (path : string) : M unit :=
  match b with
  | LocalDiskBackend base _ => local_delete base path
  | _ => remote_step (remote_delete b path)
  end.

Definition be_generate_temp_url (b : Backend) (path : string) (expires_in : Z)
    (filename : option string) : M (option string) :=
  match b with
  | LocalDiskBackend base secret => local_generate_temp_url secret path expires_in
  | _ => r ← gets (λ w, remote_temp_url b path expires_in filename (remote w)); lift r
  end.

Definition be_supports_containers (b : Backend) : bool :=
  match b with
  | S3StorageBackend _ | AzureBlobBackend _ | GcsBackend _ | HetznerStorageBoxBackend _ => true
  | LocalDiskBackend _ _ | FtpBackend _ | SftpBackend _ | SambaBackend _ => false
  end.

(** Only called of backends that have containers; the others answer with none. *)
Definition be_list_containers (b : Backend) : M (list string) :=
  if be_supports_containers b
  then r ← gets (λ w, remote_list_containers b (remote w)); lift r
  else mret [].

Definition be_create_container (b : Backend) (name : string) : M unit :=
  if be_supports_containers b then remote_step (remote_create_container b name)
  else throw (BadRequest "This storage backend does not support container management").
End backend_ops.

(** ** The registry *)

Module StorageRegistry.
Section registry.
Context {E : Env}.

Definition register (id : Uuid) (backend : Backend) : M unit :=
  modify (λ w, set_backends (<[id := backend]> (backends w)) w).
Definition unregister (id : Uuid) : M (option Backend) :=
  b ← gets (λ w, backends w !! id);
  modify (λ w, set_backends (base.delete id (backends w)) w);;
  mret b.
Definition get (id : Uuid) : M Backend :=
  or_throw (NotFound ("Storage backend not found: " +:+ uuid_str id))
    (gets (λ w, backends w !! id)).
Definition contains (id : Uuid) : M bool :=
  gets (λ w, match backends w !! id with Some _ => true | None => false end).
Definition len : M nat := gets (λ w, size (backends w)).
Definition is_empty : M bool := n ← len; mret (Nat.eqb n 0).
Definition list_ids : M (list Uuid) := gets (λ w, (map_to_list (backends w)).*1).
End registry.
End StorageRegistry.
