(* ===== verification/Remote.v ===== *)
(** * Clients of the remote storage services

    What the remote backends (src/src/storage/s3.rs, azure.rs, gcs.rs,
    hetzner.rs, ftp.rs, sftp.rs, samba.rs) have in common: the network they talk
    to, the programs over it ([Remote]), the HTTP client, the directories they
    create on the way to a file, and the prefix they put before a path. The
    services themselves, and the libraries that speak to them, are parameters:
    a call takes the state of the network to another and yields a value or the
    text of an error. *)

From S2P Require Import Prelude Text Json Env.

(** ** The network *)

Class Network := {
  Net : Type;
  (** [Utc::now()] when the network is in this state. *)
  utc_now : Net → Timestamp
}.

(** [struct CachedToken] of src/src/storage/gcs.rs. *)
Record CachedToken := mkCachedToken { ct_token : string; ct_expires_at : Timestamp }.

Section remote.
Context {N : Network}.

(** The network, and the token each Google backend holds. *)
Record Conn := mkConn { net : Net; tokens : list (GcsConfig * CachedToken) }.

Definition Remote (A : Type) : Type := Conn → Conn * Result A.

#[export] Instance Remote_ret : MRet Remote := λ A a s, (s, Ok a).
#[export] Instance Remote_bind : MBind Remote := λ A B k m s,
  match m s with
  | (s', Ok a) => k a s'
  | (s', Err e) => (s', Err e)
  | (s', Panic) => (s', Panic)
  end.

Definition fail {A} (e : AppError) : Remote A := λ s, (s, Err e).
Definition of_result {A} (r : Result A) : Remote A := λ s, (s, r).
Definition out_of_fuel {A} : Remote A := λ s, (s, Panic).
Definition utc : Remote Timestamp := λ s, (s, Ok (utc_now (net s))).

(** A call of a client library, its outcome inspected by the caller. *)
Definition Call (E A : Type) : Type := Net → Net * (E + A).
Definition attempt {E A} (c : Call E A) : Remote (E + A) := λ s,
  let '(n, r) := c (net s) in (mkConn n (tokens s), Ok r).

(** [.map_err(|e| AppError::Internal(format!("...: {}", e)))?]. *)
Definition internal (what e : string) : AppError := Internal (what +:+ ": " +:+ e).
Definition or_internal {A} (what : string) (r : string + A) : Remote A :=
  match r with inl e => fail (internal what e) | inr a => mret a end.
Definition call {A} (what : string) (c : Call string A) : Remote A :=
  attempt c ≫= or_internal what.

(** [let _ = call.await;]. *)
Definition attempt_ {E A} (c : Call E A) : Remote unit := _ ← attempt c; mret tt.

Fixpoint for_parts {A} (f : A → Remote unit) (l : list A) : Remote unit :=
  match l with
  | [] => mret tt
  | x :: l' => f x;; for_parts f l'
  end.
End remote.
#[global] Arguments Remote {N} A.
#[global] Arguments Conn {N}.

(** ** Paths *)

(** [format!("{}/{}", prefix.trim_end_matches('/'), path)] unless the prefix is
    empty. *)
Definition with_prefix (prefix path : string) : string :=
  if str_is_empty prefix then path else trim_end_matches slash prefix +:+ "/" +:+ path.

(** What a listing makes of a name: the prefix is stripped where there is one. *)
Definition relative (prefix name : string) : string :=
  if str_is_empty prefix then name
  else default name (strip_prefix (trim_end_matches slash prefix +:+ "/") name).

(** The directories on the way to a file, from the outermost: [split('/')],
    empty pieces dropped, each joined to the previous ones. *)
Fixpoint grow_dirs (current : string) (parts : list string) : list string :=
  match parts with
  | [] => []
  | part :: parts' =>
      let current' := if str_is_empty current then part else current +:+ "/" +:+ part in
      current' :: grow_dirs current' parts'
  end.
Definition dir_parts (dir : string) : list string :=
  filter (λ p, str_is_empty p = false) (str_split slash dir).
Definition dirs_of (dir : string) : list string := grow_dirs EmptyString (dir_parts dir).

(** [if let Some((parent, _)) = path.rsplit_once('/')] when it is not empty. *)
Definition parent_of (path : string) : option string :=
  match rsplit_once slash path with
  | Some (parent, _) => if str_is_empty parent then None else Some parent
  | None => None
  end.

Definition parent_dirs (path : string) : list string :=
  match parent_of path with Some parent => dirs_of parent | None => [] end.

(** ** HTTP (reqwest) *)

Inductive Body :=
  | NoBody
  | BytesBody (data : bytes)
  | StreamBody (data : bytes)
  | TextBody (text : string)
  | FormBody (fields : list (string * string))
  | JsonBody (value : Json).

Record Request := mkRequest {
  rq_method : string;
  rq_url : string;
  rq_basic_auth : option (string * string);
  rq_headers : list (string * string);
  rq_body : Body
}.

(** A response: its status, and its body as it arrives, possibly broken off. *)
Record Response := mkResponse {
  rs_status : Z;
  rs_chunks : list bytes;
  rs_broken : option string
}.

Class Http {N : Network} := {
  http_send : Request → Call string Response;
  (** [Display] of [StatusCode]. *)
  status_text : Z → string;
  (** [chrono]: [ts.format(fmt)]. *)
  strftime : string → Timestamp → string
}.

Definition is_success (r : Response) : bool := (200 <=? rs_status r) && (rs_status r <? 300).
Definition NOT_FOUND : Z := 404.

(** [resp.bytes()], [resp.text()], [resp.text().await.unwrap_or_default()]. *)
Definition body_bytes (r : Response) : string + bytes :=
  match rs_broken r with Some e => inl e | None => inr (concat (rs_chunks r)) end.
Definition body_text (r : Response) : string + string :=
  match body_bytes r with
  | inl e => inl e
  | inr data => inr (String.string_of_list_byte data)
  end.
Definition text_or_default (r : Response) : string :=
  match body_text r with inr t => t | inl _ => EmptyString end.

(** The body written chunk by chunk to a file: what is written, and the error
    that stops it. *)
Definition streamed (what : string) (r : Response) : bytes * option AppError :=
  (concat (rs_chunks r), internal what <$> rs_broken r).

Section http.
Context {N : Network} {E : Env} {H : Http}.

Definition send (what : string) (rq : Request) : Remote Response := call what (http_send rq).

(** [format!("{} {}: {}", what, status, body)]. *)
Definition status_failure (what : string) (r : Response) : AppError :=
  Internal (what +:+ " " +:+ status_text (rs_status r) +:+ ": " +:+ text_or_default r).
Definition require_success (what : string) (r : Response) : Remote unit :=
  if is_success r then mret tt else fail (status_failure what r).

(** [resp.json()]. *)
Definition body_json (r : Response) : string + Json :=
  match body_text r with
  | inl e => inl e
  | inr t => match json_parse t with Some v => inr v | None => inl (json_error t) end
  end.
End http.

(** ** Laws *)

Lemma remote_bind_unfold `{Network} {A B} (m : Remote A) (k : A → Remote B) s :
  (m ≫= k) s = match m s with
               | (s', Ok a) => k a s'
               | (s', Err e) => (s', Err e)
               | (s', Panic) => (s', Panic)
               end.
Proof. reflexivity. Qed.

Lemma remote_bind_ok `{Network} {A B} (m : Remote A) (k : A → Remote B) s s' b :
  (m ≫= k) s = (s', Ok b) → ∃ a s1, m s = (s1, Ok a) ∧ k a s1 = (s', Ok b).
Proof. rewrite remote_bind_unfold. destruct (m s) as [s1 []]; naive_solver. Qed.

(** A name a backend stores under is listed as the path it was made from. *)
Lemma relative_with_prefix prefix path : relative prefix (with_prefix prefix path) = path.
Proof.
  unfold relative, with_prefix. destruct (str_is_empty prefix); [done|].
  by rewrite <- str_app_assoc, strip_prefix_app.
Qed.

Lemma with_prefix_inj prefix p q : with_prefix prefix p = with_prefix prefix q → p = q.
Proof. intros H. by rewrite <- (relative_with_prefix prefix p), H, relative_with_prefix. Qed.
