(* ===== verification/S3Backend.v ===== *)
(** * The S3 backend (src/src/storage/s3.rs)

    [S3StorageBackend] as programs over the operations of the AWS SDK, which
    are parameters. An error of the SDK has the two texts the code looks at. *)

From S2P Require Import Prelude Text Json Env Remote.

Record SdkError := mkSdkError { sdk_display : string; sdk_debug : string }.

(** The body of an object as it arrives, possibly broken off. *)
Record ByteStream := mkByteStream { bs_chunks : list bytes; bs_broken : option string }.

(** A page of [ListObjectsV2]. *)
Record ListPage := mkListPage {
  lp_contents : list (option string);
  lp_is_truncated : option bool;
  lp_next_token : option string
}.

Class S3Sdk {N : Network} := {
  create_multipart_upload : S3Config → string → string → Call SdkError (option string);
  (** bucket, key, upload id, part number, body, content length *)
  upload_part : S3Config → string → string → string → Z → bytes → Z →
    Call SdkError (option string);
  abort_multipart_upload : S3Config → string → string → string → Call SdkError unit;
  complete_multipart_upload : S3Config → string → string → string → list (Z * string) →
    Call SdkError unit;
  (** bucket, key, body, content length *)
  put_object : S3Config → string → string → bytes → option Z → Call SdkError unit;
  get_object : S3Config → string → string → Call SdkError ByteStream;
  delete_object : S3Config → string → string → Call SdkError unit;
  head_object : S3Config → string → string → Call SdkError unit;
  (** [PresigningConfig]: the complaint about a duration, if any; then the URL. *)
  presigning_error : Z → option string;
  presigned_get : S3Config → string → string → Z → Call SdkError string;
  list_buckets : S3Config → Call SdkError (list (option string));
  create_bucket : S3Config → string → option string → Call SdkError unit;
  list_objects_v2 : S3Config → string → string → option string → Call SdkError ListPage
}.

Module S3.
Section s3.
Context {N : Network} {Sdk : S3Sdk} (c : S3Config).

Definition DEFAULT_MULTIPART_THRESHOLD : Z := 100 * 1024 * 1024.
Definition DEFAULT_PART_SIZE : Z := 10 * 1024 * 1024.
Definition SINGLE_PUT_MAX : Z := 5 * 1024 * 1024 * 1024.

Definition multipart_threshold : Z := default DEFAULT_MULTIPART_THRESHOLD (s3_multipart_threshold c).
Definition part_size : Z := default DEFAULT_PART_SIZE (s3_part_size c).

Definition object_key (path : string) : string := with_prefix (s3_prefix c) path.

(** An SDK call whose error is reported by its [Display]. *)
Definition sdk {A} (what : string) (k : Call SdkError A) : Remote A :=
  r ← attempt k;
  match r with inl e => fail (internal what (sdk_display e)) | inr a => mret a end.

Definition no_upload_id : AppError := Internal "S3 multipart upload: no upload_id returned".

Definition begin_multipart (key : string) : Remote string :=
  id ← sdk "S3 create multipart upload failed" (create_multipart_upload c (s3_bucket c) key);
  of_result (ok_or id no_upload_id).

Definition part_failed (of_what : string) (n : Z) (offset total : nat) (e : SdkError) : AppError :=
  Internal ("S3 upload part " +:+ pretty n +:+ " failed (" +:+ pretty offset +:+ "B of " +:+
            pretty total +:+ of_what +:+ sdk_display e).

(** One part: on failure the upload is aborted. *)
Definition send_part (of_what key upload_id : string) (n : Z) (offset total : nat) (part : bytes) :
    Remote (Z * string) :=
  r ← attempt (upload_part c (s3_bucket c) key upload_id n part (Z.of_nat (length part)));
  match r with
  | inr etag => mret (n, default EmptyString etag)
  | inl e =>
      attempt_ (abort_multipart_upload c (s3_bucket c) key upload_id);;
      fail (part_failed of_what n offset total e)
  end.

(** The loops over the parts; a part size of zero never ends, which the model
    reports as a lack of fuel. *)
Fixpoint upload_parts (fuel : nat) (key upload_id : string) (data : bytes) (offset : nat) (n : Z)
    (done : list (Z * string)) : Remote (list (Z * string)) :=
  if Nat.ltb offset (length data) then
    match fuel with
    | O => out_of_fuel
    | S fuel' =>
        let end_ := Nat.min (offset + Z.to_nat part_size) (length data) in
        part ← send_part "B uploaded): " key upload_id n offset (length data)
                 (take (end_ - offset) (drop offset data));
        upload_parts fuel' key upload_id data end_ (n + 1) (done ++ [part])
    end
  else mret done.

Definition complete (key upload_id : string) (parts : list (Z * string)) : Remote unit :=
  sdk "S3 complete multipart upload failed"
    (complete_multipart_upload c (s3_bucket c) key upload_id parts).

Definition multipart_upload (key : string) (data : bytes) : Remote unit :=
  upload_id ← begin_multipart key;
  parts ← upload_parts (length data) key upload_id data 0 1 [];
  complete key upload_id parts.

(** [ByteStream::read_from().path(src).offset(o).length(n)], given what reading
    the file yields. *)
Definition read_range (what : string) (src : string + bytes) (offset len : nat) : Remote bytes :=
  data ← or_internal what src; mret (take len (drop offset data)).

Fixpoint upload_file_parts (fuel : nat) (key upload_id : string) (src : string + bytes)
    (size offset : nat) (n : Z) (done : list (Z * string)) : Remote (list (Z * string)) :=
  if Nat.ltb offset size then
    match fuel with
    | O => out_of_fuel
    | S fuel' =>
        let len := Nat.min (Z.to_nat part_size) (size - offset) in
        body ← read_range "S3 read part from file failed" src offset len;
        part ← send_part "B): " key upload_id n offset size body;
        upload_file_parts fuel' key upload_id src size (offset + len) (n + 1) (done ++ [part])
    end
  else mret done.

Definition multipart_upload_from_file (key : string) (src : string + bytes) (size : nat) :
    Remote unit :=
  upload_id ← begin_multipart key;
  parts ← upload_file_parts size key upload_id src size 0 1 [];
  complete key upload_id parts.

(** ** The trait's methods *)

Definition create_container (name : string) : Remote unit :=
  let constraint := if String.eqb (s3_region c) "us-east-1" then None else Some (s3_region c) in
  sdk "S3 create bucket failed" (create_bucket c name constraint).

Definition is_no_such_bucket (e : SdkError) : bool :=
  str_contains "NoSuchBucket" (sdk_display e) || str_contains "NoSuchBucket" (sdk_debug e).

(** A missing bucket is created and the object sent again, once. *)
Definition put_with_bucket (body : Remote bytes) (key : string) (len : option Z)
    (other : SdkError → AppError) : Remote unit :=
  data ← body;
  r ← attempt (put_object c (s3_bucket c) key data len);
  match r with
  | inr _ => mret tt
  | inl e =>
      if is_no_such_bucket e then
        create_container (s3_bucket c);;
        data ← body;
        sdk "S3 upload failed" (put_object c (s3_bucket c) key data len)
      else fail (other e)
  end.

Definition upload (path : string) (data : bytes) : Remote unit :=
  let key := object_key path in
  if multipart_threshold <=? Z.of_nat (length data) then multipart_upload key data
  else put_with_bucket (mret data) key None (λ e,
    Internal ("S3 upload failed: " +:+ sdk_display e +:+ " (details: " +:+ sdk_debug e +:+ ")")).

Definition upload_from_file (path : string) (src : string + bytes) (size : nat) : Remote unit :=
  let key := object_key path in
  if SINGLE_PUT_MAX <? Z.of_nat size then multipart_upload_from_file key src size
  else put_with_bucket (read_range "S3 read file for upload failed" src 0 size) key
    (Some (Z.of_nat size)) (λ e,
    Internal ("S3 upload from file failed (bucket=" +:+ s3_bucket c +:+ " key=" +:+ key +:+
      " size=" +:+ pretty size +:+ "): display=" +:+ sdk_display e +:+ " debug=" +:+ sdk_debug e)).

Definition get_failed (path : string) (e : SdkError) : AppError :=
  if str_contains "NoSuchKey" (sdk_display e) || str_contains "404" (sdk_display e)
  then NotFound ("File not found in S3: " +:+ path)
  else internal "S3 download failed" (sdk_display e).

Definition get (path : string) : Remote ByteStream :=
  r ← attempt (get_object c (s3_bucket c) (object_key path));
  match r with inl e => fail (get_failed path e) | inr body => mret body end.

Definition download (path : string) : Remote bytes :=
  body ← get path;
  match bs_broken body with
  | Some e => fail (internal "S3 download body read failed" e)
  | None => mret (concat (bs_chunks body))
  end.

Definition download_to_file (path : string) : Remote (bytes * option AppError) :=
  body ← get path;
  mret (concat (bs_chunks body), internal "S3 stream chunk error" <$> bs_broken body).

Definition delete (path : string) : Remote unit :=
  sdk "S3 delete failed" (delete_object c (s3_bucket c) (object_key path)).

Definition exists_ (path : string) : Remote bool :=
  r ← attempt (head_object c (s3_bucket c) (object_key path));
  match r with
  | inr _ => mret true
  | inl e =>
      if str_contains "NotFound" (sdk_display e) || str_contains "404" (sdk_display e)
         || str_contains "NoSuchKey" (sdk_display e)
      then mret false
      else fail (internal "S3 head object failed" (sdk_display e))
  end.

Definition generate_temp_url (path : string) (expires_in : Z) : Remote (option string) :=
  match presigning_error expires_in with
  | Some e => fail (internal "S3 presigning config error" e)
  | None =>
      url ← sdk "S3 presigned URL generation failed"
              (presigned_get c (s3_bucket c) (object_key path) expires_in);
      mret (Some url)
  end.

Definition list_containers : Remote (list string) :=
  buckets ← sdk "S3 list buckets failed" (list_buckets c);
  mret (omap id buckets).

(** [loop { ... }] until a page is not truncated. *)
Fixpoint list_pages (fuel : nat) (full_prefix : string) (token : option string)
    (results : list string) : Remote (list string) :=
  match fuel with
  | O => out_of_fuel
  | S fuel' =>
      page ← sdk "S3 list objects failed" (list_objects_v2 c (s3_bucket c) full_prefix token);
      let results' := results ++ map (relative (s3_prefix c)) (omap id (lp_contents page)) in
      if bool_decide (lp_is_truncated page = Some true)
      then list_pages fuel' full_prefix (lp_next_token page) results'
      else mret results'
  end.

Definition list (pages : nat) (prefix : string) : Remote (list string) :=
  list_pages pages (object_key prefix) None [].
End s3.
End S3.
