(* ===== verification/AzureBackend.v ===== *)
(** * The Azure Blob backend (src/src/storage/azure.rs)

    The REST API with SharedKey authentication: the text a request signs, the
    signed links, the requests of each operation. The HMAC and base64 are
    parameters. *)

From S2P Require Import Prelude Text Json Env Remote.

Class Signing := {
  (** [base64], and HMAC-SHA256, which takes keys of any length. *)
  base64_decode : string → option bytes;
  base64_encode : bytes → string;
  hmac_sha256 : bytes → string → bytes;
  (** The latest time [chrono] represents. *)
  datetime_max : Timestamp
}.

Definition LF : string := String (Ascii.ascii_of_nat 10) EmptyString.
Definition DQUOTE : string := String (Ascii.ascii_of_nat 34) EmptyString.

(** [chrono::Duration::from_std] of a number of seconds, and [now + d]. *)
Definition add_std_duration `{Signing} (t : Timestamp) (secs : Z) : Result Timestamp :=
  if i64_max <? secs * 1000
  then Err (internal "Duration error" "Source duration value is out of range for the target type")
  else if datetime_max <? t + seconds secs then Panic else Ok (t + seconds secs).

Module Azure.
Section azure.
Context {N : Network} {E : Env} {H : Http} {Sg : Signing} (c : AzureBlobConfig).

Definition API_VERSION : string := "2020-10-02".
Definition DATE_FORMAT : string := "%a, %d %b %Y %H:%M:%S GMT".
Definition SAS_FORMAT : string := "%Y-%m-%dT%H:%M:%SZ".

(** The fields [AzureBlobBackend::new] computes. *)
Definition account_key : bytes := default [] (base64_decode (az_account_key c)).
Definition base_url : string :=
  default ("https://" +:+ az_account_name c +:+ ".blob.core.windows.net") (az_endpoint c).

Definition blob_path (path : string) : string := with_prefix (az_prefix c) path.
Definition blob_url (bp : string) : string := base_url +:+ "/" +:+ az_container c +:+ "/" +:+ bp.

Definition hmac_sign (data : string) : string := base64_encode (hmac_sha256 account_key data).

(** ** SharedKey *)

Definition length_field (content_length : option Z) : string :=
  match content_length with
  | Some n => if Z.eqb n 0 then EmptyString else pretty n
  | None => EmptyString
  end.

Definition ms_headers (date : string) (extra : list (string * string)) : list (string * string) :=
  order_by (asc_str fst) (("x-ms-date", date) :: ("x-ms-version", API_VERSION) ::
    filter (λ kv, String.prefix "x-ms-" kv.1 = true) extra).

Definition canonical_headers (date : string) (extra : list (string * string)) : string :=
  String.concat EmptyString (map (λ kv, kv.1 +:+ ":" +:+ kv.2 +:+ LF) (ms_headers date extra)).

Definition canonical_resource (resource_path : string) (query : list (string * string)) : string :=
  "/" +:+ az_account_name c +:+ "/" +:+ resource_path +:+
  String.concat EmptyString
    (map (λ kv, LF +:+ kv.1 +:+ ":" +:+ kv.2) (order_by (asc_str fst) query)).

Definition repeat_lf (n : nat) : string := String.concat EmptyString (repeat LF n).

Definition string_to_sign (verb resource_path date : string) (content_length : option Z)
    (content_type : string) (extra query : list (string * string)) : string :=
  verb +:+ repeat_lf 3 +:+ length_field content_length +:+ repeat_lf 2 +:+ content_type +:+
  repeat_lf 7 +:+ canonical_headers date extra +:+ canonical_resource resource_path query.

Definition shared_key_auth (verb resource_path date : string) (content_length : option Z)
    (content_type : string) (extra query : list (string * string)) : string :=
  "SharedKey " +:+ az_account_name c +:+ ":" +:+
  hmac_sign (string_to_sign verb resource_path date content_length content_type extra query).

(** ** Service SAS *)

Definition sas_string_to_sign (st se bp rscd : string) : string :=
  "r" +:+ LF +:+ st +:+ LF +:+ se +:+ LF +:+
  "/blob/" +:+ az_account_name c +:+ "/" +:+ az_container c +:+ "/" +:+ bp +:+ repeat_lf 4 +:+
  API_VERSION +:+ LF +:+ "b" +:+ repeat_lf 3 +:+ rscd +:+ repeat_lf 3.

Definition disposition (filename : option string) : string :=
  match filename with
  | Some f => "attachment; filename=" +:+ DQUOTE +:+ f +:+ DQUOTE
  | None => EmptyString
  end.

Definition generate_sas_url (bp : string) (expires_in : Z) (filename : option string) :
    Remote string :=
  now ← utc;
  expiry ← of_result (add_std_duration now expires_in);
  let st := strftime SAS_FORMAT now in
  let se := strftime SAS_FORMAT expiry in
  let rscd := disposition filename in
  let sig := hmac_sign (sas_string_to_sign st se bp rscd) in
  mret (blob_url bp +:+ "?sp=r&st=" +:+ urlencode st +:+ "&se=" +:+ urlencode se +:+ "&sv=" +:+
        API_VERSION +:+ "&sr=b&sig=" +:+ urlencode sig +:+
        (if str_is_empty rscd then EmptyString else "&rscd=" +:+ urlencode rscd)).

(** ** Requests *)

(** The headers every request carries, then those of its own. *)
Definition request (verb url auth date : string) (more : list (string * string)) (body : Body) :
    Request :=
  mkRequest verb url None
    (("Authorization", auth) :: ("x-ms-date", date) :: ("x-ms-version", API_VERSION) :: more) body.

Definition http_date : Remote string := t ← utc; mret (strftime DATE_FORMAT t).

Definition resource_of (bp : string) : string := az_container c +:+ "/" +:+ bp.

(** A request without a body on a blob. *)
Definition on_blob (verb what bp : string) : Remote Response :=
  date ← http_date;
  send what (request verb (blob_url bp) (shared_key_auth verb (resource_of bp) date None "" [] [])
    date [] NoBody).

Definition put_headers : list (string * string) :=
  [("x-ms-blob-type", "BlockBlob"); ("Content-Type", "application/octet-stream")].

Definition put_auth (bp date : string) (len : Z) : string :=
  shared_key_auth "PUT" (resource_of bp) date (Some len) "application/octet-stream"
    [("x-ms-blob-type", "BlockBlob")] [].

Definition upload_blob (bp : string) (data : bytes) : Remote Response :=
  date ← http_date;
  send "Azure upload failed"
    (request "PUT" (blob_url bp) (put_auth bp date (Z.of_nat (length data))) date put_headers
       (BytesBody data)).

(** The closure [put_once] of [upload_from_file]: the file is opened anew. *)
Definition put_once (bp : string) (src : string + bytes) (size : Z) : Remote Response :=
  date ← http_date;
  let auth := put_auth bp date size in
  data ← or_internal "Failed to open temp file for Azure upload" src;
  send "Azure streaming upload failed"
    (request "PUT" (blob_url bp) auth date (put_headers ++ [("Content-Length", pretty size)])
       (StreamBody data)).

(** The text between the tags, in every piece that has them; a piece where they
    come in the wrong order is sliced out of range. *)
Fixpoint names_of (sections : list string) : Result (list string) :=
  match sections with
  | [] => Ok []
  | section :: rest =>
      match str_find "<Name>" section, str_find "</Name>" section with
      | Some start, Some stop =>
          if Nat.leb (start + 6) stop then
            names ← names_of rest;
            Ok (str_take (stop - (start + 6)) (str_drop (start + 6) section) :: names)
          else Panic
      | _, _ => names_of rest
      end
  end.
Definition names_in (tag body : string) : Result (list string) :=
  names_of (drop 1 (split_on tag body)).

Definition list_account_containers : Remote (list string) :=
  date ← http_date;
  let auth := shared_key_auth "GET" "" date None "" [] [("comp", "list")] in
  resp ← send "Azure list containers failed"
    (request "GET" (base_url +:+ "/?comp=list") auth date [] NoBody);
  require_success "Azure list containers failed with status" resp;;
  body ← or_internal "Azure list containers body read failed" (body_text resp);
  of_result (names_in "<Container>" body).

Definition create_account_container (name : string) : Remote unit :=
  date ← http_date;
  let auth := shared_key_auth "PUT" name date (Some 0) "" [] [("restype", "container")] in
  resp ← send "Azure create container failed"
    (request "PUT" (base_url +:+ "/" +:+ name +:+ "?restype=container") auth date
       [("Content-Length", "0")] NoBody);
  require_success "Azure create container failed with status" resp.

(** ** The trait's methods *)

(** A missing container is created and the blob sent again, once. *)
Definition put_with_container (what : string) (put : Remote Response) : Remote unit :=
  resp ← put;
  if is_success resp then mret tt
  else if str_contains "ContainerNotFound" (text_or_default resp) then
    create_account_container (az_container c);;
    retry ← put;
    require_success what retry
  else fail (status_failure what resp).

Definition upload (path : string) (data : bytes) : Remote unit :=
  put_with_container "Azure upload failed with status" (upload_blob (blob_path path) data).

Definition upload_from_file (path : string) (src : string + bytes) (size : nat) : Remote unit :=
  put_with_container "Azure streaming upload failed with status"
    (put_once (blob_path path) src (Z.of_nat size)).

Definition get (path : string) : Remote Response :=
  resp ← on_blob "GET" "Azure download failed" (blob_path path);
  if Z.eqb (rs_status resp) NOT_FOUND then fail (NotFound ("File not found in Azure: " +:+ path))
  else require_success "Azure download failed with status" resp;; mret resp.

Definition download (path : string) : Remote bytes :=
  resp ← get path; or_internal "Azure download body read failed" (body_bytes resp).

Definition download_to_file (path : string) : Remote (bytes * option AppError) :=
  resp ← get path; mret (streamed "Azure stream chunk error" resp).

Definition delete (path : string) : Remote unit :=
  resp ← on_blob "DELETE" "Azure delete failed" (blob_path path);
  if negb (is_success resp) && negb (Z.eqb (rs_status resp) NOT_FOUND)
  then fail (status_failure "Azure delete failed with status" resp) else mret tt.

Definition exists_ (path : string) : Remote bool :=
  resp ← on_blob "HEAD" "Azure head failed" (blob_path path);
  if is_success resp then mret true
  else if Z.eqb (rs_status resp) NOT_FOUND then mret false
  else fail (Internal ("Azure head failed with status " +:+ status_text (rs_status resp))).

Definition generate_temp_url (path : string) (expires_in : Z) (filename : option string) :
    Remote (option string) :=
  url ← generate_sas_url (blob_path path) expires_in filename; mret (Some url).

Definition list (prefix : string) : Remote (list string) :=
  let full_prefix := blob_path prefix in
  date ← http_date;
  let auth := shared_key_auth "GET" (az_container c) date None "" []
    [("comp", "list"); ("prefix", full_prefix); ("restype", "container")] in
  resp ← send "Azure list failed"
    (request "GET" (base_url +:+ "/" +:+ az_container c +:+ "?restype=container&comp=list&prefix="
       +:+ urlencode full_prefix) auth date [] NoBody);
  require_success "Azure list failed with status" resp;;
  body ← or_internal "Azure list body read failed" (body_text resp);
  names ← of_result (names_in "<Blob>" body);
  mret (map (relative (az_prefix c)) names).
End azure.
End Azure.
