(* ===== verification/GcsBackend.v ===== *)
(** * The Google Cloud Storage backend (src/src/storage/gcs.rs)

    The JSON API with service-account authentication: the assertion exchanged
    for an access token, the token kept until shortly before it expires, the
    V4 signed links, the requests of each operation. *)

From S2P Require Import Prelude Text Json Env Remote AzureBackend.

Class GcsSigning := {
  (** RSA-SHA256 under a PEM key; [URL_SAFE_NO_PAD]; [hex::encode]. *)
  rsa_sign : string → bytes → bytes;
  base64url : bytes → string;
  hex : bytes → string
}.

Module Gcs.
Section gcs.
Context {N : Network} {E : Env} {H : Http} {Sg : Signing} {G : GcsSigning} (c : GcsConfig).

Definition GCS_UPLOAD_BASE : string := "https://storage.googleapis.com/upload/storage/v1".
Definition GCS_API_V1 : string := "https://storage.googleapis.com/storage/v1".
Definition TOKEN_URI : string := "https://oauth2.googleapis.com/token".
Definition TOKEN_LIFETIME_SECS : Z := 3600.

Definition utf8 (s : string) : bytes := String.list_byte_of_string s.

(** The fields [GcsBackend::new] computes. *)
Definition token_uri : string := default TOKEN_URI (gcs_token_uri c).
Definition project_of_email : option string :=
  domain ← nth_error (str_split "@"%char (gcs_client_email c)) 1;
  strip_suffix ".iam.gserviceaccount.com" domain.
Definition gcp_project_id : option string :=
  match gcs_gcp_project_id c with Some p => Some p | None => project_of_email end.

Definition object_path (path : string) : string := with_prefix (gcs_prefix c) path.

Definition sign (data : string) : bytes := rsa_sign (gcs_private_key_pem c) (utf8 data).

(** ** Access tokens *)

Definition quoted (s : string) : string := DQUOTE +:+ s +:+ DQUOTE.
Definition jwt_header : string :=
  "{" +:+ quoted "alg" +:+ ":" +:+ quoted "RS256" +:+ "," +:+ quoted "typ" +:+ ":" +:+
  quoted "JWT" +:+ "}".
Definition jwt_payload (now : Z) : string :=
  "{" +:+ quoted "iss" +:+ ":" +:+ quoted (gcs_client_email c) +:+ "," +:+
  quoted "scope" +:+ ":" +:+ quoted "https://www.googleapis.com/auth/devstorage.full_control" +:+
  "," +:+ quoted "aud" +:+ ":" +:+ quoted token_uri +:+ "," +:+
  quoted "iat" +:+ ":" +:+ pretty now +:+ "," +:+
  quoted "exp" +:+ ":" +:+ pretty (now + TOKEN_LIFETIME_SECS) +:+ "}".

Definition create_jwt (now : Z) : string :=
  let unsigned := base64url (utf8 jwt_header) +:+ "." +:+ base64url (utf8 (jwt_payload now)) in
  unsigned +:+ "." +:+ base64url (sign unsigned).

(** The cache of this backend. *)
Definition cached_token (s : Conn) : option CachedToken :=
  snd <$> head (filter (λ kv, kv.1 = c) (tokens s)).
Definition set_cached_token (t : CachedToken) : Remote unit := λ s,
  (mkConn (net s) ((c, t) :: filter (λ kv, kv.1 ≠ c) (tokens s)), Ok tt).

(** A token is used as long as it has more than a minute to live. *)
Definition fresh (now : Timestamp) (t : CachedToken) : bool := now + seconds 60 <? ct_expires_at t.

Definition token_request (jwt : string) : Request :=
  mkRequest "POST" token_uri None []
    (FormBody [("grant_type", "urn:ietf:params:oauth:grant-type:jwt-bearer"); ("assertion", jwt)]).

Definition as_i64 (v : Json) : option Z :=
  match v with
  | JNumber (PosInt n) => if Z.of_N n <=? i64_max then Some (Z.of_N n) else None
  | JNumber (NegInt z) => Some z
  | _ => None
  end.

Definition exchange_token : Remote string :=
  now ← utc;
  resp ← send "GCS token exchange failed" (token_request (create_jwt (now / usec_per_sec)));
  require_success "GCS token exchange failed with status" resp;;
  token_resp ← or_internal "GCS token response parse failed" (body_json resp);
  access_token ← of_result (ok_or (as_str (json_index "access_token" token_resp))
                              (Internal "No access_token in GCS response"));
  let expires_in := default TOKEN_LIFETIME_SECS (as_i64 (json_index "expires_in" token_resp)) in
  later ← utc;
  set_cached_token (mkCachedToken access_token (later + seconds expires_in));;
  mret access_token.

Definition get_access_token : Remote string :=
  now ← utc;
  cached ← (λ s, (s, Ok (cached_token s)));
  match cached with
  | Some t => if fresh now t then mret (ct_token t) else exchange_token
  | None => exchange_token
  end.

(** ** V4 signed links *)

Definition HOST : string := "storage.googleapis.com".

Definition query_params (credential datetime : string) (expires_secs : Z) :
    list (string * string) :=
  order_by (asc_str fst)
    [("X-Goog-Algorithm", "GOOG4-RSA-SHA256"); ("X-Goog-Credential", credential);
     ("X-Goog-Date", datetime); ("X-Goog-Expires", pretty expires_secs);
     ("X-Goog-SignedHeaders", "host")].

Definition canonical_query (params : list (string * string)) : string :=
  String.concat "&" (map (λ kv, urlencode kv.1 +:+ "=" +:+ urlencode kv.2) params).

Definition generate_signed_url_v4 (op : string) (expires_secs : Z) : Remote string :=
  now ← utc;
  let datetime := strftime "%Y%m%dT%H%M%SZ" now in
  let credential_scope := strftime "%Y%m%d" now +:+ "/auto/storage/goog4_request" in
  let credential := gcs_client_email c +:+ "/" +:+ credential_scope in
  let path := "/" +:+ gcs_bucket c +:+ "/" +:+ urlencode op in
  let query := canonical_query (query_params credential datetime expires_secs) in
  let canonical_request := "GET" +:+ LF +:+ path +:+ LF +:+ query +:+ LF +:+ "host:" +:+ HOST +:+
    LF +:+ LF +:+ "host" +:+ LF +:+ "UNSIGNED-PAYLOAD" in
  let hashed_request := sha_hex (sha_update (utf8 canonical_request) sha_new) in
  let text := "GOOG4-RSA-SHA256" +:+ LF +:+ datetime +:+ LF +:+ credential_scope +:+ LF +:+
    hashed_request in
  mret ("https://" +:+ HOST +:+ path +:+ "?" +:+ query +:+ "&X-Goog-Signature=" +:+
        hex (sign text)).

(** ** Requests *)

Definition upload_url (op : string) : string :=
  GCS_UPLOAD_BASE +:+ "/b/" +:+ urlencode (gcs_bucket c) +:+ "/o?uploadType=media&name=" +:+
  urlencode op.
Definition object_url (op : string) : string :=
  GCS_API_V1 +:+ "/b/" +:+ urlencode (gcs_bucket c) +:+ "/o/" +:+ urlencode op.
Definition media_url (op : string) : string := object_url op +:+ "?alt=media".
Definition buckets_url (project_id : string) : string :=
  GCS_API_V1 +:+ "/b?project=" +:+ urlencode project_id.

Definition authorized (verb url token : string) (more : list (string * string)) (body : Body) :
    Request :=
  mkRequest verb url None (("Authorization", "Bearer " +:+ token) :: more) body.

Definition octets : list (string * string) := [("Content-Type", "application/octet-stream")].

Definition post_bytes (op : string) (data : bytes) : Remote Response :=
  token ← get_access_token;
  send "GCS upload failed" (authorized "POST" (upload_url op) token octets (BytesBody data)).

(** The closure [post_once] of [upload_from_file]. *)
Definition post_once (op : string) (src : string + bytes) (size : Z) : Remote Response :=
  token ← get_access_token;
  data ← or_internal "Failed to open temp file for GCS upload" src;
  send "GCS streaming upload failed"
    (authorized "POST" (upload_url op) token (octets ++ [("Content-Length", pretty size)])
       (StreamBody data)).

(** ** The trait's methods *)

Definition no_project (what : string) : AppError :=
  BadRequest ("GCP project ID is required for bucket " +:+ what +:+ ". Set gcp_project_id in " +:+
    "config or use a standard service account email.").

Definition list_containers : Remote (list string) :=
  project_id ← of_result (ok_or gcp_project_id (no_project "listing"));
  token ← get_access_token;
  resp ← send "GCS list buckets failed"
    (authorized "GET" (buckets_url project_id) token [] NoBody);
  require_success "GCS list buckets failed with status" resp;;
  body ← or_internal "GCS list buckets parse failed" (body_json resp);
  mret (match json_index "items" body with
        | JArray items => omap (λ item, as_str (json_index "name" item)) items
        | _ => []
        end).

Definition create_container (name : string) : Remote unit :=
  project_id ← of_result (ok_or gcp_project_id (no_project "creation"));
  token ← get_access_token;
  resp ← send "GCS create bucket failed"
    (authorized "POST" (buckets_url project_id) token [("Content-Type", "application/json")]
       (JsonBody (JObject [("name", JString name)])));
  require_success "GCS create bucket failed with status" resp.

(** A missing bucket is created and the object sent again, once. *)
Definition post_with_bucket (what : string) (post : Remote Response) : Remote unit :=
  resp ← post;
  if is_success resp then mret tt
  else if Z.eqb (rs_status resp) NOT_FOUND && str_contains "notFound" (text_or_default resp) then
    create_container (gcs_bucket c);;
    retry ← post;
    require_success what retry
  else fail (status_failure what resp).

Definition upload (path : string) (data : bytes) : Remote unit :=
  post_with_bucket "GCS upload failed with status" (post_bytes (object_path path) data).

Definition upload_from_file (path : string) (src : string + bytes) (size : nat) : Remote unit :=
  post_with_bucket "GCS streaming upload failed with status"
    (post_once (object_path path) src (Z.of_nat size)).

Definition get (path : string) : Remote Response :=
  token ← get_access_token;
  resp ← send "GCS download failed"
    (authorized "GET" (media_url (object_path path)) token [] NoBody);
  if Z.eqb (rs_status resp) NOT_FOUND then fail (NotFound ("File not found in GCS: " +:+ path))
  else require_success "GCS download failed with status" resp;; mret resp.

Definition download (path : string) : Remote bytes :=
  resp ← get path; or_internal "GCS download body read failed" (body_bytes resp).

Definition download_to_file (path : string) : Remote (bytes * option AppError) :=
  resp ← get path; mret (streamed "GCS stream chunk error" resp).

Definition delete (path : string) : Remote unit :=
  token ← get_access_token;
  resp ← send "GCS delete failed"
    (authorized "DELETE" (object_url (object_path path)) token [] NoBody);
  if negb (is_success resp) && negb (Z.eqb (rs_status resp) NOT_FOUND)
  then fail (status_failure "GCS delete failed with status" resp) else mret tt.

Definition exists_ (path : string) : Remote bool :=
  token ← get_access_token;
  resp ← send "GCS metadata check failed"
    (authorized "GET" (object_url (object_path path)) token [] NoBody);
  if is_success resp then mret true
  else if Z.eqb (rs_status resp) NOT_FOUND then mret false
  else fail (Internal ("GCS metadata check failed with status " +:+ status_text (rs_status resp))).

Definition generate_temp_url (path : string) (expires_in : Z) : Remote (option string) :=
  url ← generate_signed_url_v4 (object_path path) expires_in; mret (Some url).

Definition list_url (full_prefix : string) (page_token : option string) : string :=
  GCS_API_V1 +:+ "/b/" +:+ urlencode (gcs_bucket c) +:+ "/o?prefix=" +:+ urlencode full_prefix +:+
  match page_token with Some t => "&pageToken=" +:+ urlencode t | None => EmptyString end.

(** The names on a page, and the token of the next. *)
Definition page_names (body : Json) : list string :=
  match json_index "items" body with
  | JArray items => omap (λ item, as_str (json_index "name" item)) items
  | _ => []
  end.

Fixpoint list_pages (fuel : nat) (full_prefix token : string) (page_token : option string)
    (results : list string) : Remote (list string) :=
  match fuel with
  | O => out_of_fuel
  | S fuel' =>
      resp ← send "GCS list failed"
        (authorized "GET" (list_url full_prefix page_token) token [] NoBody);
      require_success "GCS list failed with status" resp;;
      body ← or_internal "GCS list parse failed" (body_json resp);
      let results' := results ++ map (relative (gcs_prefix c)) (page_names body) in
      match as_str (json_index "nextPageToken" body) with
      | Some next => list_pages fuel' full_prefix token (Some next) results'
      | None => mret results'
      end
  end.

Definition list (pages : nat) (prefix : string) : Remote (list string) :=
  token ← get_access_token; list_pages pages (object_path prefix) token None [].
End gcs.
End Gcs.
