(* ===== verification/HetznerBackend.v ===== *)
(** * The Hetzner StorageBox backend (src/src/storage/hetzner.rs)

    WebDAV over HTTP: directories made one by one before a file is put, and the
    listing read off the text of the PROPFIND response. *)

From S2P Require Import Prelude Text Json Env Remote.

(** [urlencoding::decode]. *)
Class UrlDecode := { urldecode : string → option string }.

Module Hetzner.

(** ** Reading a PROPFIND response *)

Section propfind.
Context {U : UrlDecode} {L : UnicodeCase}.

(** The first of two tags, the second only when there is none of the first:
    where the text after it starts. *)
Definition after_tag (tag1 tag2 lower : string) (from : nat) : Result (option nat) :=
  rest ← utf8_slice from (String.length lower) lower;
  Ok (match str_find tag1 rest with
      | Some pos => Some (from + pos + String.length tag1)%nat
      | None => (λ pos, from + pos + String.length tag2)%nat <$> str_find tag2 rest
      end).
Definition before_tag (tag1 tag2 lower : string) (from : nat) : Result (option nat) :=
  rest ← utf8_slice from (String.length lower) lower;
  Ok (match str_find tag1 rest with
      | Some pos => Some (from + pos)%nat
      | None => (λ pos, from + pos)%nat <$> str_find tag2 rest
      end).

Definition trim_slashes (s : string) : string := trim_end_matches slash (trim_start_slashes s).

(** What an href contributes: directories are skipped, the rest is decoded and
    taken relative to the base path. *)
Definition href_path (base_path href : string) : option string :=
  if ends_with slash href then None
  else
    let decoded := default href (urldecode href) in
    let base := trim_slashes base_path in
    let path := trim_start_slashes decoded in
    let stripped :=
      if str_is_empty base then path else default path (strip_prefix (base +:+ "/") path) in
    if str_is_empty stripped then None else Some stripped.

(** The tags are looked for in the lowercase of the text, the hrefs read off
    the text itself at the positions found. Every round moves past a tag: the
    length of the lowercase is fuel enough. *)
Fixpoint scan_hrefs (fuel : nat) (xml lower base_path : string) (search_start : nat)
    (results : list string) : Result (list string) :=
  match fuel with
  | O => Ok results
  | S fuel' =>
      opened ← after_tag "<d:href>" "<href>" lower search_start;
      match opened with
      | None => Ok results
      | Some open_tag =>
          closed ← before_tag "</d:href>" "</href>" lower open_tag;
          match closed with
          | None => Ok results
          | Some close_tag =>
              slice ← utf8_slice open_tag close_tag xml;
              let href := str_trim slice in
              let results' :=
                match href_path base_path href with
                | Some p => results ++ [p]
                | None => results
                end in
              scan_hrefs fuel' xml lower base_path (close_tag + 1) results'
          end
      end
  end.

Definition parse_propfind_hrefs (xml base_path : string) : Result (list string) :=
  let lower := to_lowercase xml in
  scan_hrefs (S (String.length lower)) xml lower base_path 0 [].
End propfind.

Section hetzner.
Context {N : Network} {E : Env} {H : Http} {U : UrlDecode} {L : UnicodeCase} (c : HetznerStorageBoxConfig).

Definition effective_username : string :=
  match hz_sub_account c with
  | Some sub => hz_username c +:+ "-" +:+ sub
  | None => hz_username c
  end.

Definition host_url (file_path : string) : string :=
  "https://" +:+ hz_host c +:+ ":" +:+ pretty (hz_port c) +:+ "/" +:+ file_path.

Definition base : string := trim_end_matches slash (hz_base_path c).

Definition webdav_url (path : string) : string :=
  host_url (if str_is_empty base then path else base +:+ "/" +:+ path).

Definition webdav_dir_url (dir_path : string) : string :=
  let url := webdav_url dir_path in
  if ends_with slash url then url else url +:+ "/".

Definition request (verb url : string) (headers : list (string * string)) (body : Body) : Request :=
  mkRequest verb url (Some (effective_username, hz_password c)) headers body.

(** The status of a MKCOL is not looked at. *)
Definition mkcol (raw_url : string) : Remote unit :=
  _ ← send "Hetzner MKCOL failed" (request "MKCOL" raw_url [] NoBody); mret tt.

(** The directories of the base path, then those of the file below it. *)
Definition ensure_base_path : Remote unit :=
  for_parts (λ current, mkcol (host_url (current +:+ "/"))) (dirs_of base).

Definition ensure_parent_dirs (path : string) : Remote unit :=
  ensure_base_path;;
  for_parts (λ current, mkcol (webdav_dir_url current)) (parent_dirs path).

(** [file_body]: the file opened for streaming. *)
Definition file_body (src : string + bytes) : Remote Body :=
  data ← or_internal "Failed to open temp file" src; mret (StreamBody data).

(** ** The trait's methods *)

Definition stored (r : Response) : bool :=
  is_success r || Z.eqb (rs_status r) 201 || Z.eqb (rs_status r) 204.

(** A conflict means that a directory is missing: they are made again, and the
    file is sent again, once. *)
Definition put (path : string) (body : Remote Body) : Remote unit :=
  ensure_parent_dirs path;;
  let url := webdav_url path in
  b ← body;
  resp ← send "Hetzner upload failed" (request "PUT" url [] b);
  if Z.eqb (rs_status resp) 409 then
    ensure_parent_dirs path;;
    b ← body;
    retry ← send "Hetzner upload retry failed" (request "PUT" url [] b);
    if stored retry then mret tt
    else fail (status_failure "Hetzner upload retry returned" retry)
  else if stored resp then mret tt
  else fail (status_failure "Hetzner upload returned" resp).

Definition upload (path : string) (data : bytes) : Remote unit := put path (mret (BytesBody data)).

Definition upload_from_file (path : string) (src : string + bytes) : Remote unit :=
  put path (file_body src).

Definition get (path : string) : Remote Response :=
  resp ← send "Hetzner download failed" (request "GET" (webdav_url path) [] NoBody);
  if Z.eqb (rs_status resp) 404
  then fail (NotFound ("File not found on Hetzner StorageBox: " +:+ path))
  else require_success "Hetzner download returned" resp;; mret resp.

Definition download (path : string) : Remote bytes :=
  resp ← get path; or_internal "Hetzner read body failed" (body_bytes resp).

Definition download_to_file (path : string) : Remote (bytes * option AppError) :=
  resp ← get path; mret (streamed "Hetzner stream chunk error" resp).

Definition delete (path : string) : Remote unit :=
  resp ← send "Hetzner delete failed" (request "DELETE" (webdav_url path) [] NoBody);
  if negb (is_success resp) && negb (Z.eqb (rs_status resp) 404)
  then fail (status_failure "Hetzner delete returned" resp) else mret tt.

Definition exists_ (path : string) : Remote bool :=
  resp ← send "Hetzner PROPFIND failed"
    (request "PROPFIND" (webdav_url path) [("Depth", "0")] NoBody);
  mret (Z.eqb (rs_status resp) 207).

Definition generate_temp_url : Remote (option string) := mret None.

Definition propfind_body : string :=
  let nl := String (Ascii.ascii_of_nat 10) EmptyString in
  let q := String (Ascii.ascii_of_nat 34) EmptyString in
  String.concat nl
    [ "<?xml version=" +:+ q +:+ "1.0" +:+ q +:+ " encoding=" +:+ q +:+ "utf-8" +:+ q +:+ " ?>";
      "<D:propfind xmlns:D=" +:+ q +:+ "DAV:" +:+ q +:+ ">";
      "  <D:prop>"; "    <D:displayname/>"; "    <D:resourcetype/>"; "  </D:prop>";
      "</D:propfind>" ].

Definition list (prefix : string) : Remote (list string) :=
  resp ← send "Hetzner PROPFIND list failed"
    (request "PROPFIND" (webdav_dir_url prefix)
       [("Depth", "1"); ("Content-Type", "application/xml")] (TextBody propfind_body));
  if Z.eqb (rs_status resp) 404 then mret []
  else if negb (Z.eqb (rs_status resp) 207) then
    fail (status_failure "Hetzner PROPFIND list returned" resp)
  else
    body ← or_internal "Hetzner read PROPFIND body failed" (body_text resp);
    of_result (parse_propfind_hrefs body (hz_base_path c)).

Definition create_container (name : string) : Remote unit :=
  resp ← send "Hetzner MKCOL failed" (request "MKCOL" (webdav_dir_url name) [] NoBody);
  if Z.eqb (rs_status resp) 201 || Z.eqb (rs_status resp) 405 || Z.eqb (rs_status resp) 301
  then mret tt
  else fail (status_failure "Hetzner create_container returned" resp).
End hetzner.
End Hetzner.
