(* ===== verification/FileServers.v ===== *)
(** * The FTP, SFTP and SMB backends (src/src/storage/ftp.rs, sftp.rs, samba.rs)

    Every operation opens a connection of its own, makes the directories it
    needs, and acts on one file. The clients (suppaftp, russh, pavao) are
    parameters; the trait's defaults provide the operations on local files. *)

From S2P Require Import Prelude Text Json Env Remote.

(** [prefix.is_empty() || name.starts_with(prefix)]. *)
Definition listed (prefix name : string) : bool :=
  str_is_empty prefix || String.prefix prefix name.

(** The defaults of the trait [StorageBackend]. *)
Definition default_upload_from_file `{Network} (upload : bytes → Remote unit)
    (src : string + bytes) : Remote unit :=
  data ← or_internal "Failed to read temp file" src; upload data.
Definition default_download_to_file `{Network} (download : Remote bytes) :
    Remote (bytes * option AppError) :=
  data ← download; mret (data, None).

(** ** FTP *)

Class FtpClient {N : Network} := {
  FtpStream : Type;
  DataStream : Type;
  ftp_connect : string → Call string FtpStream;
  ftp_login : FtpStream → string → string → Call string unit;
  ftp_binary : FtpStream → Call string unit;
  ftp_mkdir : FtpStream → string → Call string unit;
  ftp_put_file : FtpStream → string → bytes → Call string unit;
  ftp_retr_as_stream : FtpStream → string → Call string DataStream;
  ftp_read_to_end : DataStream → Call string bytes;
  ftp_finalize_retr_stream : FtpStream → DataStream → Call string unit;
  ftp_rm : FtpStream → string → Call string unit;
  ftp_size : FtpStream → string → Call string Z;
  ftp_nlst : FtpStream → string → Call string (list string);
  ftp_quit : FtpStream → Call string unit
}.

Module Ftp.
Section ftp.
Context {N : Network} {F : FtpClient} (c : FtpConfig).

Definition remote_path (path : string) : string := with_prefix (ftp_base_path c) path.

Definition connect : Remote FtpStream :=
  ftp ← call "FTP connect failed" (ftp_connect (ftp_host c +:+ ":" +:+ pretty (ftp_port c)));
  call "FTP login failed" (ftp_login ftp (ftp_username c) (ftp_password c));;
  call "FTP set binary mode failed" (ftp_binary ftp);;
  mret ftp.

Definition ensure_parent_dirs (ftp : FtpStream) (remote : string) : Remote unit :=
  for_parts (λ current, attempt_ (ftp_mkdir ftp current)) (parent_dirs remote).

Definition upload (path : string) (data : bytes) : Remote unit :=
  let remote := remote_path path in
  ftp ← connect;
  ensure_parent_dirs ftp remote;;
  call "FTP upload failed" (ftp_put_file ftp remote data);;
  attempt_ (ftp_quit ftp).

Definition retr_failed (path e : string) : AppError :=
  if str_contains "550" e then NotFound ("File not found on FTP: " +:+ path)
  else internal "FTP download failed" e.

Definition download (path : string) : Remote bytes :=
  ftp ← connect;
  r ← attempt (ftp_retr_as_stream ftp (remote_path path));
  stream ← match r with inl e => fail (retr_failed path e) | inr s => mret s end;
  buf ← call "FTP read data failed" (ftp_read_to_end stream);
  call "FTP finalize stream failed" (ftp_finalize_retr_stream ftp stream);;
  attempt_ (ftp_quit ftp);;
  mret buf.

Definition delete (path : string) : Remote unit :=
  ftp ← connect;
  r ← attempt (ftp_rm ftp (remote_path path));
  match r with
  | inl e =>
      if str_contains "550" e then attempt_ (ftp_quit ftp)
      else attempt_ (ftp_quit ftp);; fail (internal "FTP delete failed" e)
  | inr _ => attempt_ (ftp_quit ftp)
  end.

Definition exists_ (path : string) : Remote bool :=
  ftp ← connect;
  r ← attempt (ftp_size ftp (remote_path path));
  attempt_ (ftp_quit ftp);;
  mret (match r with inr _ => true | inl _ => false end).

Definition generate_temp_url : Remote (option string) := mret None.

Definition list (prefix : string) : Remote (list string) :=
  let dir := if str_is_empty (ftp_base_path c) then "." else ftp_base_path c in
  ftp ← connect;
  entries ← call "FTP list failed" (ftp_nlst ftp dir);
  attempt_ (ftp_quit ftp);;
  mret (filter (λ name, listed prefix name = true) (map (relative (ftp_base_path c)) entries)).
End ftp.
End Ftp.

(** ** SFTP *)

Class SftpClient {N : Network} := {
  SshHandle : Type;
  SshChannel : Type;
  SftpSession : Type;
  SftpFile : Type;
  ssh_connect : string → Call string SshHandle;
  ssh_authenticate_password : SshHandle → string → string → Call string bool;
  ssh_open_session : SshHandle → Call string SshChannel;
  ssh_request_sftp : SshChannel → Call string unit;
  sftp_session : SshChannel → Call string SftpSession;
  sftp_create_dir : SftpSession → string → Call string unit;
  sftp_create : SftpSession → string → Call string SftpFile;
  sftp_write_all : SftpFile → bytes → Call string unit;
  sftp_shutdown : SftpFile → Call string unit;
  sftp_read : SftpSession → string → Call string bytes;
  sftp_remove_file : SftpSession → string → Call string unit;
  sftp_try_exists : SftpSession → string → Call string bool;
  sftp_read_dir : SftpSession → string → Call string (list string)
}.

Module Sftp.
Section sftp.
Context {N : Network} {F : SftpClient} (c : FtpConfig).

Definition remote_path (path : string) : string := with_prefix (ftp_base_path c) path.

Definition bad_credentials : AppError :=
  Internal "SSH authentication failed: invalid credentials".

Definition connect : Remote SftpSession :=
  handle ← call "SSH connect failed" (ssh_connect (ftp_host c +:+ ":" +:+ pretty (ftp_port c)));
  success ← call "SSH auth failed"
    (ssh_authenticate_password handle (ftp_username c) (ftp_password c));
  (if negb success then fail bad_credentials else mret tt);;
  channel ← call "SSH channel open failed" (ssh_open_session handle);
  call "SFTP subsystem request failed" (ssh_request_sftp channel);;
  call "SFTP session init failed" (sftp_session channel).

Definition ensure_parent_dirs (sftp : SftpSession) (remote : string) : Remote unit :=
  for_parts (λ current, attempt_ (sftp_create_dir sftp current)) (parent_dirs remote).

Definition upload (path : string) (data : bytes) : Remote unit :=
  let remote := remote_path path in
  sftp ← connect;
  ensure_parent_dirs sftp remote;;
  file ← call "SFTP create file failed" (sftp_create sftp remote);
  call "SFTP write failed" (sftp_write_all file data);;
  call "SFTP close file failed" (sftp_shutdown file).

Definition is_missing (e : string) : bool :=
  str_contains "No such file" e || str_contains "no such file" e.

Definition download (path : string) : Remote bytes :=
  sftp ← connect;
  r ← attempt (sftp_read sftp (remote_path path));
  match r with
  | inr data => mret data
  | inl e =>
      fail (if is_missing e then NotFound ("File not found on SFTP: " +:+ path)
            else internal "SFTP download failed" e)
  end.

Definition delete (path : string) : Remote unit :=
  sftp ← connect;
  r ← attempt (sftp_remove_file sftp (remote_path path));
  match r with
  | inr _ => mret tt
  | inl e => if is_missing e then mret tt else fail (internal "SFTP delete failed" e)
  end.

Definition exists_ (path : string) : Remote bool :=
  sftp ← connect;
  call "SFTP exists check failed" (sftp_try_exists sftp (remote_path path)).

Definition generate_temp_url : Remote (option string) := mret None.

Definition list (prefix : string) : Remote (list string) :=
  let dir := if str_is_empty (ftp_base_path c) then "." else ftp_base_path c in
  sftp ← connect;
  entries ← call "SFTP list failed" (sftp_read_dir sftp dir);
  mret (filter (λ name, listed prefix name = true) entries).
End sftp.
End Sftp.

(** ** SMB *)

(** The options of [SmbOpenOptions] the backend sets. *)
Record SmbOpenOptions := mkSmbOpenOptions { so_create : bool; so_read : bool; so_write : bool }.

Class SmbLibrary {N : Network} := {
  SmbClient : Type;
  SmbFd : Type;
  (** server, share, username, password, workgroup *)
  smb_client : string → string → string → string → string → Call string SmbClient;
  smb_mkdir : SmbClient → string → Z → Call string unit;
  smb_open_with : SmbClient → string → SmbOpenOptions → Call string SmbFd;
  smb_write : SmbClient → SmbFd → bytes → Call string unit;
  smb_read : SmbClient → SmbFd → Call string bytes;
  smb_close : SmbClient → SmbFd → Call string unit;
  smb_unlink : SmbClient → string → Call string unit;
  smb_stat : SmbClient → string → Call string unit;
  smb_readdir : SmbClient → string → Call string (list string)
}.

Module Samba.
Section samba.
Context {N : Network} {F : SmbLibrary} (c : SambaConfig).

Definition smb_uri : string := "smb://" +:+ smb_host c +:+ "/" +:+ smb_share c.
Definition remote_path (path : string) : string := with_prefix (smb_base_path c) path.
Definition file_url (path : string) : string := smb_uri +:+ "/" +:+ remote_path path.

Definition connect_sync : Remote SmbClient :=
  call "SMB connect failed"
    (smb_client ("smb://" +:+ smb_host c) (smb_share c) (smb_username c) (smb_password c)
       (smb_workgroup c)).

Definition ensure_parent_dirs_sync (client : SmbClient) (remote : string) : Remote unit :=
  for_parts (λ current, attempt_ (smb_mkdir client (smb_uri +:+ "/" +:+ current) 493))
    (parent_dirs remote).

Definition upload (path : string) (data : bytes) : Remote unit :=
  client ← connect_sync;
  ensure_parent_dirs_sync client (remote_path path);;
  fd ← call "SMB open for write failed"
    (smb_open_with client (file_url path) (mkSmbOpenOptions true false true));
  call "SMB write failed" (smb_write client fd data);;
  call "SMB close failed" (smb_close client fd).

Definition is_missing (e : string) : bool :=
  str_contains "No such file" e || str_contains "not found" e.

Definition download (path : string) : Remote bytes :=
  client ← connect_sync;
  r ← attempt (smb_open_with client (file_url path) (mkSmbOpenOptions false true false));
  fd ← match r with
       | inr fd => mret fd
       | inl e =>
           fail (if is_missing e then NotFound ("File not found on SMB: " +:+ path)
                 else internal "SMB open for read failed" e)
       end;
  data ← call "SMB read failed" (smb_read client fd);
  attempt_ (smb_close client fd);;
  mret data.

Definition delete (path : string) : Remote unit :=
  client ← connect_sync;
  r ← attempt (smb_unlink client (file_url path));
  match r with
  | inr _ => mret tt
  | inl e => if is_missing e then mret tt else fail (internal "SMB delete failed" e)
  end.

Definition exists_ (path : string) : Remote bool :=
  client ← connect_sync;
  r ← attempt (smb_stat client (file_url path));
  mret (match r with inr _ => true | inl _ => false end).

Definition generate_temp_url : Remote (option string) := mret None.

Definition is_dot (name : string) : bool := String.eqb name "." || String.eqb name "..".

Definition list (prefix : string) : Remote (list string) :=
  let dir_url := if str_is_empty (smb_base_path c) then smb_uri
                 else smb_uri +:+ "/" +:+ smb_base_path c in
  client ← connect_sync;
  entries ← call "SMB list failed" (smb_readdir client dir_url);
  mret (filter (λ name, negb (is_dot name) && listed prefix name = true) entries).
End samba.
End Samba.
