(* ===== verification/RemoteBackends.v ===== *)
(** * The trait [StorageBackend] for the remote services

    One record of operations per backend (the trait object the registry
    holds), and the environment in which the operations on remote storages are
    those of the backends. *)

From S2P Require Import Prelude Text Json Env Remote S3Backend AzureBackend GcsBackend.
From S2P Require Import HetznerBackend FileServers.

Section backends.
Context {N : Network} {E : Env} {H : Http} {Sdk : S3Sdk} {Sg : Signing} {G : GcsSigning}.
Context {U : UrlDecode} {L : UnicodeCase} {F : FtpClient} {Sf : SftpClient} {Sm : SmbLibrary}.

(** The methods of the trait; [list] takes a bound on the pages it reads. *)
Record StorageOps := mkStorageOps {
  so_upload : string → bytes → Remote unit;
  so_upload_from_file : string → string + bytes → nat → Remote unit;
  so_download : string → Remote bytes;
  so_download_to_file : string → Remote (bytes * option AppError);
  so_delete : string → Remote unit;
  so_exists : string → Remote bool;
  so_generate_temp_url : string → Z → option string → Remote (option string);
  so_list : nat → string → Remote (list string);
  so_list_containers : Remote (list string);
  so_create_container : string → Remote unit;
  so_supports_containers : bool
}.

(** The trait's defaults on containers. *)
Definition no_containers : Remote (list string) := mret [].
Definition no_container_management (_ : string) : Remote unit :=
  fail (BadRequest "This storage backend does not support container management").

Definition s3_ops (c : S3Config) : StorageOps := {|
  so_upload := S3.upload c;
  so_upload_from_file := S3.upload_from_file c;
  so_download := S3.download c;
  so_download_to_file := S3.download_to_file c;
  so_delete := S3.delete c;
  so_exists := S3.exists_ c;
  so_generate_temp_url path secs _ := S3.generate_temp_url c path secs;
  so_list := S3.list c;
  so_list_containers := S3.list_containers c;
  so_create_container := S3.create_container c;
  so_supports_containers := true |}.

Definition azure_ops (c : AzureBlobConfig) : StorageOps := {|
  so_upload := Azure.upload c;
  so_upload_from_file := Azure.upload_from_file c;
  so_download := Azure.download c;
  so_download_to_file := Azure.download_to_file c;
  so_delete := Azure.delete c;
  so_exists := Azure.exists_ c;
  so_generate_temp_url := Azure.generate_temp_url c;
  so_list _ := Azure.list c;
  so_list_containers := Azure.list_account_containers c;
  so_create_container := Azure.create_account_container c;
  so_supports_containers := true |}.

Definition gcs_ops (c : GcsConfig) : StorageOps := {|
  so_upload := Gcs.upload c;
  so_upload_from_file := Gcs.upload_from_file c;
  so_download := Gcs.download c;
  so_download_to_file := Gcs.download_to_file c;
  so_delete := Gcs.delete c;
  so_exists := Gcs.exists_ c;
  so_generate_temp_url path secs _ := Gcs.generate_temp_url c path secs;
  so_list := Gcs.list c;
  so_list_containers := Gcs.list_containers c;
  so_create_container := Gcs.create_container c;
  so_supports_containers := true |}.

Definition hetzner_ops (c : HetznerStorageBoxConfig) : StorageOps := {|
  so_upload := Hetzner.upload c;
  so_upload_from_file path src _ := Hetzner.upload_from_file c path src;
  so_download := Hetzner.download c;
  so_download_to_file := Hetzner.download_to_file c;
  so_delete := Hetzner.delete c;
  so_exists := Hetzner.exists_ c;
  so_generate_temp_url _ _ _ := Hetzner.generate_temp_url;
  so_list _ := Hetzner.list c;
  so_list_containers := no_containers;
  so_create_container := Hetzner.create_container c;
  so_supports_containers := true |}.

Definition ftp_ops (c : FtpConfig) : StorageOps := {|
  so_upload := Ftp.upload c;
  so_upload_from_file path src _ := default_upload_from_file (Ftp.upload c path) src;
  so_download := Ftp.download c;
  so_download_to_file path := default_download_to_file (Ftp.download c path);
  so_delete := Ftp.delete c;
  so_exists := Ftp.exists_ c;
  so_generate_temp_url _ _ _ := Ftp.generate_temp_url;
  so_list _ := Ftp.list c;
  so_list_containers := no_containers;
  so_create_container := no_container_management;
  so_supports_containers := false |}.

Definition sftp_ops (c : FtpConfig) : StorageOps := {|
  so_upload := Sftp.upload c;
  so_upload_from_file path src _ := default_upload_from_file (Sftp.upload c path) src;
  so_download := Sftp.download c;
  so_download_to_file path := default_download_to_file (Sftp.download c path);
  so_delete := Sftp.delete c;
  so_exists := Sftp.exists_ c;
  so_generate_temp_url _ _ _ := Sftp.generate_temp_url;
  so_list _ := Sftp.list c;
  so_list_containers := no_containers;
  so_create_container := no_container_management;
  so_supports_containers := false |}.

Definition samba_ops (c : SambaConfig) : StorageOps := {|
  so_upload := Samba.upload c;
  so_upload_from_file path src _ := default_upload_from_file (Samba.upload c path) src;
  so_download := Samba.download c;
  so_download_to_file path := default_download_to_file (Samba.download c path);
  so_delete := Samba.delete c;
  so_exists := Samba.exists_ c;
  so_generate_temp_url _ _ _ := Samba.generate_temp_url;
  so_list _ := Samba.list c;
  so_list_containers := no_containers;
  so_create_container := no_container_management;
  so_supports_containers := false |}.

(** The operations of a remote backend; the local disk is not one. *)
Definition backend_ops (b : Backend) : option StorageOps :=
  match b with
  | LocalDiskBackend _ _ => None
  | S3StorageBackend c => Some (s3_ops c)
  | AzureBlobBackend c => Some (azure_ops c)
  | GcsBackend c => Some (gcs_ops c)
  | HetznerStorageBoxBackend c => Some (hetzner_ops c)
  | FtpBackend c => Some (ftp_ops c)
  | SftpBackend c => Some (sftp_ops c)
  | SambaBackend c => Some (samba_ops c)
  end.

Definition not_remote : AppError := Internal "not a remote backend".

Definition with_ops {A} (b : Backend) (op : StorageOps → Remote A) : Remote A :=
  match backend_ops b with Some o => op o | None => fail not_remote end.

(** The length the caller of [upload_from_file] passes. *)
Definition source_size (src : string + bytes) : nat :=
  match src with inr data => length data | inl _ => 0%nat end.

(** ** The environment the backends make

    Everything as before, except that the operations on remote storages run the
    backends over the network. A read is taken at the state of the network it
    finds; what it leaves behind (a token in the cache) is dropped. *)

Definition services_env : Env := {|
  gen_uuid := gen_uuid; uuid_str := uuid_str; uuid_parse := uuid_parse;
  Hasher := Hasher; sha_new := sha_new; sha_update := sha_update; sha_hex := sha_hex;
  hmac_hex := hmac_hex; urlencode := urlencode;
  argon2_hash := argon2_hash; argon2_error := argon2_error; argon2_verify := argon2_verify;
  gen_token := gen_token;
  jwt_encode := jwt_encode; jwt_encode_error := jwt_encode_error;
  jwt_decode := jwt_decode; jwt_decode_error := jwt_decode_error;
  json_parse := json_parse; json_error := json_error; base64_text := base64_text;
  Schedule := Schedule; cron_parse := cron_parse; cron_error := cron_error;
  cron_after := cron_after;
  jsonb_contains := jsonb_contains; ilike := ilike; date_of := date_of;
  sqlx_display := sqlx_display;
  azure_key_error := azure_key_error; gcs_key_error := gcs_key_error;
  samba_feature := samba_feature;
  RemoteState := Conn;
  remote_upload b path data := with_ops b (λ o, so_upload o path data);
  remote_download b path s := (with_ops b (λ o, so_download o path) s).2;
  remote_upload_from_file b path src :=
    with_ops b (λ o, so_upload_from_file o path src (source_size src));
  remote_download_to_file b path s := (with_ops b (λ o, so_download_to_file o path) s).2;
  remote_delete b path := with_ops b (λ o, so_delete o path);
  remote_create_container b name := with_ops b (λ o, so_create_container o name);
  remote_list_containers b s := (with_ops b so_list_containers s).2;
  remote_temp_url b path secs filename s :=
    (with_ops b (λ o, so_generate_temp_url o path secs filename) s).2
|}.
End backends.
