(* ===== verification/Scenario.v ===== *)
(** * A small deployment

    A concrete state the theorems are instantiated on: two projects, a hot and
    a cold local storage, an administrator and a member, in the environment of
    Concrete.v. *)

From S2P Require Import Prelude Json Schema Env World Tables Concrete Registry.

Definition alice : User := mkUser 100 "alice" "argon2:secret" "admin" 0 0.
Definition bob : User := mkUser 101 "bob" "argon2:hunter2" "user" 0 0.

Definition photos : Project :=
  mkProject 10 "Photos" "photos" (Some 30) (Some 101%N) 0 0 None.
Definition docs : Project := mkProject 11 "Docs" "docs" None (Some 100%N) 0 0 None.

Definition local_config (path : string) : Json := JObject [("path", JString path)].
Definition hot : Storage :=
  mkStorage 20 "hot" "local" (local_config "/data/hot") true None true true 1 1.
Definition cold : Storage :=
  mkStorage 21 "cold" "local" (local_config "/data/cold") false None true true 2 2.

Definition assignment (id project storage : Uuid) : ProjectStorage :=
  mkProjectStorage id project storage None None true 0 0.

Definition deployment_db : Db :=
  set_users {[ 100%N := alice; 101%N := bob ]}
  (set_projects {[ 10%N := photos; 11%N := docs ]}
  (set_storages {[ 20%N := hot; 21%N := cold ]}
  (set_project_storages
     {[ 30%N := assignment 30 10 20; 31%N := assignment 31 10 21; 32%N := assignment 32 11 20 ]}
   empty_db))).

Definition deployment : World :=
  mkWorld deployment_db ∅ true (mkObjects true ∅)
    {[ 20%N := LocalDiskBackend "/data/hot" "k"; 21%N := LocalDiskBackend "/data/cold" "k" ]}
    (seconds 1000000) 1000 ∅.

Definition text (s : string) : bytes := String.list_byte_of_string s.
Definition hello : bytes := text "hello".
Definition no_metadata : Json := JObject [].
