(* ===== verification/Storages.v ===== *)
(** * Storages (src/src/db/models.rs)

    [impl Storage]: the rows of the storages table, the redaction of
    credentials in what the API returns, and the merge by which an update that
    carries redacted credentials keeps the stored ones. *)

From S2P Require Import Prelude Json Schema Env World Tables Laws Registry.

Record CreateStorage := mkCreateStorage {
  cst_name : string;
  cst_storage_type : string;
  cst_config : Json;
  cst_is_hot : option bool;
  cst_project_id : option Uuid;
  cst_enabled : option bool;
  cst_supports_direct_links : option bool
}.

Record UpdateStorage := mkUpdateStorage {
  ust_name : option string;
  ust_storage_type : option string;
  ust_config : option Json;
  ust_is_hot : option bool;
  ust_project_id : option (option Uuid);
  ust_enabled : option bool;
  ust_supports_direct_links : option bool
}.

Definition SENSITIVE_CONFIG_KEYS : list string :=
  ["secret_access_key"; "account_key"; "password"; "private_key_pem"].

Definition redacted_value : Json := JString "***".

(** One iteration of the loop of [redacted]. *)
Definition redact_key (m : list (string * Json)) (key : string) : list (string * Json) :=
  if contains_key key m then map_insert key redacted_value m else m.

Definition redact_config (config : Json) : Json :=
  match config with
  | JObject m => JObject (foldl redact_key m SENSITIVE_CONFIG_KEYS)
  | c => c
  end.

Definition redacted (s : Storage) : Storage := set_st_config (redact_config (st_config s)) s.

(** Whether an incoming configuration leaves a credential to the stored one:
    the field is missing or carries the placeholder. *)
Definition should_preserve (v : option Json) : bool :=
  match v with
  | None => true
  | Some (JString val) => String.eqb val "***"
  | Some _ => false
  end.

Definition merge_key (cur new : list (string * Json)) (key : string) : list (string * Json) :=
  if should_preserve (map_get key new) then
    match map_get key cur with
    | Some original => map_insert key original new
    | None => new
    end
  else new.

Definition merge_config (new cur : Json) : Json :=
  match new, cur with
  | JObject new_map, JObject cur_map =>
      JObject (foldl (merge_key cur_map) new_map SENSITIVE_CONFIG_KEYS)
  | _, _ => new
  end.

Module Storage.
Section ops.
Context {E : Env}.

Definition not_found (id : Uuid) : AppError :=
  NotFound ("Storage " +:+ uuid_str id +:+ " not found").

Definition create (input : CreateStorage) : M Schema.Storage :=
  sql_insert (λ id t, mkStorage id (cst_name input) (cst_storage_type input)
    (cst_config input) (default true (cst_is_hot input)) (cst_project_id input)
    (default true (cst_enabled input)) (default false (cst_supports_direct_links input)) t t).

Definition find_by_id (id : Uuid) : M Schema.Storage := or_throw (not_found id) (sql_find id).

Definition list : M (list Schema.Storage) :=
  l ← sql_select (λ _, true); mret (order_by (desc st_created_at) l).

Definition list_enabled : M (Datatypes.list Schema.Storage) :=
  l ← sql_select st_enabled; mret (order_by (desc st_created_at) l).

(** The active assignments of a project joined with their enabled storages:
    one row per assignment, hot storages first. *)
Definition project_storages_in (d : Db) (project_id : Uuid) : Datatypes.list Schema.Storage :=
  omap (λ ps, s ← storages d !! ps_storage_id ps; if st_enabled s then Some s else None)
    (select_in (λ ps, N.eqb (ps_project_id ps) project_id && ps_is_active ps) d).

Definition list_for_project (project_id : Uuid) : M (Datatypes.list Schema.Storage) :=
  l ← gets (λ w, project_storages_in (db w) project_id);
  mret (order_by (then_by (desc (λ s, bool_key (st_is_hot s))) (desc st_created_at)) l).

Definition update_enabled (id : Uuid) (enabled : bool) : M Schema.Storage :=
  or_throw (not_found id) (sql_set_id id (set_st_enabled enabled)).

Definition update (id : Uuid) (input : UpdateStorage) : M Schema.Storage :=
  current ← find_by_id id;
  let name := default (st_name current) (ust_name input) in
  let storage_type := default (st_storage_type current) (ust_storage_type input) in
  let config :=
    match ust_config input with
    | Some new_config => merge_config new_config (st_config current)
    | None => st_config current
    end in
  let is_hot := default (st_is_hot current) (ust_is_hot input) in
  let project_id :=
    match ust_project_id input with
    | Some val => val
    | None => st_project_id current
    end in
  let enabled := default (st_enabled current) (ust_enabled input) in
  let supports_direct_links :=
    default (st_supports_direct_links current) (ust_supports_direct_links input) in
  or_throw (not_found id)
    (sql_update_id id (λ s, mkStorage (st_id s) name storage_type config is_hot project_id
       enabled supports_direct_links (st_created_at s) (st_updated_at s))).
End ops.
End Storage.

Section load.
Context {E : Env}.

(** [load_backends_from_db]: a storage whose backend cannot be built is
    skipped (src/src/storage/registry.rs). *)
Definition load_backends_from_db (hmac_secret : string) : M unit :=
  storages ← Storage.list_enabled;
  for_each (λ s,
    try_with (lift (create_backend (st_storage_type s) (st_config s) hmac_secret))
      (λ backend, StorageRegistry.register (st_id s) backend)
      (λ _ : AppError, mret tt)) storages.
End load.
