(* ===== verification/Files.v ===== *)
(** * Files, references and locations (src/src/db/models.rs)

    [impl File], [impl FileReference] (without the searches, see Search.v) and
    [impl FileLocation]: a file is identified by the hash of its content, a
    reference links it to a project under a name, a location records a copy on
    a storage. *)

From S2P Require Import Prelude Json Schema Env World Tables Laws.

Record CreateFile := mkCreateFile {
  cf_hash_sha256 : string;
  cf_size : Z;
  cf_content_type : string
}.

Record CreateFileReference := mkCreateFileReference {
  cfr_file_id : Uuid;
  cfr_project_id : Uuid;
  cfr_original_name : string;
  cfr_metadata : Json
}.

Record CreateFileLocation := mkCreateFileLocation {
  cfl_file_id : Uuid;
  cfl_storage_id : Uuid;
  cfl_storage_path : string;
  cfl_status : string
}.

Module File.
Section ops.
Context {E : Env}.

Definition not_found (id : Uuid) : AppError :=
  NotFound ("File " +:+ uuid_str id +:+ " not found").

Definition create (input : CreateFile) : M Schema.File :=
  sql_insert (λ id t, mkFile id (cf_hash_sha256 input) (cf_size input) (cf_content_type input) t).

Definition find_by_id (id : Uuid) : M Schema.File := or_throw (not_found id) (sql_find id).

Definition find_by_hash (hash : string) : M (option Schema.File) :=
  sql_select_first (λ f, String.eqb (f_hash_sha256 f) hash).

Definition create_or_find (input : CreateFile) : M (Schema.File * bool) :=
  o ← find_by_hash (cf_hash_sha256 input);
  match o with
  | Some existing => mret (existing, false)
  | None =>
      try_with (create input)
        (λ file, mret (file, true))
        (λ e,
          match e with
          | Database s =>
              if is_unique_violation s then
                file ← or_throw (Internal "File disappeared after conflict")
                         (find_by_hash (cf_hash_sha256 input));
                mret (file, false)
              else throw e
          | _ => throw e
          end)
  end.

(** The files of a list that no reference names any more. *)
Definition find_orphaned_from_ids (file_ids : list Uuid) : M (list Uuid) :=
  match file_ids with
  | [] => mret []
  | _ =>
      d ← gets db;
      l ← sql_select (λ f, bool_decide (f_id f ∈ file_ids) &&
            negb (exists_row (λ fr, N.eqb (fr_file_id fr) (f_id f)) (file_references d)));
      mret (map f_id l)
  end.
End ops.
End File.

Module FileReference.
Section ops.
Context {E : Env}.

Definition not_found (id : Uuid) : AppError :=
  NotFound ("File reference " +:+ uuid_str id +:+ " not found").

Definition create (input : CreateFileReference) : M Schema.FileReference :=
  sql_insert (λ id t, mkFileReference id (cfr_file_id input) (cfr_project_id input)
    (cfr_original_name input) (cfr_metadata input) t).

Definition create_or_find (input : CreateFileReference) : M Schema.FileReference :=
  try_with (create input) mret
    (λ e,
      match e with
      | Database s =>
          if is_unique_violation s then
            fetch_one (sql_select (λ fr, N.eqb (fr_file_id fr) (cfr_file_id input) &&
              N.eqb (fr_project_id fr) (cfr_project_id input) &&
              String.eqb (fr_original_name fr) (cfr_original_name input)))
          else throw e
      | _ => throw e
      end).

Definition list_for_project (project_id : Uuid) (lim off : Z) : M (list Schema.FileReference) :=
  l ← sql_select (λ fr, N.eqb (fr_project_id fr) project_id);
  mret (limit lim (offset off (order_by (desc fr_created_at) l))).

Definition delete (id : Uuid) : M unit :=
  gone ← sql_delete (λ fr : Schema.FileReference, N.eqb (fr_id fr) id);
  ensure (negb (Nat.eqb (length gone) 0)) (not_found id).

Definition find_by_file_id (file_id : Uuid) : M (list Schema.FileReference) :=
  sql_select (λ fr, N.eqb (fr_file_id fr) file_id).

Definition of_file_and_project (file_id project_id : Uuid) (fr : Schema.FileReference) : bool :=
  N.eqb (fr_file_id fr) file_id && N.eqb (fr_project_id fr) project_id.

Definition find_by_file_and_project (file_id project_id : Uuid) : M (list Schema.FileReference) :=
  sql_select (of_file_and_project file_id project_id).

Definition delete_by_file_and_project (file_id project_id : Uuid) : M unit :=
  gone ← sql_delete (of_file_and_project file_id project_id);
  ensure (negb (Nat.eqb (length gone) 0))
    (NotFound "File reference not found for this file and project").

Definition update_metadata (id : Uuid) (metadata : Json) : M Schema.FileReference :=
  or_throw (not_found id) (sql_set_id id (set_fr_metadata metadata)).
End ops.
End FileReference.

Module FileLocation.
Section ops.
Context {E : Env}.

Definition not_found (id : Uuid) : AppError :=
  NotFound ("File location " +:+ uuid_str id +:+ " not found").

(** [synced_at] is set when the initial status is "synced". *)
Definition create (input : CreateFileLocation) : M Schema.FileLocation :=
  sql_insert (λ id t, mkFileLocation id (cfl_file_id input) (cfl_storage_id input)
    (cfl_storage_path input) (cfl_status input)
    (if String.eqb (cfl_status input) "synced" then Some t else None) None t).

(** A synced copy on an enabled storage: what a download may read. *)
Definition downloadable (d : Db) (file_id : Uuid) (fl : Schema.FileLocation) : bool :=
  N.eqb (fl_file_id fl) file_id && String.eqb (fl_status fl) "synced" &&
  match storages d !! fl_storage_id fl with Some s => st_enabled s | None => false end.

Definition is_hot_location (d : Db) (fl : Schema.FileLocation) : bool :=
  match storages d !! fl_storage_id fl with Some s => st_is_hot s | None => false end.

Definition find_for_file (file_id : Uuid) : M (list Schema.FileLocation) :=
  d ← gets db;
  l ← sql_select (downloadable d file_id);
  mret (order_by (then_by (desc (λ fl, bool_key (is_hot_location d fl)))
                          (desc_nulls_last fl_last_accessed_at)) l).

Definition find_all_for_file (file_id : Uuid) : M (list Schema.FileLocation) :=
  l ← sql_select (λ fl, N.eqb (fl_file_id fl) file_id);
  mret (order_by (desc fl_created_at) l).

(** The SET clause shared by both status updates. *)
Definition with_status (status : string) (t : Timestamp) (fl : Schema.FileLocation) :
    Schema.FileLocation :=
  let fl' := set_fl_status status fl in
  if String.eqb status "synced" then set_fl_synced_at (Some t) fl' else fl'.

Definition update_status (id : Uuid) (status : string) : M Schema.FileLocation :=
  t ← gets now;
  or_throw (not_found id) (sql_set_id id (with_status status t)).

Definition update_status_by_file_and_storage (file_id storage_id : Uuid) (status : string) :
    M Schema.FileLocation :=
  t ← gets now;
  l ← sql_update (λ fl, N.eqb (fl_file_id fl) file_id && N.eqb (fl_storage_id fl) storage_id)
        (with_status status t);
  lift (ok_or (head l) (NotFound ("File location not found for file " +:+ uuid_str file_id
                                  +:+ " on storage " +:+ uuid_str storage_id))).

Definition touch_accessed (id : Uuid) : M unit :=
  t ← gets now; sql_set_id id (set_fl_last_accessed_at (Some t)) ≫= λ _, mret tt.
End ops.
End FileLocation.
