(* ===== verification/SyncTasks.v ===== *)
(** * The synchronisation queue (src/src/db/models.rs)

    [impl SyncTask]: the rows of sync_tasks as a queue shared by the workers
    of all instances. A task is claimed under a transaction-scoped advisory
    lock derived from its identifier; a failed one goes back to the queue with
    an exponentially growing delay until its retries are exhausted. *)

From S2P Require Import Prelude Json Schema Env World Tables Laws.

Record CreateSyncTask := mkCreateSyncTask {
  ct_file_id : Uuid;
  ct_source_storage_id : Uuid;
  ct_target_storage_id : Uuid;
  ct_project_id : option Uuid
}.

Definition has_status (s : string) (t : SyncTask) : bool := String.eqb (tk_status t) s.

(** [Uuid::as_bytes]: sixteen bytes, most significant first. *)
Definition uuid_byte (id : Uuid) (i : nat) : Z :=
  Z.land (Z.shiftr (Z.of_N id) (8 * (15 - Z.of_nat i))) 255.

(** [i32::from_le_bytes]. *)
Definition i32_from_le_bytes (b0 b1 b2 b3 : Z) : Z :=
  let u := b0 + Z.shiftl b1 8 + Z.shiftl b2 16 + Z.shiftl b3 24 in
  if u <? 2 ^ 31 then u else u - 2 ^ 32.

(** The advisory-lock key of a row: the first eight bytes of its identifier. *)
Definition lock_key (id : Uuid) : Z * Z :=
  (i32_from_le_bytes (uuid_byte id 0) (uuid_byte id 1) (uuid_byte id 2) (uuid_byte id 3),
   i32_from_le_bytes (uuid_byte id 4) (uuid_byte id 5) (uuid_byte id 6) (uuid_byte id 7)).

(** The statements of [claim_pending], as functions on a row. *)

(** A task in progress for more than 15 minutes is taken for abandoned. *)
Definition is_stuck (t : Timestamp) (tk : SyncTask) : bool :=
  has_status "in_progress" tk && (tk_updated_at tk <? t - minutes 15).
Definition reclaim (tk : SyncTask) : SyncTask :=
  set_tk_status "pending" (set_tk_retries (tk_retries tk + 1)
    (set_tk_error_msg (Some "Reclaimed from stuck in_progress") tk)).

Definition is_exhausted (max_retries : Z) (tk : SyncTask) : bool :=
  has_status "pending" tk && (max_retries <=? tk_retries tk).
Definition give_up_task (tk : SyncTask) : SyncTask :=
  set_tk_status "failed" (set_tk_error_msg (Some "Max retries exceeded") tk).

Definition is_claimable (t : Timestamp) (max_retries : Z) (tk : SyncTask) : bool :=
  has_status "pending" tk && (tk_retries tk <? max_retries) &&
  match tk_retry_after tk with None => true | Some r => r <=? t end.

(** [LEAST(INTERVAL '1 second' * POWER(2, retries), INTERVAL '5 minutes')]. This is
    what PostgreSQL computes for fewer than 44 retries ([max_retries] is 5 unless
    configured); from 44 on the product no longer fits an interval and the
    statement fails instead. *)
Definition retry_delay (retries : Z) : Z := Z.min (seconds (2 ^ retries)) (minutes 5).

Module SyncTask.
Section ops.
Context {E : Env}.

Definition not_found (id : Uuid) : AppError :=
  NotFound ("Sync task " +:+ uuid_str id +:+ " not found").

Definition create (input : CreateSyncTask) : M Schema.SyncTask :=
  sql_insert (λ id t, mkSyncTask id (ct_file_id input) (ct_source_storage_id input)
    (ct_target_storage_id input) "pending" 0 None None (ct_project_id input) t t).

Definition find_pending (lim : Z) : M (list Schema.SyncTask) :=
  l ← sql_select (has_status "pending"); mret (limit lim (order_by (asc tk_created_at) l)).

Definition update_status (id : Uuid) (status : string) (error_msg : option string) :
    M Schema.SyncTask :=
  or_throw (not_found id) (sql_set_id id (λ t,
    set_tk_status status (set_tk_error_msg error_msg
      (set_tk_retries (if String.eqb status "failed" then tk_retries t + 1 else tk_retries t) t)))).

Definition supersede_failed_for (file_id target_storage_id winning_task_id : Uuid) : M Z :=
  l ← sql_update
    (λ t, has_status "failed" t && N.eqb (tk_file_id t) file_id &&
          N.eqb (tk_target_storage_id t) target_storage_id &&
          uuid_ne (tk_id t) winning_task_id)
    (λ t, set_tk_status "completed" (set_tk_error_msg
       (Some ("Superseded by later successful sync (task " +:+ uuid_str winning_task_id +:+ ")")) t));
  mret (Z.of_nat (length l)).

(** The candidates of one poll, before any lock is tried. *)
Definition fetch_candidates (lim max_retries : Z) : M (list Schema.SyncTask) :=
  t ← gets now;
  _ ← sql_update (is_stuck t) reclaim;
  _ ← sql_update (is_exhausted max_retries) give_up_task;
  l ← sql_select (is_claimable t max_retries);
  mret (limit lim (order_by (asc tk_created_at) l)).

(** One candidate: take the lock for the transaction, mark the row, commit.
    The lock is free again after the commit. *)
Definition try_claim (task : Schema.SyncTask) : M (option Schema.SyncTask) :=
  locked ← gets (λ w, bool_decide (lock_key (tk_id task) ∉ other_locks w));
  if (locked : bool) then
    _ ← sql_set_id (tk_id task) (set_tk_status "in_progress");
    mret (Some (set_tk_status "in_progress" task))
  else mret None.

Definition claim_pending (lim max_retries : Z) : M (list Schema.SyncTask) :=
  tasks ← fetch_candidates lim max_retries;
  foldM (λ claimed task,
    o ← transaction (try_claim task);
    match o with
    | Some t => mret (claimed ++ [t])
    | None => mret claimed
    end) [] tasks.

(** A no-op: the lock went with its transaction. *)
Definition release_lock (task_id : Uuid) : M unit := mret tt.

Definition requeue_for_retry (id : Uuid) (error_msg : string) : M Schema.SyncTask :=
  t ← gets now;
  or_throw (not_found id) (sql_set_id id (λ tk,
    set_tk_status "pending" (set_tk_error_msg (Some error_msg)
      (set_tk_retries (tk_retries tk + 1)
        (set_tk_retry_after (Some (t + retry_delay (tk_retries tk))) tk))))).

(** The optional conditions of the listing queries. *)
Definition matches_filters (status : option string) (storage_id project_id : option Uuid)
    (t : Schema.SyncTask) : bool :=
  match status with Some s => has_status s t | None => true end &&
  match storage_id with
  | Some sid => N.eqb (tk_source_storage_id t) sid || N.eqb (tk_target_storage_id t) sid
  | None => true
  end &&
  match project_id with
  | Some pid => option_uuid_eqb (tk_project_id t) (Some pid)
  | None => true
  end.

Definition list_filtered (status : option string) (storage_id : option Uuid) :
    M (list Schema.SyncTask) :=
  l ← sql_select (matches_filters status storage_id None);
  mret (limit 1000 (order_by (desc tk_created_at) l)).

(** [LEFT JOIN projects]: the name is null when the task has no project. *)
Definition list_with_project (status : option string) (storage_id project_id : option Uuid) :
    M (list (Schema.SyncTask * option string)) :=
  d ← gets db;
  l ← sql_select (matches_filters status storage_id project_id);
  mret (map (λ t, (t, pid ← tk_project_id t; p ← projects d !! pid; Some (p_name p)))
    (limit 1000 (order_by (desc tk_created_at) l))).
End ops.
End SyncTask.
