(* ===== verification/Users.v ===== *)
(** * Users, memberships and refresh tokens (src/src/db/models.rs)

    [impl User], [impl RefreshToken], [impl UserProject], [impl UserStorage]
    and [impl Node]. *)

From S2P Require Import Prelude Json Schema Env World Tables Laws.

Record CreateUser := mkCreateUser {
  cu_username : string;
  cu_password_hash : string;
  cu_role : string
}.

Record CreateRefreshToken := mkCreateRefreshToken {
  crt_user_id : Uuid;
  crt_token_hash : string;
  crt_expires_at : Timestamp
}.

(** A user with what an assignment adds to it. *)
Record MemberInfo := mkMemberInfo {
  mi_user : User;
  mi_assigned_at : Timestamp;
  mi_assignment_role : option string
}.

Module User.
Section ops.
Context {E : Env}.

Definition not_found (id : Uuid) : AppError :=
  NotFound ("User " +:+ uuid_str id +:+ " not found").

Definition create (input : CreateUser) : M Schema.User :=
  sql_insert (λ id t, mkUser id (cu_username input) (cu_password_hash input) (cu_role input) t t).
Definition find_by_id (id : Uuid) : M Schema.User := or_throw (not_found id) (sql_find id).
Definition find_by_username (username : string) : M (option Schema.User) :=
  sql_select_first (λ u, String.eqb (u_username u) username).
Definition list : M (list Schema.User) :=
  l ← sql_select (λ _, true); mret (order_by (asc u_created_at) l).
Definition delete (id : Uuid) : M unit :=
  gone ← sql_delete (λ u : Schema.User, N.eqb (u_id u) id);
  ensure (negb (Nat.eqb (length gone) 0)) (not_found id).
Definition count : M Z :=
  l ← sql_select (R := Schema.User) (λ _, true); mret (Z.of_nat (length l)).
Definition update_role (id : Uuid) (role : string) : M Schema.User :=
  or_throw (not_found id) (sql_update_id id (set_u_role role)).
Definition update_password_hash (id : Uuid) (password_hash : string) : M Schema.User :=
  or_throw (not_found id) (sql_set_id id (set_u_password_hash password_hash)).
End ops.
End User.

Module RefreshToken.
Section ops.
Context {E : Env}.

Definition create (input : CreateRefreshToken) : M Schema.RefreshToken :=
  sql_insert (λ id t, mkRefreshToken id (crt_user_id input) (crt_token_hash input)
    (crt_expires_at input) t).
Definition is_valid (t : Timestamp) (token_hash : string) (r : Schema.RefreshToken) : bool :=
  String.eqb (rt_token_hash r) token_hash && (t <? rt_expires_at r).
Definition find_by_hash (token_hash : string) : M (option Schema.RefreshToken) :=
  t ← gets now; sql_select_first (is_valid t token_hash).
Definition delete_by_user_id (user_id : Uuid) : M unit :=
  sql_delete (λ r : Schema.RefreshToken, N.eqb (rt_user_id r) user_id) ≫= λ _, mret tt.
(** Delete and return in one statement. *)
Definition consume_by_hash (token_hash : string) : M (option Schema.RefreshToken) :=
  t ← gets now; gone ← sql_delete (is_valid t token_hash); mret (head gone).
Definition delete_by_hash (token_hash : string) : M unit :=
  sql_delete (λ r : Schema.RefreshToken, String.eqb (rt_token_hash r) token_hash) ≫=
  λ _, mret tt.
Definition delete_expired : M Z :=
  t ← gets now;
  gone ← sql_delete (λ r : Schema.RefreshToken, rt_expires_at r <=? t);
  mret (Z.of_nat (length gone)).
End ops.
End RefreshToken.

Module UserProject.
Section ops.
Context {E : Env}.

Definition not_found : AppError := NotFound "User project assignment not found".

Definition is_pair (user_id project_id : Uuid) (r : Schema.UserProject) : bool :=
  N.eqb (up_user_id r) user_id && N.eqb (up_project_id r) project_id.

(** A duplicate assignment is a conflict; other errors stay. *)
Definition conflict_on_unique (msg : string) (e : AppError) : AppError :=
  match e with
  | Database s => if is_unique_violation s then Conflict msg else Database s
  | _ => e
  end.

Definition create (user_id project_id : Uuid) (role : string) : M Schema.UserProject :=
  map_err (conflict_on_unique "User is already assigned to this project")
    (sql_insert (λ id t, mkUserProject id user_id project_id role t)).
Definition list_for_project (project_id : Uuid) : M (list MemberInfo) :=
  d ← gets db;
  l ← sql_select (λ r, N.eqb (up_project_id r) project_id);
  mret (order_by (asc_str (λ m, u_username (mi_user m)))
    (omap (λ r, u ← users d !! up_user_id r;
                Some (mkMemberInfo u (up_created_at r) (Some (up_role r)))) l)).
(** The live projects a user is assigned to, with the role of the assignment. *)
Definition list_for_user (user_id : Uuid) : M (list (Project * string)) :=
  d ← gets db;
  l ← sql_select (λ r, N.eqb (up_user_id r) user_id);
  mret (order_by (desc (λ x, p_created_at x.1))
    (omap (λ r, p ← projects d !! up_project_id r;
                match p_deleted_at p with
                | None => Some (p, up_role r)
                | Some _ => None
                end) l)).
Definition delete (user_id project_id : Uuid) : M unit :=
  gone ← sql_delete (is_pair user_id project_id);
  ensure (negb (Nat.eqb (length gone) 0)) not_found.
Definition update_role (user_id project_id : Uuid) (role : string) : M Schema.UserProject :=
  l ← sql_update (is_pair user_id project_id) (set_up_role role);
  lift (ok_or (head l) not_found).
Definition get_role (user_id project_id : Uuid) : M (option string) :=
  o ← sql_select_first (is_pair user_id project_id); mret (up_role <$> o).
Definition is_member (user_id project_id : Uuid) : M bool :=
  gets (λ w, exists_row (is_pair user_id project_id) (user_projects (db w))).
End ops.
End UserProject.

Module UserStorage.
Section ops.
Context {E : Env}.

Definition not_found : AppError := NotFound "User storage assignment not found".

Definition is_pair (user_id storage_id : Uuid) (r : Schema.UserStorage) : bool :=
  N.eqb (us_user_id r) user_id && N.eqb (us_storage_id r) storage_id.

Definition create (user_id storage_id : Uuid) : M Schema.UserStorage :=
  map_err (UserProject.conflict_on_unique "User is already assigned to this storage")
    (sql_insert (λ id t, mkUserStorage id user_id storage_id t)).
Definition list_for_storage (storage_id : Uuid) : M (list MemberInfo) :=
  d ← gets db;
  l ← sql_select (λ r, N.eqb (us_storage_id r) storage_id);
  mret (order_by (asc_str (λ m, u_username (mi_user m)))
    (omap (λ r, u ← users d !! us_user_id r; Some (mkMemberInfo u (us_created_at r) None)) l)).
Definition list_for_user (user_id : Uuid) : M (list Storage) :=
  d ← gets db;
  l ← sql_select (λ r, N.eqb (us_user_id r) user_id);
  mret (order_by (desc st_created_at) (omap (λ r, storages d !! us_storage_id r) l)).
Definition delete (user_id storage_id : Uuid) : M unit :=
  gone ← sql_delete (is_pair user_id storage_id);
  ensure (negb (Nat.eqb (length gone) 0)) not_found.
Definition is_member (user_id storage_id : Uuid) : M bool :=
  gets (λ w, exists_row (is_pair user_id storage_id) (user_storages (db w))).
End ops.
End UserStorage.

Module Node.
Section ops.
Context {E : Env}.

(** [INSERT ... ON CONFLICT (node_id) DO UPDATE]. *)
Definition register (node_id address : string) : M Schema.Node :=
  t ← gets now;
  l ← sql_update (λ n, String.eqb (nd_node_id n) node_id)
        (λ n, set_nd_address address (set_nd_started_at t (set_nd_last_heartbeat t n)));
  match l with
  | n :: _ => mret n
  | [] => sql_insert (λ id t, mkNode id node_id address t t t)
  end.
Definition heartbeat (node_id : string) : M unit :=
  t ← gets now;
  sql_update (λ n, String.eqb (nd_node_id n) node_id) (set_nd_last_heartbeat t) ≫=
  λ _, mret tt.
Definition list_active (heartbeat_threshold_secs : Z) : M (list Schema.Node) :=
  t ← gets now;
  l ← sql_select (λ n, t - seconds heartbeat_threshold_secs <? nd_last_heartbeat n);
  mret (order_by (desc nd_started_at) l).
Definition list_all : M (list Schema.Node) :=
  l ← sql_select (λ _, true); mret (order_by (desc nd_started_at) l).
End ops.
End Node.
