(* ===== verification/Links.v ===== *)
(** * Shared links, upload sessions and access events (src/src/db/models.rs)

    [impl SharedLink], [impl UploadSession] and [impl FileAccessEvent]: the
    rows behind public download links, resumable uploads and the access log. *)

From S2P Require Import Prelude Json Schema Env World Tables Laws.

Record CreateSharedLink := mkCreateSharedLink {
  csl_file_id : Uuid;
  csl_project_id : Uuid;
  csl_original_name : string;
  csl_created_by : Uuid;
  csl_password : option string;
  csl_expires_at : option Timestamp;
  csl_max_downloads : option Z
}.

Record CreateUploadSession := mkCreateUploadSession {
  cus_project_id : Uuid;
  cus_user_id : Uuid;
  cus_original_name : string;
  cus_content_type : string;
  cus_total_size : Z;
  cus_temp_path : string;
  cus_metadata : Json;
  cus_expires_at : Timestamp
}.

Record RecordAccessEvent := mkRecordAccessEvent {
  rae_file_id : Uuid;
  rae_project_id : option Uuid;
  rae_storage_id : option Uuid;
  rae_access_kind : string;
  rae_user_id : option Uuid;
  rae_bytes : option Z
}.

Section hashing.
Context {E : Env}.

(** Hashing a password with a fresh random salt. *)
Definition argon2_hash_new (password : string) : M string :=
  n ← draw;
  lift (ok_or (argon2_hash n password)
              (Internal ("Password hashing failed: " +:+ argon2_error n password))).
End hashing.

Module SharedLink.
Section ops.
Context {E : Env}.

Definition not_found (id : Uuid) : AppError :=
  NotFound ("Shared link " +:+ uuid_str id +:+ " not found").

Definition password_protected (link : Schema.SharedLink) : bool :=
  match sl_password_hash link with Some _ => true | None => false end.

Definition generate_token : M string := n ← draw; mret (gen_token n).

Definition create (input : CreateSharedLink) : M Schema.SharedLink :=
  token ← generate_token;
  password_hash ←
    match csl_password input with
    | Some pw => h ← argon2_hash_new pw; mret (Some h)
    | None => mret None
    end;
  sql_insert (λ id t, mkSharedLink id token (csl_file_id input) (csl_project_id input)
    (csl_original_name input) (csl_created_by input) password_hash (csl_expires_at input)
    (csl_max_downloads input) 0 None true t).

Definition find_by_token (token : string) : M Schema.SharedLink :=
  or_throw (NotFound "Shared link not found")
    (sql_select_first (λ l, String.eqb (sl_token l) token)).

Definition find_by_id (id : Uuid) : M Schema.SharedLink := or_throw (not_found id) (sql_find id).

Definition list_by_project (project_id : Uuid) : M (list Schema.SharedLink) :=
  l ← sql_select (λ l, N.eqb (sl_project_id l) project_id);
  mret (order_by (desc sl_created_at) l).

(** Whether the limit of a link leaves room for one more download. *)
Definition below_limit (l : Schema.SharedLink) : bool :=
  match sl_max_downloads l with
  | None => true
  | Some m => sl_download_count l <? m
  end.

(** One UPDATE: the limit is tested and the count incremented atomically. *)
Definition increment_download_count (id : Uuid) : M bool :=
  t ← gets now;
  o ← sql_set_id_if id below_limit (λ l,
        set_sl_download_count (sl_download_count l + 1) (set_sl_last_accessed_at (Some t) l));
  mret (match o with Some _ => true | None => false end).

Definition deactivate (id : Uuid) : M Schema.SharedLink :=
  or_throw (not_found id) (sql_set_id id (set_sl_is_active false)).

Definition delete (id : Uuid) : M unit :=
  gone ← sql_delete (λ l : Schema.SharedLink, N.eqb (sl_id l) id);
  ensure (negb (Nat.eqb (length gone) 0)) (not_found id).

Definition delete_by_user (user_id : Uuid) : M unit :=
  sql_delete (λ l : Schema.SharedLink, N.eqb (sl_created_by l) user_id) ≫= λ _, mret tt.

Definition verify_password (password hash : string) : bool := argon2_verify password hash.
End ops.
End SharedLink.

Module UploadSession.
Section ops.
Context {E : Env}.

Definition not_found (id : Uuid) : AppError :=
  NotFound ("Upload session " +:+ uuid_str id +:+ " not found").

Definition is_in_progress (s : Schema.UploadSession) : bool :=
  String.eqb (ss_status s) "in_progress".
Definition is_terminal (s : Schema.UploadSession) : bool :=
  String.eqb (ss_status s) "completed" || String.eqb (ss_status s) "aborted".

Definition create (input : CreateUploadSession) : M Schema.UploadSession :=
  sql_insert (λ id t, mkUploadSession id (cus_project_id input) (cus_user_id input)
    (cus_original_name input) (cus_content_type input) (cus_total_size input) 0
    (cus_temp_path input) (cus_metadata input) "in_progress" t t (cus_expires_at input)).

Definition find_by_id (id : Uuid) : M Schema.UploadSession :=
  or_throw (not_found id) (sql_find id).

(** A compare-and-set on the offset of a session in progress. *)
Definition advance_offset (id : Uuid) (expected_offset new_offset : Z) :
    M (option Schema.UploadSession) :=
  t ← gets now;
  sql_set_id_if id (λ s, Z.eqb (ss_offset_bytes s) expected_offset && is_in_progress s)
    (λ s, set_ss_offset_bytes new_offset (set_ss_updated_at t s)).

Definition mark_status (id : Uuid) (status : string) : M unit :=
  t ← gets now;
  sql_set_id id (λ s, set_ss_status status (set_ss_updated_at t s)) ≫= λ _, mret tt.

Definition delete (id : Uuid) : M unit :=
  sql_delete (λ s : Schema.UploadSession, N.eqb (ss_id s) id) ≫= λ _, mret tt.

Definition find_expired (lim : Z) : M (list Schema.UploadSession) :=
  t ← gets now;
  l ← sql_select (λ s, (ss_expires_at s <? t) && is_in_progress s);
  mret (limit lim (order_by (asc ss_expires_at) l)).

Definition prune_terminal (older_than : Timestamp) : M Z :=
  gone ← sql_delete (λ s : Schema.UploadSession,
    is_terminal s && (ss_updated_at s <? older_than));
  mret (Z.of_nat (length gone)).
End ops.
End UploadSession.

Module FileAccessEvent.
Section ops.
Context {E : Env}.

(** Errors are swallowed. *)
Definition record (ev : RecordAccessEvent) : M unit :=
  ignore (sql_insert (λ id t, mkFileAccessEvent id (rae_file_id ev) (rae_project_id ev)
    (rae_storage_id ev) (rae_access_kind ev) (rae_user_id ev) (rae_bytes ev) t)).

(** The insert is scheduled on the runtime; here it takes place at once. *)
Definition spawn_record (ev : RecordAccessEvent) : M unit := record ev.

Definition prune_older_than (cutoff : Timestamp) : M Z :=
  gone ← sql_delete (λ e : Schema.FileAccessEvent, ev_created_at e <? cutoff);
  mret (Z.of_nat (length gone)).
End ops.
End FileAccessEvent.
