(* ===== verification/Backups.v ===== *)
(** * Backup configurations and history (src/src/db/models.rs)

    [impl BackupConfig] and [impl BackupRecord]: what to dump, where and how
    often, and one record per attempt. *)

From S2P Require Import Prelude Json Schema Env World Tables Laws.

Record CreateBackupConfig := mkCreateBackupConfig {
  cbc_name : string;
  cbc_storage_id : Uuid;
  cbc_storage_path : option string;
  cbc_schedule_cron : string;
  cbc_retention_count : option Z;
  cbc_enabled : option bool
}.

Record UpdateBackupConfig := mkUpdateBackupConfig {
  ubc_name : option string;
  ubc_storage_id : option Uuid;
  ubc_storage_path : option string;
  ubc_schedule_cron : option string;
  ubc_retention_count : option Z;
  ubc_enabled : option bool
}.

Record CreateBackupRecord := mkCreateBackupRecord {
  cbr_config_id : option Uuid;
  cbr_config_name : option string;
  cbr_storage_id : Uuid;
  cbr_file_path : string
}.

Module BackupConfig.
Section ops.
Context {E : Env}.

Definition not_found (id : Uuid) : AppError :=
  NotFound ("Backup config " +:+ uuid_str id +:+ " not found").

Definition create (input : CreateBackupConfig) : M Schema.BackupConfig :=
  sql_insert (λ id t, mkBackupConfig id (cbc_name input) (cbc_storage_id input)
    (default "backups" (cbc_storage_path input)) (cbc_schedule_cron input)
    (default 7 (cbc_retention_count input)) (default true (cbc_enabled input)) t t).

Definition find_by_id (id : Uuid) : M Schema.BackupConfig := or_throw (not_found id) (sql_find id).

Definition list : M (list Schema.BackupConfig) :=
  l ← sql_select (λ _, true); mret (order_by (desc bc_created_at) l).
Definition list_enabled : M (Datatypes.list Schema.BackupConfig) :=
  l ← sql_select bc_enabled; mret (order_by (desc bc_created_at) l).

Definition update (id : Uuid) (input : UpdateBackupConfig) : M Schema.BackupConfig :=
  current ← find_by_id id;
  or_throw (Database RowNotFound)
    (t ← gets now;
     sql_update_id id (λ c, mkBackupConfig (bc_id c)
       (default (bc_name current) (ubc_name input))
       (default (bc_storage_id current) (ubc_storage_id input))
       (default (bc_storage_path current) (ubc_storage_path input))
       (default (bc_schedule_cron current) (ubc_schedule_cron input))
       (default (bc_retention_count current) (ubc_retention_count input))
       (default (bc_enabled current) (ubc_enabled input))
       (bc_created_at c) t)).

Definition delete (id : Uuid) : M unit :=
  gone ← sql_delete (λ c : Schema.BackupConfig, N.eqb (bc_id c) id);
  ensure (negb (Nat.eqb (length gone) 0)) (not_found id).
End ops.
End BackupConfig.

Module BackupRecord.
Section ops.
Context {E : Env}.

Definition not_found (id : Uuid) : AppError :=
  NotFound ("Backup record " +:+ uuid_str id +:+ " not found").

Definition of_config (config_id : Uuid) (r : Schema.BackupRecord) : bool :=
  option_uuid_eqb (br_config_id r) (Some config_id).
Definition has_status (s : string) (r : Schema.BackupRecord) : bool := String.eqb (br_status r) s.

Definition create (input : CreateBackupRecord) : M Schema.BackupRecord :=
  sql_insert (λ id t, mkBackupRecord id (cbr_config_id input) (cbr_config_name input)
    (cbr_storage_id input) (cbr_file_path input) 0 "running" None (Some t) None t).

Definition find_by_id (id : Uuid) : M Schema.BackupRecord := or_throw (not_found id) (sql_find id).

(** [LIMIT] and [OFFSET] refuse a negative number. *)
Definition negative_limit : SqlxError := DatabaseError "2201W".
Definition negative_offset : SqlxError := DatabaseError "2201X".

Definition matches (config_id : option Uuid) (r : Schema.BackupRecord) : bool :=
  match config_id with Some cid => of_config cid r | None => true end.

Definition list (config_id : option Uuid) (lim off : Z) : M (list Schema.BackupRecord) :=
  ensure (0 <=? off) (Database negative_offset);;
  ensure (0 <=? lim) (Database negative_limit);;
  l ← sql_select (matches config_id);
  mret (limit lim (offset off (order_by (desc br_created_at) l))).

Definition count (config_id : option Uuid) : M Z :=
  l ← sql_select (matches config_id); mret (Z.of_nat (length l)).

Definition mark_completed (id : Uuid) (file_size_bytes : Z) (file_path : string) :
    M Schema.BackupRecord :=
  t ← gets now;
  or_throw (not_found id) (sql_set_id id (λ r,
    set_br_status "completed" (set_br_completed_at (Some t)
      (set_br_file_size_bytes file_size_bytes (set_br_file_path file_path r))))).

Definition mark_failed (id : Uuid) (error_message : string) : M Schema.BackupRecord :=
  t ← gets now;
  or_throw (not_found id) (sql_set_id id (λ r,
    set_br_status "failed" (set_br_error_message (Some error_message)
      (set_br_completed_at (Some t) r)))).

Definition delete (id : Uuid) : M unit :=
  gone ← sql_delete (λ r : Schema.BackupRecord, N.eqb (br_id r) id);
  ensure (negb (Nat.eqb (length gone) 0)) (not_found id).

Definition is_attempt (r : Schema.BackupRecord) : bool :=
  has_status "completed" r || has_status "running" r || has_status "failed" r.

Definition find_latest_by_config (config_id : Uuid) : M (option Schema.BackupRecord) :=
  l ← sql_select (λ r, of_config config_id r && is_attempt r);
  mret (head (limit 1 (order_by (desc br_created_at) l))).

Definition is_stale (config_id : Uuid) (threshold_secs : Z) (t : Timestamp)
    (r : Schema.BackupRecord) : bool :=
  of_config config_id r && has_status "running" r &&
  match br_started_at r with
  | Some s => s <? t - seconds threshold_secs
  | None => false
  end.

Definition stale_message : string :=
  "Marked as failed: exceeded maximum running time (stale)".

Definition mark_stale_running_as_failed (config_id : Uuid) (threshold_secs : Z) : M Z :=
  t ← gets now;
  l ← sql_update (is_stale config_id threshold_secs t) (λ r,
        set_br_status "failed" (set_br_error_message (Some stale_message)
          (set_br_completed_at (Some t) r)));
  mret (Z.of_nat (length l)).

Definition has_running_by_config (config_id : Uuid) : M bool :=
  l ← sql_select (λ r, of_config config_id r && has_status "running" r);
  mret (0 <? Z.of_nat (length l)).

Definition list_all_by_config (config_id : Uuid) : M (Datatypes.list Schema.BackupRecord) :=
  sql_select (of_config config_id).

Definition delete_all_by_config (config_id : Uuid) : M Z :=
  gone ← sql_delete (of_config config_id); mret (Z.of_nat (length gone)).

(** The completed backups of a configuration after the [retention_count] newest. *)
Definition list_oldest_completed_by_config (config_id : Uuid) (retention_count : Z) :
    M (Datatypes.list Schema.BackupRecord) :=
  ensure (0 <=? retention_count) (Database negative_offset);;
  l ← sql_select (λ r, of_config config_id r && has_status "completed" r);
  mret (offset retention_count (order_by (desc br_created_at) l)).
End ops.
End BackupRecord.
