(* ===== verification/Search.v ===== *)
(** * Metadata search and bulk deletion (src/src/db/models.rs)

    The filter language over file metadata and its compilation to a SQL
    condition with numbered parameters; the search, summary and bulk-delete
    queries built from such conditions. A condition is kept as an expression
    tree ([SqlExpr]) whose text is [render]; the database evaluates it against
    a row and the list of bound arguments ([eval]): [None] is the error of a
    parameter that is missing or has the wrong type, or of a column of a table
    the query does not join. *)

From S2P Require Import Prelude Json Schema Env World Tables Laws.

(** ** The filter language *)

#[warnings="-register-all"]
Inductive MetadataFilter :=
  | FAnd (l : list MetadataFilter)
  | FOr (l : list MetadataFilter)
  | FNot (f : MetadataFilter)
  | FLeaf (key : string) (value : Json).

(** ** SQL conditions *)

#[warnings="-register-all"]
Inductive SqlExpr :=
  | SProjectIs (n : nat)
  | STrue
  | SFalse
  | SMetadataContains (n : nat)
  | SAll (l : list SqlExpr)
  | SAny (l : list SqlExpr)
  | SNot (e : SqlExpr)
  | SNameIlike (n : nat)
  | SCreatedGe (n : nat)
  | SCreatedLe (n : nat)
  | SCreatedLt (n : nat)
  | SCreatedGt (n : nat)
  | SSizeGe (n : nat)
  | SSizeLe (n : nat)
  | SNotAccessedSince (n : nat).

Inductive SqlValue :=
  | VUuid (u : Uuid)
  | VJson (j : Json)
  | VText (s : string)
  | VTime (t : Timestamp)
  | VInt (z : Z).

Definition par (n : nat) : string := "$" +:+ pretty n.

Fixpoint render (e : SqlExpr) : string :=
  match e with
  | SProjectIs n => "fr.project_id = " +:+ par n
  | STrue => "TRUE"
  | SFalse => "FALSE"
  | SMetadataContains n => "metadata @> " +:+ par n +:+ "::jsonb"
  | SAll l => "(" +:+ String.concat " AND " (map render l) +:+ ")"
  | SAny l => "(" +:+ String.concat " OR " (map render l) +:+ ")"
  | SNot e => "NOT (" +:+ render e +:+ ")"
  | SNameIlike n => "fr.original_name ILIKE " +:+ par n
  | SCreatedGe n => "fr.created_at >= " +:+ par n
  | SCreatedLe n => "fr.created_at <= " +:+ par n
  | SCreatedLt n => "fr.created_at < " +:+ par n
  | SCreatedGt n => "fr.created_at > " +:+ par n
  | SSizeGe n => "f.size >= " +:+ par n
  | SSizeLe n => "f.size <= " +:+ par n
  | SNotAccessedSince n =>
      "NOT EXISTS (SELECT 1 FROM file_locations fl WHERE fl.file_id = fr.file_id AND " +:+
      "(fl.last_accessed_at IS NULL OR fl.last_accessed_at >= " +:+ par n +:+ "))"
  end.

(** ** The compiler *)

Record MetadataFilterCompiler := mkCompiler {
  next_param : nat;
  params : list Json
}.

Definition new_compiler (start_param : nat) : MetadataFilterCompiler := mkCompiler start_param [].

Definition MAX_DEPTH : nat := 32.

Definition too_deep : AppError := BadRequest "Filter nesting too deep (max 32 levels)".

(** [iter().map(|f| compile(f)).collect::<AppResult<_>>()], threading the
    compiler's state. *)
Fixpoint compile_list
    (comp : MetadataFilter → MetadataFilterCompiler → Result (SqlExpr * MetadataFilterCompiler))
    (l : list MetadataFilter) (c : MetadataFilterCompiler) :
    Result (list SqlExpr * MetadataFilterCompiler) :=
  match l with
  | [] => Ok ([], c)
  | f :: l' =>
      '(e, c1) ← comp f c;
      '(es, c2) ← compile_list comp l' c1;
      Ok (e :: es, c2)
  end.

Fixpoint compile_inner (filter : MetadataFilter) (depth : nat) (c : MetadataFilterCompiler) :
    Result (SqlExpr * MetadataFilterCompiler) :=
  if Nat.leb MAX_DEPTH depth then Err too_deep
  else
    match filter with
    | FLeaf key value =>
        Ok (SMetadataContains (next_param c),
            mkCompiler (S (next_param c)) (params c ++ [JObject [(key, value)]]))
    | FAnd [] => Ok (STrue, c)
    | FAnd l =>
        '(es, c') ← compile_list (λ f, compile_inner f (S depth)) l c; Ok (SAll es, c')
    | FOr [] => Ok (SFalse, c)
    | FOr l =>
        '(es, c') ← compile_list (λ f, compile_inner f (S depth)) l c; Ok (SAny es, c')
    | FNot f => '(e, c') ← compile_inner f (S depth) c; Ok (SNot e, c')
    end.

Definition compile (filter : MetadataFilter) (c : MetadataFilterCompiler) :
    Result (SqlExpr * MetadataFilterCompiler) := compile_inner filter 0 c.

(** ** Search extras *)

Record SearchExtras := mkSearchExtras {
  se_name_contains : option string;
  se_created_after : option Timestamp;
  se_created_before : option Timestamp
}.

(** A condition with the next parameter, when a value is there to bind. *)
Definition push_if {A} (o : option A) (mk : nat → SqlExpr) (acc : list SqlExpr * nat) :
    list SqlExpr * nat :=
  match o with
  | Some _ => (acc.1 ++ [mk acc.2], S acc.2)
  | None => acc
  end.
Definition arg_if {A} (o : option A) (mk : A → SqlValue) : list SqlValue :=
  match o with Some a => [mk a] | None => [] end.

Definition extras_clause (x : SearchExtras) (start_param : nat) : list SqlExpr * nat :=
  push_if (se_created_before x) SCreatedLe
    (push_if (se_created_after x) SCreatedGe
      (push_if (se_name_contains x) SNameIlike ([], start_param))).

Definition extras_bind (x : SearchExtras) : list SqlValue :=
  arg_if (se_name_contains x) (λ s, VText ("%" +:+ s +:+ "%")) ++
  arg_if (se_created_after x) VTime ++ arg_if (se_created_before x) VTime.

(** The text [extras_clause] contributes: each condition after an [AND]. *)
Definition render_and (l : list SqlExpr) : string :=
  String.concat "" (map (λ e, " AND " +:+ render e) l).

(** ** Bulk-delete filters *)

Record BulkDeleteFilters := mkBulkDeleteFilters {
  bdf_metadata_filters : option MetadataFilter;
  bdf_created_before : option Timestamp;
  bdf_created_after : option Timestamp;
  bdf_size_min : option Z;
  bdf_size_max : option Z;
  bdf_last_accessed_before : option Timestamp
}.

Definition is_some {A} (o : option A) : bool := match o with Some _ => true | None => false end.

Definition has_any_filter (f : BulkDeleteFilters) : bool :=
  is_some (bdf_metadata_filters f) || is_some (bdf_created_before f)
  || is_some (bdf_created_after f) || is_some (bdf_size_min f)
  || is_some (bdf_size_max f) || is_some (bdf_last_accessed_before f).

(** The conditions, the metadata parameters, whether the files table is
    needed, and the next free parameter. *)
Definition build_bulk_delete_clause (filters : BulkDeleteFilters) (start_param : nat) :
    Result (list SqlExpr * list Json * bool * nat) :=
  '(conditions, metadata_params, idx) ←
    match bdf_metadata_filters filters with
    | Some mf =>
        '(e, c) ← compile mf (new_compiler start_param);
        Ok ([e], params c, (start_param + length (params c))%nat)
    | None => Ok ([], [], start_param)
    end;
  let acc := push_if (bdf_last_accessed_before filters) SNotAccessedSince
    (push_if (bdf_size_max filters) SSizeLe
      (push_if (bdf_size_min filters) SSizeGe
        (push_if (bdf_created_after filters) SCreatedGt
          (push_if (bdf_created_before filters) SCreatedLt (conditions, idx))))) in
  let needs_files_join := is_some (bdf_size_min filters) || is_some (bdf_size_max filters) in
  Ok (acc.1, metadata_params, needs_files_join, acc.2).

Definition bind_bulk_delete_args (project_id : Uuid) (filters : BulkDeleteFilters)
    (metadata_params : list Json) : list SqlValue :=
  VUuid project_id :: map VJson metadata_params ++
  arg_if (bdf_created_before filters) VTime ++ arg_if (bdf_created_after filters) VTime ++
  arg_if (bdf_size_min filters) VInt ++ arg_if (bdf_size_max filters) VInt ++
  arg_if (bdf_last_accessed_before filters) VTime.

(** The text of the WHERE clause: [TRUE] when there is no condition. *)
Definition render_where (l : list SqlExpr) : string :=
  match l with [] => "TRUE" | _ => String.concat " AND " (map render l) end.

(** ** Evaluation *)

Section search.
Context {E : Env}.

(** The argument bound to [$n], counting from 1. *)
Definition arg (args : list SqlValue) (n : nat) : option SqlValue :=
  match n with O => None | S i => args !! i end.
Definition arg_time (args : list SqlValue) (n : nat) : option Timestamp :=
  v ← arg args n; match v with VTime t => Some t | _ => None end.
Definition arg_int (args : list SqlValue) (n : nat) : option Z :=
  v ← arg args n; match v with VInt z => Some z | _ => None end.

(** A row of [file_references fr], joined or not with [files f]. *)
Definition Row : Type := Schema.FileReference * option Schema.File.

Fixpoint all_of (l : list (option bool)) : option bool :=
  match l with
  | [] => Some true
  | o :: l' => b ← o; bs ← all_of l'; Some (b && bs)
  end.
Fixpoint any_of (l : list (option bool)) : option bool :=
  match l with
  | [] => Some false
  | o :: l' => b ← o; bs ← any_of l'; Some (b || bs)
  end.

(** Every copy was read, and last read before [t]. *)
Definition not_accessed_since (d : Db) (file_id : Uuid) (t : Timestamp) : bool :=
  negb (exists_row (λ fl, N.eqb (fl_file_id fl) file_id &&
    match fl_last_accessed_at fl with None => true | Some a => t <=? a end) (file_locations d)).

Fixpoint eval (d : Db) (args : list SqlValue) (row : Row) (e : SqlExpr) : option bool :=
  let fr := row.1 in
  match e with
  | SProjectIs n =>
      v ← arg args n;
      match v with VUuid u => Some (N.eqb (fr_project_id fr) u) | _ => None end
  | STrue => Some true
  | SFalse => Some false
  | SMetadataContains n =>
      v ← arg args n;
      match v with VJson j => Some (jsonb_contains (fr_metadata fr) j) | _ => None end
  | SAll l => all_of (map (eval d args row) l)
  | SAny l => any_of (map (eval d args row) l)
  | SNot e => b ← eval d args row e; Some (negb b)
  | SNameIlike n =>
      v ← arg args n;
      match v with VText p => Some (ilike (fr_original_name fr) p) | _ => None end
  | SCreatedGe n => t ← arg_time args n; Some (t <=? fr_created_at fr)
  | SCreatedLe n => t ← arg_time args n; Some (fr_created_at fr <=? t)
  | SCreatedLt n => t ← arg_time args n; Some (fr_created_at fr <? t)
  | SCreatedGt n => t ← arg_time args n; Some (t <? fr_created_at fr)
  | SSizeGe n => f ← row.2; z ← arg_int args n; Some (z <=? f_size f)
  | SSizeLe n => f ← row.2; z ← arg_int args n; Some (f_size f <=? z)
  | SNotAccessedSince n =>
      t ← arg_time args n; Some (not_accessed_since d (fr_file_id fr) t)
  end.

(** [FROM file_references fr [JOIN files f ON f.id = fr.file_id]]. *)
Definition from_refs (join : bool) (d : Db) : list Row :=
  if join
  then omap (λ fr, f ← files d !! fr_file_id fr; Some (fr, Some f)) (rows_of (file_references d))
  else map (λ fr, (fr, None)) (rows_of (file_references d)).

(** The error of a statement whose parameters do not fit. *)
Definition bad_statement : AppError := Database (DatabaseError "42P02").

(** The rows a WHERE clause, a conjunction of conditions, keeps. *)
Fixpoint where_rows (d : Db) (args : list SqlValue) (conds : list SqlExpr) (rows : list Row) :
    Result (list Row) :=
  match rows with
  | [] => Ok []
  | row :: rows' =>
      b ← ok_or (all_of (map (eval d args row) conds)) bad_statement;
      kept ← where_rows d args conds rows';
      Ok (if b : bool then row :: kept else kept)
  end.

(** [x::bigint]. *)
Definition bigint (z : Z) : Result Z :=
  if (i64_min <=? z) && (z <=? i64_max) then Ok z else Err (Database (DatabaseError "22003")).

Definition row_size (row : Row) : Z := match row.2 with Some f => f_size f | None => 0 end.
Definition row_created (row : Row) : Timestamp := fr_created_at row.1.

(** ** The queries *)

Record SearchResult := mkSearchResult {
  sr_results : list Schema.FileReference;
  sr_total : Z;
  sr_page : Z;
  sr_per_page : Z
}.

(** The conditions and arguments the three searches share. *)
Definition search_clause (project_id : Uuid) (filters : option MetadataFilter)
    (extras : SearchExtras) : Result (list SqlExpr * list SqlValue * nat) :=
  '(filter_clause, jsonb_params) ←
    match filters with
    | Some f => '(e, c) ← compile f (new_compiler 2); Ok (e, params c)
    | None => Ok (STrue, [])
    end;
  let '(xs, idx) := extras_clause extras (length jsonb_params + 2) in
  Ok (SProjectIs 1 :: filter_clause :: xs,
      VUuid project_id :: map VJson jsonb_params ++ extras_bind extras, idx).

Definition search_by_metadata (project_id : Uuid) (filters : option MetadataFilter)
    (extras : SearchExtras) (page per_page : Z) : M SearchResult :=
  let lim := clamp per_page 1 100 in
  let off := saturating_mul (saturating_sub (Z.max page 1) 1) lim in
  '(conds, args, limit_idx) ← lift (search_clause project_id filters extras);
  let offset_idx := S limit_idx in
  d ← gets db;
  counted ← lift (where_rows d args conds (from_refs false d));
  d' ← gets db;
  let data_args := args ++ [VInt lim; VInt off] in
  rows ← lift (where_rows d' data_args conds (from_refs false d'));
  l ← lift (ok_or (arg_int data_args limit_idx) bad_statement);
  o ← lift (ok_or (arg_int data_args offset_idx) bad_statement);
  mret {| sr_results := limit l (offset o (order_by (desc fr_created_at) (map fst rows)));
          sr_total := Z.of_nat (length counted);
          sr_page := Z.max page 1;
          sr_per_page := lim |}.

Definition search_all_for_filter (project_id : Uuid) (filters : option MetadataFilter)
    (extras : SearchExtras) : M (list Schema.FileReference * Z) :=
  '(conds, args, _) ← lift (search_clause project_id filters extras);
  d ← gets db;
  rows ← lift (where_rows d args conds (from_refs false d));
  d' ← gets db;
  sized ← lift (where_rows d' args conds (from_refs true d'));
  total ← lift (bigint (sum_z row_size sized));
  mret (order_by (desc fr_created_at) (map fst rows), total).

(** The keys of a JSON object; [jsonb_object_keys] fails on anything else. *)
Definition object_keys (j : Json) : Result (list string) :=
  match j with
  | JObject m => Ok (map fst m)
  | _ => Err (Database (DatabaseError "22023"))
  end.
Fixpoint all_keys (l : list Schema.FileReference) : Result (list string) :=
  match l with
  | [] => Ok []
  | fr :: l' => ks ← object_keys (fr_metadata fr); rest ← all_keys l'; Ok (ks ++ rest)
  end.

Definition distinct_metadata_keys (project_id : Uuid) : M (list string) :=
  l ← sql_select (λ fr, N.eqb (fr_project_id fr) project_id);
  ks ← lift (all_keys l);
  mret (order_by (asc_str id) (remove_dups ks)).

Record TimelineEntry := mkTimelineEntry {
  te_date : Z;
  te_count : Z;
  te_size : Z
}.

Record SearchSummary := mkSearchSummary {
  sum_total_files : Z;
  sum_total_size : Z;
  sum_earliest_upload : option Timestamp;
  sum_latest_upload : option Timestamp;
  sum_timeline : list TimelineEntry
}.

Definition min_of (l : list Timestamp) : option Timestamp :=
  match l with [] => None | t :: l' => Some (foldl Z.min t l') end.
Definition max_of (l : list Timestamp) : option Timestamp :=
  match l with [] => None | t :: l' => Some (foldl Z.max t l') end.

(** [GROUP BY DATE(fr.created_at)]: one entry per day, in order. *)
Definition on_day (day : Z) (row : Row) : bool := Z.eqb (date_of (row_created row)) day.
Fixpoint timeline (rows : list Row) (days : list Z) : Result (list TimelineEntry) :=
  match days with
  | [] => Ok []
  | day :: days' =>
      let group := filter (λ r, on_day day r = true) rows in
      size ← bigint (sum_z row_size group);
      rest ← timeline rows days';
      Ok (mkTimelineEntry day (Z.of_nat (length group)) size :: rest)
  end.
Definition days_of (rows : list Row) : list Z :=
  order_by (asc id) (remove_dups (map (λ r, date_of (row_created r)) rows)).

Definition search_summary (project_id : Uuid) (filters : option MetadataFilter)
    (extras : SearchExtras) : M SearchSummary :=
  '(conds, args, _) ← lift (search_clause project_id filters extras);
  d ← gets db;
  rows ← lift (where_rows d args conds (from_refs true d));
  total_size ← lift (bigint (sum_z row_size rows));
  d' ← gets db;
  rows' ← lift (where_rows d' args conds (from_refs true d'));
  entries ← lift (timeline rows' (days_of rows'));
  mret {| sum_total_files := Z.of_nat (length rows);
          sum_total_size := total_size;
          sum_earliest_upload := min_of (map row_created rows);
          sum_latest_upload := max_of (map row_created rows);
          sum_timeline := entries |}.

(** ** Bulk deletion *)

Record BulkDeletePreview := mkBulkDeletePreview {
  bdp_matching_references : Z;
  bdp_total_size : Z
}.

Definition preview_bulk_delete (project_id : Uuid) (filters : BulkDeleteFilters) :
    M BulkDeletePreview :=
  '(conds, metadata_params, _, _) ← lift (build_bulk_delete_clause filters 2);
  let args := bind_bulk_delete_args project_id filters metadata_params in
  d ← gets db;
  rows ← lift (where_rows d args (SProjectIs 1 :: conds) (from_refs true d));
  total ← lift (bigint (sum_z row_size rows));
  mret (mkBulkDeletePreview (Z.of_nat (length rows)) total).

Definition execute_bulk_delete (project_id : Uuid) (filters : BulkDeleteFilters) :
    M (Z * list Uuid) :=
  '(conds, metadata_params, needs_files_join, _) ← lift (build_bulk_delete_clause filters 2);
  let args := bind_bulk_delete_args project_id filters metadata_params in
  d ← gets db;
  rows ← lift (where_rows d args (SProjectIs 1 :: conds) (from_refs needs_files_join d));
  let ids := map (λ r : Row, fr_id r.1) rows in
  gone ← sql_delete (λ fr : Schema.FileReference, bool_decide (fr_id fr ∈ ids));
  let file_ids := map fr_file_id gone in
  mret (Z.of_nat (length file_ids), file_ids).
End search.
