(* ===== verification/Resolver.v ===== *)
(** * Resolving the backend of a project (src/src/services/backend_resolver.rs)

    The files of a project live in a container of their own on each storage:
    the storage's configuration is specialised to the container, and a backend
    is built from the result. *)

From S2P Require Import Prelude Json Schema Env World Tables Laws Projects LocalDisk Registry.
From S2P Require Import Storages.

Section resolver.
Context {E : Env}.

(** Configurations are JSON; writing a key into a value that is neither null
    nor an object panics. *)
Definition apply_container_to_config (config : Json) (storage_type container : string) :
    Result Json :=
  match storage_type with
  | "s3" | "gcs" => json_index_set "bucket" (JString container) config
  | "azure" => json_index_set "container" (JString container) config
  | "local" =>
      let base := default "/data" (as_str (json_index "path" config)) in
      json_index_set "path" (JString (trim_end_matches slash base +:+ "/" +:+ container)) config
  | "hetzner" | "ftp" | "sftp" | "samba" =>
      let base := default "" (as_str (json_index "base_path" config)) in
      let new_path :=
        if str_is_empty base then container
        else trim_end_matches slash base +:+ "/" +:+ container in
      json_index_set "base_path" (JString new_path) config
  | _ => Ok config
  end.

Definition effective_container (project : Schema.Project)
    (assignment : option Schema.ProjectStorage) : Result string :=
  match assignment with
  | Some ps =>
      let suffixed :=
        suffix ← str_slice 0 6 (uuid_str (ps_id ps));
        Ok (p_slug project +:+ "-" +:+ suffix) in
      match ps_container_override ps with
      | Some override_name =>
          if negb (str_is_empty override_name) then Ok override_name else suffixed
      | None => suffixed
      end
  | None => Ok (p_slug project)
  end.

(** The configuration a project uses a storage with. *)
Definition project_config (storage : Schema.Storage) (assignment : option Schema.ProjectStorage)
    (container : string) : Result Json :=
  config ← apply_container_to_config (st_config storage) (st_storage_type storage) container;
  match assignment with
  | Some ps =>
      match ps_prefix_override ps with
      | Some prefix => json_index_set "prefix" (JString prefix) config
      | None => Ok config
      end
  | None => Ok config
  end.

Definition resolve_project_backend (storage : Schema.Storage) (project_id : Uuid)
    (hmac_secret : string) : M Backend :=
  project ← Project.find_by_id project_id;
  assignment ← ProjectStorage.find_for_project_and_storage project_id (st_id storage);
  container ← lift (effective_container project assignment);
  config ← lift (project_config storage assignment container);
  backend ← lift (create_backend (st_storage_type storage) config hmac_secret);
  (if be_supports_containers backend then ignore (be_create_container backend container)
   else mret tt);;
  mret backend.

(** The backends of the projects that reference a file; the registry's own
    backend only when there is none. *)
Definition resolve_backends_for_location (storage_id : Uuid)
    (file_refs : list Schema.FileReference) (hmac_secret : string) : M (list Backend) :=
  o ← ok (Storage.find_by_id storage_id);
  backends ←
    match o with
    | Some storage =>
        foldM (λ acc fref,
          b ← ok (resolve_project_backend storage (fr_project_id fref) hmac_secret);
          match b with
          | Some backend => mret (acc ++ [backend])
          | None => mret acc
          end) [] file_refs
    | None => mret []
    end;
  match backends with
  | [] =>
      b ← ok (StorageRegistry.get storage_id);
      match b with
      | Some default_backend => mret [default_backend]
      | None => mret []
      end
  | _ => mret backends
  end.
End resolver.
