(* ===== verification/FileService.v ===== *)
(** * The file service (src/src/services/file_service.rs)

    Upload with deduplication by content, download from the best copy,
    temporary links, and bulk deletion with the cleanup of orphaned files. *)

From S2P Require Import Prelude Json Schema Env World Tables Laws Projects LocalDisk Registry.
From S2P Require Import Storages Files SyncTasks Search Resolver.

(** ** Content addressing *)

Section hashing.
Context {E : Env}.

Definition compute_sha256 (data : bytes) : string := sha_hex (sha_update data sha_new).

(** The read loop: the i-th read yields at least one byte and at most
    [chunk i], until none is left. *)
Fixpoint hash_loop (fuel : nat) (chunk : nat → Z) (i : nat) (rest : bytes) (h : Hasher)
    (total : Z) : option (Hasher * Z) :=
  match rest with
  | [] => Some (h, total)
  | _ =>
      match fuel with
      | O => None
      | S fuel' =>
          let n := Z.to_nat (Z.max 1 (Z.min (chunk i) (Z.of_nat (length rest)))) in
          hash_loop fuel' chunk (S i) (drop n rest) (sha_update (take n rest) h)
            (total + Z.of_nat (length (take n rest)))
      end
  end.

(** Blocks of 8 MB. *)
Definition block_size : Z := 8 * 1024 * 1024.

Definition hash_file_sha256 (path : string) : M (string * Z) :=
  data ← map_err (λ e, Internal ("Failed to open temp file for hashing: " +:+ io_text e))
           (fs_read path);
  match hash_loop (length data) (λ _, block_size) 0 data sha_new 0 with
  | Some (h, total) => mret (sha_hex h, total)
  | None => throw (Internal "out of fuel")
  end.

Definition content_addressed_path (hash : string) : Result string :=
  if Nat.ltb (String.length hash) 4 then Ok hash
  else
    d1 ← str_slice 0 2 hash;
    d2 ← str_slice 2 4 hash;
    Ok (d1 +:+ "/" +:+ d2 +:+ "/" +:+ hash).
End hashing.

Record UploadResult := mkUploadResult {
  ur_file : Schema.File;
  ur_file_reference : Schema.FileReference;
  ur_is_duplicate : bool;
  ur_sync_tasks_created : Z
}.

Record TempLinkEntry := mkTempLinkEntry {
  tl_storage_name : string;
  tl_storage_type : string;
  tl_storage_path : string;
  tl_url : string
}.

Record DownloadResult := mkDownloadResult {
  dr_data : bytes;
  dr_file : Schema.File;
  dr_content_type : string;
  dr_original_name : option string
}.

Record BulkDeleteResult := mkBulkDeleteResult {
  bdr_deleted_references : Z;
  bdr_orphaned_files_cleaned : Z;
  bdr_freed_bytes : Z
}.

Module FileService.
Section service.
Context {E : Env} (hmac_secret : string).

(** ** Upload *)

Definition no_storages : AppError :=
  BadRequest "No enabled storages available for this project".
Definition no_backends : AppError :=
  BadRequest "No storage backends are registered and available".

(** The first storage of a list that satisfies [P] and is registered. *)
Fixpoint first_registered (P : Schema.Storage → bool) (l : list Schema.Storage) :
    M (option Schema.Storage) :=
  match l with
  | [] => mret None
  | s :: l' =>
      if P s then
        (c ← StorageRegistry.contains (st_id s);
         if c : bool then mret (Some s) else first_registered P l')
      else first_registered P l'
  end.

Definition find_primary_storage (storages : list Schema.Storage) : M Schema.Storage :=
  hot ← first_registered st_is_hot storages;
  match hot with
  | Some s => mret s
  | None => or_throw no_backends (first_registered (λ _, true) storages)
  end.

Definition create_primary_location (file_id storage_id : Uuid) (storage_path : string) : M unit :=
  try_with (FileLocation.create (mkCreateFileLocation file_id storage_id storage_path "synced"))
    (λ _, mret tt)
    (λ e, match e with
          | Database s => if is_unique_violation s then mret tt else throw e
          | _ => throw e
          end).

(** The source of the copies to make for a duplicate: a synced copy on a
    registered storage, preferably one of the project's. *)
Fixpoint pick_source (project_storage_ids : list Uuid) (fallback : option Uuid)
    (locs : list Schema.FileLocation) : M (option Uuid) :=
  match locs with
  | [] => mret fallback
  | loc :: locs' =>
      if negb (String.eqb (fl_status loc) "synced") then
        pick_source project_storage_ids fallback locs'
      else
        c ← StorageRegistry.contains (fl_storage_id loc);
        if negb c then pick_source project_storage_ids fallback locs'
        else if bool_decide (fl_storage_id loc ∈ project_storage_ids) then
          mret (Some (fl_storage_id loc))
        else pick_source project_storage_ids
          (match fallback with Some f => Some f | None => Some (fl_storage_id loc) end) locs'
  end.

(** One target of the synchronisation; a failed insert is only logged. *)
Definition schedule_target (project_id file_id source : Uuid) (existing : list Uuid)
    (created : Z) (storage : Schema.Storage) : M Z :=
  if N.eqb (st_id storage) source then mret created
  else if bool_decide (st_id storage ∈ existing) then mret created
  else
    c ← StorageRegistry.contains (st_id storage);
    if negb c then mret created
    else
      o ← ok (SyncTask.create (mkCreateSyncTask file_id source (st_id storage) (Some project_id)));
      mret (match o with Some _ => created + 1 | None => created end).

Definition record_references_and_sync (project_id : Uuid) (file : Schema.File) (is_new : bool)
    (primary_storage : Schema.Storage) (original_name : string) (metadata : Json)
    (storages : list Schema.Storage) : M UploadResult :=
  file_reference ← FileReference.create
    (mkCreateFileReference (f_id file) project_id original_name metadata);
  existing ← ok (FileLocation.find_all_for_file (f_id file));
  let existing_locations := default [] existing in
  let existing_storage_ids := map fl_storage_id existing_locations in
  source ←
    if is_new then mret (st_id primary_storage)
    else
      o ← pick_source (map st_id storages) None existing_locations;
      mret (default (st_id primary_storage) o);
  n ← foldM (schedule_target project_id (f_id file) source existing_storage_ids) 0 storages;
  mret (mkUploadResult file file_reference (negb is_new) n).

Definition upload_file (project_id : Uuid) (original_name content_type : string) (data : bytes)
    (metadata : Json) : M UploadResult :=
  let hash := compute_sha256 data in
  let size := Z.of_nat (length data) in
  '(file, is_new) ← File.create_or_find (mkCreateFile hash size content_type);
  storages ← Storage.list_for_project project_id;
  ensure (negb (Nat.eqb (length storages) 0)) no_storages;;
  primary_storage ← find_primary_storage storages;
  storage_path ← lift (content_addressed_path hash);
  (if is_new then
     backend ← resolve_project_backend primary_storage project_id hmac_secret;
     be_upload backend storage_path data;;
     create_primary_location (f_id file) (st_id primary_storage) storage_path
   else mret tt);;
  record_references_and_sync project_id file is_new primary_storage original_name metadata storages.

Definition finalize_upload (project_id : Uuid) (original_name content_type temp_path : string)
    (metadata : Json) : M UploadResult :=
  '(hash, size) ← hash_file_sha256 temp_path;
  '(file, is_new) ← File.create_or_find (mkCreateFile hash size content_type);
  storages ← Storage.list_for_project project_id;
  ensure (negb (Nat.eqb (length storages) 0)) no_storages;;
  primary_storage ← find_primary_storage storages;
  storage_path ← lift (content_addressed_path hash);
  (if is_new then
     backend ← resolve_project_backend primary_storage project_id hmac_secret;
     be_upload_from_file backend storage_path temp_path;;
     create_primary_location (f_id file) (st_id primary_storage) storage_path
   else mret tt);;
  record_references_and_sync project_id file is_new primary_storage original_name metadata storages.

(** ** Download *)

(** The first backend that yields the bytes; a failure is only logged. *)
Fixpoint try_backends (path : string) (l : list Backend) : M (option bytes) :=
  match l with
  | [] => mret None
  | b :: l' =>
      o ← ok (be_download b path);
      match o with
      | Some data => mret (Some data)
      | None => try_backends path l'
      end
  end.

Fixpoint try_locations (refs : list Schema.FileReference) (l : list Schema.FileLocation) :
    M (option (bytes * Schema.FileLocation)) :=
  match l with
  | [] => mret None
  | location :: l' =>
      backends ← resolve_backends_for_location (fl_storage_id location) refs hmac_secret;
      o ← try_backends (fl_storage_path location) backends;
      match o with
      | Some data =>
          ignore (FileLocation.touch_accessed (fl_id location));;
          mret (Some (data, location))
      | None => try_locations refs l'
      end
  end.

Definition no_locations (file_id : Uuid) : AppError :=
  NotFound ("No available storage locations for file " +:+ uuid_str file_id).
Definition all_failed (file_id : Uuid) : AppError :=
  Internal ("All storage locations failed for file " +:+ uuid_str file_id).

Definition download_file (file_id : Uuid) : M DownloadResult :=
  file ← File.find_by_id file_id;
  locations ← FileLocation.find_for_file file_id;
  ensure (negb (Nat.eqb (length locations) 0)) (no_locations file_id);;
  refs ← FileReference.find_by_file_id file_id;
  got ← or_throw (all_failed file_id) (try_locations refs locations);
  mret (mkDownloadResult got.1 file (f_content_type file) (fr_original_name <$> head refs)).

(** ** Temporary links *)

(** The first backend that yields a link, within its time limit. *)
Fixpoint first_url (path : string) (expires_in : Z) (name : option string) (l : list Backend) :
    M (option string) :=
  match l with
  | [] => mret None
  | b :: l' =>
      o ← ok (be_generate_temp_url b path expires_in name);
      match o with
      | Some (Some url) => mret (Some url)
      | _ => first_url path expires_in name l'
      end
  end.

Definition link_for_location (refs : list Schema.FileReference) (expires_in : Z)
    (direct_only : bool) (storage_id_filter : option Uuid) (links : list TempLinkEntry)
    (location : Schema.FileLocation) : M (list TempLinkEntry) :=
  if match storage_id_filter with
     | Some filter_id => uuid_ne (fl_storage_id location) filter_id
     | None => false
     end then mret links
  else
    os ← ok (Storage.find_by_id (fl_storage_id location));
    match os with
    | None => mret links
    | Some storage =>
        if direct_only && negb (st_supports_direct_links storage) then mret links
        else
          backends ← resolve_backends_for_location (fl_storage_id location) refs hmac_secret;
          o ← first_url (fl_storage_path location) expires_in (fr_original_name <$> head refs)
                backends;
          match o with
          | Some url =>
              ignore (FileLocation.touch_accessed (fl_id location));;
              mret (links ++ [mkTempLinkEntry (st_name storage) (st_storage_type storage)
                                (fl_storage_path location) url])
          | None => mret links
          end
    end.

Definition no_temp_url (file_id : Uuid) : AppError :=
  NotFound ("No temp URL available for file " +:+ uuid_str file_id).

Definition generate_temp_links (file_id : Uuid) (expires_in : Z) (direct_only : bool)
    (storage_id_filter : option Uuid) : M (list TempLinkEntry) :=
  _ ← File.find_by_id file_id;
  locations ← FileLocation.find_for_file file_id;
  refs ← FileReference.find_by_file_id file_id;
  links ← foldM (link_for_location refs expires_in direct_only storage_id_filter) [] locations;
  ensure (negb (Nat.eqb (length links) 0)) (no_temp_url file_id);;
  mret links.

(** ** Bulk deletion *)

Definition bulk_delete_preview (project_id : Uuid) (filters : BulkDeleteFilters) :
    M BulkDeletePreview := preview_bulk_delete project_id filters.

(** [filter(|id| set.insert(id))]: the first occurrence of each element. *)
Fixpoint dedup (seen : list Uuid) (l : list Uuid) : list Uuid :=
  match l with
  | [] => []
  | x :: l' => if bool_decide (x ∈ seen) then dedup seen l' else x :: dedup (x :: seen) l'
  end.

Record OrphanInfo := mkOrphanInfo {
  oi_file_id : Uuid;
  oi_size : Z;
  oi_locations : list Schema.FileLocation
}.

Definition collect_orphan (infos : list OrphanInfo) (file_id : Uuid) : M (list OrphanInfo) :=
  f ← sql_find (R := Schema.File) file_id;
  let size := match f with Some f => f_size f | None => 0 end in
  locations ← FileLocation.find_all_for_file file_id;
  mret (infos ++ [mkOrphanInfo file_id size locations]).

Definition delete_orphan (freed_bytes : Z) (info : OrphanInfo) : M Z :=
  let freed := i64_wrap (freed_bytes + oi_size info) in
  _ ← sql_delete (λ fl : Schema.FileLocation, N.eqb (fl_file_id fl) (oi_file_id info));
  _ ← sql_delete (λ f : Schema.File, N.eqb (f_id f) (oi_file_id info));
  mret freed.

(** Steps 1 to 3, inside one transaction. *)
Definition bulk_delete_tx (project_id : Uuid) (filters : BulkDeleteFilters) :
    M (Z * list OrphanInfo * Z) :=
  '(deleted_count, file_ids) ← execute_bulk_delete project_id filters;
  if Z.eqb deleted_count 0 then mret (0, [], 0)
  else
    let unique_file_ids := dedup [] file_ids in
    orphaned_ids ← File.find_orphaned_from_ids unique_file_ids;
    infos ← foldM collect_orphan [] orphaned_ids;
    freed ← foldM delete_orphan 0 infos;
    mret (deleted_count, infos, freed).

(** Step 4: the copies of one orphan, best effort. *)
Definition delete_copy (location : Schema.FileLocation) : M unit :=
  o ← ok (StorageRegistry.get (fl_storage_id location));
  match o with
  | Some backend => ignore (be_delete backend (fl_storage_path location))
  | None => mret tt
  end.
Definition cleanup_orphan (info : OrphanInfo) : M unit := for_each delete_copy (oi_locations info).

Definition bulk_delete (project_id : Uuid) (filters : BulkDeleteFilters) : M BulkDeleteResult :=
  '(deleted_count, infos, freed_bytes) ← transaction (bulk_delete_tx project_id filters);
  for_each cleanup_orphan infos;;
  mret (mkBulkDeleteResult deleted_count (Z.of_nat (length infos)) freed_bytes).
End service.
End FileService.
