(* ===== verification/TierService.v ===== *)
(** * Hot and cold tiers (src/src/services/tier_service.rs, src/src/workers/tier_worker.rs)

    Files unread for a project's [hot_to_cold_days] are copied to a cold
    storage, after which their hot copies are marked archived; a restore copies
    an archived file back to a hot storage. *)

From S2P Require Import Prelude Json Schema Env World Tables Laws Projects Registry Files.
From S2P Require Import SyncTasks.

Record ArchivableFile := mkArchivableFile {
  af_file_id : Uuid;
  af_hot_location_id : Uuid;
  af_hot_storage_id : Uuid;
  af_storage_path : string;
  af_project_id : Uuid
}.

(** ** Conditions of the queries *)

(** The storage of a location, when it satisfies [P]. *)
Definition on_storage (d : Db) (P : Storage → bool) (fl : FileLocation) : bool :=
  match storages d !! fl_storage_id fl with Some s => P s | None => false end.

Definition is_hot_enabled (s : Storage) : bool := st_is_hot s && st_enabled s.
Definition is_cold_enabled (s : Storage) : bool := negb (st_is_hot s) && st_enabled s.

Definition is_synced (fl : FileLocation) : bool := String.eqb (fl_status fl) "synced".

(** Unread for longer than the project allows. *)
Definition is_idle (t : Timestamp) (hot_to_cold_days : Z) (fl : FileLocation) : bool :=
  match fl_last_accessed_at fl with
  | None => true
  | Some a => a + days hot_to_cold_days <? t
  end.

Definition has_cold_copy (d : Db) (file_id : Uuid) : bool :=
  exists_row (λ fl, N.eqb (fl_file_id fl) file_id && is_synced fl &&
    on_storage d is_cold_enabled fl) (file_locations d).

Definition is_active_task (tk : SyncTask) : bool :=
  has_status "pending" tk || has_status "in_progress" tk.
Definition has_active_task (d : Db) (file_id : Uuid) : bool :=
  exists_row (λ tk, N.eqb (tk_file_id tk) file_id && is_active_task tk) (sync_tasks d).

(** The days after which a reference's project archives, if it does. *)
Definition archive_days (d : Db) (fr : FileReference) : option Z :=
  p ← projects d !! fr_project_id fr; p_hot_to_cold_days p.

Definition idle_for_reference (d : Db) (t : Timestamp) (fl : FileLocation)
    (fr : FileReference) : bool :=
  N.eqb (fr_file_id fr) (fl_file_id fl) &&
  match archive_days d fr with Some n => is_idle t n fl | None => false end.

(** [SELECT DISTINCT ON (key) ... ORDER BY key, ...]: the first row of each
    group of a sorted list. *)
Fixpoint distinct_on {A} (key : A → Uuid) (prev : option Uuid) (l : list A) : list A :=
  match l with
  | [] => []
  | x :: l' =>
      if option_uuid_eqb prev (Some (key x)) then distinct_on key prev l'
      else x :: distinct_on key (Some (key x)) l'
  end.

Definition archivable_location (d : Db) (fl : FileLocation) : bool :=
  on_storage d is_hot_enabled fl && is_synced fl &&
  negb (has_cold_copy d (fl_file_id fl)) && negb (has_active_task d (fl_file_id fl)).

(** The joined rows: an archivable location with an idle reference. *)
Definition archivable_rows (d : Db) (t : Timestamp) : list (FileLocation * FileReference) :=
  mjoin (map (λ fl, map (λ fr, (fl, fr))
                      (filter (λ fr, idle_for_reference d t fl fr = true)
                        (rows_of (file_references d))))
    (filter (λ fl, archivable_location d fl = true) (rows_of (file_locations d)))).

(** A hot copy whose file has a cold copy and is idle for some project. *)
Definition archive_complete (d : Db) (t : Timestamp) (fl : FileLocation) : bool :=
  on_storage d st_is_hot fl && is_synced fl && has_cold_copy d (fl_file_id fl) &&
  exists_row (idle_for_reference d t fl) (file_references d).

Module TierService.
Section service.
Context {E : Env}.

Definition find_archivable_files (lim : Z) : M (list ArchivableFile) :=
  d ← gets db;
  t ← gets now;
  let sorted := order_by (then_by (asc (λ r, Z.of_N (fl_file_id r.1)))
                                  (asc_nulls_first (λ r, fl_last_accessed_at r.1)))
                  (archivable_rows d t) in
  mret (limit lim (map (λ r : FileLocation * FileReference,
    mkArchivableFile (fl_file_id r.1) (fl_id r.1) (fl_storage_id r.1) (fl_storage_path r.1)
      (fr_project_id r.2))
    (distinct_on (λ r : FileLocation * FileReference, fl_file_id r.1) None sorted))).

Definition references_project (d : Db) (file_id project_id : Uuid) : bool :=
  exists_row (λ fr, N.eqb (fr_file_id fr) file_id && N.eqb (fr_project_id fr) project_id)
    (file_references d).

Definition find_cold_storage (file_id : Uuid) : M (option Storage) :=
  d ← gets db;
  l ← sql_select (λ s, is_cold_enabled s &&
        match st_project_id s with
        | None => true
        | Some pid => references_project d file_id pid
        end);
  mret (head (order_by (asc st_created_at) l)).

(** One file of a scan; a failed insert is only logged. *)
Definition archive_one (created : Z) (file : ArchivableFile) : M Z :=
  o ← find_cold_storage (af_file_id file);
  match o with
  | None => mret created
  | Some cold =>
      c ← StorageRegistry.contains (st_id cold);
      if negb c then mret created
      else
        r ← ok (SyncTask.create (mkCreateSyncTask (af_file_id file) (af_hot_storage_id file)
                  (st_id cold) (Some (af_project_id file))));
        mret (match r with Some _ => created + 1 | None => created end)
  end.

Definition create_archive_tasks : M Z :=
  archivable ← find_archivable_files 100;
  foldM archive_one 0 archivable.

Definition mark_archived (archived : Z) (fl : FileLocation) : M Z :=
  r ← ok (FileLocation.update_status (fl_id fl) "archived");
  mret (match r with Some _ => archived + 1 | None => archived end).

Definition process_completed_archives : M Z :=
  d ← gets db;
  t ← gets now;
  pending ← sql_select (archive_complete d t);
  foldM mark_archived 0 (limit 100 pending).

Definition no_cold_location : AppError :=
  NotFound "No cold storage location available for restore".
Definition no_hot_storage : AppError := NotFound "No hot storage available for restore".

Definition is_restorable (d : Db) (file_id : Uuid) (fl : FileLocation) : bool :=
  N.eqb (fl_file_id fl) file_id && on_storage d is_cold_enabled fl &&
  (is_synced fl || String.eqb (fl_status fl) "archived").

Definition restore_file (file_id : Uuid) : M Schema.SyncTask :=
  _ ← File.find_by_id file_id;
  d ← gets db;
  locs ← sql_select (is_restorable d file_id);
  cold_loc ← lift (ok_or (head (order_by (desc_nulls_last fl_synced_at) locs)) no_cold_location);
  hots ← sql_select is_hot_enabled;
  hot_storage ← lift (ok_or (head (order_by (asc st_created_at) hots)) no_hot_storage);
  ref ← sql_select_first (λ fr, N.eqb (fr_file_id fr) file_id);
  task ← SyncTask.create (mkCreateSyncTask file_id (fl_storage_id cold_loc) (st_id hot_storage)
           (fr_project_id <$> ref));
  ignore (sql_update (λ fl, N.eqb (fl_file_id fl) file_id && String.eqb (fl_status fl) "archived")
            (set_fl_status "restoring"));;
  mret task.

(** One cycle of the tier worker: both phases run, errors are logged. *)
Definition scan_and_archive : M unit :=
  ignore create_archive_tasks;; ignore process_completed_archives.
End service.
End TierService.
