(* ===== verification/BulkService.v ===== *)
(** * Bulk synchronisation and exports (src/src/services/bulk_service.rs)

    Scheduling the copy of every file to a storage, and the in-memory table of
    export jobs: a job is in progress until its archive is built, and a
    finished archive is handed out once. Building the tar.gz bytes is the
    parameter [tar_gz]. *)

From S2P Require Import Prelude Json Schema Env World Tables Laws Registry Storages Files.
From S2P Require Import SyncTasks TierService.

Inductive ExportState := InProgress | Completed | Failed.

#[export] Instance ExportState_eq_dec : EqDecision ExportState.
Proof. solve_decision. Defined.

Record ExportJobStatus := mkExportJobStatus {
  ej_job_id : Uuid;
  ej_storage_id : Uuid;
  ej_status : ExportState;
  ej_total_files : Z;
  ej_processed_files : Z;
  ej_total_bytes : Z;
  ej_error : option string
}.

Record SyncAllResult := mkSyncAllResult {
  sa_storage_id : Uuid;
  sa_sync_tasks_created : Z;
  sa_already_synced : Z
}.

(** [export_jobs] and [export_data]. *)
Record ExportStore := mkExportStore {
  export_jobs : gmap Uuid ExportJobStatus;
  export_data : gmap Uuid bytes
}.

Module BulkService.
Section service.
Context {E : Env}.

Definition target_disabled : AppError := BadRequest "Target storage is disabled".

(** On the target, or about to be. *)
Definition is_on_target (d : Db) (target file_id : Uuid) : bool :=
  exists_row (λ fl, N.eqb (fl_file_id fl) file_id && N.eqb (fl_storage_id fl) target &&
    (is_synced fl || String.eqb (fl_status fl) "pending")) (file_locations d).
Definition is_scheduled (d : Db) (target file_id : Uuid) : bool :=
  exists_row (λ tk, N.eqb (tk_file_id tk) file_id && N.eqb (tk_target_storage_id tk) target &&
    is_active_task tk) (sync_tasks d).
Definition has_synced_copy (d : Db) (file_id : Uuid) : bool :=
  exists_row (λ fl, N.eqb (fl_file_id fl) file_id && is_synced fl) (file_locations d).

Definition needs_sync (d : Db) (target : Uuid) (f : Schema.File) : bool :=
  has_synced_copy d (f_id f) && negb (is_on_target d target (f_id f)) &&
  negb (is_scheduled d target (f_id f)).

(** The copy to read from, a hot one if there is one. *)
Definition find_source (file_id : Uuid) : M (option Schema.FileLocation) :=
  d ← gets db;
  l ← sql_select (λ fl, N.eqb (fl_file_id fl) file_id && is_synced fl &&
                        on_storage d st_enabled fl);
  mret (head (order_by (desc (λ fl, bool_key (on_storage d st_is_hot fl))) l)).

Definition schedule_one (target : Uuid) (created : Z) (file : Schema.File) : M Z :=
  o ← find_source (f_id file);
  match o with
  | None => mret created
  | Some source =>
      r ← ok (SyncTask.create
                (mkCreateSyncTask (f_id file) (fl_storage_id source) target None));
      mret (match r with Some _ => created + 1 | None => created end)
  end.

Definition sync_all (target_storage_id : Uuid) : M SyncAllResult :=
  target ← Storage.find_by_id target_storage_id;
  ensure (st_enabled target) target_disabled;;
  d ← gets db;
  files_needing_sync ← sql_select (needs_sync d target_storage_id);
  synced ← sql_select (λ fl, N.eqb (fl_storage_id fl) target_storage_id && is_synced fl);
  n ← foldM (schedule_one target_storage_id) 0 files_needing_sync;
  mret (mkSyncAllResult target_storage_id n
          (Z.of_nat (length (remove_dups (map fl_file_id synced))))).

(** ** Exports *)

Section export.
Context (tar_gz : list (string * bytes) → Result bytes).

Definition set_progress (n : Z) (j : ExportJobStatus) : ExportJobStatus :=
  mkExportJobStatus (ej_job_id j) (ej_storage_id j) (ej_status j) (ej_total_files j) n
    (ej_total_bytes j) (ej_error j).
Definition set_completed (bytes_ : Z) (j : ExportJobStatus) : ExportJobStatus :=
  mkExportJobStatus (ej_job_id j) (ej_storage_id j) Completed (ej_total_files j)
    (ej_processed_files j) bytes_ (ej_error j).
Definition set_failed (msg : string) (j : ExportJobStatus) : ExportJobStatus :=
  mkExportJobStatus (ej_job_id j) (ej_storage_id j) Failed (ej_total_files j)
    (ej_processed_files j) (ej_total_bytes j) (Some msg).

(** [if let Some(job) = jobs.get_mut(&id) { ... }]. *)
Definition update_job (f : ExportJobStatus → ExportJobStatus) (id : Uuid) (st : ExportStore) :
    ExportStore := mkExportStore (alter f id (export_jobs st)) (export_data st).

Definition start_export (storage_id : Uuid) (st : ExportStore) : M (Uuid * ExportStore) :=
  _ ← Storage.find_by_id storage_id;
  job_id ← new_uuid;
  l ← sql_select (λ fl, N.eqb (fl_storage_id fl) storage_id && is_synced fl);
  let status := mkExportJobStatus job_id storage_id InProgress (Z.of_nat (length l)) 0 0 None in
  mret (job_id, mkExportStore (<[job_id := status]> (export_jobs st)) (export_data st)).

Definition caught {A} (m : M A) : M (AppError + A) :=
  try_with m (λ a, mret (inr a)) (λ e, mret (inl e)).

(** The loop over the copies: one that cannot be read is skipped, but counted;
    a file row that cannot be read ends the export. *)
Fixpoint add_entries (backend : Backend) (job_id : Uuid) (locations : list Schema.FileLocation)
    (entries : list (string * bytes)) (processed : Z) (st : ExportStore) :
    M (ExportStore * Result (list (string * bytes))) :=
  match locations with
  | [] => mret (st, Ok entries)
  | location :: rest =>
      r ← caught (File.find_by_id (fl_file_id location));
      match r with
      | inl e => mret (st, Err e)
      | inr file =>
          o ← ok (be_download backend (fl_storage_path location));
          entries' ←
            match o with
            | Some data =>
                dir ← lift (str_slice 0 2 (f_hash_sha256 file));
                mret (entries ++ [(dir +:+ "/" +:+ f_hash_sha256 file, data)])
            | None => mret entries
            end;
          add_entries backend job_id rest entries' (processed + 1)
            (update_job (set_progress (processed + 1)) job_id st)
      end
  end.

(** The jobs with the progress made, and the archive. *)
Definition build_tar_gz_archive (storage_id job_id : Uuid) (st : ExportStore) :
    M (ExportStore * Result bytes) :=
  l ← sql_select (λ fl, N.eqb (fl_storage_id fl) storage_id && is_synced fl);
  b ← caught (StorageRegistry.get storage_id);
  match b with
  | inl e => mret (st, Err e)
  | inr backend =>
      '(st', r) ← add_entries backend job_id (order_by (asc fl_created_at) l) [] 0 st;
      mret (st', r ≫= tar_gz)
  end.

(** The spawned task: the job it ends with, and the archive it leaves. *)
Definition finish_job (job_id : Uuid) (r : Result bytes) (st : ExportStore) : M ExportStore :=
  match r with
  | Ok archive =>
      let st1 := update_job (set_completed (Z.of_nat (length archive))) job_id st in
      mret (mkExportStore (export_jobs st1) (<[job_id := archive]> (export_data st1)))
  | Err e => mret (update_job (set_failed (display_error e)) job_id st)
  | Panic => lift Panic
  end.

Definition run_export (storage_id job_id : Uuid) (st : ExportStore) : M ExportStore :=
  '(st', r) ← build_tar_gz_archive storage_id job_id st;
  finish_job job_id r st'.

Definition get_export_status (job_id : Uuid) (st : ExportStore) : Result ExportJobStatus :=
  ok_or (export_jobs st !! job_id) (NotFound ("Export job " +:+ uuid_str job_id +:+ " not found")).

Definition not_completed : AppError := BadRequest "Export is not yet completed".
Definition data_gone : AppError := NotFound "Export data not found or already downloaded".

Definition get_export_data (job_id : Uuid) (st : ExportStore) : Result (bytes * ExportStore) :=
  status ← get_export_status job_id st;
  if bool_decide (ej_status status = Completed) then
    data ← ok_or (export_data st !! job_id) data_gone;
    Ok (data, mkExportStore (export_jobs st) (base.delete job_id (export_data st)))
  else Err not_completed.
End export.
End service.
End BulkService.
