(* ===== verification/SharedLinkService.v ===== *)
(** * The shared-link service (src/src/services/shared_link_service.rs)

    Public links to a file: creation, the anonymous information page, the
    password check that hands out a short-lived download token, the download
    with its quota, and deactivation. *)

From S2P Require Import Prelude Json Schema Env World Tables Laws LocalDisk Registry Files.
From S2P Require Import Links FileService.

Record SharedLinkInfo := mkSharedLinkInfo {
  sli_file_name : string;
  sli_file_size : Z;
  sli_content_type : string;
  sli_password_required : bool;
  sli_expires_at : option Timestamp
}.

Record SharedLinkDownloadResult := mkSharedLinkDownloadResult {
  sld_data : bytes;
  sld_content_type : string;
  sld_file_name : string;
  sld_file_id : Uuid;
  sld_project_id : Uuid;
  sld_storage_id : Uuid;
  sld_file_size : Z
}.

Record DownloadTokenClaims := mkDownloadTokenClaims {
  dtc_sub : string;
  dtc_link_id : string;
  dtc_exp : Z
}.

Record CreateSharedLinkInput := mkCreateSharedLinkInput {
  csi_file_id : Uuid;
  csi_project_id : Uuid;
  csi_user_id : Uuid;
  csi_user_role : string;
  csi_password : option string;
  csi_expires_at : option Timestamp;
  csi_max_downloads : option Z
}.

Definition DOWNLOAD_TOKEN_TTL_SECS : Z := 300.

(** The claims as the JSON object serde makes of them, and back. *)
Definition claims_json (c : DownloadTokenClaims) : Json :=
  JObject [("sub", JString (dtc_sub c)); ("link_id", JString (dtc_link_id c));
           ("exp", JNumber (PosInt (Z.to_N (dtc_exp c))))].
Definition claims_of_json (j : Json) : option DownloadTokenClaims :=
  sub ← as_str (json_index "sub" j);
  link_id ← as_str (json_index "link_id" j);
  exp ← as_u64 (json_index "exp" j);
  Some (mkDownloadTokenClaims sub link_id exp).

(** [Validation::default()] tolerates a minute of clock skew. *)
Definition jwt_leeway : Z := 60.

Definition link_hidden : AppError := NotFound "Shared link not found".

Definition is_expired (t : Timestamp) (link : Schema.SharedLink) : bool :=
  match sl_expires_at link with Some e => e <? t | None => false end.

Definition validate_link_accessible (t : Timestamp) (link : Schema.SharedLink) : Result unit :=
  if negb (sl_is_active link) then Err link_hidden
  else if is_expired t link then Err link_hidden
  else Ok tt.

Module SharedLinkService.
Section service.
Context {E : Env} (jwt_secret hmac_secret : string).

Definition token_key : string := "dl-token:" +:+ jwt_secret.

Definition create_link (input : CreateSharedLinkInput) : M Schema.SharedLink :=
  file ← File.find_by_id (csi_file_id input);
  refs ← FileReference.find_by_file_and_project (csi_file_id input) (csi_project_id input);
  match refs with
  | [] => throw (NotFound "File not found in this project")
  | ref :: _ =>
      SharedLink.create (mkCreateSharedLink (f_id file) (csi_project_id input)
        (fr_original_name ref) (csi_user_id input) (csi_password input) (csi_expires_at input)
        (csi_max_downloads input))
  end.

Definition accessible (link : Schema.SharedLink) : M unit :=
  t ← gets now; lift (validate_link_accessible t link).

Definition get_link_info (token : string) : M SharedLinkInfo :=
  link ← SharedLink.find_by_token token;
  accessible link;;
  file ← File.find_by_id (sl_file_id link);
  mret (mkSharedLinkInfo (sl_original_name link) (f_size file) (f_content_type file)
          (SharedLink.password_protected link) (sl_expires_at link)).

Definition generate_download_token (token : string) (link_id : Uuid) : M string :=
  n ← now_secs;
  let claims := mkDownloadTokenClaims token (uuid_str link_id) (n + DOWNLOAD_TOKEN_TTL_SECS) in
  lift (ok_or (jwt_encode token_key (claims_json claims))
              (Internal ("Failed to generate download token: " +:+
                 jwt_encode_error token_key (claims_json claims)))).

Definition invalid_token : AppError := Unauthorized "Invalid or expired download token".
Definition token_mismatch : AppError := Unauthorized "Download token does not match this link".

Definition validate_download_token (dl_token expected_token : string) (expected_link_id : Uuid) :
    M unit :=
  n ← now_secs;
  claims ← lift (ok_or (jwt_decode token_key jwt_leeway n dl_token ≫= claims_of_json)
                       invalid_token);
  ensure (String.eqb (dtc_sub claims) expected_token &&
          String.eqb (dtc_link_id claims) (uuid_str expected_link_id)) token_mismatch.

Definition not_protected : AppError := BadRequest "This link is not password-protected".
Definition wrong_password : AppError := Forbidden "Wrong password".

Definition verify_password (token password : string) : M string :=
  link ← SharedLink.find_by_token token;
  accessible link;;
  hash ← lift (ok_or (sl_password_hash link) not_protected);
  ensure (SharedLink.verify_password password hash) wrong_password;;
  generate_download_token (sl_token link) (sl_id link).

Definition token_required : AppError :=
  Unauthorized "Download token required for password-protected links".
Definition limit_reached : AppError := Forbidden "Download limit reached".
Definition not_available : AppError := NotFound "File not available for download".

(** The checks before the storage is read. *)
Definition authorize_download (link : Schema.SharedLink) (dl_token : option string) : M unit :=
  accessible link;;
  (if SharedLink.password_protected link then
     t ← lift (ok_or dl_token token_required);
     validate_download_token t (sl_token link) (sl_id link)
   else mret tt);;
  ensure (SharedLink.below_limit link) limit_reached.

Definition download_via_link (token : string) (dl_token : option string) :
    M SharedLinkDownloadResult :=
  link ← SharedLink.find_by_token token;
  authorize_download link dl_token;;
  file ← File.find_by_id (sl_file_id link);
  locations ← FileLocation.find_for_file (sl_file_id link);
  ensure (negb (Nat.eqb (length locations) 0)) not_available;;
  all_refs ← FileReference.find_by_file_id (sl_file_id link);
  let refs := filter (λ r, N.eqb (fr_project_id r) (sl_project_id link) = true) all_refs in
  got ← or_throw (FileService.all_failed (sl_file_id link))
          (FileService.try_locations hmac_secret refs locations);
  incremented ← SharedLink.increment_download_count (sl_id link);
  ensure incremented limit_reached;;
  mret (mkSharedLinkDownloadResult got.1 (f_content_type file) (sl_original_name link)
          (sl_file_id link) (sl_project_id link) (fl_storage_id got.2) (f_size file)).

Definition list_links (project_id : Uuid) : M (list Schema.SharedLink) :=
  SharedLink.list_by_project project_id.

Definition not_creator : AppError :=
  Forbidden "Only the link creator or an admin can deactivate this link".

Definition deactivate_link (link_id user_id : Uuid) (user_role : string) :
    M Schema.SharedLink :=
  link ← SharedLink.find_by_id link_id;
  ensure (String.eqb user_role "admin" || N.eqb (sl_created_by link) user_id) not_creator;;
  SharedLink.deactivate link_id.
End service.
End SharedLinkService.
