(* ===== verification/BackupService.v ===== *)
(** * Database backups (src/src/services/backup_service.rs, src/src/workers/backup_worker.rs)

    Taking a backup and recording its outcome, retention, deletion, and the
    scheduler's decision whether a configuration is due. [PgDump] is the code
    outside of the program a backup calls; [stamp] prints a time as
    [%Y%m%d_%H%M%S]. *)

From S2P Require Import Prelude Text Json Schema Env World Tables Laws LocalDisk Registry Storages.
From S2P Require Import SyncTasks Backups.

(** A database URL, as the crate [url] takes it apart. *)
Record DbUrl := mkDbUrl {
  url_username : string;
  url_password : option string;
  url_host_str : option string;
  url_port : option Z;
  url_path : string
}.

(** What became of a process: [ExitStatus], its text, the standard error, and
    what the process wrote to the file it was given. *)
Record Output := mkOutput {
  out_success : bool;
  out_status : string;
  out_stderr : string;
  out_written : bytes
}.

Record PgDump := mkPgDump {
  (** [Url::parse]: a complaint, or the parts. *)
  url_parse : string → string + DbUrl;
  (** [pg_dump] run with arguments and the PGPASSWORD of its environment; or the
      system's complaint, where it cannot be run. *)
  pg_dump : list string → option string → Db → string + Output;
  (** [flate2]: a compressor, finished to the compressed bytes. *)
  GzEncoder : Type;
  gz_new : GzEncoder;
  gz_write : bytes → GzEncoder → GzEncoder;
  gz_finish : GzEncoder → bytes;
  (** [tempfile]: the n-th random name; whether a directory is there. *)
  temp_name : N → string;
  dir_exists : string → gmap string bytes → bool
}.

(** The fields of the service, with the temporary directory of the system. *)
Record Dumper := mkDumper {
  dm_pg : PgDump;
  dm_database_url : string;
  dm_temp_dir : option string;
  dm_os_temp_dir : string
}.

Module BackupService.
Section dump.
Context {E : Env} (s : Dumper).

(** A [NamedTempFile]. It has a name of its own and is gone when it is dropped,
    so that of the file only its creation is visible. *)
Definition temp_file : M string :=
  n ← draw;
  map_err (λ e, Internal ("Failed to create temp file: " +:+ io_text e)) fs_guard;;
  mret (path_join (default (dm_os_temp_dir s) (dm_temp_dir s)) (temp_name (dm_pg s) n)).

Definition make_temp_dir : M unit :=
  match dm_temp_dir s with
  | None => mret tt
  | Some dir =>
      there ← gets (λ w, dir_exists (dm_pg s) dir (fs w));
      if (there : bool) then mret tt
      else map_err (λ e, Internal ("Failed to create temp dir " +:+ dir +:+ ": " +:+ io_text e))
             fs_guard
  end.

Definition pg_dump_args (url : DbUrl) (dump_path : string) : list string :=
  ["--no-owner"; "--no-acl"; "--file"; dump_path] ++
  (match url_host_str url with Some host => ["--host"; host] | None => [] end) ++
  (match url_port url with Some port => ["--port"; pretty port] | None => [] end) ++
  (if str_is_empty (url_username url) then [] else ["--username"; url_username url]) ++
  (let dbname := trim_start_slashes (url_path url) in
   if str_is_empty dbname then [] else ["--dbname"; dbname]).

Definition dump_failed (o : Output) : AppError :=
  Internal ("pg_dump failed (exit " +:+ out_status o +:+ "): " +:+
    String.substring 0 500 (out_stderr o)).

(** 64 KB. *)
Definition gz_chunk : nat := Z.to_nat (64 * 1024).

(** The loop from the dump to the compressor; [fuel] is the length of the dump. *)
Fixpoint gz_loop (fuel : nat) (rest : bytes) (enc : GzEncoder (dm_pg s)) :
    option (GzEncoder (dm_pg s)) :=
  match rest, fuel with
  | [], _ => Some enc
  | _, O => None
  | _, S fuel' =>
      gz_loop fuel' (drop gz_chunk rest) (gz_write (dm_pg s) (take gz_chunk rest) enc)
  end.

Definition compress (data : bytes) : option bytes :=
  gz_finish (dm_pg s) <$> gz_loop (length data) data (gz_new (dm_pg s)).

(** The dump, compressed. *)
Definition dump : M bytes :=
  make_temp_dir;;
  dump_path ← temp_file;
  url ← lift (match url_parse (dm_pg s) (dm_database_url s) with
              | inl e => Err (Internal ("Invalid database URL: " +:+ e))
              | inr url => Ok url
              end);
  d ← gets db;
  output ← lift (match pg_dump (dm_pg s) (pg_dump_args url dump_path) (url_password url) d with
                 | inl e => Err (Internal ("Failed to execute pg_dump: " +:+ e))
                 | inr output => Ok output
                 end);
  ensure (out_success output) (dump_failed output);;
  _ ← temp_file;
  lift (ok_or (compress (out_written output)) (Internal "out of fuel")).
End dump.

Section service.
Context {E : Env} (s : Dumper) (stamp : Timestamp → string).

Definition validate_storage_path (path : string) : Result unit :=
  if str_mem Ascii.zero path then Err (BadRequest "storage_path must not contain null bytes")
  else if str_contains ".." path then Err (BadRequest "storage_path must not contain '..'")
  else if String.prefix "/" path || String.prefix "\" path then
    Err (BadRequest "storage_path must be a relative path")
  else if str_mem ":"%char path then Err (BadRequest "storage_path must not contain ':'")
  else Ok tt.

Definition build_upload_path (storage_path filename : string) : string :=
  if str_is_empty storage_path then filename
  else trim_end_matches slash storage_path +:+ "/" +:+ filename.

Definition generate_backup_filename : M string :=
  id ← new_uuid;
  short_id ← lift (str_slice 0 8 (uuid_str id));
  t ← gets now;
  mret ("backup_" +:+ stamp t +:+ "_" +:+ short_id +:+ ".sql.gz").

Definition not_available (storage_id : Uuid) : AppError :=
  BadRequest ("Storage backend " +:+ uuid_str storage_id +:+
    " is not available. Ensure the storage exists and is enabled.").

Definition validate_storage_available (storage_id : Uuid) : M unit :=
  map_err (λ _, not_available storage_id) (StorageRegistry.get storage_id) ≫= λ _, mret tt.

Definition execute_backup (upload_path : string) (storage_id : Uuid) : M Z :=
  compressed ← dump s;
  backend ← StorageRegistry.get storage_id;
  be_upload backend upload_path compressed;;
  mret (Z.of_nat (length compressed)).

Definition execute_backup_and_update (record_id : Uuid) (upload_path : string)
    (storage_id : Uuid) : M Schema.BackupRecord :=
  try_with (execute_backup upload_path storage_id)
    (λ file_size, BackupRecord.mark_completed record_id file_size upload_path)
    (λ e, ignore (BackupRecord.mark_failed record_id (display_error e));; throw e).

Definition create_backup (config_id : option Uuid) (config_name : option string)
    (storage_id : Uuid) (storage_path : string) : M Schema.BackupRecord :=
  try_with (validate_storage_available storage_id)
    (λ _,
      filename ← generate_backup_filename;
      let full_path := build_upload_path storage_path filename in
      record ← BackupRecord.create (mkCreateBackupRecord config_id config_name storage_id full_path);
      execute_backup_and_update (br_id record) full_path storage_id)
    (λ e,
      record ← BackupRecord.create (mkCreateBackupRecord config_id config_name storage_id "");
      ignore (BackupRecord.mark_failed (br_id record)
                ("Pre-execution failure: " +:+ display_error e));;
      throw e).

Definition delete_from_storage (record : Schema.BackupRecord) : M unit :=
  backend ← StorageRegistry.get (br_storage_id record); be_delete backend (br_file_path record).

(** The file first, then the record; a record whose file could not be deleted
    is kept for the next cycle. *)
Definition delete_with_file (deleted : Z) (record : Schema.BackupRecord) : M Z :=
  o ← ok (delete_from_storage record);
  match o with
  | None => mret deleted
  | Some _ => BackupRecord.delete (br_id record);; mret (deleted + 1)
  end.

Definition cleanup_old_backups (config_id : Uuid) (retention_count : Z) : M Z :=
  if retention_count <? 1 then mret 0
  else
    old_backups ← BackupRecord.list_oldest_completed_by_config config_id retention_count;
    foldM delete_with_file 0 old_backups.

Definition storage_disabled (name : string) : AppError :=
  BadRequest ("Storage '" +:+ name +:+
    "' is disabled. Re-enable it before deleting backups to avoid orphaning files.").

Definition delete_backup (backup_id : Uuid) : M unit :=
  record ← BackupRecord.find_by_id backup_id;
  (if negb (str_is_empty (br_file_path record)) then
     o ← ok (StorageRegistry.get (br_storage_id record));
     match o with
     | Some backend => be_delete backend (br_file_path record)
     | None =>
         try_with (Storage.find_by_id (br_storage_id record))
           (λ storage, throw (storage_disabled (st_name storage)))
           (λ e, match e with NotFound _ => mret tt | _ => throw e end)
     end
   else mret tt);;
  BackupRecord.delete backup_id.

Definition delete_for_config (deleted : Z) (record : Schema.BackupRecord) : M Z :=
  if str_is_empty (br_file_path record) then
    BackupRecord.delete (br_id record);; mret (deleted + 1)
  else delete_with_file deleted record.

Definition delete_all_backups_for_config (config_id : Uuid) : M Z :=
  records ← BackupRecord.list_all_by_config config_id;
  foldM delete_for_config 0 records.

Definition get_next_run_time (cron_expr : string) : M (option Timestamp) :=
  t ← gets now;
  mret (s ← cron_parse cron_expr; cron_after s t).

Definition validate_cron (cron_expr : string) : Result unit :=
  match cron_parse cron_expr with
  | Some _ => Ok tt
  | None => Err (BadRequest ("Invalid cron expression: " +:+ cron_error cron_expr))
  end.

(** ** The scheduler *)

Definition STALE_RUNNING_THRESHOLD_SECS : Z := 3600.

(** The first slot after [baseline] is in the past. *)
Definition slot_passed (schedule : Schedule) (baseline t : Timestamp) : bool :=
  match cron_after schedule baseline with
  | Some next_time => next_time <=? t
  | None => false
  end.

Definition is_running (r : Schema.BackupRecord) : bool := String.eqb (br_status r) "running".

(** When the last attempt is a running one abandoned for more than an hour. *)
Definition stale_since (t : Timestamp) (last_backup : option Schema.BackupRecord) :
    option (Schema.BackupRecord * Timestamp) :=
  record ← last_backup;
  if is_running record then
    started ← br_started_at record;
    if STALE_RUNNING_THRESHOLD_SECS <? Z.quot (t - started) usec_per_sec
    then Some (record, started) else None
  else None.

Definition invalid_schedule : AppError := Internal "Invalid cron expression".

Definition is_backup_due (cron_expr : string) (config_id : Uuid)
    (config_created_at : Timestamp) : M bool :=
  schedule ← lift (ok_or (cron_parse cron_expr) invalid_schedule);
  last_backup ← BackupRecord.find_latest_by_config config_id;
  t ← gets now;
  match stale_since t last_backup with
  | Some (record, started) =>
      ignore (BackupRecord.mark_failed (br_id record) BackupRecord.stale_message);;
      mret (slot_passed schedule started t)
  | None =>
      if match last_backup with Some r => is_running r | None => false end then mret false
      else
        let baseline := default config_created_at (r ← last_backup; br_started_at r) in
        mret (slot_passed schedule baseline t)
  end.

Definition process_config (config : Schema.BackupConfig) : M unit :=
  let due := is_backup_due (bc_schedule_cron config) (bc_id config) (bc_created_at config) in
  is_due ← due;
  if negb is_due then mret tt
  else
    locked ← gets (λ w, bool_decide (lock_key (bc_id config) ∉ other_locks w));
    if negb locked then mret tt
    else
      still_due ← due;
      if negb still_due then mret tt
      else
        try_with (create_backup (Some (bc_id config)) (Some (bc_name config))
                    (bc_storage_id config) (bc_storage_path config))
          (λ _, ignore (cleanup_old_backups (bc_id config) (bc_retention_count config)))
          (λ _, mret tt).

Definition check_and_run_backups : M unit :=
  try_with BackupConfig.list_enabled
    (λ configs, for_each (λ c, ignore (process_config c)) configs)
    (λ _, mret tt).
End service.
End BackupService.
