(* ===== verification/SyncWorker.v ===== *)
(** * The sync worker (src/src/workers/sync_worker.rs)

    One round of a worker: claim a batch of tasks, group those that copy the
    same file from the same place, download the source once into a temporary
    file, and send it to every target of the group. *)

From S2P Require Import Prelude Json Schema Env World Tables Laws LocalDisk Registry Storages.
From S2P Require Import Files SyncTasks Resolver.

(** ** Groups *)

Definition GroupKey : Type := Uuid * Uuid * option Uuid.

Definition group_key (t : SyncTask) : GroupKey :=
  (tk_file_id t, tk_source_storage_id t, tk_project_id t).

(** The order of the keys of the map: [None] before [Some]. *)
Definition cmp_key : Cmp GroupKey :=
  then_by (asc (λ k, Z.of_N k.1.1)) (then_by (asc (λ k, Z.of_N k.1.2))
    (asc_nulls_first (λ k, Z.of_N <$> k.2))).

Definition group_tasks (tasks : list SyncTask) : list (list SyncTask) :=
  map (λ k, filter (λ t, group_key t = k) tasks)
    (order_by cmp_key (remove_dups (map group_key tasks))).

Module SyncWorker.
Section worker.
Context {E : Env} (hmac_secret os_temp_dir : string) (max_retries : Z).

Definition resolve_backend (storage_id : Uuid) (project_id : option Uuid) : M Backend :=
  match project_id with
  | Some pid =>
      storage ← Storage.find_by_id storage_id;
      resolve_project_backend storage pid hmac_secret
  | None => StorageRegistry.get storage_id
  end.

Definition requeue (err_msg : string) (task : Schema.SyncTask) : M unit :=
  ignore (SyncTask.requeue_for_retry (tk_id task) err_msg);;
  ignore (SyncTask.release_lock (tk_id task)).

Definition fail_all (batch : list Schema.SyncTask) (err_msg : string) : M unit :=
  for_each (requeue err_msg) batch.

(** The location of the copy a task made. *)
Definition record_location (task : Schema.SyncTask) (storage_path : string) : M unit :=
  try_with (FileLocation.create (mkCreateFileLocation (tk_file_id task)
              (tk_target_storage_id task) storage_path "synced"))
    (λ _, mret tt)
    (λ e, match e with
          | Database s =>
              if is_unique_violation s then
                FileLocation.update_status_by_file_and_storage (tk_file_id task)
                  (tk_target_storage_id task) "synced" ≫= λ _, mret tt
              else throw e
          | _ => throw e
          end).

Definition finalize_task (storage_path temp_path : string) (task : Schema.SyncTask) : M unit :=
  try_with
    (target_backend ← resolve_backend (tk_target_storage_id task) (tk_project_id task);
     be_upload_from_file target_backend storage_path temp_path;;
     record_location task storage_path)
    (λ _,
      ignore (SyncTask.update_status (tk_id task) "completed" None);;
      ignore (SyncTask.supersede_failed_for (tk_file_id task) (tk_target_storage_id task)
                (tk_id task)))
    (λ e, ignore (SyncTask.requeue_for_retry (tk_id task) (display_error e)));;
  ignore (SyncTask.release_lock (tk_id task)).

Definition source_not_found (head : Schema.SyncTask) : AppError :=
  NotFound ("Source file location not found for file " +:+ uuid_str (tk_file_id head) +:+
            " on storage " +:+ uuid_str (tk_source_storage_id head)).

Definition temp_dir : string := path_join os_temp_dir "simply-storage-sync".
Definition temp_path_for (head : Schema.SyncTask) : string :=
  path_join temp_dir (uuid_str (tk_id head) +:+ ".part").

(** The shared download: the path of the source copy. *)
Definition download_source (head : Schema.SyncTask) (temp_path : string) : M string :=
  source_backend ← resolve_backend (tk_source_storage_id head) (tk_project_id head);
  source_locations ← FileLocation.find_all_for_file (tk_file_id head);
  source_location ← lift (ok_or
    (list_find (λ loc, fl_storage_id loc = tk_source_storage_id head) source_locations)
    (source_not_found head));
  be_download_to_file source_backend (fl_storage_path source_location.2) temp_path;;
  mret (fl_storage_path source_location.2).

Definition temp_dir_error (e : AppError) : string :=
  "Failed to create sync temp dir " +:+ debug_path temp_dir +:+ ": " +:+ io_text e.

Definition process_batch (batch : list Schema.SyncTask) : M unit :=
  match batch with
  | [] => mret tt
  | head :: _ =>
      let temp_path := temp_path_for head in
      try_with fs_guard
        (λ _,
          try_with (download_source head temp_path)
            (λ storage_path,
              for_each (finalize_task storage_path temp_path) batch;;
              ignore (fs_remove temp_path))
            (λ e,
              ignore (fs_remove temp_path);;
              fail_all batch (display_error e)))
        (λ e, fail_all batch (temp_dir_error e))
  end.

Definition poll_and_process : M bool :=
  try_with (SyncTask.claim_pending 16 max_retries)
    (λ tasks,
      match tasks with
      | [] => mret false
      | _ => for_each process_batch (group_tasks tasks);; mret true
      end)
    (λ _, mret false).
End worker.
End SyncWorker.
