(* ===== verification/Auth.v ===== *)
(** * Authentication and accounts

    The caller of a request (src/src/api/auth.rs), access and refresh tokens
    (src/src/services/auth_service.rs), and the account handlers
    (src/src/api/auth_routes.rs). A handler takes the extracted caller, the
    path and the decoded body, and returns what it serialises. *)

From S2P Require Import Prelude Text Json Schema Env World Tables Laws Projects LocalDisk Storages.
From S2P Require Import Links Users.

Record AuthenticatedUser := mkAuthenticatedUser {
  au_user_id : Uuid;
  au_role : string
}.
Record AdminUser := mkAdminUser { ad_user_id : Uuid }.

Definition is_admin (user : AuthenticatedUser) : bool := String.eqb (au_role user) "admin".
Definition is_owner (user : AuthenticatedUser) (owner_id : option Uuid) : bool :=
  match owner_id with Some oid => N.eqb oid (au_user_id user) | None => false end.
Definition require_admin (user : AuthenticatedUser) : Result unit :=
  if is_admin user then Ok tt else Err (Forbidden "Admin access required").
Definition require_owner_or_admin (user : AuthenticatedUser) (owner_id : option Uuid) :
    Result unit :=
  if is_admin user || is_owner user owner_id then Ok tt
  else Err (Forbidden "Access denied: not the owner").

(** ** Tokens *)

Record Claims := mkClaims {
  cl_sub : string;
  cl_role : string;
  cl_exp : Z
}.

Definition access_claims_json (c : Claims) : Json :=
  JObject [("sub", JString (cl_sub c)); ("role", JString (cl_role c));
           ("exp", JNumber (PosInt (Z.to_N (cl_exp c))))].
Definition access_claims_of_json (j : Json) : option Claims :=
  sub ← as_str (json_index "sub" j);
  role ← as_str (json_index "role" j);
  exp ← as_u64 (json_index "exp" j);
  Some (mkClaims sub role exp).

(** [AuthConfig]: the part the service uses. *)
Record AuthConfig := mkAuthConfig {
  ac_jwt_secret : string;
  ac_access_token_ttl_secs : Z;
  ac_refresh_token_ttl_secs : Z
}.

Module AuthService.
Section service.
Context {E : Env} (config : AuthConfig).

Definition hash_password (password : string) : M string :=
  n ← draw;
  lift (ok_or (argon2_hash n password)
              (Internal ("Failed to hash password: " +:+ argon2_error n password))).
Definition verify_password (password hash : string) : bool := argon2_verify password hash.

(** The expiry is a sum of machine integers in the code: the two agree as long as
    it fits 64 bits, as it does for every lifetime below 2^63 seconds. *)
Definition generate_access_token (user_id : Uuid) (role : string) : M string :=
  n ← now_secs;
  let claims := mkClaims (uuid_str user_id) role (n + ac_access_token_ttl_secs config) in
  lift (ok_or (jwt_encode (ac_jwt_secret config) (access_claims_json claims))
              (Internal ("Failed to generate access token: " +:+
                 jwt_encode_error (ac_jwt_secret config) (access_claims_json claims)))).

Definition generate_refresh_token : M string := n ← draw; mret (gen_token n).

Definition invalid_token (now_secs : Z) (token : string) : AppError :=
  Unauthorized ("Invalid token: " +:+ jwt_decode_error (ac_jwt_secret config) 0 now_secs token).

(** No leeway: a token is refused as soon as its expiry has passed. *)
Definition validate_access_token (token : string) : M Claims :=
  n ← now_secs;
  lift (ok_or (jwt_decode (ac_jwt_secret config) 0 n token ≫= access_claims_of_json)
              (invalid_token n token)).

Definition hash_refresh_token (token : string) : string :=
  sha_hex (sha_update (String.list_byte_of_string token) sha_new).
End service.
End AuthService.

(** ** The extractors (src/src/api/auth.rs) *)

Section extract.
Context {E : Env} (config : AuthConfig).

Definition missing_header : AppError := Unauthorized "Missing Authorization header".
Definition bad_header : AppError :=
  Unauthorized "Invalid Authorization header format, expected: Bearer <token>".

Definition extract_user (authorization : option string) : M AuthenticatedUser :=
  auth_header ← lift (ok_or authorization missing_header);
  token ← lift (ok_or (strip_prefix "Bearer " auth_header) bad_header);
  claims ← AuthService.validate_access_token config token;
  user_id ← lift (ok_or (uuid_parse (cl_sub claims)) (Unauthorized "Invalid user ID in token"));
  mret (mkAuthenticatedUser user_id (cl_role claims)).

Definition extract_admin (authorization : option string) : M AdminUser :=
  user ← extract_user authorization;
  lift (require_admin user);;
  mret (mkAdminUser (au_user_id user)).
End extract.

(** ** The account handlers (src/src/api/auth_routes.rs) *)

Record CreateUserRequest := mkCreateUserRequest {
  cur_username : string;
  cur_password : string;
  cur_role : string
}.
Record UpdateUserRequest := mkUpdateUserRequest {
  uur_role : option string;
  uur_password : option string
}.
Record Tokens := mkTokens {
  access_token : string;
  refresh_token : string
}.

Definition is_username_char (c : Ascii.ascii) : bool :=
  is_ascii_alphanumeric c || Ascii.eqb c "_"%char || Ascii.eqb c "-"%char || Ascii.eqb c "."%char.

Definition is_role (role : string) : bool := String.eqb role "admin" || String.eqb role "user".
Definition bad_role : AppError := BadRequest "Role must be 'admin' or 'user'".

Definition check_password (password : string) : Result unit :=
  if Nat.ltb (String.length password) 6 then
    Err (BadRequest "Password must be at least 6 characters")
  else if Nat.ltb 1024 (String.length password) then
    Err (BadRequest "Password must not exceed 1024 characters")
  else Ok tt.

Definition check_username (username : string) : Result unit :=
  if Nat.ltb (String.length username) 3 || Nat.ltb 64 (String.length username) then
    Err (BadRequest "Username must be between 3 and 64 characters")
  else if negb (str_all is_username_char username) then
    Err (BadRequest
      "Username may only contain letters, digits, underscores, hyphens, and dots")
  else Ok tt.

Module AuthRoutes.
Section routes.
Context {E : Env} (config : AuthConfig).

Definition create_user (body : CreateUserRequest) : M Schema.User :=
  ensure (negb (str_is_empty (cur_username body) || str_is_empty (cur_password body)))
    (BadRequest "Username and password are required");;
  let username := str_trim (cur_username body) in
  lift (check_username username);;
  lift (check_password (cur_password body));;
  ensure (is_role (cur_role body)) bad_role;;
  password_hash ← AuthService.hash_password (cur_password body);
  map_err (UserProject.conflict_on_unique "Username already exists")
    (User.create (mkCreateUser username password_hash (cur_role body))).

Definition list_users : M (list Schema.User) := User.list.

Definition owns_projects (names : list string) : AppError :=
  Conflict ("Cannot delete user: they own " +:+ pretty (Z.of_nat (length names)) +:+
    " project(s) (" +:+ String.concat ", " names +:+ "). Reassign ownership first.").

Definition delete_user (admin : AdminUser) (user_id : Uuid) : M unit :=
  ensure (uuid_ne user_id (ad_user_id admin)) (BadRequest "Cannot delete your own account");;
  owned_projects ← Project.list_for_owner user_id;
  ensure (Nat.eqb (length owned_projects) 0) (owns_projects (map p_name owned_projects));;
  SharedLink.delete_by_user user_id;;
  RefreshToken.delete_by_user_id user_id;;
  User.delete user_id.

Definition bad_credentials : AppError := Unauthorized "Invalid username or password".

(** The pair of tokens a login or a refresh hands out. *)
Definition issue_tokens (user : Schema.User) : M Tokens :=
  access_token ← AuthService.generate_access_token config (u_id user) (u_role user);
  refresh_token ← AuthService.generate_refresh_token;
  t ← gets now;
  let expires_at := t + seconds (ac_refresh_token_ttl_secs config) in
  _ ← RefreshToken.create (mkCreateRefreshToken (u_id user)
        (AuthService.hash_refresh_token refresh_token) expires_at);
  mret (mkTokens access_token refresh_token).

Definition login (username password : string) : M Tokens :=
  user ← or_throw bad_credentials (User.find_by_username username);
  ensure (AuthService.verify_password password (u_password_hash user)) bad_credentials;;
  issue_tokens user.

Definition invalid_refresh : AppError := Unauthorized "Invalid or expired refresh token".
Definition account_gone : AppError := Unauthorized "Account no longer exists".

Definition refresh (token : string) : M Tokens :=
  stored_token ← or_throw invalid_refresh
    (RefreshToken.consume_by_hash (AuthService.hash_refresh_token token));
  user ← map_err (λ e, match e with NotFound _ => account_gone | _ => e end)
           (User.find_by_id (rt_user_id stored_token));
  issue_tokens user.

Definition me (auth_user : AuthenticatedUser) : M Schema.User :=
  User.find_by_id (au_user_id auth_user).

Definition logout (token : string) : M unit :=
  RefreshToken.delete_by_hash (AuthService.hash_refresh_token token).

Definition get_user (user_id : Uuid) :
    M (Schema.User * list (Schema.Project * string) * list Schema.Storage) :=
  user ← User.find_by_id user_id;
  projects ← UserProject.list_for_user user_id;
  storages ← UserStorage.list_for_user user_id;
  mret (user, projects, map redacted storages).

(** The statements of the transaction. *)
Definition apply_update (user_id : Uuid) (user : Schema.User) (body : UpdateUserRequest)
    (password_hash : option string) : M Schema.User :=
  user1 ←
    match uur_role body with
    | Some role => or_throw (Database RowNotFound) (sql_update_id user_id (set_u_role role))
    | None => mret user
    end;
  user2 ←
    match password_hash with
    | Some hash => or_throw (Database RowNotFound) (sql_set_id user_id (set_u_password_hash hash))
    | None => mret user1
    end;
  RefreshToken.delete_by_user_id user_id;;
  mret user2.

Definition update_user (admin : AdminUser) (user_id : Uuid) (body : UpdateUserRequest) :
    M Schema.User :=
  ensure (match uur_role body, uur_password body with None, None => false | _, _ => true end)
    (BadRequest "At least one of 'role' or 'password' must be provided");;
  user ← User.find_by_id user_id;
  match uur_role body with
  | Some role =>
      ensure (is_role role) bad_role;;
      ensure (negb (N.eqb user_id (ad_user_id admin) && negb (String.eqb role "admin")))
        (BadRequest "Cannot demote your own admin account")
  | None => mret tt
  end;;
  password_hash ←
    match uur_password body with
    | Some password =>
        lift (check_password password);;
        h ← AuthService.hash_password password; mret (Some h)
    | None => mret None
    end;
  transaction (apply_update user_id user body password_hash).
End routes.
End AuthRoutes.
