(* ===== verification/Access.v ===== *)
(** * Access to projects and files (src/src/api/files.rs, src/src/api/projects.rs)

    Who may read and who may write: administrators and the owner of a project
    both, its members read, its members with the role "writer" write; a file
    follows the projects that reference it. *)

From S2P Require Import Prelude Json Schema Env World Tables Laws Projects Users Auth.

Section access.
Context {E : Env}.

Definition not_a_member : AppError := Forbidden "Access denied: not a member".
Definition not_a_writer : AppError :=
  Forbidden "Access denied: writer, owner, or admin access required".
Definition not_a_file_writer : AppError :=
  Forbidden "Access denied: writer, owner, or admin required".

(** The guard shared by the handlers that read a project. *)
Definition require_project_read_access (user : AuthenticatedUser) (project : Schema.Project) :
    M unit :=
  if negb (is_admin user) && negb (is_owner user (p_owner_id project)) then
    b ← UserProject.is_member (au_user_id user) (p_id project); ensure b not_a_member
  else mret tt.

Definition require_project_write_access (user : AuthenticatedUser) (project : Schema.Project) :
    M unit :=
  if is_admin user || is_owner user (p_owner_id project) then mret tt
  else
    role ← UserProject.get_role (au_user_id user) (p_id project);
    ensure (match role with Some r => String.eqb r "writer" | None => false end) not_a_writer.

(** A live project of [user]: owned, or with a membership that satisfies [P]. *)
Definition accessible_project (d : Db) (user_id : Uuid) (P : UserProject → bool)
    (p : Schema.Project) : bool :=
  is_live p &&
  (option_uuid_eqb (p_owner_id p) (Some user_id) ||
   exists_row (λ up, N.eqb (up_project_id up) (p_id p) && N.eqb (up_user_id up) user_id && P up)
     (user_projects d)).

Definition file_accessible (d : Db) (file_id user_id : Uuid) (P : UserProject → bool) : bool :=
  exists_row (λ fr, N.eqb (fr_file_id fr) file_id &&
    match projects d !! fr_project_id fr with
    | Some p => accessible_project d user_id P p
    | None => false
    end) (file_references d).

Definition check_file_access (file_id : Uuid) (user : AuthenticatedUser) : M unit :=
  if String.eqb (au_role user) "admin" then mret tt
  else
    b ← gets (λ w, file_accessible (db w) file_id (au_user_id user) (λ _, true));
    ensure b not_a_member.

Definition is_writer (up : UserProject) : bool := String.eqb (up_role up) "writer".

Definition check_file_write_access (file_id : Uuid) (user : AuthenticatedUser) : M unit :=
  if String.eqb (au_role user) "admin" then mret tt
  else
    b ← gets (λ w, file_accessible (db w) file_id (au_user_id user) is_writer);
    ensure b not_a_file_writer.

(** Metadata is a flat JSON object. *)
Definition is_flat (v : Json) : bool :=
  match v with
  | JString _ | JNumber _ | JBool _ | JNull => true
  | JArray _ | JObject _ => false
  end.
Definition nested_value (key : string) : AppError :=
  BadRequest ("Metadata value for key '" +:+ key +:+
    "' must be a string, number, boolean, or null; nested objects and arrays are not allowed").
Fixpoint check_flat (fields : list (string * Json)) : Result unit :=
  match fields with
  | [] => Ok tt
  | (key, val) :: fields' => if is_flat val then check_flat fields' else Err (nested_value key)
  end.
Definition validate_flat_metadata (value : Json) : Result unit :=
  match value with
  | JObject obj => check_flat obj
  | _ => Err (BadRequest "Metadata must be a JSON object")
  end.
End access.
