(* ===== verification/Uploads.v ===== *)
(** * Resumable uploads (src/src/api/uploads.rs, src/src/workers/upload_cleanup_worker.rs)

    The tus handlers (creation, offset, append, termination) and the worker
    that reclaims what abandoned uploads leave. The body of a PATCH is the list
    of the chunks the server reads from the connection, an error taking the
    place of the chunk it kept from being read. *)

From S2P Require Import Prelude Text Json Schema Env World Tables Laws Projects LocalDisk Links.
From S2P Require Import FileService Auth Access.

(** ** Text of headers *)

(** [str::parse::<i64>]. *)
Fixpoint digits_value (acc : Z) (s : string) : option Z :=
  match s with
  | EmptyString => Some acc
  | String c s' =>
      if is_ascii_digit c
      then digits_value (acc * 10 + (Z.of_nat (Ascii.nat_of_ascii c) - 48)) s'
      else None
  end.
Definition parse_nat_digits (s : string) : option Z :=
  if str_is_empty s then None else digits_value 0 s.
Definition parse_i64 (s : string) : option Z :=
  z ← match s with
      | String c s' =>
          if Ascii.eqb c "-"%char then Z.opp <$> parse_nat_digits s'
          else if Ascii.eqb c "+"%char then parse_nat_digits s'
          else parse_nat_digits s
      | EmptyString => None
      end;
  if (i64_min <=? z) && (z <=? i64_max) then Some z else None.

(** [splitn(2, ' ')]: up to the first space, and what follows it. *)
Fixpoint split_once_space (s : string) : string * string :=
  match s with
  | EmptyString => (EmptyString, EmptyString)
  | String a s' =>
      if Ascii.eqb a " "%char then (EmptyString, s')
      else let '(k, v) := split_once_space s' in (String a k, v)
  end.

Record TusHeaders := mkTusHeaders {
  upload_length : option string;
  upload_metadata : option string;
  upload_offset : option string
}.

Record UploadSettings := mkUploadSettings {
  us_max_file_size : Z;
  us_session_ttl_secs : Z;
  us_local_temp_path : string
}.

Module Uploads.
Section handlers.
Context {E : Env} (config : UploadSettings) (hmac_secret : string).

Definition uploads_dir : string := path_join (us_local_temp_path config) "uploads".
Definition temp_path_for (id : Uuid) : string := path_join uploads_dir (uuid_str id +:+ ".part").

Definition parse_pair (out : gmap string string) (pair : string) : gmap string string :=
  let pair := str_trim pair in
  if str_is_empty pair then out
  else
    let '(key, val_b64) := split_once_space pair in
    if str_is_empty key then out
    else <[key := default "" (base64_text val_b64)]> out.
Definition parse_tus_metadata (raw : string) : gmap string string :=
  foldl parse_pair ∅ (str_split ","%char raw).

(** [.filter(|s| !s.is_empty())]. *)
Definition non_empty (o : option string) : option string :=
  s ← o; if str_is_empty s then None else Some s.

Definition require_write (user : AuthenticatedUser) (project_id : Uuid) : M Schema.Project :=
  project ← Project.find_by_id project_id;
  require_project_write_access user project;;
  mret project.

Definition not_upload_owner : AppError := Forbidden "Access denied: not the upload owner".

Definition load_owned_session (user : AuthenticatedUser) (id : Uuid) : M Schema.UploadSession :=
  session ← UploadSession.find_by_id id;
  ensure (is_admin user || N.eqb (ss_user_id session) (au_user_id user)) not_upload_owner;;
  mret session.

Definition bad_length : AppError := BadRequest "Missing or invalid Upload-Length".
Definition length_not_positive : AppError := BadRequest "Upload-Length must be positive".
Definition too_large : AppError :=
  BadRequest ("File exceeds maximum allowed size of " +:+ pretty (us_max_file_size config)
              +:+ " bytes").

Definition session_metadata (meta : option string) : Result Json :=
  match non_empty meta with
  | Some json_str =>
      value ← ok_or (json_parse json_str)
                 (BadRequest ("Invalid metadata JSON: " +:+ json_error json_str));
      _ ← validate_flat_metadata value;
      Ok value
  | None => Ok (JObject [])
  end.

(** The identifier of the new session, which the Location header carries. *)
Definition create (user : AuthenticatedUser) (project_id : Uuid) (req : TusHeaders) :
    M Schema.UploadSession :=
  _ ← require_write user project_id;
  total_size ← lift (ok_or (upload_length req ≫= parse_i64) bad_length);
  ensure (0 <? total_size) length_not_positive;;
  let max := us_max_file_size config in
  ensure (negb ((0 <? max) && (max <? total_size))) too_large;;
  let meta_map := default ∅ (parse_tus_metadata <$> upload_metadata req) in
  let original_name := default "unnamed" (non_empty (meta_map !! "filename")) in
  let content_type :=
    default "application/octet-stream" (non_empty (meta_map !! "filetype")) in
  metadata ← lift (session_metadata (meta_map !! "meta"));
  id ← new_uuid;
  let temp_path := temp_path_for id in
  map_err (λ e, Internal ("Failed to create uploads dir: " +:+ io_text e)) fs_guard;;
  map_err (λ e, Internal ("Failed to create temp file: " +:+ io_text e))
    (fs_write temp_path []);;
  t ← gets now;
  UploadSession.create (mkCreateUploadSession project_id (au_user_id user) original_name
    content_type total_size temp_path metadata (t + seconds (us_session_ttl_secs config))).

(** The offset and the length of a session. *)
Definition head (user : AuthenticatedUser) (id : Uuid) : M (Z * Z) :=
  session ← load_owned_session user id;
  mret (ss_offset_bytes session, ss_total_size session).

(** A write to a file opened for appending; what is written to a file that has
    been removed since goes with it. *)
Definition fs_append (path : string) (data : bytes) : M unit :=
  fs_guard;;
  modify (λ w, match fs w !! path with
               | Some old => set_fs (<[path := old ++ data]> (fs w)) w
               | None => w
               end).

Definition payload_error (e : string) : AppError := BadRequest ("Payload read error: " +:+ e).
Definition chunk_overrun : AppError := BadRequest "Chunk exceeds declared Upload-Length".

(** The loop over the payload: each chunk is written before the next is read. *)
Fixpoint append_chunks (session : Schema.UploadSession) (written : Z)
    (payload : list Chunk) : M Z :=
  match payload with
  | [] => mret written
  | inl e :: _ => throw (payload_error e)
  | inr chunk :: payload' =>
      ensure (ss_offset_bytes session + written + Z.of_nat (length chunk)
                <=? ss_total_size session) chunk_overrun;;
      map_err (λ e, Internal ("Failed to write chunk: " +:+ io_text e))
        (fs_append (ss_temp_path session) chunk);;
      append_chunks session (written + Z.of_nat (length chunk)) payload'
  end.

Definition session_closed (status : string) : AppError :=
  BadRequest ("Upload session is " +:+ status).
Definition bad_offset : AppError := BadRequest "Missing or invalid Upload-Offset".
Definition offset_conflict (client server : Z) : AppError :=
  Conflict ("Upload-Offset " +:+ pretty client +:+ " does not match server offset " +:+
            pretty server).
Definition concurrent_patch : AppError := Conflict "Concurrent modification of upload session".

(** What happens once the last byte has arrived. *)
Definition finish (session : Schema.UploadSession) (id : Uuid) (temp_path : string) : M unit :=
  _ ← FileService.finalize_upload hmac_secret (ss_project_id session)
        (ss_original_name session) (ss_content_type session) temp_path (ss_metadata session);
  UploadSession.mark_status id "completed";;
  ignore (fs_remove temp_path).

(** The new offset, which the response carries. *)
Definition patch (user : AuthenticatedUser) (id : Uuid) (req : TusHeaders)
    (payload : list Chunk) : M Z :=
  session ← load_owned_session user id;
  ensure (UploadSession.is_in_progress session) (session_closed (ss_status session));;
  client_offset ← lift (ok_or (upload_offset req ≫= parse_i64) bad_offset);
  ensure (Z.eqb client_offset (ss_offset_bytes session))
    (offset_conflict client_offset (ss_offset_bytes session));;
  map_err (λ e, Internal ("Failed to open temp file: " +:+ io_text e))
    (fs_guard;; fs_read (ss_temp_path session));;
  written ← append_chunks session 0 payload;
  let new_offset := ss_offset_bytes session + written in
  updated ← or_throw concurrent_patch
    (UploadSession.advance_offset id (ss_offset_bytes session) new_offset);
  (if ss_total_size updated <=? ss_offset_bytes updated
   then finish updated id (ss_temp_path session) else mret tt);;
  mret (ss_offset_bytes updated).

Definition terminate (user : AuthenticatedUser) (id : Uuid) : M unit :=
  session ← load_owned_session user id;
  ignore (fs_remove (ss_temp_path session));;
  UploadSession.delete id.
End handlers.
End Uploads.

(** ** The cleanup worker *)

Module UploadCleanupWorker.
Section worker.
Context {E : Env} (uploads_dir : string) (ttl : Z) (access_events_retention : option Z).

Definition LOCK_CLASS : Z := 0x5550.
Definition LOCK_OBJ : Z := 0x4c4e.

Definition sweep_one (s : Schema.UploadSession) : M unit :=
  ignore (fs_remove (ss_temp_path s));;
  ignore (UploadSession.mark_status (ss_id s) "aborted").

Definition sweep_expired : M unit :=
  try_with (UploadSession.find_expired 500) (for_each sweep_one) (λ _, mret tt).

Definition prune_terminal : M unit :=
  t ← gets now; ignore (UploadSession.prune_terminal (t - ttl)).

Definition prune_access_events : M unit :=
  match access_events_retention with
  | None => mret tt
  | Some retention => t ← gets now; ignore (FileAccessEvent.prune_older_than (t - retention))
  end.

(** The stem of an entry of the uploads directory with the extension "part". *)
Definition part_stem (path : string) : option string :=
  let dir := uploads_dir +:+ "/" in
  if String.prefix dir path then
    let name := String.substring (String.length dir) (String.length path) path in
    let stem_len := (String.length name - 5)%nat in
    let stem := String.substring 0 stem_len name in
    if String.eqb name (stem +:+ ".part") && negb (str_is_empty stem)
       && negb (str_mem slash name)
    then Some stem else None
  else None.

(** A "part" file stays only while the session its name spells is in progress. *)
Definition reconcile_one (path : string) : M unit :=
  match part_stem path ≫= uuid_parse with
  | None => mret tt
  | Some id =>
      o ← ok (UploadSession.find_by_id id);
      if match o with Some s => UploadSession.is_in_progress s | None => false end
      then mret tt else ignore (fs_remove path)
  end.

Definition reconcile_orphans : M unit :=
  entries ← gets (λ w, (map_to_list (fs w)).*1);
  for_each reconcile_one entries.

Definition sweep : M unit :=
  locked ← gets (λ w, bool_decide ((LOCK_CLASS, LOCK_OBJ) ∉ other_locks w));
  if negb locked then mret tt
  else
    sweep_expired;; prune_terminal;; reconcile_orphans;; prune_access_events.
End worker.

(** [UploadCleanupWorker::new]: the smallest time to live is a minute, and a
    retention of zero days keeps access events forever. *)
Definition new_ttl (ttl_secs : Z) : Z := seconds (Z.max ttl_secs 60).
Definition new_retention (access_events_retention_days : Z) : option Z :=
  if Z.eqb access_events_retention_days 0 then None else Some (days access_events_retention_days).
End UploadCleanupWorker.
