(* ===== verification/ApiProjects.v ===== *)
(** * The project and storage handlers

    src/src/api/projects.rs (projects, their storages, their members),
    src/src/api/storages.rs (storages and the registration of their backends)
    and the pagination of src/src/api/mod.rs. *)

From S2P Require Import Prelude Json Schema Env World Tables Laws Projects LocalDisk Registry.
From S2P Require Import Storages Files SyncTasks Users Auth Access Search.

(** ** Pagination (src/src/api/mod.rs) *)

Record PaginationParams := mkPaginationParams {
  pp_page : option Z;
  pp_per_page : option Z
}.
Definition page_limit (q : PaginationParams) : Z := clamp (default 50 (pp_per_page q)) 1 1000.
Definition page_offset (q : PaginationParams) : Z :=
  saturating_mul (saturating_sub (Z.max (default 1 (pp_page q)) 1) 1) (page_limit q).

Record SystemStats := mkSystemStats {
  sys_total_files : Z;
  sys_total_storage_used : Z;
  sys_pending_sync_tasks : Z
}.

Record ProjectStats := mkProjectStats {
  prs_project : Schema.Project;
  prs_file_count : Z;
  prs_total_size : Z
}.

Record StorageWithStats := mkStorageWithStats {
  sws_storage : Schema.Storage;
  sws_file_count : Z;
  sws_used_space : Z
}.

Module ProjectsApi.
Section handlers.
Context {E : Env}.

Definition create_project (user : AuthenticatedUser) (body : CreateProject) : M Schema.Project :=
  Project.create body (Some (au_user_id user)).

Definition list_projects (user : AuthenticatedUser) : M (list Schema.Project) :=
  if is_admin user then Project.list else Project.list_accessible (au_user_id user).

(** [SELECT DISTINCT f.id, f.size] over the references of the project. *)
Definition project_files (d : Db) (project_id : Uuid) : list (Uuid * Z) :=
  remove_dups (omap (λ fr, f ← files d !! fr_file_id fr; Some (f_id f, f_size f))
    (select_in (λ fr, N.eqb (fr_project_id fr) project_id) d)).

Definition get_project (user : AuthenticatedUser) (project_id : Uuid) : M ProjectStats :=
  project ← Project.find_by_id project_id;
  require_project_read_access user project;;
  l ← gets (λ w, project_files (db w) project_id);
  total ← lift (bigint (sum_z snd l));
  mret (mkProjectStats project (Z.of_nat (length l)) total).

Definition update_project (user : AuthenticatedUser) (project_id : Uuid) (body : UpdateProject) :
    M Schema.Project :=
  existing ← Project.find_by_id project_id;
  lift (require_owner_or_admin user (p_owner_id existing));;
  Project.update project_id body.

Definition delete_project (user : AuthenticatedUser) (project_id : Uuid) : M unit :=
  existing ← Project.find_by_id project_id;
  lift (require_owner_or_admin user (p_owner_id existing));;
  Project.delete project_id.

Definition list_project_storages (user : AuthenticatedUser) (project_id : Uuid) :
    M (list ProjectStorageWithDetails) :=
  project ← Project.find_by_id project_id;
  require_project_read_access user project;;
  ProjectStorage.list_for_project project_id.

Definition assign_storage (user : AuthenticatedUser) (project_id : Uuid)
    (body : CreateProjectStorage) : M Schema.ProjectStorage :=
  project ← Project.find_by_id project_id;
  lift (require_owner_or_admin user (p_owner_id project));;
  _ ← Storage.find_by_id (cps_storage_id body);
  ProjectStorage.create project_id body.

Definition update_project_storage (user : AuthenticatedUser) (project_id storage_id : Uuid)
    (body : UpdateProjectStorage) : M Schema.ProjectStorage :=
  project ← Project.find_by_id project_id;
  lift (require_owner_or_admin user (p_owner_id project));;
  ProjectStorage.update project_id storage_id body.

Definition remove_storage_assignment (user : AuthenticatedUser) (project_id storage_id : Uuid) :
    M unit :=
  project ← Project.find_by_id project_id;
  lift (require_owner_or_admin user (p_owner_id project));;
  ProjectStorage.delete project_id storage_id.

Definition list_available_storages (user : AuthenticatedUser) (project_id : Uuid) :
    M (list Schema.Storage) :=
  project ← Project.find_by_id project_id;
  lift (require_owner_or_admin user (p_owner_id project));;
  storages ← ProjectStorage.list_available_storages project_id;
  mret (map redacted storages).

Definition validate_member_role (role : string) : Result unit :=
  if String.eqb role "member" || String.eqb role "writer" then Ok tt
  else Err (BadRequest ("Invalid role '" +:+ role +:+ "': must be 'member' or 'writer'")).

Definition list_project_members (_admin : AdminUser) (project_id : Uuid) : M (list MemberInfo) :=
  _ ← Project.find_by_id project_id; UserProject.list_for_project project_id.

Definition add_project_member (_admin : AdminUser) (project_id user_id : Uuid) (role : string) :
    M Schema.UserProject :=
  _ ← Project.find_by_id project_id;
  _ ← User.find_by_id user_id;
  lift (validate_member_role role);;
  UserProject.create user_id project_id role.

Definition update_project_member (_admin : AdminUser) (project_id member_user_id : Uuid)
    (role : string) : M Schema.UserProject :=
  lift (validate_member_role role);;
  UserProject.update_role member_user_id project_id role.

Definition remove_project_member (_admin : AdminUser) (project_id member_user_id : Uuid) :
    M unit := UserProject.delete member_user_id project_id.
End handlers.
End ProjectsApi.

Module StoragesApi.
Section handlers.
Context {E : Env} (hmac_secret : string).

Definition build (s : Schema.Storage) : Result Backend :=
  create_backend (st_storage_type s) (st_config s) hmac_secret.

(** Put the backend of a storage in the registry; a failure is only logged. *)
Definition register_backend (storage : Schema.Storage) : M unit :=
  try_with (lift (build storage))
    (λ backend, StorageRegistry.register (st_id storage) backend)
    (λ _, mret tt).

Definition create_storage (_admin : AdminUser) (body : CreateStorage) : M Schema.Storage :=
  (if default true (cst_enabled body) then
     map_err (λ e, BadRequest ("Invalid storage backend configuration: " +:+ display_error e))
       (lift (create_backend (cst_storage_type body) (cst_config body) hmac_secret)) ≫=
     λ _, mret tt
   else mret tt);;
  storage ← Storage.create body;
  (if st_enabled storage then register_backend storage else mret tt);;
  mret (redacted storage).

Definition with_stats (storage : Schema.Storage) : M StorageWithStats :=
  d ← gets db;
  let sizes := omap (λ fl, f ← files d !! fl_file_id fl; Some (f_size f))
    (select_in (λ fl, N.eqb (fl_storage_id fl) (st_id storage) &&
                      String.eqb (fl_status fl) "synced") d) in
  used ← lift (bigint (sum_z id sizes));
  mret (mkStorageWithStats (redacted storage) (Z.of_nat (length sizes)) used).

Definition list_storages (user : AuthenticatedUser) : M (list StorageWithStats) :=
  storages ← (if is_admin user then Storage.list else UserStorage.list_for_user (au_user_id user));
  foldM (λ acc s, x ← with_stats s; mret (acc ++ [x])) [] storages.

Definition not_assigned : AppError := Forbidden "Access denied: not assigned to this storage".

Definition get_storage (user : AuthenticatedUser) (storage_id : Uuid) : M StorageWithStats :=
  (if negb (is_admin user) then
     b ← UserStorage.is_member (au_user_id user) storage_id; ensure b not_assigned
   else mret tt);;
  storage ← Storage.find_by_id storage_id;
  with_stats storage.

Definition update_storage (_admin : AdminUser) (storage_id : Uuid) (body : UpdateStorage) :
    M Schema.Storage :=
  storage ← Storage.update storage_id body;
  (if st_enabled storage then register_backend storage
   else StorageRegistry.unregister (st_id storage) ≫= λ _, mret tt);;
  mret (redacted storage).

Definition disable_storage (_admin : AdminUser) (storage_id : Uuid) : M Schema.Storage :=
  storage ← Storage.update_enabled storage_id false;
  StorageRegistry.unregister storage_id;;
  mret (redacted storage).

Definition list_storage_files (_admin : AdminUser) (storage_id : Uuid) (q : PaginationParams) :
    M (list Schema.FileLocation) :=
  _ ← Storage.find_by_id storage_id;
  l ← sql_select (λ fl, N.eqb (fl_storage_id fl) storage_id);
  mret (limit (page_limit q) (offset (page_offset q) (order_by (desc fl_created_at) l))).

Definition no_container_listing : AppError :=
  BadRequest "This storage backend does not support container listing".

Definition list_storage_containers (_admin : AdminUser) (storage_id : Uuid) : M (list string) :=
  _ ← Storage.find_by_id storage_id;
  backend ← StorageRegistry.get storage_id;
  ensure (be_supports_containers backend) no_container_listing;;
  be_list_containers backend.

Definition create_storage_container (_admin : AdminUser) (storage_id : Uuid) (name : string) :
    M string :=
  _ ← Storage.find_by_id storage_id;
  backend ← StorageRegistry.get storage_id;
  be_create_container backend name;;
  mret name.

Definition list_storage_members (_admin : AdminUser) (storage_id : Uuid) : M (list MemberInfo) :=
  _ ← Storage.find_by_id storage_id; UserStorage.list_for_storage storage_id.

Definition add_storage_member (_admin : AdminUser) (storage_id user_id : Uuid) :
    M Schema.UserStorage :=
  _ ← Storage.find_by_id storage_id;
  _ ← User.find_by_id user_id;
  UserStorage.create user_id storage_id.

Definition remove_storage_member (_admin : AdminUser) (storage_id member_user_id : Uuid) :
    M unit := UserStorage.delete member_user_id storage_id.
End handlers.
End StoragesApi.

Module SystemApi.
Section handlers.
Context {E : Env}.

Definition system_stats (_admin : AdminUser) : M SystemStats :=
  fs ← sql_select (R := Schema.File) (λ _, true);
  used ← lift (bigint (sum_z f_size fs));
  pending ← sql_select (has_status "pending");
  mret (mkSystemStats (Z.of_nat (length fs)) used (Z.of_nat (length pending))).

Definition list_sync_tasks (_admin : AdminUser) (status : option string)
    (storage_id project_id : option Uuid) : M (list (Schema.SyncTask * option string)) :=
  SyncTask.list_with_project status storage_id project_id.

(** The projects and the redacted storages of the export. *)
Definition config_export (_admin : AdminUser) : M (list Schema.Project * list Schema.Storage) :=
  projects ← Project.list;
  storages ← Storage.list;
  mret (projects, map redacted storages).

Definition list_nodes (_admin : AdminUser) : M (list Schema.Node) := Node.list_active 90.
End handlers.
End SystemApi.
