(* ===== verification/ApiFiles.v ===== *)
(** * The file and shared-link handlers

    src/src/api/files.rs and src/src/api/shared_links.rs. A multipart body is
    the list of its fields, each with the chunks read from the connection, an
    error taking the place of the field or of the chunk it kept from being read;
    a download is the content type, the Content-Disposition header and the body.
    Writing an archive is the parameter [tar_gz], which is given the time its
    entries carry; [archive_stamp] prints a time as [%Y%m%d-%H%M%S]. *)

From S2P Require Import Prelude Json Schema Env World Tables Laws Projects LocalDisk Registry.
From S2P Require Import Storages Files SyncTasks Users Links Search Resolver FileService.
From S2P Require Import TierService BulkService SharedLinkService Auth Access ApiProjects.

(** ** UTF-8 (core::str::from_utf8) *)

Definition in_range (lo hi : N) (b : Byte.byte) : bool :=
  let n := Byte.to_N b in (lo <=? n)%N && (n <=? hi)%N.
Definition is_cont : Byte.byte → bool := in_range 0x80 0xBF.

Fixpoint utf8_valid (l : bytes) : bool :=
  match l with
  | [] => true
  | a :: l1 =>
      if in_range 0 0x7F a then utf8_valid l1
      else match l1 with
      | [] => false
      | b :: l2 =>
          if in_range 0xC2 0xDF a then is_cont b && utf8_valid l2
          else match l2 with
          | [] => false
          | c :: l3 =>
              if in_range 0xE0 0xE0 a then in_range 0xA0 0xBF b && is_cont c && utf8_valid l3
              else if in_range 0xED 0xED a then
                in_range 0x80 0x9F b && is_cont c && utf8_valid l3
              else if in_range 0xE1 0xEF a then is_cont b && is_cont c && utf8_valid l3
              else match l3 with
              | [] => false
              | d :: l4 =>
                  (if in_range 0xF0 0xF0 a then in_range 0x90 0xBF b
                   else if in_range 0xF1 0xF3 a then is_cont b
                   else in_range 0xF4 0xF4 a && in_range 0x80 0x8F b)
                  && is_cont c && is_cont d && utf8_valid l4
              end
          end
      end
  end.

Record MultipartField := mkMultipartField {
  mf_name : option string;
  mf_filename : option string;
  mf_content_type : option string;
  mf_chunks : list Chunk
}.

Record StorageSyncDetail := mkStorageSyncDetail {
  ssd_storage_id : Uuid;
  ssd_storage_name : string;
  ssd_storage_type : string;
  ssd_status : string;
  ssd_storage_path : option string;
  ssd_supports_direct_links : bool;
  ssd_is_hot : bool;
  ssd_synced_at : option Timestamp
}.

Record FileReferenceWithSync := mkFileReferenceWithSync {
  frs_file_ref : Schema.FileReference;
  frs_file_size : Z;
  frs_sync_status : string;
  frs_synced_storages : Z;
  frs_total_storages : Z;
  frs_sync_details : list StorageSyncDetail
}.

Record EnrichedSearchResult := mkEnrichedSearchResult {
  esr_results : list FileReferenceWithSync;
  esr_total : Z;
  esr_page : Z;
  esr_per_page : Z
}.

Record FileMetadata := mkFileMetadata {
  fm_file : Schema.File;
  fm_locations : list Schema.FileLocation;
  fm_references : list Schema.FileReference
}.

Record MetadataSearchRequest := mkMetadataSearchRequest {
  msr_filters : option MetadataFilter;
  msr_page : option Z;
  msr_per_page : option Z;
  msr_name_contains : option string;
  msr_created_after : option Timestamp;
  msr_created_before : option Timestamp
}.

Record Download := mkDownload {
  dl_content_type : string;
  dl_disposition : option string;
  dl_body : bytes
}.

Record SharedLinkResponse := mkSharedLinkResponse {
  slr_link : Schema.SharedLink;
  slr_password_protected : bool
}.

(** Characters that could end or split the quoted name are dropped. *)
Definition is_header_safe (c : Ascii.ascii) : bool :=
  negb (N.eqb (Ascii.N_of_ascii c) 34) && negb (Ascii.eqb c "\"%char) &&
  negb (N.eqb (Ascii.N_of_ascii c) 13) && negb (N.eqb (Ascii.N_of_ascii c) 10).
Definition safe_name (name : string) : string := str_filter is_header_safe name.
Definition double_quote : string := String (Ascii.ascii_of_N 34) EmptyString.
Definition content_disposition (name : string) : string :=
  "attachment; filename=" +:+ double_quote +:+ safe_name name +:+ double_quote.

Module FilesApi.
Section handlers.
Context {E : Env} (hmac_secret : string)
  (tar_gz : Z → list (string * bytes) → Result bytes) (archive_stamp : Timestamp → string).

(** ** Listing *)

Definition sync_detail (locations : list Schema.FileLocation) (ps : Schema.Storage) :
    StorageSyncDetail :=
  let loc := list_find (λ l, fl_storage_id l = st_id ps) locations in
  mkStorageSyncDetail (st_id ps) (st_name ps) (st_storage_type ps)
    (match loc with Some (_, l) => fl_status l | None => "not_synced" end)
    (match loc with Some (_, l) => Some (fl_storage_path l) | None => None end)
    (st_supports_direct_links ps) (st_is_hot ps)
    (match loc with Some (_, l) => fl_synced_at l | None => None end).

(** [loc.status == "synced"] for the storages the file has a location on. *)
Definition detail_synced (d : StorageSyncDetail) : bool :=
  match ssd_storage_path d with Some _ => String.eqb (ssd_status d) "synced" | None => false end.

Definition sync_status (synced_count total_storages : Z) : string :=
  if Z.eqb total_storages 0 then "no_storage"
  else if total_storages <=? synced_count then "synced"
  else if 0 <? synced_count then "partial"
  else "pending".

Definition enrich_one (project_storages : list Schema.Storage)
    (file_ref : Schema.FileReference) : M FileReferenceWithSync :=
  f ← ok (File.find_by_id (fr_file_id file_ref));
  let file_size := match f with Some f => f_size f | None => 0 end in
  locs ← ok (FileLocation.find_all_for_file (fr_file_id file_ref));
  let details := map (sync_detail (default [] locs)) project_storages in
  let total := Z.of_nat (length project_storages) in
  let synced := Z.of_nat (length (filter (λ d, detail_synced d = true) details)) in
  mret (mkFileReferenceWithSync file_ref file_size (sync_status synced total) synced total details).

Definition enrich_file_references (project_id : Uuid) (refs : list Schema.FileReference) :
    M (list FileReferenceWithSync) :=
  project_storages ← Storage.list_for_project project_id;
  foldM (λ acc r, x ← enrich_one project_storages r; mret (acc ++ [x])) [] refs.

(** ** Upload *)

Definition MAX_METADATA_SIZE : Z := 1048576.
Definition metadata_too_large : AppError := BadRequest "Metadata field too large (max 1 MB)".

Fixpoint read_chunks (cap : option Z) (buf : bytes) (chunks : list Chunk) : Result bytes :=
  match chunks with
  | [] => Ok buf
  | inl e :: _ => Err (BadRequest ("Multipart read error: " +:+ e))
  | inr chunk :: chunks' =>
      let buf' := buf ++ chunk in
      if match cap with Some n => n <? Z.of_nat (length buf') | None => false end
      then Err metadata_too_large
      else read_chunks cap buf' chunks'
  end.

Definition read_metadata (chunks : list Chunk) : Result Json :=
  buf ← read_chunks (Some MAX_METADATA_SIZE) [] chunks;
  if utf8_valid buf then
    let meta_str := String.string_of_list_byte buf in
    metadata ← ok_or (json_parse meta_str)
                     (BadRequest ("Invalid metadata JSON: " +:+ json_error meta_str));
    _ ← validate_flat_metadata metadata;
    Ok metadata
  else Err (BadRequest "Metadata must be valid UTF-8").

(** The first file field wins; every metadata field replaces the metadata. *)
Fixpoint read_fields (file_data : option (string * string * bytes)) (metadata : Json)
    (payload : list (string + MultipartField)) :
    Result (option (string * string * bytes) * Json) :=
  match payload with
  | [] => Ok (file_data, metadata)
  | inl e :: _ => Err (BadRequest ("Multipart error: " +:+ e))
  | inr field :: payload' =>
      if String.eqb (default "" (mf_name field)) "metadata" then
        metadata' ← read_metadata (mf_chunks field);
        read_fields file_data metadata' payload'
      else
        match file_data with
        | Some _ => read_fields file_data metadata payload'
        | None =>
            data ← read_chunks None [] (mf_chunks field);
            read_fields (Some (default "unnamed" (mf_filename field),
                               default "application/octet-stream" (mf_content_type field), data))
              metadata payload'
        end
  end.

Definition no_file : AppError := BadRequest "No file provided".

Definition upload_file (user : AuthenticatedUser) (project_id : Uuid)
    (payload : list (string + MultipartField)) : M UploadResult :=
  project ← Project.find_by_id project_id;
  require_project_write_access user project;;
  '(file_data, metadata) ← lift (read_fields None (JObject []) payload);
  '(filename, content_type, data) ← lift (ok_or file_data no_file);
  FileService.upload_file hmac_secret project_id filename content_type data metadata.

Definition list_project_files (user : AuthenticatedUser) (project_id : Uuid)
    (q : PaginationParams) : M (list FileReferenceWithSync) :=
  project ← Project.find_by_id project_id;
  require_project_read_access user project;;
  refs ← FileReference.list_for_project project_id (page_limit q) (page_offset q);
  enrich_file_references project_id refs.

(** ** One file *)

Definition get_file_metadata (user : AuthenticatedUser) (file_id : Uuid) : M FileMetadata :=
  check_file_access file_id user;;
  file ← File.find_by_id file_id;
  locations ← FileLocation.find_all_for_file file_id;
  l ← sql_select (λ fr, N.eqb (fr_file_id fr) file_id);
  mret (mkFileMetadata file locations (order_by (desc fr_created_at) l)).

Definition download_file (user : AuthenticatedUser) (file_id : Uuid) : M Download :=
  check_file_access file_id user;;
  result ← FileService.download_file hmac_secret file_id;
  l ← sql_select (λ fr, N.eqb (fr_file_id fr) file_id);
  let project_id := fr_project_id <$> head (order_by (desc fr_created_at) l) in
  FileAccessEvent.spawn_record (mkRecordAccessEvent file_id project_id None "download"
    (Some (au_user_id user)) (Some (f_size (dr_file result))));;
  mret (mkDownload (dr_content_type result) (content_disposition <$> dr_original_name result)
          (dr_data result)).

Definition get_temp_link (user : AuthenticatedUser) (file_id : Uuid)
    (expires_in : option Z) (direct_only : option bool) (storage_id : option Uuid) :
    M (list TempLinkEntry * Z) :=
  check_file_access file_id user;;
  let expires_in_secs := Z.min (default 3600 expires_in) 86400 in
  links ← FileService.generate_temp_links hmac_secret file_id expires_in_secs
            (default false direct_only) storage_id;
  mret (links, expires_in_secs).

Definition delete_file_reference (user : AuthenticatedUser) (file_id project_id : Uuid) : M unit :=
  project ← Project.find_by_id project_id;
  require_project_write_access user project;;
  FileReference.delete_by_file_and_project file_id project_id.

Definition restore_file (user : AuthenticatedUser) (file_id : Uuid) : M Schema.SyncTask :=
  check_file_write_access file_id user;;
  TierService.restore_file file_id.

Definition no_source : AppError := NotFound "No synced source storage found for this file".

Definition force_sync_to_storage (user : AuthenticatedUser)
    (file_id target_storage_id project_id : Uuid) : M Schema.SyncTask :=
  check_file_write_access file_id user;;
  locations ← FileLocation.find_all_for_file file_id;
  source ← lift (ok_or
    (list_find (λ l, fl_status l = "synced" ∧ fl_storage_id l ≠ target_storage_id) locations)
    no_source);
  SyncTask.create (mkCreateSyncTask file_id (fl_storage_id source.2) target_storage_id
    (Some project_id)).

(** ** Search *)

Definition extras (body : MetadataSearchRequest) : SearchExtras :=
  mkSearchExtras
    (s ← msr_name_contains body; if str_is_empty (str_trim s) then None else Some (str_trim s))
    (msr_created_after body) (msr_created_before body).

Definition search_files (user : AuthenticatedUser) (project_id : Uuid)
    (body : MetadataSearchRequest) : M EnrichedSearchResult :=
  project ← Project.find_by_id project_id;
  require_project_read_access user project;;
  raw ← search_by_metadata project_id (msr_filters body) (extras body)
          (default 1 (msr_page body)) (default 50 (msr_per_page body));
  enriched ← enrich_file_references project_id (sr_results raw);
  mret (mkEnrichedSearchResult enriched (sr_total raw) (sr_page raw) (sr_per_page raw)).

Definition summarize_files (user : AuthenticatedUser) (project_id : Uuid)
    (body : MetadataSearchRequest) : M SearchSummary :=
  project ← Project.find_by_id project_id;
  require_project_read_access user project;;
  search_summary project_id (msr_filters body) (extras body).

Definition list_metadata_keys (user : AuthenticatedUser) (project_id : Uuid) : M (list string) :=
  project ← Project.find_by_id project_id;
  require_project_read_access user project;;
  distinct_metadata_keys project_id.

(** ** Bulk download *)

Definition BULK_DOWNLOAD_MAX_FILES : Z := 500.
Definition BULK_DOWNLOAD_MAX_BYTES : Z := 500 * 1024 * 1024.

(** [str::rsplit_once('.')]. *)
Fixpoint rsplit_dot (s : string) : option (string * string) :=
  match s with
  | EmptyString => None
  | String c s' =>
      match rsplit_dot s' with
      | Some (a, b) => Some (String c a, b)
      | None => if Ascii.eqb c "."%char then Some (EmptyString, s') else None
      end
  end.

(** The name of an entry, given how many times its base has been seen. *)
Definition entry_name (base : string) (count : Z) : string :=
  if Z.eqb count 1 then base
  else
    let n := pretty (count - 1) in
    match rsplit_dot base with
    | Some (stem, ext) => stem +:+ " (" +:+ n +:+ ")." +:+ ext
    | None => base +:+ " (" +:+ n +:+ ")"
    end.

Record ArchiveState := mkArchiveState {
  as_counts : gmap string Z;
  as_entries : list (string * bytes)
}.

Definition archive_one (user : AuthenticatedUser) (project_id : Uuid) (st : ArchiveState)
    (fref : Schema.FileReference) : M ArchiveState :=
  o ← ok (FileService.download_file hmac_secret (fr_file_id fref));
  match o with
  | None => mret st
  | Some download =>
      FileAccessEvent.spawn_record (mkRecordAccessEvent (fr_file_id fref) (Some project_id) None
        "bulk_download" (Some (au_user_id user)) (Some (f_size (dr_file download))));;
      let base := fr_original_name fref in
      let count := default 0 (as_counts st !! base) + 1 in
      mret (mkArchiveState (<[base := count]> (as_counts st))
              (as_entries st ++ [(entry_name base count, dr_data download)]))
  end.

Definition check_archive_limits (refs : list Schema.FileReference) (total_size : Z) :
    Result unit :=
  let n := Z.of_nat (length refs) in
  if Z.eqb n 0 then Err (BadRequest "No files match the provided filters")
  else if BULK_DOWNLOAD_MAX_FILES <? n then
    Err (BadRequest ("Too many files in result set: " +:+ pretty n +:+ " (max " +:+
      pretty BULK_DOWNLOAD_MAX_FILES +:+ "). Refine your filters."))
  else if BULK_DOWNLOAD_MAX_BYTES <? total_size then
    Err (BadRequest ("Total size " +:+ pretty total_size +:+ " bytes exceeds limit " +:+
      pretty BULK_DOWNLOAD_MAX_BYTES +:+ " bytes. Refine your filters."))
  else Ok tt.

Definition archive_disposition (t : Timestamp) : string :=
  "attachment; filename=" +:+ double_quote +:+ "search-results-" +:+ archive_stamp t +:+
  ".tar.gz" +:+ double_quote.

Definition bulk_download (user : AuthenticatedUser) (project_id : Uuid)
    (body : MetadataSearchRequest) : M Download :=
  project ← Project.find_by_id project_id;
  require_project_read_access user project;;
  '(refs, total_size) ← search_all_for_filter project_id (msr_filters body) (extras body);
  lift (check_archive_limits refs total_size);;
  st ← foldM (archive_one user project_id) (mkArchiveState ∅ []) refs;
  mtime ← now_secs;
  archive_bytes ← lift (tar_gz mtime (as_entries st));
  t ← gets now;
  mret (mkDownload "application/gzip" (Some (archive_disposition t)) archive_bytes).

(** ** Bulk deletion *)

Definition no_filter : AppError := BadRequest "At least one filter is required for bulk delete".

Definition bulk_delete_preview (user : AuthenticatedUser) (project_id : Uuid)
    (filters : BulkDeleteFilters) : M BulkDeletePreview :=
  project ← Project.find_by_id project_id;
  require_project_write_access user project;;
  ensure (has_any_filter filters) no_filter;;
  FileService.bulk_delete_preview project_id filters.

Definition bulk_delete (user : AuthenticatedUser) (project_id : Uuid)
    (filters : BulkDeleteFilters) : M BulkDeleteResult :=
  project ← Project.find_by_id project_id;
  require_project_write_access user project;;
  ensure (has_any_filter filters) no_filter;;
  FileService.bulk_delete project_id filters.

(** ** Signed local links *)

Definition link_expired : AppError := Unauthorized "Download link has expired".
Definition bad_signature : AppError := Unauthorized "Invalid download link signature".

Definition is_local_copy (d : Db) (path : string) (fl : Schema.FileLocation) : bool :=
  String.eqb (fl_storage_path fl) path && is_synced fl &&
  on_storage d (λ s, st_enabled s && String.eqb (st_storage_type s) "local") fl.

Definition download_local_temp (path : string) (expires : Z) (sig : string) : M Download :=
  n ← now_secs;
  ensure (negb (expires <? n)) link_expired;;
  let expected := sign_token hmac_secret path expires in
  ensure (constant_time_eq (String.list_byte_of_string expected) (String.list_byte_of_string sig))
    bad_signature;;
  d ← gets db;
  location ← or_throw (NotFound "File not found") (sql_select_first (is_local_copy d path));
  backend ← StorageRegistry.get (fl_storage_id location);
  data ← be_download backend path;
  file ← File.find_by_id (fl_file_id location);
  ignore (FileLocation.touch_accessed (fl_id location));;
  FileAccessEvent.spawn_record (mkRecordAccessEvent (fl_file_id location) None
    (Some (fl_storage_id location)) "download" None (Some (f_size file)));;
  mret (mkDownload (f_content_type file) None data).
End handlers.
End FilesApi.

(** ** Shared links (src/src/api/shared_links.rs) *)

Record CreateSharedLinkRequest := mkCreateSharedLinkRequest {
  clr_file_id : Uuid;
  clr_password : option string;
  clr_expires_in_seconds : option Z;
  clr_max_downloads : option Z
}.

Module SharedLinksApi.
Section handlers.
Context {E : Env} (jwt_secret hmac_secret : string).

Definition to_response (link : Schema.SharedLink) : SharedLinkResponse :=
  mkSharedLinkResponse link (SharedLink.password_protected link).

Definition one_year : Z := 365 * 24 * 3600.

Definition check_request (body : CreateSharedLinkRequest) : Result unit :=
  if match clr_password body with Some pw => str_is_empty pw | None => false end then
    Err (BadRequest "Password must not be empty")
  else if match clr_expires_in_seconds body with Some s => s <=? 0 | None => false end then
    Err (BadRequest "expires_in_seconds must be positive")
  else if match clr_expires_in_seconds body with Some s => one_year <? s | None => false end then
    Err (BadRequest "expires_in_seconds must not exceed 365 days (31536000 seconds)")
  else if match clr_max_downloads body with Some m => m <=? 0 | None => false end then
    Err (BadRequest "max_downloads must be positive")
  else Ok tt.

Definition create_shared_link (user : AuthenticatedUser) (project_id : Uuid)
    (body : CreateSharedLinkRequest) : M SharedLinkResponse :=
  project ← Project.find_by_id project_id;
  require_project_write_access user project;;
  lift (check_request body);;
  t ← gets now;
  link ← SharedLinkService.create_link (mkCreateSharedLinkInput (clr_file_id body) project_id
    (au_user_id user) (au_role user) (clr_password body)
    ((λ secs, t + seconds secs) <$> clr_expires_in_seconds body) (clr_max_downloads body));
  mret (to_response link).

Definition check_project_access (user : AuthenticatedUser) (project : Schema.Project) : M unit :=
  if is_admin user || is_owner user (p_owner_id project) then mret tt
  else
    b ← UserProject.is_member (au_user_id user) (p_id project);
    ensure b (Forbidden "Access denied: not a project member").

Definition list_shared_links (user : AuthenticatedUser) (project_id : Uuid) :
    M (list SharedLinkResponse) :=
  project ← Project.find_by_id project_id;
  check_project_access user project;;
  links ← SharedLinkService.list_links project_id;
  mret (map to_response links).

Definition get_shared_link (user : AuthenticatedUser) (link_id : Uuid) : M SharedLinkResponse :=
  link ← SharedLink.find_by_id link_id;
  ensure (is_admin user || N.eqb (sl_created_by link) (au_user_id user))
    (Forbidden "Access denied: not the link creator");;
  mret (to_response link).

Definition deactivate_shared_link (user : AuthenticatedUser) (link_id : Uuid) :
    M SharedLinkResponse :=
  link ← SharedLinkService.deactivate_link link_id (au_user_id user) (au_role user);
  mret (to_response link).

Definition public_link_info (token : string) : M SharedLinkInfo :=
  SharedLinkService.get_link_info token.
Definition public_verify_password (token password : string) : M string :=
  SharedLinkService.verify_password jwt_secret token password.

Definition public_download (token : string) (dl_token : option string) : M Download :=
  result ← SharedLinkService.download_via_link jwt_secret hmac_secret token dl_token;
  FileAccessEvent.spawn_record (mkRecordAccessEvent (sld_file_id result)
    (Some (sld_project_id result)) (Some (sld_storage_id result)) "shared_link_download" None
    (Some (sld_file_size result)));;
  mret (mkDownload (sld_content_type result) (Some (content_disposition (sld_file_name result)))
          (sld_data result)).
End handlers.
End SharedLinksApi.
