(* ===== verification/ApiBackups.v ===== *)
(** * The backup handlers (src/src/api/backups.rs)

    Configurations and history of backups, and the manual trigger: its answer
    ([trigger_backup]) and the task it leaves running ([run_triggered]). *)

From S2P Require Import Prelude Json Schema Env World Tables Laws Storages SyncTasks Backups.
From S2P Require Import BackupService Auth.

Record TriggerBackupRequest := mkTriggerBackupRequest {
  tbr_config_id : option Uuid;
  tbr_storage_id : option Uuid;
  tbr_storage_path : option string
}.

Record BackupHistoryResponse := mkBackupHistoryResponse {
  bhr_records : list BackupRecord;
  bhr_page : Z;
  bhr_per_page : Z;
  bhr_total : Z;
  bhr_total_pages : Z
}.

Record BackupHistoryFilter := mkBackupHistoryFilter {
  bhf_config_id : option Uuid;
  bhf_page : option Z;
  bhf_per_page : option Z
}.

Module BackupsApi.
Section handlers.
Context {E : Env} (s : Dumper) (stamp : Timestamp → string).

(** [if let Some(x) = o { check(x)?; }]. *)
Definition when_some {A} (o : option A) (check : A → Result unit) : Result unit :=
  match o with Some a => check a | None => Ok tt end.

Definition at_most (n : nat) (msg : string) (s : string) : Result unit :=
  if Nat.ltb n (String.length s) then Err (BadRequest msg) else Ok tt.

Definition check_name : string → Result unit := at_most 255 "name must be at most 255 characters".
Definition check_cron : string → Result unit :=
  at_most 100 "schedule_cron must be at most 100 characters".
Definition check_path : string → Result unit :=
  at_most 1024 "storage_path must be at most 1024 characters".
Definition check_retention (count : Z) : Result unit :=
  if count <? 1 then Err (BadRequest "retention_count must be at least 1") else Ok tt.

Definition disabled_storage : AppError :=
  BadRequest "Storage is disabled. Enable it before assigning to a backup config.".
Definition check_storage (storage_id : Uuid) : M unit :=
  storage ← Storage.find_by_id storage_id; ensure (st_enabled storage) disabled_storage.

(** A configuration with the name of its storage, if that still exists. *)
Definition list_backup_configs (_admin : AdminUser) :
    M (list (Schema.BackupConfig * option string)) :=
  configs ← BackupConfig.list;
  foldM (λ acc config,
    s ← ok (Storage.find_by_id (bc_storage_id config));
    mret (acc ++ [(config, st_name <$> s)])) [] configs.

Definition create_backup_config (_admin : AdminUser) (body : CreateBackupConfig) :
    M Schema.BackupConfig :=
  lift (check_name (cbc_name body));;
  lift (check_cron (cbc_schedule_cron body));;
  lift (when_some (cbc_storage_path body) check_path);;
  lift (BackupService.validate_cron (cbc_schedule_cron body));;
  lift (when_some (cbc_storage_path body) BackupService.validate_storage_path);;
  lift (when_some (cbc_retention_count body) check_retention);;
  check_storage (cbc_storage_id body);;
  BackupConfig.create body.

Definition update_backup_config (_admin : AdminUser) (config_id : Uuid)
    (body : UpdateBackupConfig) : M Schema.BackupConfig :=
  lift (when_some (ubc_name body) check_name);;
  lift (when_some (ubc_schedule_cron body) check_cron);;
  lift (when_some (ubc_storage_path body) check_path);;
  lift (when_some (ubc_schedule_cron body) BackupService.validate_cron);;
  lift (when_some (ubc_storage_path body) BackupService.validate_storage_path);;
  lift (when_some (ubc_retention_count body) check_retention);;
  match ubc_storage_id body with
  | Some storage_id => check_storage storage_id
  | None => mret tt
  end;;
  BackupConfig.update config_id body.

Definition delete_backup_config (_admin : AdminUser) (config_id : Uuid)
    (delete_backups : option bool) : M unit :=
  _ ← BackupConfig.find_by_id config_id;
  (if default false delete_backups then
     BackupService.delete_all_backups_for_config config_id ≫= λ _, mret tt
   else mret tt);;
  BackupConfig.delete config_id.

Definition list_backups (_admin : AdminUser) (q : BackupHistoryFilter) : M BackupHistoryResponse :=
  let lim := clamp (default 50 (bhf_per_page q)) 1 500 in
  let page := Z.max (default 1 (bhf_page q)) 1 in
  let off := saturating_mul (saturating_sub page 1) lim in
  total ← BackupRecord.count (bhf_config_id q);
  records ← BackupRecord.list (bhf_config_id q) lim off;
  mret (mkBackupHistoryResponse records page lim total (Z.quot (total + lim - 1) lim)).

Definition nothing_to_back_up : AppError :=
  BadRequest "Either config_id or storage_id must be provided".
Definition already_running : AppError := BadRequest "A backup is already running for this config".

(** What to back up, where to. *)
Definition trigger_settings (body : TriggerBackupRequest) :
    M (option Uuid * option string * Uuid * string) :=
  match tbr_config_id body, tbr_storage_id body with
  | Some cfg_id, _ =>
      config ← BackupConfig.find_by_id cfg_id;
      mret (Some cfg_id, Some (bc_name config), bc_storage_id config, bc_storage_path config)
  | None, Some sid =>
      _ ← Storage.find_by_id sid;
      mret (None, None, sid, default "" (tbr_storage_path body))
  | None, None => throw nothing_to_back_up
  end.

Definition trigger_backup (_admin : AdminUser) (body : TriggerBackupRequest) :
    M Schema.BackupRecord :=
  '(config_id, config_name, storage_id, storage_path) ← trigger_settings body;
  lift (BackupService.validate_storage_path storage_path);;
  BackupService.validate_storage_available storage_id;;
  match config_id with
  | Some cfg_id =>
      BackupRecord.mark_stale_running_as_failed cfg_id 3600 ≫= λ _, mret tt
  | None => mret tt
  end;;
  match config_id with
  | Some cfg_id =>
      running ← BackupRecord.has_running_by_config cfg_id;
      ensure (negb running) already_running
  | None => mret tt
  end;;
  filename ← BackupService.generate_backup_filename stamp;
  BackupRecord.create (mkCreateBackupRecord config_id config_name storage_id
    (BackupService.build_upload_path storage_path filename)).

Definition skipped_message : string :=
  "Skipped: another backup for this config is already in progress".

(** The background task of a triggered backup; a failure to reach the database
    for the advisory lock is not modelled. *)
Definition run_triggered (config_id : option Uuid) (record : Schema.BackupRecord) : M unit :=
  locked ← gets (λ w, match config_id with
                      | Some cfg_id => bool_decide (lock_key cfg_id ∉ other_locks w)
                      | None => true
                      end);
  if negb locked then ignore (BackupRecord.mark_failed (br_id record) skipped_message)
  else
    try_with (BackupService.execute_backup_and_update s (br_id record) (br_file_path record)
                (br_storage_id record))
      (λ _,
        match config_id with
        | Some cfg_id =>
            o ← ok (BackupConfig.find_by_id cfg_id);
            match o with
            | Some config =>
                ignore (BackupService.cleanup_old_backups cfg_id (bc_retention_count config))
            | None => mret tt
            end
        | None => mret tt
        end)
      (λ _, mret tt).

Definition delete_backup (_admin : AdminUser) (backup_id : Uuid) : M unit :=
  BackupService.delete_backup backup_id.
End handlers.
End BackupsApi.
