(* ===== verification/Dashboard.v ===== *)
(** * The administrator's dashboard

    [DashboardStats] of src/src/db/models.rs, and the handler of
    src/src/api/dashboard.rs. PostgreSQL's [date_trunc(bucket, t)::date] is the
    parameter [trunc], a day number. *)

From S2P Require Import Prelude Json Schema Env World Tables Laws Search TierService SyncTasks Auth.

(** ** Rows of the answer *)

Record TimelinePoint := mkTimelinePoint { tp_date : Z; tp_count : Z; tp_size : Z }.
Record AccessTimelinePoint := mkAccessTimelinePoint {
  atp_date : Z; atp_count : Z; atp_bytes : Z
}.
Record ContentTypeBreakdown := mkContentTypeBreakdown {
  ctb_content_type : string; ctb_count : Z; ctb_size : Z
}.
Record StorageBreakdown := mkStorageBreakdown {
  sb_storage_id : Uuid; sb_name : string; sb_count : Z; sb_size : Z
}.
Record SyncStatusPoint := mkSyncStatusPoint {
  ssp_date : Z; ssp_completed : Z; ssp_failed : Z; ssp_pending : Z
}.
Record TopAccessedFile := mkTopAccessedFile {
  taf_file_id : Uuid;
  taf_original_name : string;
  taf_content_type : string;
  taf_access_count : Z;
  taf_last_accessed : Timestamp
}.
Record DashboardTotals := mkDashboardTotals {
  dt_files : Z;
  dt_bytes : Z;
  dt_uploads_in_period : Z;
  dt_bytes_uploaded_in_period : Z;
  dt_accesses_in_period : Z;
  dt_bytes_accessed_in_period : Z;
  dt_pending_syncs : Z;
  dt_failed_syncs_in_period : Z;
  dt_failed_syncs_total : Z;
  dt_synced_in_24h : Z
}.
Record DashboardFilter := mkDashboardFilter {
  df_start : Timestamp;
  df_project_id : option Uuid;
  df_storage_id : option Uuid
}.
Record DashboardQuery := mkDashboardQuery {
  dq_period : option string;
  dq_project_id : option Uuid;
  dq_storage_id : option Uuid
}.
Record DashboardResponse := mkDashboardResponse {
  dr_period : string;
  dr_start : Timestamp;
  dr_bucket : string;
  dr_totals : DashboardTotals;
  dr_upload_timeline : list TimelinePoint;
  dr_access_timeline : list AccessTimelinePoint;
  dr_by_content_type : list ContentTypeBreakdown;
  dr_by_storage : list StorageBreakdown;
  dr_sync_status_trend : list SyncStatusPoint;
  dr_top_accessed_files : list TopAccessedFile
}.

(** [GROUP BY key]: each key with its rows. *)
Definition group_by {A K} `{EqDecision K} (key : A → K) (l : list A) : list (K * list A) :=
  map (λ k, (k, filter (λ x, key x = k) l)) (remove_dups (map key l)).

Definition count {A} (l : list A) : Z := Z.of_nat (length l).

(** [MAX(t)] of a group. *)
Definition max_time (l : list Timestamp) : Timestamp :=
  match l with t :: l' => foldr Z.max t l' | [] => 0 end.

(** [$n::uuid IS NULL OR column = $n], of a column without and with nulls. *)
Definition opt_is (o : option Uuid) (id : Uuid) : bool :=
  match o with Some i => N.eqb id i | None => true end.
Definition opt_is_null (o : option Uuid) (id : option Uuid) : bool :=
  match o with Some i => option_uuid_eqb id (Some i) | None => true end.

Module DashboardStats.
Section stats.
Context {E : Env} (trunc : string → Timestamp → Z).
Implicit Types (f : DashboardFilter) (d : Db).

(** ** Conditions *)

Definition ref_in_period f (fr : FileReference) : bool :=
  (df_start f <=? fr_created_at fr) && opt_is (df_project_id f) (fr_project_id fr).

Definition on_selected d f (P : FileLocation → bool) (file_id : Uuid) : bool :=
  match df_storage_id f with
  | Some sid => exists_row (λ fl, N.eqb (fl_file_id fl) file_id && N.eqb (fl_storage_id fl) sid && P fl)
                  (file_locations d)
  | None => true
  end.

Definition referenced_in_period d f (file_id : Uuid) : bool :=
  exists_row (λ fr, N.eqb (fr_file_id fr) file_id && ref_in_period f fr) (file_references d).

(** The files of the totals and of the content types. *)
Definition counted_file d f (file : File) : bool :=
  referenced_in_period d f (f_id file) && on_selected d f is_synced (f_id file).

(** The joined rows of the uploads of the period. *)
Definition uploads d f : list (FileReference * File) :=
  omap (λ fr, file ← files d !! fr_file_id fr; Some (fr, file))
    (select_in (λ fr, ref_in_period f fr && on_selected d f (λ _, true) (fr_file_id fr)) d).

Definition event_in_period f (ev : FileAccessEvent) : bool :=
  (df_start f <=? ev_created_at ev) && opt_is_null (df_project_id f) (ev_project_id ev) &&
  opt_is_null (df_storage_id f) (ev_storage_id ev).
Definition event_bytes (ev : FileAccessEvent) : Z := default 0 (ev_bytes ev).

Definition task_selected f (tk : SyncTask) : bool :=
  opt_is_null (df_project_id f) (tk_project_id tk) &&
  match df_storage_id f with
  | Some sid => N.eqb (tk_source_storage_id tk) sid || N.eqb (tk_target_storage_id tk) sid
  | None => true
  end.

(** ** Queries *)

Definition count_tasks (P : SyncTask → bool) : M Z := l ← sql_select P; mret (count l).

Definition totals f : M DashboardTotals :=
  d ← gets db;
  let fls := select_in (counted_file d f) d in
  bytes ← lift (bigint (sum_z f_size fls));
  d ← gets db;
  let ups := remove_dups (map (λ r : FileReference * File, (f_id r.2, f_size r.2)) (uploads d f)) in
  uploaded_bytes ← lift (bigint (sum_z snd ups));
  evs ← sql_select (event_in_period f);
  accessed_bytes ← lift (bigint (sum_z event_bytes evs));
  pending ← count_tasks (λ tk, has_status "pending" tk && task_selected f tk);
  failed_in_period ← count_tasks (λ tk, has_status "failed" tk &&
    (df_start f <=? tk_created_at tk) && task_selected f tk);
  failed_total ← count_tasks (λ tk, has_status "failed" tk && task_selected f tk);
  t ← gets now;
  synced_in_24h ← count_tasks (λ tk, has_status "completed" tk &&
    (t - days 1 <=? tk_updated_at tk) && task_selected f tk);
  mret (mkDashboardTotals (count fls) bytes (count ups) uploaded_bytes (count evs) accessed_bytes
    pending failed_in_period failed_total synced_in_24h).

(** A sum of each group, as a [bigint]. *)
Definition sums {A B K} (g : K → list A → Result B) (l : list (K * list A)) : Result (list B) :=
  foldr (λ kv acc, b ← g kv.1 kv.2; bs ← acc; Ok (b :: bs)) (Ok []) l.

Definition upload_timeline f (bucket : string) : M (list TimelinePoint) :=
  d ← gets db;
  let rows := remove_dups (map (λ r : FileReference * File,
    (trunc bucket (fr_created_at r.1), f_id r.2, f_size r.2)) (uploads d f)) in
  points ← lift (sums (λ date l,
    size ← bigint (sum_z snd l); Ok (mkTimelinePoint date (count l) size))
    (group_by (λ r : Z * Uuid * Z, r.1.1) rows));
  mret (order_by (asc tp_date) points).

Definition access_timeline f (bucket : string) : M (list AccessTimelinePoint) :=
  evs ← sql_select (event_in_period f);
  points ← lift (sums (λ date l,
    size ← bigint (sum_z event_bytes l); Ok (mkAccessTimelinePoint date (count l) size))
    (group_by (λ ev, trunc bucket (ev_created_at ev)) evs));
  mret (order_by (asc atp_date) points).

Definition by_content_type f (top_n : Z) : M (list ContentTypeBreakdown) :=
  d ← gets db;
  fls ← sql_select (counted_file d f);
  groups ← lift (sums (λ ct l,
    size ← bigint (sum_z f_size l); Ok (mkContentTypeBreakdown ct (count l) size))
    (group_by f_content_type fls));
  mret (limit top_n (order_by (desc ctb_size) groups)).

(** The distinct copies of the left join: storage, file and size. *)
Definition synced_copies d f : list (Uuid * Uuid * Z) :=
  remove_dups (omap (λ fl, file ← files d !! fl_file_id fl;
                           Some (fl_storage_id fl, fl_file_id fl, f_size file))
    (select_in (λ fl, is_synced fl && referenced_in_period d f (fl_file_id fl)) d)).

Definition by_storage f : M (list StorageBreakdown) :=
  d ← gets db;
  ss ← sql_select (λ s, opt_is (df_storage_id f) (st_id s));
  groups ← lift (sums (λ s (l : list (Uuid * Uuid * Z)),
    size ← bigint (sum_z snd l); Ok (mkStorageBreakdown (st_id s) (st_name s) (count l) size))
    (map (λ s, (s, filter (λ c, c.1.1 = st_id s) (synced_copies d f))) ss));
  mret (order_by (desc sb_size) groups).

Definition status_count (s : string) (l : list SyncTask) : Z :=
  sum_z (λ tk, if has_status s tk then 1 else 0) l.

Definition sync_status_trend f (bucket : string) : M (list SyncStatusPoint) :=
  tks ← sql_select (λ tk, (df_start f <=? tk_created_at tk) && task_selected f tk);
  mret (order_by (asc ssp_date)
    (map (λ g : Z * list SyncTask, mkSyncStatusPoint g.1 (status_count "completed" g.2)
            (status_count "failed" g.2) (status_count "pending" g.2))
      (group_by (λ tk, trunc bucket (tk_created_at tk)) tks))).

(** The name a file was last given, in the selected project if any. *)
Definition latest_name d f (file_id : Uuid) : string :=
  default "" (fr_original_name <$> list.head (order_by (desc fr_created_at)
    (select_in (λ fr, N.eqb (fr_file_id fr) file_id && opt_is (df_project_id f) (fr_project_id fr)) d))).

Definition top_accessed_files f (top_n : Z) : M (list TopAccessedFile) :=
  d ← gets db;
  evs ← sql_select (event_in_period f);
  let agg := limit top_n (order_by (desc (λ g : Uuid * list FileAccessEvent, count g.2))
               (group_by ev_file_id evs)) in
  mret (order_by (desc taf_access_count)
    (omap (λ g : Uuid * list FileAccessEvent,
       file ← files d !! g.1;
       Some (mkTopAccessedFile g.1 (latest_name d f g.1) (f_content_type file) (count g.2)
               (max_time (map ev_created_at g.2)))) agg)).
End stats.
End DashboardStats.

Module DashboardApi.
Section handler.
Context {E : Env} (trunc : string → Timestamp → Z).

Definition TOP_N : Z := 10.

(** The start, the bucket and the canonical label of a period. *)
Definition resolve_period (label : string) (t : Timestamp) : Timestamp * string * string :=
  match label with
  | "today" => (t / days 1 * days 1, "day", "today")
  | "7d" => (t - days 7, "day", "7d")
  | "90d" => (t - days 90, "day", "90d")
  | "1y" => (t - days 365, "week", "1y")
  | "all" => (0, "month", "all")
  | _ => (t - days 30, "day", "30d")
  end%string.

Definition dashboard (_admin : AdminUser) (query : DashboardQuery) : M DashboardResponse :=
  t ← gets now;
  let '(start, bucket, period_out) := resolve_period (default "30d" (dq_period query)) t in
  let filter := mkDashboardFilter start (dq_project_id query) (dq_storage_id query) in
  totals ← DashboardStats.totals filter;
  upload_timeline ← DashboardStats.upload_timeline trunc filter bucket;
  access_timeline ← DashboardStats.access_timeline trunc filter bucket;
  by_content_type ← DashboardStats.by_content_type filter TOP_N;
  by_storage ← DashboardStats.by_storage filter;
  sync_status_trend ← DashboardStats.sync_status_trend trunc filter bucket;
  top_accessed_files ← DashboardStats.top_accessed_files filter TOP_N;
  mret (mkDashboardResponse period_out start bucket totals upload_timeline access_timeline
    by_content_type by_storage sync_status_trend top_accessed_files).
End handler.
End DashboardApi.
