(* ===== verification/ApiBulk.v ===== *)
(** * The bulk handlers (src/src/api/bulk.rs)

    Synchronise-all and exports, for administrators. The jobs of [BulkService]
    are passed from request to request; the task an export spawns is
    [BulkService.run_export], to be run at any later moment. *)

From S2P Require Import Prelude Json Schema Env World BulkService Auth.

Record ExportStarted := mkExportStarted { es_job_id : Uuid; es_message : string }.
Record ExportStatusQuery := mkExportStatusQuery { eq_job_id : Uuid }.

(** A response with a body that is not JSON. *)
Record Attachment := mkAttachment {
  at_content_type : string;
  at_disposition : string;
  at_body : bytes
}.

Module BulkApi.
Section handlers.
Context {E : Env}.

Definition sync_all (_admin : AdminUser) (storage_id : Uuid) : M SyncAllResult :=
  BulkService.sync_all storage_id.

Definition start_export (_admin : AdminUser) (storage_id : Uuid) (st : ExportStore) :
    M (ExportStarted * ExportStore) :=
  '(job_id, st') ← BulkService.start_export storage_id st;
  mret (mkExportStarted job_id "Export started", st').

Definition export_status (_admin : AdminUser) (query : ExportStatusQuery) (st : ExportStore) :
    M ExportJobStatus := lift (BulkService.get_export_status (eq_job_id query) st).

Definition attachment_of (filename : string) : string :=
  let quote := String (Ascii.ascii_of_nat 34) EmptyString in
  "attachment; filename=" +:+ quote +:+ filename +:+ quote.

Definition export_download (_admin : AdminUser) (query : ExportStatusQuery) (st : ExportStore) :
    M (Attachment * ExportStore) :=
  '(data, st') ← lift (BulkService.get_export_data (eq_job_id query) st);
  mret (mkAttachment "application/gzip" (attachment_of "export.tar.gz") data, st').
End handlers.
End BulkApi.
