(* ===== verification/Config.v ===== *)
(** * The configuration (src/src/config.rs)

    The settings of the server, their defaults, and how they are read: from a
    file and the environment, merged by the [config] crate into one table, each
    setting that is absent replaced by its default. The crate and its
    conversions (an environment variable is text) are the parameter
    [ConfigCrate]; an error is its text. *)

From S2P Require Import Prelude Text Json Env.

#[export] Instance sum_ret {Er} : MRet (sum Er) := λ A a, inr a.
#[export] Instance sum_bind {Er} : MBind (sum Er) := λ A B k m,
  match m with inl e => inl e | inr a => k a end.

Module Config.

(** ** Settings *)

Record ServerConfig := mkServerConfig { host : string; port : Z }.
Record DatabaseConfig := mkDatabaseConfig { url : string; max_connections : Z }.
Record StorageConfig := mkStorageConfig { local_temp_path : string; hmac_secret : string }.
Record AuthConfig := mkAuthConfig {
  jwt_secret : string;
  access_token_ttl_secs : Z;
  refresh_token_ttl_secs : Z;
  default_admin_username : string;
  default_admin_password : string
}.
Record SyncConfig := mkSyncConfig {
  num_workers : Z;
  max_retries : Z;
  poll_interval_secs : Z;
  tier_scan_interval_secs : Z
}.
Record BackupWorkerConfig := mkBackupWorkerConfig {
  enabled : bool;
  check_interval_secs : Z;
  temp_dir : string
}.
Record UploadConfig := mkUploadConfig {
  chunk_size : Z;
  session_ttl_secs : Z;
  max_file_size : Z;
  cleanup_interval_secs : Z
}.
Record DashboardConfig := mkDashboardConfig { events_retention_days : Z }.

Record AppConfig := mkAppConfig {
  server : ServerConfig;
  database : DatabaseConfig;
  storage : StorageConfig;
  sync : SyncConfig;
  auth : AuthConfig;
  backup : BackupWorkerConfig;
  upload : UploadConfig;
  dashboard : DashboardConfig
}.

(** ** Defaults *)

Definition default_host : string := "0.0.0.0".
Definition default_port : Z := 8080.
Definition default_database_url : string := "postgres://localhost:5432/innovare_storage".
Definition default_max_connections : Z := 10.
Definition default_local_temp_path : string := "./data/temp".
Definition default_hmac_secret : string := "change-me-in-production".
Definition default_num_workers : Z := 4.
Definition default_max_retries : Z := 5.
Definition default_poll_interval_secs : Z := 5.
Definition default_tier_scan_interval_secs : Z := 300.
Definition default_jwt_secret : string := "change-me-jwt-secret-in-production".
Definition default_access_token_ttl_secs : Z := 900.
Definition default_refresh_token_ttl_secs : Z := 604800.
Definition default_admin_username_value : string := "admin".
Definition default_admin_password_value : string := "Innovare2026!".
Definition default_backup_enabled : bool := true.
Definition default_backup_check_interval_secs : Z := 60.
Definition default_backup_temp_dir : string := EmptyString.
Definition default_upload_chunk_size : Z := 48 * 1024 * 1024.
Definition default_upload_session_ttl_secs : Z := 86400.
Definition default_upload_max_file_size : Z := 0.
Definition default_upload_cleanup_interval_secs : Z := 3600.
Definition default_dashboard_events_retention_days : Z := 365.

Definition default_server : ServerConfig := mkServerConfig default_host default_port.
Definition default_database : DatabaseConfig :=
  mkDatabaseConfig default_database_url default_max_connections.
Definition default_storage : StorageConfig :=
  mkStorageConfig default_local_temp_path default_hmac_secret.
Definition default_sync : SyncConfig :=
  mkSyncConfig default_num_workers default_max_retries default_poll_interval_secs
    default_tier_scan_interval_secs.
Definition default_auth : AuthConfig :=
  mkAuthConfig default_jwt_secret default_access_token_ttl_secs default_refresh_token_ttl_secs
    default_admin_username_value default_admin_password_value.
Definition default_backup : BackupWorkerConfig :=
  mkBackupWorkerConfig default_backup_enabled default_backup_check_interval_secs
    default_backup_temp_dir.
Definition default_upload : UploadConfig :=
  mkUploadConfig default_upload_chunk_size default_upload_session_ttl_secs
    default_upload_max_file_size default_upload_cleanup_interval_secs.
Definition default_dashboard : DashboardConfig :=
  mkDashboardConfig default_dashboard_events_retention_days.
Definition default_config : AppConfig :=
  mkAppConfig default_server default_database default_storage default_sync default_auth
    default_backup default_upload default_dashboard.

(** ** Reading *)

Class ConfigCrate := {
  Table : Type;
  (** The file of a name (none is an empty table), with the environment over it. *)
  config_build : string → string + Table;
  (** A key of a table: absent, of the type asked for, or in error. An integer
      is converted to the range of its type. *)
  cfg_section : Table → string → string + option Table;
  cfg_string : Table → string → string + option string;
  cfg_integer : Z → Z → Table → string → string + option Z;
  cfg_bool : Table → string → string + option bool
}.

Section read.
Context {C : ConfigCrate}.

(** [#[serde(default = ...)]]. *)
Definition or_default {A} (r : string + option A) (d : A) : string + A :=
  o ← r; mret (default d o).
Definition section {A} (t : Table) (key : string) (d : A) (read : Table → string + A) :
    string + A :=
  o ← cfg_section t key;
  match o with Some t' => read t' | None => mret d end.

Definition cfg_u16 : Table → string → string + option Z := cfg_integer 0 (2 ^ 16 - 1).
Definition cfg_u32 : Table → string → string + option Z := cfg_integer 0 (2 ^ 32 - 1).
Definition cfg_u64 : Table → string → string + option Z := cfg_integer 0 (2 ^ 64 - 1).
Definition cfg_i32 : Table → string → string + option Z :=
  cfg_integer (- 2 ^ 31) (2 ^ 31 - 1).

Definition read_server (t : Table) : string + ServerConfig :=
  h ← or_default (cfg_string t "host") default_host;
  p ← or_default (cfg_u16 t "port") default_port;
  mret (mkServerConfig h p).
Definition read_database (t : Table) : string + DatabaseConfig :=
  u ← or_default (cfg_string t "url") default_database_url;
  n ← or_default (cfg_u32 t "max_connections") default_max_connections;
  mret (mkDatabaseConfig u n).
Definition read_storage (t : Table) : string + StorageConfig :=
  p ← or_default (cfg_string t "local_temp_path") default_local_temp_path;
  s ← or_default (cfg_string t "hmac_secret") default_hmac_secret;
  mret (mkStorageConfig p s).
Definition read_sync (t : Table) : string + SyncConfig :=
  n ← or_default (cfg_u64 t "num_workers") default_num_workers;
  r ← or_default (cfg_i32 t "max_retries") default_max_retries;
  p ← or_default (cfg_u64 t "poll_interval_secs") default_poll_interval_secs;
  s ← or_default (cfg_u64 t "tier_scan_interval_secs") default_tier_scan_interval_secs;
  mret (mkSyncConfig n r p s).
Definition read_auth (t : Table) : string + AuthConfig :=
  s ← or_default (cfg_string t "jwt_secret") default_jwt_secret;
  a ← or_default (cfg_u64 t "access_token_ttl_secs") default_access_token_ttl_secs;
  r ← or_default (cfg_u64 t "refresh_token_ttl_secs") default_refresh_token_ttl_secs;
  u ← or_default (cfg_string t "default_admin_username") default_admin_username_value;
  p ← or_default (cfg_string t "default_admin_password") default_admin_password_value;
  mret (mkAuthConfig s a r u p).
Definition read_backup (t : Table) : string + BackupWorkerConfig :=
  e ← or_default (cfg_bool t "enabled") default_backup_enabled;
  n ← or_default (cfg_u64 t "check_interval_secs") default_backup_check_interval_secs;
  d ← or_default (cfg_string t "temp_dir") default_backup_temp_dir;
  mret (mkBackupWorkerConfig e n d).
Definition read_upload (t : Table) : string + UploadConfig :=
  c ← or_default (cfg_u64 t "chunk_size") default_upload_chunk_size;
  s ← or_default (cfg_u64 t "session_ttl_secs") default_upload_session_ttl_secs;
  m ← or_default (cfg_u64 t "max_file_size") default_upload_max_file_size;
  n ← or_default (cfg_u64 t "cleanup_interval_secs") default_upload_cleanup_interval_secs;
  mret (mkUploadConfig c s m n).
Definition read_dashboard (t : Table) : string + DashboardConfig :=
  n ← or_default (cfg_u32 t "events_retention_days") default_dashboard_events_retention_days;
  mret (mkDashboardConfig n).

Definition try_deserialize (t : Table) : string + AppConfig :=
  se ← section t "server" default_server read_server;
  da ← section t "database" default_database read_database;
  st ← section t "storage" default_storage read_storage;
  sy ← section t "sync" default_sync read_sync;
  au ← section t "auth" default_auth read_auth;
  ba ← section t "backup" default_backup read_backup;
  up ← section t "upload" default_upload read_upload;
  ds ← section t "dashboard" default_dashboard read_dashboard;
  mret (mkAppConfig se da st sy au ba up ds).

Definition load_from (path : string) : string + AppConfig :=
  t ← config_build path; try_deserialize t.
Definition load : string + AppConfig := load_from "config/default".
End read.

(** ** Writing

    What serde writes: the fields marked [skip_serializing] are left out. *)

Definition json_z (z : Z) : Json :=
  JNumber (if 0 <=? z then PosInt (Z.to_N z) else NegInt z).

Definition server_json (c : ServerConfig) : Json :=
  JObject [("host", JString (host c)); ("port", json_z (port c))].
Definition database_json (c : DatabaseConfig) : Json :=
  JObject [("url", JString (url c)); ("max_connections", json_z (max_connections c))].
Definition storage_json (c : StorageConfig) : Json :=
  JObject [("local_temp_path", JString (local_temp_path c))].
Definition auth_json (c : AuthConfig) : Json :=
  JObject [("access_token_ttl_secs", json_z (access_token_ttl_secs c));
           ("refresh_token_ttl_secs", json_z (refresh_token_ttl_secs c));
           ("default_admin_username", JString (default_admin_username c))].
Definition sync_json (c : SyncConfig) : Json :=
  JObject [("num_workers", json_z (num_workers c)); ("max_retries", json_z (max_retries c));
           ("poll_interval_secs", json_z (poll_interval_secs c));
           ("tier_scan_interval_secs", json_z (tier_scan_interval_secs c))].
Definition backup_json (c : BackupWorkerConfig) : Json :=
  JObject [("enabled", JBool (enabled c)); ("check_interval_secs", json_z (check_interval_secs c));
           ("temp_dir", JString (temp_dir c))].
Definition upload_json (c : UploadConfig) : Json :=
  JObject [("chunk_size", json_z (chunk_size c)); ("session_ttl_secs", json_z (session_ttl_secs c));
           ("max_file_size", json_z (max_file_size c));
           ("cleanup_interval_secs", json_z (cleanup_interval_secs c))].
Definition dashboard_json (c : DashboardConfig) : Json :=
  JObject [("events_retention_days", json_z (events_retention_days c))].
Definition app_config_json (c : AppConfig) : Json :=
  JObject [("server", server_json (server c)); ("database", database_json (database c));
           ("storage", storage_json (storage c)); ("sync", sync_json (sync c));
           ("auth", auth_json (auth c)); ("backup", backup_json (backup c));
           ("upload", upload_json (upload c)); ("dashboard", dashboard_json (dashboard c))].

(** [safe_config.database.url = ...]. *)
Definition set_url (u : string) (c : AppConfig) : AppConfig :=
  mkAppConfig (server c) (mkDatabaseConfig u (max_connections (database c))) (storage c) (sync c)
    (auth c) (backup c) (upload c) (dashboard c).
End Config.
