(* ===== verification/Server.v ===== *)
(** * Start-up and background rounds (src/src/main.rs, src/src/lib.rs)

    What [main] does before it serves: the configuration, the registry, the
    first administrator, the registration of the node; and what it spawns: the
    rounds of the workers with the settings they are given, and the heartbeat. *)

From S2P Require Import Prelude Text Json Schema Env World Tables Laws Projects LocalDisk Registry.
From S2P Require Import Storages Links Users Backups TierService BackupService SyncWorker Auth.
From S2P Require Import Uploads ApiProjects Config.

Module Server.

(** [AppConfig::load().unwrap_or_else(... load_from("__nonexistent__").expect(...))]. *)
Definition load_config {C : Config.ConfigCrate} : Result Config.AppConfig :=
  match Config.load with
  | inr config => Ok config
  | inl _ =>
      match Config.load_from "__nonexistent__" with
      | inr config => Ok config
      | inl _ => Panic
      end
  end.

Section server.
Context {E : Env} (config : Config.AppConfig).

(** [AuthService::new], [UploadSettings] of the handlers, the temporary
    directory of backups. *)
Definition auth_config : AuthConfig :=
  mkAuthConfig (Config.jwt_secret (Config.auth config))
    (Config.access_token_ttl_secs (Config.auth config))
    (Config.refresh_token_ttl_secs (Config.auth config)).
Definition upload_settings : UploadSettings :=
  mkUploadSettings (Config.max_file_size (Config.upload config))
    (Config.session_ttl_secs (Config.upload config))
    (Config.local_temp_path (Config.storage config)).
Definition backup_temp_dir : option string :=
  let dir := Config.temp_dir (Config.backup config) in
  if str_is_empty dir then None else Some dir.
Definition secret : string := Config.hmac_secret (Config.storage config).

(** [.expect(...)]. *)
Definition expect {A} (m : M A) : M A := try_with m mret (λ _, lift Panic).

(** The administrator of an empty database. *)
Definition create_default_admin : M unit :=
  user_count ← expect User.count;
  if Z.eqb user_count 0 then
    password_hash ← expect
      (AuthService.hash_password (Config.default_admin_password (Config.auth config)));
    _ ← expect (User.create (mkCreateUser (Config.default_admin_username (Config.auth config))
                  password_hash "admin"));
    mret tt
  else mret tt.

Definition node_id_of (id : Uuid) : string :=
  "node-" +:+ default "unknown" (head (str_split "-"%char (uuid_str id))).
Definition node_address : string :=
  Config.host (Config.server config) +:+ ":" +:+ pretty (Config.port (Config.server config)).

Definition register_node : M string :=
  id ← new_uuid;
  ignore (Node.register (node_id_of id) node_address);;
  mret (node_id_of id).

(** From the connected database on; the outcome is the identifier of the node. *)
Definition start : M string :=
  modify (set_backends ∅);;
  ignore (load_backends_from_db secret);;
  create_default_admin;;
  register_node.

(** ** Rounds *)

(** A tick of [spawn_heartbeat], every thirty seconds. *)
Definition heartbeat (node_id : string) : M unit :=
  ignore (Node.heartbeat node_id);;
  ignore RefreshToken.delete_expired.

Definition sync_round (os_temp_dir : string) : M bool :=
  SyncWorker.poll_and_process secret os_temp_dir (Config.max_retries (Config.sync config)).

Definition cleanup_round : M unit :=
  UploadCleanupWorker.sweep
    (path_join (Config.local_temp_path (Config.storage config)) "uploads")
    (UploadCleanupWorker.new_ttl (Config.session_ttl_secs (Config.upload config)))
    (UploadCleanupWorker.new_retention
       (Config.events_retention_days (Config.dashboard config))).

(** The pause between two sweeps: at least a minute. *)
Definition cleanup_interval : Z :=
  seconds (Z.max (Config.cleanup_interval_secs (Config.upload config)) 60).

(** ** Handlers that read the configuration *)

(** [OPTIONS] of a resumable upload (src/src/api/uploads.rs): the headers. *)
Definition TUS_VERSION : string := "1.0.0".
Definition options : list (string * string) :=
  [("Tus-Resumable", TUS_VERSION); ("Tus-Version", TUS_VERSION);
   ("Tus-Extension", "creation,termination")] ++
  (if 0 <? Config.max_file_size (Config.upload config)
   then [("Tus-Max-Size", pretty (Config.max_file_size (Config.upload config)))] else []).

(** [GET /health]. *)
Definition health_check : Json :=
  JObject [("status", JString "ok"); ("service", JString "innovare-storage")].

Record ConfigExport := mkConfigExport {
  ce_config : Json;
  ce_projects : list Schema.Project;
  ce_storages : list Schema.Storage
}.

(** [GET /api/system/config-export] (src/src/api/mod.rs). *)
Definition config_export (admin : AdminUser) : M ConfigExport :=
  '(projects, storages) ← SystemApi.config_export admin;
  mret (mkConfigExport (Config.app_config_json (Config.set_url "***" config)) projects storages).
End server.
End Server.
