(* ===== verification/System.v ===== *)
(** * The running system

    Everything a server does to the shared state, as one transition system:
    [operation] lists the start, the handlers the routes dispatch to (those
    that write), the tasks they leave running and the rounds of the workers;
    a [system_step] is one of them, run to whatever outcome, or a change that
    leaves the database alone (the clock, the disks, the remote services, the
    handlers that only read). Several servers on one database are steps with
    different configurations. *)

From S2P Require Import Prelude Json Schema Env World Tables Laws Projects LocalDisk Registry Storages Files SyncTasks Users Links Backups Search Resolver FileService TierService BulkService SharedLinkService BackupService SyncWorker Auth Access Uploads ApiProjects ApiFiles ApiBackups ApiBulk Config Server.

Section system.
Context {E : Env}.

(** The settings and the external programs of one server. *)
Record Deployment := mkDeployment {
  dp_config : Config.AppConfig;
  dp_pg : PgDump;
  dp_stamp : Timestamp → string;
  dp_tar_gz : Z → list (string * bytes) → Result bytes;
  dp_archive_stamp : Timestamp → string;
  dp_os_temp_dir : string
}.
Definition dp_dump (s : Deployment) : Dumper :=
  mkDumper (dp_pg s) (Config.url (Config.database (dp_config s)))
    (Server.backup_temp_dir (dp_config s)) (dp_os_temp_dir s).
Definition dp_secret (s : Deployment) : string := Server.secret (dp_config s).
Definition dp_jwt_secret (s : Deployment) : string :=
  Config.jwt_secret (Config.auth (dp_config s)).
Definition dp_auth (s : Deployment) : AuthConfig := Server.auth_config (dp_config s).
Definition dp_uploads (s : Deployment) : UploadSettings := Server.upload_settings (dp_config s).

Inductive operation (s : Deployment) : ∀ A, M A → Type :=
  (** src/src/main.rs *)
  | op_start : operation s _ (Server.start (dp_config s))
  | op_heartbeat node : operation s _ (Server.heartbeat node)
  (** src/src/workers *)
  | op_sync : operation s _ (Server.sync_round (dp_config s) (dp_os_temp_dir s))
  | op_tier : operation s _ TierService.scan_and_archive
  | op_backup : operation s _ (BackupService.check_and_run_backups (dp_dump s) (dp_stamp s))
  | op_cleanup : operation s _ (Server.cleanup_round (dp_config s))
  (** src/src/api/projects.rs *)
  | op_create_project user body : operation s _ (ProjectsApi.create_project user body)
  | op_update_project user pid body : operation s _ (ProjectsApi.update_project user pid body)
  | op_delete_project user pid : operation s _ (ProjectsApi.delete_project user pid)
  | op_assign_storage user pid body : operation s _ (ProjectsApi.assign_storage user pid body)
  | op_update_assignment user pid sid body :
      operation s _ (ProjectsApi.update_project_storage user pid sid body)
  | op_remove_assignment user pid sid :
      operation s _ (ProjectsApi.remove_storage_assignment user pid sid)
  | op_add_member admin pid uid role :
      operation s _ (ProjectsApi.add_project_member admin pid uid role)
  | op_update_member admin pid uid role :
      operation s _ (ProjectsApi.update_project_member admin pid uid role)
  | op_remove_member admin pid uid :
      operation s _ (ProjectsApi.remove_project_member admin pid uid)
  (** src/src/api/storages.rs *)
  | op_create_storage admin body :
      operation s _ (StoragesApi.create_storage (dp_secret s) admin body)
  | op_update_storage admin sid body :
      operation s _ (StoragesApi.update_storage (dp_secret s) admin sid body)
  | op_disable_storage admin sid : operation s _ (StoragesApi.disable_storage admin sid)
  | op_create_container admin sid name :
      operation s _ (StoragesApi.create_storage_container admin sid name)
  | op_add_storage_member admin sid uid :
      operation s _ (StoragesApi.add_storage_member admin sid uid)
  | op_remove_storage_member admin sid uid :
      operation s _ (StoragesApi.remove_storage_member admin sid uid)
  (** src/src/api/files.rs *)
  | op_upload user pid payload : operation s _ (FilesApi.upload_file (dp_secret s) user pid payload)
  | op_download user fid : operation s _ (FilesApi.download_file (dp_secret s) user fid)
  | op_temp_link user fid secs direct sid :
      operation s _ (FilesApi.get_temp_link (dp_secret s) user fid secs direct sid)
  | op_delete_reference user fid pid :
      operation s _ (FilesApi.delete_file_reference user fid pid)
  | op_restore user fid : operation s _ (FilesApi.restore_file user fid)
  | op_force_sync user fid target pid :
      operation s _ (FilesApi.force_sync_to_storage user fid target pid)
  | op_bulk_download user pid body :
      operation s _ (FilesApi.bulk_download (dp_secret s) (dp_tar_gz s) (dp_archive_stamp s)
        user pid body)
  | op_bulk_delete user pid filters : operation s _ (FilesApi.bulk_delete user pid filters)
  | op_local_temp path expires sig :
      operation s _ (FilesApi.download_local_temp (dp_secret s) path expires sig)
  (** src/src/api/shared_links.rs *)
  | op_create_link user pid body : operation s _ (SharedLinksApi.create_shared_link user pid body)
  | op_deactivate_link user id : operation s _ (SharedLinksApi.deactivate_shared_link user id)
  | op_public_download token dl_token :
      operation s _ (SharedLinksApi.public_download (dp_jwt_secret s) (dp_secret s) token dl_token)
  (** src/src/api/bulk.rs *)
  | op_sync_all admin sid : operation s _ (BulkApi.sync_all admin sid)
  | op_start_export admin sid st : operation s _ (BulkApi.start_export admin sid st)
  | op_run_export sid job st : operation s _ (BulkService.run_export (dp_tar_gz s 0) sid job st)
  (** src/src/api/auth_routes.rs *)
  | op_create_user body : operation s _ (AuthRoutes.create_user body)
  | op_update_user admin uid body : operation s _ (AuthRoutes.update_user admin uid body)
  | op_delete_user admin uid : operation s _ (AuthRoutes.delete_user admin uid)
  | op_login username password : operation s _ (AuthRoutes.login (dp_auth s) username password)
  | op_refresh token : operation s _ (AuthRoutes.refresh (dp_auth s) token)
  | op_logout token : operation s _ (AuthRoutes.logout token)
  (** src/src/api/backups.rs *)
  | op_create_backup_config admin body :
      operation s _ (BackupsApi.create_backup_config admin body)
  | op_update_backup_config admin id body :
      operation s _ (BackupsApi.update_backup_config admin id body)
  | op_delete_backup_config admin id all :
      operation s _ (BackupsApi.delete_backup_config admin id all)
  | op_trigger_backup admin body :
      operation s _ (BackupsApi.trigger_backup (dp_stamp s) admin body)
  | op_run_triggered config record :
      operation s _ (BackupsApi.run_triggered (dp_dump s) config record)
  | op_delete_backup admin id : operation s _ (BackupsApi.delete_backup admin id)
  (** src/src/api/uploads.rs *)
  | op_create_upload user pid req :
      operation s _ (Uploads.create (dp_uploads s) user pid req)
  | op_patch user id req payload :
      operation s _ (Uploads.patch (dp_secret s) user id req payload)
  | op_terminate user id : operation s _ (Uploads.terminate user id).

Inductive system_step : World → World → Prop :=
  | step_operation s A m w : operation s A m → system_step w (m w).1
  | step_environment w w' : db w' = db w → system_step w w'.

(** An invariant every operation preserves holds of every reachable state. *)
Lemma system_invariant (I : World → Prop) :
  (∀ s A m, operation s A m → Guar (preserves I) m) →
  (∀ w w', db w' = db w → I w → I w') →
  ∀ w w', rtc system_step w w' → I w → I w'.
Proof.
  intros Hop Henv w w' Hs. induction Hs as [|w w1 w2 Hstep _ IH]; [done|]. intros Hw. apply IH.
  destruct Hstep as [s A m w Hm|]; [by apply (Hop s A m) | by eapply Henv].
Qed.
End system.
