(* ===== verification/Routes.v ===== *)
(** * The routes (the [configure] functions of src/src/lib.rs and src/src/api)

    The tree of scopes and resources the server registers, in the order of
    registration, with the extractor of the caller each handler declares; how a
    request finds its handler in it; and how the caller is admitted.

    A path is the list of its segments. Matching a path against the pattern of
    a resource, and a prefix against the path of a request, is the work of
    actix-web: the class [Router]. What its documentation says of patterns made
    of whole segments is [RouterPatterns]. *)

From S2P Require Import Prelude Text Json Schema Env World Auth.

Inductive Method := GET | POST | PUT | PATCH | DELETE | HEAD | OPTIONS.
#[export] Instance Method_eq_dec : EqDecision Method.
Proof. solve_decision. Defined.

(** The first parameter of a handler: nobody, [AuthenticatedUser], [AdminUser]. *)
Inductive Access := Public | User | Admin.

Record Route := mkRoute {
  rt_method : Method;
  rt_handler : string;
  rt_access : Access
}.

(** [rs_guards]: the method guards of [cfg.route(path, route)] are moved to the
    resource it makes, those of [web::resource(path).route(route)] are not. *)
#[warnings="-register-all"]
Inductive Service :=
  | Resource (pattern : string) (rs_guards : list Method) (routes : list Route)
  | Scope (prefix : string) (services : list Service).

Definition public (m : Method) (h : string) : Route := mkRoute m h Public.
Definition user (m : Method) (h : string) : Route := mkRoute m h User.
Definition admin (m : Method) (h : string) : Route := mkRoute m h Admin.

(** [web::resource(path).route(...)...] and [cfg.route(path, route)]. *)
Definition resource (path : string) (routes : list Route) : Service := Resource path [] routes.
Definition route (path : string) (r : Route) : Service := Resource path [rt_method r] [r].

Module Routes.

(** ** What is registered *)

Definition projects : list Service := [
  resource "/projects" [user POST "create_project"; user GET "list_projects"];
  resource "/projects/{id}"
    [user GET "get_project"; user PUT "update_project"; user DELETE "delete_project"];
  resource "/projects/{id}/storages"
    [user GET "list_project_storages"; user POST "assign_storage"];
  resource "/projects/{id}/storages/{storage_id}"
    [user PUT "update_project_storage"; user DELETE "remove_storage_assignment"];
  resource "/projects/{id}/available-storages" [user GET "list_available_storages"];
  resource "/projects/{id}/members"
    [admin GET "list_project_members"; admin POST "add_project_member"];
  resource "/projects/{id}/members/{user_id}"
    [admin PUT "update_project_member"; admin DELETE "remove_project_member"]].

Definition files : list Service := [
  resource "/projects/{project_id}/files" [user POST "upload_file"; user GET "list_project_files"];
  resource "/projects/{project_id}/files/search" [user POST "search_files"];
  resource "/projects/{project_id}/files/search/summary" [user POST "search_summary"];
  resource "/projects/{project_id}/files/metadata-keys" [user GET "list_metadata_keys"];
  resource "/projects/{project_id}/files/bulk-download" [user POST "bulk_download"];
  resource "/projects/{project_id}/files/bulk-delete/preview" [user POST "bulk_delete_preview"];
  resource "/projects/{project_id}/files/bulk-delete" [user POST "bulk_delete"];
  resource "/files/{id}" [user GET "get_file_metadata"; user DELETE "delete_file_reference"];
  resource "/files/{id}/download" [user GET "download_file"];
  resource "/files/{id}/link" [user GET "get_temp_link"];
  resource "/files/{id}/restore" [user POST "restore_file"];
  resource "/files/{id}/sync" [user POST "force_sync_to_storage"]].

Definition storages : list Service := [
  resource "/storages" [admin POST "create_storage"; user GET "list_storages"];
  resource "/storages/{id}"
    [user GET "get_storage"; admin PUT "update_storage"; admin DELETE "disable_storage"];
  resource "/storages/{id}/files" [admin GET "list_storage_files"];
  resource "/storages/{id}/containers"
    [admin GET "list_storage_containers"; admin POST "create_storage_container"];
  resource "/storages/{id}/members"
    [admin GET "list_storage_members"; admin POST "add_storage_member"];
  resource "/storages/{id}/members/{user_id}" [admin DELETE "remove_storage_member"]].

Definition bulk : list Service := [
  resource "/storages/{id}/sync-all" [admin POST "sync_all"];
  resource "/storages/{id}/export" [admin POST "start_export"];
  resource "/storages/{id}/export/status" [admin GET "export_status"];
  resource "/storages/{id}/export/download" [admin GET "export_download"]].

Definition auth_routes : list Service := [
  Scope "/auth" [
    route "/login" (public POST "login");
    route "/refresh" (public POST "refresh");
    route "/me" (user GET "me");
    route "/logout" (public POST "logout");
    route "/users" (admin POST "create_user");
    route "/users" (admin GET "list_users");
    route "/users/{user_id}" (admin GET "get_user");
    route "/users/{user_id}" (admin PUT "update_user");
    route "/users/{user_id}" (admin DELETE "delete_user")]].

Definition shared_links : list Service := [
  resource "/projects/{project_id}/shared-links"
    [user POST "create_shared_link"; user GET "list_shared_links"];
  resource "/shared-links/{id}"
    [user GET "get_shared_link"; user DELETE "deactivate_shared_link"]].

Definition shared_links_public : list Service := [
  Scope "/s" [
    route "/{token}" (public GET "public_link_info");
    route "/{token}/verify" (public POST "public_verify_password");
    route "/{token}/download" (public GET "public_download")]].

Definition backups : list Service := [
  resource "/backup-configs" [admin GET "list_backup_configs"; admin POST "create_backup_config"];
  resource "/backup-configs/{id}"
    [admin PUT "update_backup_config"; admin DELETE "delete_backup_config"];
  resource "/backups" [admin GET "list_backups"];
  resource "/backups/trigger" [admin POST "trigger_backup"];
  resource "/backups/{id}" [admin DELETE "delete_backup"]].

Definition uploads : list Service := [
  resource "/projects/{project_id}/uploads"
    [user POST "uploads::create"; public OPTIONS "uploads::options"];
  resource "/uploads/{id}"
    [user HEAD "uploads::head"; user PATCH "uploads::patch"; user DELETE "uploads::terminate";
     public OPTIONS "uploads::options"]].

Definition dashboard : list Service := [route "/system/dashboard" (admin GET "dashboard")].

Definition configure_api_routes : list Service := [
  Scope "/api" (projects ++ files ++ storages ++ bulk ++ auth_routes ++ shared_links ++ backups ++
    uploads ++ dashboard ++ [
    route "/system/stats" (admin GET "system_stats");
    route "/sync-tasks" (admin GET "list_sync_tasks");
    route "/system/config-export" (admin GET "config_export");
    route "/system/nodes" (admin GET "list_nodes")])].

Definition configure_routes : list Service :=
  [route "/health" (public GET "health_check");
   route "/download/local" (public GET "download_local_temp")] ++
  shared_links_public ++ configure_api_routes.

(** ** Finding the handler *)

(** What becomes of a request: a handler; a resource without the method (405);
    no resource (404, or the files of the frontend outside of the scopes). *)
Inductive Dispatch := Found (r : Route) | MethodNotAllowed | NoRoute.

Fixpoint first_some {A B} (f : A → option B) (l : list A) : option B :=
  match l with
  | [] => None
  | a :: l' => match f a with Some b => Some b | None => first_some f l' end
  end.

Section dispatch.
Context {S : Type} (resource_match : string → list S → bool)
  (scope_match : string → list S → option (list S)).

(** A resource that matches answers, by the first of its routes for the method;
    a scope whose prefix matches answers, by the first of its services. *)
Definition answer (routes : list Route) (m : Method) : Dispatch :=
  match list_find (λ r, rt_method r = m) routes with
  | Some (_, r) => Found r
  | None => MethodNotAllowed
  end.

Fixpoint dispatch_service (m : Method) (path : list S) (sv : Service) : option Dispatch :=
  match sv with
  | Resource pattern guards routes =>
      if resource_match pattern path &&
         match guards with [] => true | _ => bool_decide (m ∈ guards) end
      then Some (answer routes m) else None
  | Scope prefix services =>
      match scope_match prefix path with
      | Some rest => Some (default NoRoute (first_some (dispatch_service m rest) services))
      | None => None
      end
  end.

Definition dispatch (services : list Service) (m : Method) (path : list S) : Dispatch :=
  default NoRoute (first_some (dispatch_service m path) services).
End dispatch.

Class Router := {
  resource_match : string → list string → bool;
  scope_match : string → list string → option (list string)
}.

(** ** Admitting the caller *)

Section respond.
Context {E : Env} {R : Router} (config : AuthConfig).

(** The extractor of the handler; a request that fails it never reaches it. *)
Definition from_request (a : Access) (authorization : option string) : M unit :=
  match a with
  | Public => mret tt
  | User => extract_user config authorization ≫= λ _, mret tt
  | Admin => extract_admin config authorization ≫= λ _, mret tt
  end.

(** The route whose handler runs, if one does. *)
Definition respond (m : Method) (path : list string) (authorization : option string) :
    M Dispatch :=
  let d := dispatch resource_match scope_match configure_routes m path in
  match d with
  | Found r => from_request (rt_access r) authorization;; mret d
  | _ => mret d
  end.
End respond.
End Routes.

(** ** Patterns *)

(** The segments of a pattern, which starts with a slash, and [{name}]. *)
Definition segments (pattern : string) : list string := tail (str_split "/"%char pattern).
Definition is_parameter (segment : string) : bool := String.prefix "{" segment.

(** A parameter takes one segment, which is not empty; any other segment of a
    pattern is itself. *)
Definition fits (segment s : string) : bool :=
  if is_parameter segment then negb (str_is_empty s) else String.eqb segment s.

Fixpoint fits_all {S} (fit : string → S → bool) (l : list string) (path : list S) : bool :=
  match l, path with
  | [], [] => true
  | p :: l', s :: path' => fit p s && fits_all fit l' path'
  | _, _ => false
  end.

Fixpoint strip_segments {S} (fit : string → S → bool) (l : list string) (path : list S) :
    option (list S) :=
  match l, path with
  | [], _ => Some path
  | p :: l', s :: path' => if fit p s then strip_segments fit l' path' else None
  | _ :: _, [] => None
  end.

Class RouterPatterns `{Routes.Router} := {
  resource_match_spec pattern path :
    Routes.resource_match pattern path = fits_all fits (segments pattern) path;
  scope_match_spec prefix path :
    Routes.scope_match prefix path = strip_segments fits (segments prefix) path
}.
