(* ===== verification/Frames.v ===== *)
(** * What the operations may change

    Guarantees of the operations shared by the services: storage backends
    touch the file system and the remote services only, resolving a backend
    reads the database, a download also stamps the copy it read. They are
    stated for any preorder on states that allows those changes, and used for
    frames and for the preservation of invariants. *)

From S2P Require Import Prelude Json Schema Env World Tables Laws Projects LocalDisk Registry.
From S2P Require Import Storages Files SyncTasks Users Links Search Resolver FileService.

Section io.
Context {E : Env} (Rl : relation World) {HRl : PreOrder Rl}.
Hypothesis Hfs : ∀ w f, Rl w (set_fs f w).
Hypothesis Hremote : ∀ w r, Rl w (set_remote r w).

Lemma guar_modify f : (∀ w, Rl w (f w)) → Guar Rl (modify f).
Proof. intros Hf w. apply Hf. Qed.

Lemma guar_fs_guard : Guar Rl fs_guard.
Proof. unfold fs_guard. guar. Qed.
Lemma guar_fs_write p d : Guar Rl (fs_write p d).
Proof. unfold fs_write. apply guar_bind; [done | apply guar_fs_guard | intros; by apply guar_modify]. Qed.
Lemma guar_fs_remove p : Guar Rl (fs_remove p).
Proof. unfold fs_remove. apply guar_bind; [done | apply guar_fs_guard | intros; by apply guar_modify]. Qed.
Lemma guar_fs_read p : Guar Rl (fs_read p).
Proof. unfold fs_read. guar. Qed.
Lemma guar_fs_exists p : Guar Rl (fs_exists p).
Proof. unfold fs_exists. guar. Qed.
Lemma guar_fs_rename p q : Guar Rl (fs_rename p q).
Proof.
  unfold fs_rename. apply guar_bind; [done | apply guar_fs_read | intros].
  apply guar_bind; [done | apply guar_fs_guard | intros; apply guar_modify; intros w].
  case_match; [apply Hfs | reflexivity].
Qed.
Lemma guar_now_secs : Guar Rl now_secs.
Proof. unfold now_secs. guar. Qed.

#[local] Hint Resolve guar_fs_guard guar_fs_write guar_fs_remove guar_fs_read guar_fs_exists
  guar_fs_rename guar_now_secs : app.

Lemma guar_remote_step {A} (f : RemoteState → RemoteState * Result A) : Guar Rl (remote_step f).
Proof. intros w. unfold remote_step. destruct (f (remote w)). apply Hremote. Qed.
#[local] Hint Resolve guar_remote_step : app.

Lemma guar_be_upload b p d : Guar Rl (be_upload b p d).
Proof. destruct b; cbn [be_upload]; unfold local_upload; guar. Qed.
Lemma guar_be_upload_from_file b p s : Guar Rl (be_upload_from_file b p s).
Proof. destruct b; cbn [be_upload_from_file]; unfold local_upload_from_file; guar. Qed.
Lemma guar_be_download b p : Guar Rl (be_download b p).
Proof. destruct b; cbn [be_download]; unfold local_download; guar. Qed.
Lemma guar_be_download_to_file b p q : Guar Rl (be_download_to_file b p q).
Proof. destruct b; cbn [be_download_to_file]; unfold local_download_to_file; guar. Qed.
Lemma guar_be_delete b p : Guar Rl (be_delete b p).
Proof. destruct b; cbn [be_delete]; unfold local_delete; guar. Qed.
Lemma guar_be_generate_temp_url b p n o : Guar Rl (be_generate_temp_url b p n o).
Proof. destruct b; cbn [be_generate_temp_url]; unfold local_generate_temp_url; guar. Qed.
Lemma guar_be_create_container b n : Guar Rl (be_create_container b n).
Proof. unfold be_create_container. guar. Qed.

Lemma guar_registry_get id : Guar Rl (StorageRegistry.get id).
Proof. unfold StorageRegistry.get. guar. Qed.
Lemma guar_registry_contains id : Guar Rl (StorageRegistry.contains id).
Proof. unfold StorageRegistry.contains. guar. Qed.
#[local] Hint Resolve guar_be_upload guar_be_upload_from_file guar_be_download
  guar_be_download_to_file guar_be_delete guar_be_generate_temp_url guar_be_create_container
  guar_registry_get guar_registry_contains : app.

Lemma guar_resolve_project_backend s pid sec : Guar Rl (resolve_project_backend s pid sec).
Proof.
  unfold resolve_project_backend, Project.find_by_id,
    ProjectStorage.find_for_project_and_storage.
  repeat first [guar_step | apply guar_ignore | apply guar_be_create_container].
Qed.
#[local] Hint Resolve guar_resolve_project_backend : app.

Lemma guar_resolve_backends sid refs sec : Guar Rl (resolve_backends_for_location sid refs sec).
Proof. unfold resolve_backends_for_location, Storage.find_by_id. guar. Qed.
#[local] Hint Resolve guar_resolve_backends : app.

Lemma guar_try_backends p l : Guar Rl (FileService.try_backends p l).
Proof. induction l as [|b l IH]; simpl; guar. Qed.
Lemma guar_first_url p n o l : Guar Rl (FileService.first_url p n o l).
Proof. induction l as [|b l IH]; simpl; guar. Qed.
Lemma guar_first_registered P l : Guar Rl (FileService.first_registered P l).
Proof. induction l as [|s l IH]; simpl; guar. Qed.
Lemma guar_pick_source ids o l : Guar Rl (FileService.pick_source ids o l).
Proof. revert o. induction l as [|s l IH]; intros o; simpl; guar. Qed.
Lemma guar_find_primary l : Guar Rl (FileService.find_primary_storage l).
Proof.
  unfold FileService.find_primary_storage.
  repeat first [apply guar_first_registered | guar_step].
Qed.
Lemma guar_hash_file p : Guar Rl (hash_file_sha256 p).
Proof. unfold hash_file_sha256. guar. Qed.
Lemma guar_delete_copy fl : Guar Rl (FileService.delete_copy fl).
Proof. unfold FileService.delete_copy. guar. Qed.
Lemma guar_cleanup_orphan i : Guar Rl (FileService.cleanup_orphan i).
Proof. unfold FileService.cleanup_orphan. repeat first [apply guar_delete_copy | guar_step]. Qed.

Section touching.
Hypothesis Htouch : ∀ id, Guar Rl (FileLocation.touch_accessed id).

Lemma guar_try_locations sec refs l : Guar Rl (FileService.try_locations sec refs l).
Proof.
  induction l as [|b l IH]; simpl; [guar|].
  repeat first [apply guar_resolve_backends | apply guar_try_backends | apply Htouch
               | apply IH | guar_step].
Qed.
Lemma guar_download_file sec id : Guar Rl (FileService.download_file sec id).
Proof.
  unfold FileService.download_file, File.find_by_id, FileLocation.find_for_file,
    FileReference.find_by_file_id.
  repeat first [apply guar_try_locations | guar_step].
Qed.
Lemma guar_generate_temp_links sec id n b o :
  Guar Rl (FileService.generate_temp_links sec id n b o).
Proof.
  unfold FileService.generate_temp_links, File.find_by_id, FileLocation.find_for_file,
    FileReference.find_by_file_id.
  repeat first [progress unfold FileService.link_for_location, Storage.find_by_id
               | apply guar_resolve_backends | apply guar_first_url | apply Htouch | guar_step].
Qed.
End touching.
End io.
