(* ===== verification/SystemLaws.v ===== *)
(** * Walking through the operations

    What an invariant of the database needs to know of the operations besides
    its statements: everything else leaves the database alone. [walk] takes a
    computation apart down to its statements, which the tactic it is given
    handles. *)

From S2P Require Import Prelude Json Schema Env World Tables Laws Projects LocalDisk Registry Storages Files SyncTasks Users Links Backups Search Resolver FileService TierService BulkService SharedLinkService BackupService SyncWorker Auth Access Uploads ApiProjects ApiFiles ApiBackups ApiBulk Config Server Frames.

Section invariant.
Context {E : Env} (I : Db → Prop).

Definition on_db (w : World) : Prop := I (db w).
Definition Keeps {A} (m : M A) : Prop := Guar (preserves on_db) m.

#[export] Instance on_db_preorder : PreOrder (preserves on_db) := preserves_preorder on_db.

Lemma keeps_quiet {A} (m : M A) : (∀ w, db (m w).1 = db w) → Keeps m.
Proof. intros Hm w. unfold preserves, on_db. by rewrite Hm. Qed.

Lemma keeps_same_db {A} (m : M A) : Guar (same db) m → Keeps m.
Proof. exact (keeps_quiet m). Qed.

(** A statement that leaves what the invariant speaks of alone. *)
Lemma keeps_same {T} (f : Db → T) {A} (m : M A) :
  (∀ d d', f d' = f d → I d → I d') → Guar (same (λ w, f (db w))) m → Keeps m.
Proof. intros HI Hm w. exact (HI _ _ (Hm w)). Qed.

Lemma keeps_transaction {A} (m : M A) : Keeps m → Keeps (transaction m).
Proof.
  intros Hm w Hw. specialize (Hm w Hw). unfold transaction, on_db in *.
  by destruct (m w) as [w' []].
Qed.

(** What follows may use what the first step establishes of its result. *)
Lemma keeps_bind {A B} (Q : A → Prop) (m : M A) (k : A → M B) :
  (∀ w w' x, on_db w → m w = (w', Ok x) → Q x) →
  Keeps m → (∀ x, Q x → Keeps (k x)) → Keeps (m ≫= k).
Proof.
  intros HQ Hm Hk w Hw. specialize (Hm w Hw). rewrite bind_unfold.
  destruct (m w) as [w1 [x|e|]] eqn:Hmw; simpl in *; [|done..].
  by apply (Hk x); [eapply HQ|].
Qed.

Lemma keeps_try_with {A B} (Q : A → Prop) (m : M A) (k : A → M B) h :
  (∀ w w' x, on_db w → m w = (w', Ok x) → Q x) →
  Keeps m → (∀ x, Q x → Keeps (k x)) → (∀ e, Keeps (h e)) → Keeps (try_with m k h).
Proof.
  intros HQ Hm Hk Hh w Hw. specialize (Hm w Hw). unfold try_with.
  destruct (m w) as [w1 [x|e|]] eqn:Hmw; simpl in *; [| |done].
  - by apply (Hk x); [eapply HQ|].
  - by apply Hh.
Qed.

Lemma keeps_foldM {A B} (P : B → Prop) (Q : A → Prop) (f : B → A → M B) b l :
  P b → Forall Q l → (∀ b a, P b → Q a → Keeps (f b a)) →
  (∀ b a w w' b', P b → Q a → on_db w → f b a w = (w', Ok b') → P b') → Keeps (foldM f b l).
Proof.
  intros Hb Hl Hf HP. revert b Hb. induction Hl as [|a l Ha _ IH]; intros b Hb; simpl.
  - apply guar_ret, _.
  - apply (keeps_bind P); [intros w w' b'; by apply HP | by apply Hf | auto].
Qed.

(** What a computation reads of the database is still there after steps that
    leave it alone. *)
Lemma keeps_after_reading (P : Db → Prop) {A B} (Q : A → Prop) (m : M A) (k : A → M B) :
  Guar (same db) m → (∀ w w' x, P (db w) → on_db w → m w = (w', Ok x) → Q x) →
  (∀ x w, P (db w) → Q x → preserves on_db w (k x w).1) →
  ∀ w, P (db w) → preserves on_db w ((m ≫= k) w).1.
Proof.
  intros Hm HQ Hk w HP Hw. pose proof (Hm w) as Hdb. rewrite bind_unfold. unfold same, on_db in *.
  destruct (m w) as [w1 [x|e|]] eqn:Hmw; simpl in *; [|by rewrite Hdb..].
  apply (Hk x); [by rewrite Hdb | by eapply HQ | unfold on_db; by rewrite Hdb].
Qed.
End invariant.

(** Deleting rows whose deletion cascades outside of what [f] observes. *)
Section deletion.
Context {E : Env}.

Lemma cascade_same {R} `{Table R} {T} (f : Db → T) ids d d' :
  (∀ id d d', on_delete (R := R) id d = Some d' → f d' = f d) →
  delete_cascade (R := R) ids d = Some d' → f d' = f d.
Proof.
  intros Hf. revert d. unfold delete_cascade.
  induction ids as [|i ids IH]; intros d; simpl; [congruence|].
  destruct (on_delete i d) as [d1|] eqn:Hd; [intros Hc; rewrite (IH d1 Hc); eauto|].
  intros Hc. exfalso. clear -Hc. by induction ids.
Qed.

Lemma guar_sql_delete_same {R} `{Table R} {T} (f : Db → T) P :
  (∀ d t, f (set_tbl t d) = f d) →
  (∀ id d d', on_delete (R := R) id d = Some d' → f d' = f d) →
  Guar (same (λ w, f (db w))) (sql_delete (R := R) P).
Proof.
  intros Ht Hf w. unfold sql_delete, same.
  destruct (delete_cascade _ _) as [d'|] eqn:Hc; [|done]. simpl.
  apply (cascade_same f) in Hc; [|done]. by rewrite Hc, Ht.
Qed.
End deletion.

(** The last tactic of [walk]: unfold the operation at the head. *)
Ltac head_of t := match t with ?f _ => head_of f | _ => t end.
Ltac open_head :=
  match goal with |- Guar _ ?m => let h := head_of m in progress (unfold h) end.

Ltac io_premise := solve [apply _ | intros ? ? ?; assumption | intros; reflexivity].

(** The control flow. *)
Ltac walk_flow :=
  match goal with
  | |- Guar _ (_ ≫= _) => apply guar_bind
  | |- Guar _ (mret _) => apply guar_ret
  | |- Guar _ (throw _) => apply guar_throw
  | |- Guar _ (lift _) => apply guar_lift
  | |- Guar _ (gets _) => apply guar_gets
  | |- Guar _ (ensure _ _) => apply guar_ensure
  | |- Guar _ (or_throw _ _) => apply guar_or_throw
  | |- Guar _ (fetch_one _) => apply guar_fetch_one
  | |- Guar _ (map_err _ _) => apply guar_map_err
  | |- Guar _ (ok _) => apply guar_ok
  | |- Guar _ (ignore _) => apply guar_ignore
  | |- Guar _ (try_with _ _ _) => apply guar_try_with
  | |- Guar _ (for_each _ _) => apply guar_for_each
  | |- Guar _ (foldM _ _ _) => apply guar_foldM
  | |- Guar _ (transaction _) => apply keeps_transaction
  | |- Guar _ (match ?x with _ => _ end) => destruct x
  | |- Guar _ (let _ := _ in _) => cbv zeta
  | |- PreOrder _ => apply _
  | |- Keeps _ _ => unfold Keeps
  | |- ∀ _, _ => intros
  end.

(** What reads, and what changes no table: the disk, the remote services, the
    registry, the random draws. *)
Ltac walk_io :=
  match goal with
  | |- Guar _ (sql_find _) => apply guar_gets, _
  | |- Guar _ (sql_find_if _ _) => apply guar_gets, _
  | |- Guar _ (sql_select _) => apply guar_gets, _
  | |- Guar _ (sql_select_first _) => apply guar_gets, _
  | |- Guar _ new_uuid => apply keeps_quiet; intros ?; reflexivity
  | |- Guar _ draw => apply keeps_quiet; intros ?; reflexivity
  | |- Guar _ (modify _) => apply keeps_quiet; intros ?; cbn; first [reflexivity | by case_match]
  | |- Guar _ fs_guard => apply guar_fs_guard; io_premise
  | |- Guar _ (fs_write _ _) => apply guar_fs_write; io_premise
  | |- Guar _ (fs_remove _) => apply guar_fs_remove; io_premise
  | |- Guar _ (fs_read _) => apply guar_fs_read; io_premise
  | |- Guar _ (fs_exists _) => apply guar_fs_exists; io_premise
  | |- Guar _ (fs_rename _ _) => apply guar_fs_rename; io_premise
  | |- Guar _ (be_upload _ _ _) => apply guar_be_upload; io_premise
  | |- Guar _ (be_upload_from_file _ _ _) => apply guar_be_upload_from_file; io_premise
  | |- Guar _ (be_download _ _) => apply guar_be_download; io_premise
  | |- Guar _ (be_download_to_file _ _ _) => apply guar_be_download_to_file; io_premise
  | |- Guar _ (be_delete _ _) => apply guar_be_delete; io_premise
  | |- Guar _ (be_generate_temp_url _ _ _ _) => apply guar_be_generate_temp_url; io_premise
  | |- Guar _ (be_create_container _ _) => apply guar_be_create_container; io_premise
  | |- Guar _ (FileService.first_registered _ _) => apply guar_first_registered; io_premise
  | |- Guar _ (FileService.pick_source _ _ _) => apply guar_pick_source; io_premise
  | |- Guar _ (FileService.try_backends _ _) => apply guar_try_backends; io_premise
  | |- Guar _ (FileService.first_url _ _ _ _) => apply guar_first_url; io_premise
  | |- Guar _ (hash_file_sha256 _) => apply guar_hash_file; io_premise
  end.

Ltac walk_step stmt := first [ walk_flow | walk_io | stmt | open_head ].
Ltac walk stmt := repeat walk_step stmt.

(** What a PATCH appends to is never more than the session lacks. *)
Lemma append_chunks_grows `{Env} session payload : ∀ written w w' n,
  Uploads.append_chunks session written payload w = (w', Ok n) →
  written ≤ n ∧ (n = written ∨ ss_offset_bytes session + n ≤ ss_total_size session).
Proof.
  induction payload as [|[e|chunk] payload IH]; intros written w w' n; simpl; [|by intros|].
  - intros [_ ->]%ret_ok. lia.
  - intros H1. m_inv. match goal with Hb : (_ <=? _) = true |- _ => apply Z.leb_le in Hb end.
    apply IH in H1. lia.
Qed.

(** The loops that touch no table. *)
Section loops.
Context {E : Env} (I : Db → Prop).

Lemma keeps_append_chunks session payload : ∀ written,
  Keeps I (Uploads.append_chunks session written payload).
Proof. induction payload as [|[e|chunk] payload IH]; intros written; simpl; walk ltac:(apply IH). Qed.

Lemma keeps_add_entries backend job locations : ∀ entries processed st,
  Keeps I (BulkService.add_entries backend job locations entries processed st).
Proof. induction locations as [|l ls IH]; intros entries processed st; simpl; walk ltac:(apply IH). Qed.
End loops.
