(* ===== verification/Typing.v ===== *)
(** * Well-typed rows

    Most columns with a few meaningful values are plain TEXT or BIGINT in
    src/migrations; what keeps them within their type is the code. [RowType]
    says what a row of each table may hold, [DbTyped] that every row is so, and
    the lemmas that a statement that writes such rows keeps it. *)

From S2P Require Import Prelude Text Json Schema Env World Tables Laws Projects LocalDisk Registry Storages Files SyncTasks Users Links Backups Search Resolver FileService BackupService Auth Access SystemLaws.

Section rows.
Context {E : Env}.

(** The digest of the content, in hexadecimal, and its size. *)
Definition file_typed (f : File) : Prop :=
  String.length (f_hash_sha256 f) = 64%nat ∧ str_all is_ascii_hexdigit (f_hash_sha256 f) = true ∧
  0 ≤ f_size f.

Definition flat_metadata (j : Json) : Prop := validate_flat_metadata j = Ok tt.
Definition reference_typed (r : FileReference) : Prop := flat_metadata (fr_metadata r).

Definition location_typed (l : FileLocation) : Prop :=
  fl_status l ∈ ["synced"; "archived"; "restoring"] ∧ is_Some (fl_synced_at l).

(** A task given up says why. *)
Definition task_typed (t : SyncTask) : Prop :=
  tk_status t ∈ ["pending"; "in_progress"; "completed"; "failed"] ∧ 0 ≤ tk_retries t ∧
  (tk_status t = "failed" → is_Some (tk_error_msg t)).

Definition user_typed (u : User) : Prop := is_role (u_role u) = true.
Definition member_typed (m : UserProject) : Prop := up_role m ∈ ["member"; "writer"].

(** A limited link has a positive limit, which its count never exceeds. *)
Definition link_typed (l : SharedLink) : Prop :=
  0 ≤ sl_download_count l ∧
  ∀ m, sl_max_downloads l = Some m → 0 < m ∧ sl_download_count l ≤ m.

(** An upload never runs past its length, and is completed at its length only. *)
Definition session_typed (s : UploadSession) : Prop :=
  0 < ss_total_size s ∧ 0 ≤ ss_offset_bytes s ≤ ss_total_size s ∧
  ss_status s ∈ ["in_progress"; "completed"; "aborted"] ∧
  (ss_status s = "completed" → ss_offset_bytes s = ss_total_size s) ∧
  flat_metadata (ss_metadata s).

Definition backup_config_typed (c : BackupConfig) : Prop :=
  is_Some (cron_parse (bc_schedule_cron c)) ∧ 1 ≤ bc_retention_count c ∧
  BackupService.validate_storage_path (bc_storage_path c) = Ok tt.

(** An attempt has started, has ended exactly when it is no longer running,
    and says why when it failed. *)
Definition backup_typed (r : BackupRecord) : Prop :=
  br_status r ∈ ["running"; "completed"; "failed"] ∧ is_Some (br_started_at r) ∧
  (is_Some (br_completed_at r) ↔ br_status r ≠ "running") ∧
  (br_status r = "failed" → is_Some (br_error_message r)) ∧ 0 ≤ br_file_size_bytes r.

Definition event_typed (e : FileAccessEvent) : Prop :=
  ev_access_kind e ∈ ["download"; "bulk_download"; "shared_link_download"].

Definition all_rows {R} (P : R → Prop) (t : gmap Uuid R) : Prop :=
  ∀ id r, t !! id = Some r → P r.

Record DbTyped (d : Db) : Prop := {
  typed_files : all_rows file_typed (files d);
  typed_references : all_rows reference_typed (file_references d);
  typed_locations : all_rows location_typed (file_locations d);
  typed_tasks : all_rows task_typed (sync_tasks d);
  typed_users : all_rows user_typed (users d);
  typed_members : all_rows member_typed (user_projects d);
  typed_links : all_rows link_typed (shared_links d);
  typed_sessions : all_rows session_typed (upload_sessions d);
  typed_backup_configs : all_rows backup_config_typed (backup_configs d);
  typed_backups : all_rows backup_typed (backup_history d);
  typed_events : all_rows event_typed (file_access_events d)
}.

Lemma all_rows_empty {R} (P : R → Prop) : all_rows P ∅.
Proof. intros id r. by rewrite lookup_empty. Qed.
Lemma all_rows_insert {R} (P : R → Prop) t id r :
  all_rows P t → P r → all_rows P (<[id := r]> t).
Proof. intros Ht Hr i x. rewrite lookup_insert. case_decide; naive_solver. Qed.
Lemma all_rows_fmap {R} (P : R → Prop) f t :
  all_rows P t → (∀ r, P r → P (f r)) → all_rows P (f <$> t).
Proof. intros Ht Hf i x. rewrite lookup_fmap, fmap_Some. naive_solver. Qed.
Lemma all_rows_subset {R} (P : R → Prop) t t' : t' ⊆ t → all_rows P t → all_rows P t'.
Proof. intros Hs Ht i x Hx. eapply Ht, lookup_weaken; eauto. Qed.
Lemma all_rows_keep {R} (P : R → Prop) c t : all_rows P t → all_rows P (keep c t).
Proof. apply all_rows_subset, map_filter_subseteq. Qed.

Lemma empty_typed : DbTyped empty_db.
Proof. constructor; apply all_rows_empty. Qed.

(** What a table contributes. *)
Class RowType (R : Type) `{Table R} := {
  row_typed : R → Prop;
  typed_rows : ∀ d, DbTyped d → all_rows row_typed (tbl d);
  typed_put : ∀ d t, DbTyped d → all_rows row_typed t → DbTyped (set_tbl t d);
  typed_cascade : ∀ id d d', DbTyped d → on_delete id d = Some d' → DbTyped d'
}.

#[local] Hint Resolve all_rows_keep all_rows_fmap : core.

Lemma forget_user_typed id d d' : DbTyped d → forget_user id d = Some d' → DbTyped d'.
Proof.
  intros []. unfold forget_user. destruct (exists_row _ _); [done|]. intros [= <-].
  constructor; simpl; auto. apply all_rows_fmap; [done|]. intros r Hr. by case_match.
Qed.

Ltac row_type P :=
  refine {| row_typed := P |};
  [ by intros ? [] | by intros ? ? []; constructor
  | intros ? ? ? Hd; try (by intros [= <-]); destruct Hd; intros [= <-]; constructor; simpl; auto ].

#[export] Instance files_typed : RowType File.
Proof. row_type file_typed. Defined.
#[export] Instance references_typed : RowType FileReference.
Proof. row_type reference_typed. Defined.
#[export] Instance locations_typed : RowType FileLocation.
Proof. row_type location_typed. Defined.
#[export] Instance tasks_typed : RowType SyncTask.
Proof. row_type task_typed. Defined.
#[export] Instance users_typed : RowType User.
Proof. refine {| row_typed := user_typed |};
  [by intros ? [] | by intros ? ? []; constructor | exact forget_user_typed]. Defined.
#[export] Instance members_typed : RowType UserProject.
Proof. row_type member_typed. Defined.
#[export] Instance links_typed : RowType SharedLink.
Proof. row_type link_typed. Defined.
#[export] Instance sessions_typed : RowType UploadSession.
Proof. row_type session_typed. Defined.
#[export] Instance backups_typed : RowType BackupRecord.
Proof. row_type backup_typed. Defined.
#[export] Instance events_typed : RowType FileAccessEvent.
Proof. row_type event_typed. Defined.
#[export] Instance tokens_typed : RowType RefreshToken.
Proof. row_type (λ _ : RefreshToken, True). Defined.
#[export] Instance assignments_typed : RowType ProjectStorage.
Proof. row_type (λ _ : ProjectStorage, True). Defined.
#[export] Instance user_storages_typed : RowType UserStorage.
Proof. row_type (λ _ : UserStorage, True). Defined.
#[export] Instance nodes_typed : RowType Node.
Proof. row_type (λ _ : Node, True). Defined.
#[export] Instance projects_typed : RowType Project.
Proof. row_type (λ _ : Project, True). Defined.
#[export] Instance storages_typed : RowType Storage.
Proof. row_type (λ _ : Storage, True). Defined.
#[export] Instance backup_configs_typed : RowType BackupConfig.
Proof.
  row_type backup_config_typed. apply all_rows_fmap; [done|]. intros r Hr. by case_match.
Defined.

(** ** Statements *)

Section statements.
Context {R : Type} `{RowType R}.

Lemma typed_row d id r : DbTyped d → tbl d !! id = Some r → row_typed r.
Proof. intros Hd. apply (typed_rows d Hd). Qed.

Lemma typed_insert mk :
  (∀ d id t, DbTyped d → violates (mk id t) d = None → row_typed (mk id t)) →
  Keeps DbTyped (sql_insert mk).
Proof.
  intros Hmk w Hw. unfold on_db, sql_insert, insert_row in *. m_run.
  destruct (tbl (db w) !! _); [done|]. destruct (violates _ _) eqn:Hv; [done|]. simpl.
  apply typed_put; [done|]. apply all_rows_insert; [by apply typed_rows | by eapply Hmk].
Qed.

Lemma typed_update P f :
  (∀ r t, row_typed r → P r = true → row_typed (touch t (f r))) →
  Keeps DbTyped (sql_update P f).
Proof.
  intros Hf w Hw. unfold on_db in *. simpl. apply typed_put; [done|].
  apply all_rows_fmap; [by apply typed_rows|]. intros r Hr. destruct (P r) eqn:HP; auto.
Qed.

Lemma typed_update_id id f :
  (∀ d r t, row_typed r → violates (touch t (f r)) d = None → row_typed (touch t (f r))) →
  Keeps DbTyped (sql_update_id id f).
Proof.
  intros Hf w Hw. unfold on_db, sql_update_id in *. destruct (tbl (db w) !! id) as [r|] eqn:Hr; [|done].
  destruct (violates _ _) eqn:Hv; [done|]. simpl. apply typed_put; [done|].
  apply all_rows_insert; [by apply typed_rows|]. eapply Hf; [by eapply typed_row | done].
Qed.

(** What the row looks like at the time may matter. *)
Lemma typed_set_id_if_at id P f w :
  (∀ r t, tbl (db w) !! id = Some r → row_typed r → P r = true → row_typed (touch t (f r))) →
  preserves (on_db DbTyped) w (sql_set_id_if id P f w).1.
Proof.
  intros Hf Hw. unfold on_db, sql_set_id_if in *. destruct (tbl (db w) !! id) as [r|] eqn:Hr; [|done].
  destruct (P r) eqn:HP; [|done]. simpl. apply typed_put; [done|].
  apply all_rows_insert; [by apply typed_rows|]. eapply Hf; [done | by eapply typed_row | done].
Qed.
Lemma typed_set_id_if id P f :
  (∀ r t, row_typed r → P r = true → row_typed (touch t (f r))) →
  Keeps DbTyped (sql_set_id_if id P f).
Proof. intros Hf w. apply typed_set_id_if_at. eauto. Qed.
Lemma typed_set_id id f :
  (∀ r t, row_typed r → row_typed (touch t (f r))) → Keeps DbTyped (sql_set_id id f).
Proof. intros Hf. apply typed_set_id_if. eauto. Qed.

Lemma typed_delete P : Keeps DbTyped (sql_delete P).
Proof.
  intros w Hw. unfold on_db, sql_delete in *.
  destruct (delete_cascade _ _) as [d'|] eqn:Hc; [|done]. simpl.
  assert (DbTyped (set_tbl (filter (λ kv, P kv.2 = false) (tbl (db w))) (db w))) as Hd.
  { apply typed_put; [done|]. eapply all_rows_subset; [apply map_filter_subseteq | by apply typed_rows]. }
  revert Hc Hd. generalize (set_tbl (filter (λ kv, P kv.2 = false) (tbl (db w))) (db w)).
  unfold delete_cascade. generalize (map row_id (filter (λ r, P r = true) (rows_of (tbl (db w))))).
  intros ids. induction ids as [|i ids IH]; intros d; simpl; [by intros [= ->]|].
  destruct (on_delete i d) as [d1|] eqn:Hd1; [|intros Hc; exfalso; clear -Hc; by induction ids].
  intros Hc Hd. apply (IH d1); [done | by eapply typed_cascade].
Qed.
End statements.
End rows.
