(* ===== verification/TypingSpec.v ===== *)
(** * Every row of a running system is well typed *)

From S2P Require Import Prelude Text Json Schema Env World Tables Laws Projects LocalDisk Registry Storages Files SyncTasks Users Links Backups Search Resolver FileService TierService BulkService SharedLinkService BackupService SyncWorker Auth Access Uploads ApiProjects ApiFiles ApiBackups ApiBulk Config Server System Frames SystemLaws Typing.

Section statements.
Context {E : Env}.

Abbreviation Typed := (Keeps DbTyped).

(** ** The statements of the models *)

Definition typed_input (c : CreateFile) : Prop :=
  String.length (cf_hash_sha256 c) = 64%nat ∧ str_all is_ascii_hexdigit (cf_hash_sha256 c) = true ∧
  0 ≤ cf_size c.

Lemma typed_create_file c : typed_input c → Typed (File.create c).
Proof. intros Hc. apply typed_insert. by intros. Qed.

Lemma typed_create_reference c : flat_metadata (cfr_metadata c) → Typed (FileReference.create c).
Proof. intros Hc. apply typed_insert. by intros. Qed.

Lemma typed_create_location c : cfl_status c = "synced" → Typed (FileLocation.create c).
Proof. intros Hc. apply typed_insert. intros d id t _ _. split; simpl; rewrite Hc; [set_solver | eauto]. Qed.

Lemma typed_with_status status t l :
  status ∈ ["synced"; "archived"; "restoring"] → location_typed l →
  location_typed (FileLocation.with_status status t l).
Proof. intros Hs [_ Ha]. unfold FileLocation.with_status. case_match; split; simpl; eauto. Qed.

Lemma typed_update_location_status id status :
  status ∈ ["synced"; "archived"; "restoring"] → Typed (FileLocation.update_status id status).
Proof.
  intros Hs. unfold FileLocation.update_status. walk ltac:(apply typed_set_id).
  by apply typed_with_status.
Qed.

Lemma typed_update_by_file_and_storage fid sid status :
  status ∈ ["synced"; "archived"; "restoring"] →
  Typed (FileLocation.update_status_by_file_and_storage fid sid status).
Proof.
  intros Hs. unfold FileLocation.update_status_by_file_and_storage.
  walk ltac:(apply typed_update). by apply typed_with_status.
Qed.

Lemma typed_touch id : Typed (FileLocation.touch_accessed id).
Proof. unfold FileLocation.touch_accessed. by walk ltac:(apply typed_set_id). Qed.

(** A task in any status but "failed", which needs its reason. *)
Ltac task :=
  intros; match goal with H : row_typed _ |- _ => destruct H as (? & ? & ?) end;
  split_and!; simpl; [set_solver | lia | done || eauto].

Lemma typed_create_task c : Typed (SyncTask.create c).
Proof. apply typed_insert. intros. split_and!; simpl; [set_solver | lia | done]. Qed.

Lemma typed_complete_task id : Typed (SyncTask.update_status id "completed" None).
Proof. unfold SyncTask.update_status. walk ltac:(apply typed_set_id). task. Qed.

Lemma typed_supersede fid sid id : Typed (SyncTask.supersede_failed_for fid sid id).
Proof. unfold SyncTask.supersede_failed_for. walk ltac:(apply typed_update). task. Qed.

Lemma typed_claim_pending lim n : Typed (SyncTask.claim_pending lim n).
Proof.
  walk ltac:(first [apply typed_update | apply typed_set_id]); try task.
Qed.

Lemma typed_requeue id msg : Typed (SyncTask.requeue_for_retry id msg).
Proof. unfold SyncTask.requeue_for_retry. walk ltac:(apply typed_set_id). task. Qed.

Lemma typed_create_user c : Typed (User.create c).
Proof.
  apply typed_insert. intros d id t _ Hv. apply first_violation_cons in Hv as [Hv _].
  by apply negb_false_iff in Hv.
Qed.
Lemma typed_update_role id role : Typed (sql_update_id (R := User) id (set_u_role role)).
Proof.
  apply typed_update_id. intros d r t _ Hv. apply first_violation_cons in Hv as [Hv _].
  by apply negb_false_iff in Hv.
Qed.

Lemma typed_create_member uid pid role :
  role ∈ ["member"; "writer"] → Typed (UserProject.create uid pid role).
Proof. intros Hr. unfold UserProject.create. walk ltac:(apply typed_insert). done. Qed.
Lemma typed_update_member uid pid role :
  role ∈ ["member"; "writer"] → Typed (UserProject.update_role uid pid role).
Proof. intros Hr. unfold UserProject.update_role. walk ltac:(apply typed_update). done. Qed.

Lemma typed_create_link c :
  (∀ m, csl_max_downloads c = Some m → 0 < m) → Typed (SharedLink.create c).
Proof.
  intros Hm. unfold SharedLink.create. walk ltac:(apply typed_insert).
  all: split; simpl; [lia|]; intros m Hc; specialize (Hm m Hc); lia.
Qed.

(** The count moves only below the limit. *)
Lemma typed_increment id : Typed (SharedLink.increment_download_count id).
Proof.
  unfold SharedLink.increment_download_count. walk ltac:(apply typed_set_id_if).
  match goal with H : row_typed _, Hb : SharedLink.below_limit _ = true |- _ =>
    destruct H as [Hc Hm]; unfold SharedLink.below_limit in Hb end.
  split; simpl; [lia|]. intros m He. rewrite He in *. specialize (Hm m eq_refl). lia.
Qed.
Lemma typed_deactivate id : Typed (SharedLink.deactivate id).
Proof. unfold SharedLink.deactivate. by walk ltac:(apply typed_set_id). Qed.

Lemma typed_create_session c :
  0 < cus_total_size c → flat_metadata (cus_metadata c) → Typed (UploadSession.create c).
Proof.
  intros Hp Hm. apply typed_insert. intros. split_and!; simpl; [lia.. | set_solver | done | done].
Qed.
Lemma typed_abort id : Typed (UploadSession.mark_status id "aborted").
Proof.
  unfold UploadSession.mark_status. walk ltac:(apply typed_set_id).
  match goal with H : row_typed _ |- _ => destruct H as (? & ? & ? & ? & ?) end.
  split_and!; simpl; try done; try lia. set_solver.
Qed.

(** The offset moves forward, within the length, of the row that is there. *)
Lemma typed_advance_at id s n w :
  upload_sessions (db w) !! id = Some s → ss_offset_bytes s ≤ n ≤ ss_total_size s →
  preserves (on_db DbTyped) w (UploadSession.advance_offset id (ss_offset_bytes s) n w).1.
Proof.
  intros Hs Hn. unfold UploadSession.advance_offset. rewrite bind_unfold. simpl.
  apply typed_set_id_if_at. intros r t Hr Hok HP. simpl in Hr. assert (r = s) as -> by congruence.
  destruct Hok as (? & ? & ? & _ & ?). apply andb_true_iff in HP as [_ HP].
  unfold UploadSession.is_in_progress in HP. apply String.eqb_eq in HP.
  split_and!; simpl; [lia.. | done | by rewrite HP | done].
Qed.
(** Only an upload that has arrived in full is completed. *)
Lemma typed_finish_at id s w :
  upload_sessions (db w) !! id = Some s → ss_offset_bytes s = ss_total_size s →
  preserves (on_db DbTyped) w (UploadSession.mark_status id "completed" w).1.
Proof.
  intros Hs Hn. unfold UploadSession.mark_status. rewrite bind_unfold. simpl.
  rewrite bind_unfold. unfold sql_set_id.
  match goal with |- preserves _ _ (match ?m ?w0 with _ => _ end).1 =>
    pose proof (typed_set_id_if_at id (λ _, true)
      (λ s, set_ss_status "completed" (set_ss_updated_at (now w0) s)) w0) as Hk;
    destruct (m w0) as [w1 [o|e|]]
  end; apply Hk; intros r t Hr Hok _; simpl in Hr; assert (r = s) as -> by congruence;
    destruct Hok as (? & ? & ? & _ & ?); split_and!; simpl; try done; try lia; set_solver.
Qed.

Lemma typed_record kind fid pid sid uid n :
  kind ∈ ["download"; "bulk_download"; "shared_link_download"] →
  Typed (FileAccessEvent.spawn_record (mkRecordAccessEvent fid pid sid kind uid n)).
Proof.
  intros Hk. unfold FileAccessEvent.spawn_record, FileAccessEvent.record.
  walk ltac:(apply typed_insert). done.
Qed.

Definition typed_new_config (c : Backups.CreateBackupConfig) : Prop :=
  is_Some (cron_parse (cbc_schedule_cron c)) ∧
  (∀ n, cbc_retention_count c = Some n → 1 ≤ n) ∧
  (∀ p, cbc_storage_path c = Some p → BackupService.validate_storage_path p = Ok tt).
Lemma typed_create_config c : typed_new_config c → Typed (BackupConfig.create c).
Proof.
  intros (Hc & Hn & Hp). apply typed_insert. intros. split_and!; simpl; [done | |].
  - destruct (cbc_retention_count c); simpl; [auto | lia].
  - destruct (cbc_storage_path c); simpl; [auto | reflexivity].
Qed.

Definition typed_config_changes (c : Backups.UpdateBackupConfig) : Prop :=
  (∀ e, ubc_schedule_cron c = Some e → is_Some (cron_parse e)) ∧
  (∀ n, ubc_retention_count c = Some n → 1 ≤ n) ∧
  (∀ p, ubc_storage_path c = Some p → BackupService.validate_storage_path p = Ok tt).
Lemma typed_update_config id c : typed_config_changes c → Typed (BackupConfig.update id c).
Proof.
  intros (Hc & Hn & Hp). unfold BackupConfig.update.
  apply (keeps_bind _ backup_config_typed).
  - intros w w' x Hw H. unfold BackupConfig.find_by_id in H. m_inv. symmetry in H.
    exact (typed_row (db w) id x Hw H).
  - by walk ltac:(fail).
  - intros cur (? & ? & ?). walk ltac:(apply typed_update_id). split_and!; simpl.
    + destruct (ubc_schedule_cron c); simpl; auto.
    + destruct (ubc_retention_count c); simpl; auto.
    + destruct (ubc_storage_path c); simpl; auto.
Qed.

Ltac backup :=
  match goal with H : row_typed _ |- _ => destruct H as (? & ? & ? & ? & ?) end;
  split_and!; simpl; eauto; try done; set_solver.
Lemma typed_create_backup c : Typed (BackupRecord.create c).
Proof.
  apply typed_insert. intros. split_and!; simpl; eauto; try lia; [set_solver | | done].
  split; [by intros [] | done].
Qed.
Lemma typed_mark_completed id n p : 0 ≤ n → Typed (BackupRecord.mark_completed id n p).
Proof. intros Hn. unfold BackupRecord.mark_completed. walk ltac:(apply typed_set_id). backup. Qed.
Lemma typed_mark_failed id msg : Typed (BackupRecord.mark_failed id msg).
Proof. unfold BackupRecord.mark_failed. walk ltac:(apply typed_set_id). backup. Qed.
Lemma typed_mark_stale id n : Typed (BackupRecord.mark_stale_running_as_failed id n).
Proof. unfold BackupRecord.mark_stale_running_as_failed. walk ltac:(apply typed_update). backup. Qed.
End statements.

(** ** The services and the handlers *)

Section operations.
Context {E : Env} {HX : ShaHex}.

Abbreviation Typed := (Keeps DbTyped).

Lemma digest_typed h n ct : 0 ≤ n → typed_input (mkCreateFile (sha_hex h) n ct).
Proof. intros Hn. split_and!; simpl; [apply sha_hex_length | apply sha_hex_digits | done]. Qed.

Lemma hash_loop_total chunk rest : ∀ fuel i h total h' n,
  0 ≤ total → hash_loop fuel chunk i rest h total = Some (h', n) → 0 ≤ n.
Proof.
  intros fuel. revert rest. induction fuel as [|fuel IH]; intros [|b rest] i h total h' n Ht; simpl.
  1-3: by try intros [= <- <-].
  intros Hl. eapply IH; [|exact Hl]. lia.
Qed.
Lemma hash_file_typed path w w' hash size ct :
  hash_file_sha256 path w = (w', Ok (hash, size)) → typed_input (mkCreateFile hash size ct).
Proof.
  unfold hash_file_sha256. intros (data & w1 & _ & H)%bind_ok.
  destruct (hash_loop _ _ _ _ _ _) as [[h n]|] eqn:Hl; [|done].
  injection H as <- <- <-. by eapply digest_typed, hash_loop_total.
Qed.

Ltac typed_stmt :=
  idtac;
  match goal with
  | |- Guar _ (FileReference.create _) => apply typed_create_reference
  | |- Guar _ (FileLocation.create _) => apply typed_create_location
  | |- Guar _ (FileLocation.update_status _ _) => apply typed_update_location_status
  | |- Guar _ (FileLocation.update_status_by_file_and_storage _ _ _) =>
      apply typed_update_by_file_and_storage
  | |- Guar _ (FileLocation.touch_accessed _) => apply typed_touch
  | |- Guar _ (FileService.try_locations _ _ _) =>
      apply guar_try_locations; [apply _ | intros ? ? ?; assumption | apply typed_touch]
  | |- Guar _ (SyncTask.create _) => apply typed_create_task
  | |- Guar _ (SyncTask.update_status _ "completed" None) => apply typed_complete_task
  | |- Guar _ (SyncTask.supersede_failed_for _ _ _) => apply typed_supersede
  | |- Guar _ (SyncTask.claim_pending _ _) => apply typed_claim_pending
  | |- Guar _ (SyncTask.requeue_for_retry _ _) => apply typed_requeue
  | |- Guar _ (User.create _) => apply typed_create_user
  | |- Guar _ (sql_update_id _ (set_u_role _)) => apply typed_update_role
  | |- Guar _ (SharedLink.increment_download_count _) => apply typed_increment
  | |- Guar _ (SharedLink.deactivate _) => apply typed_deactivate
  | |- Guar _ (UploadSession.mark_status _ "aborted") => apply typed_abort
  | |- Guar _ (FileAccessEvent.spawn_record _) => apply typed_record; set_solver
  | |- Guar _ (BackupRecord.create _) => apply typed_create_backup
  | |- Guar _ (BackupRecord.mark_failed _ _) => apply typed_mark_failed
  | |- Guar _ (BackupRecord.mark_stale_running_as_failed _ _) => apply typed_mark_stale
  | |- Guar _ (Uploads.append_chunks _ _ _) => apply keeps_append_chunks
  | |- Guar _ (BulkService.add_entries _ _ _ _ _ _) => apply keeps_add_entries
  | |- Guar _ (sql_insert _) => apply typed_insert; by intros
  | |- Guar _ (sql_update _ _) => apply typed_update; by intros
  | |- Guar _ (sql_update_id _ _) => apply typed_update_id; by intros
  | |- Guar _ (sql_set_id _ _) => apply typed_set_id; by intros
  | |- Guar _ (sql_set_id_if _ _ _) => apply typed_set_id_if; by intros
  | |- Guar _ (sql_delete _) => apply typed_delete
  end.

Lemma typed_create_or_find c : typed_input c → Typed (File.create_or_find c).
Proof.
  intros Hc. unfold File.create_or_find.
  walk ltac:(idtac; match goal with |- Guar _ (File.create _) => by apply typed_create_file end).
Qed.

Ltac typed_files Hmd :=
  walk ltac:(first
    [ match goal with |- Guar _ (File.create_or_find _) => apply typed_create_or_find end
    | typed_stmt ]);
  try first [reflexivity | set_solver | exact Hmd].

Lemma typed_upload_file sec pid name ct data md :
  flat_metadata md → Typed (FileService.upload_file sec pid name ct data md).
Proof. intros Hmd. typed_files Hmd. apply digest_typed. lia. Qed.

Lemma typed_finalize_upload sec pid name ct tmp md :
  flat_metadata md → Typed (FileService.finalize_upload sec pid name ct tmp md).
Proof.
  intros Hmd. unfold FileService.finalize_upload.
  apply (keeps_bind _ (λ hs, typed_input (mkCreateFile hs.1 hs.2 ct))).
  - intros w w' [hash size] _. apply hash_file_typed.
  - by walk typed_stmt.
  - intros [hash size] Hf. typed_files Hmd.
Qed.

Lemma empty_metadata : flat_metadata (JObject []).
Proof. reflexivity. Qed.

Lemma read_metadata_flat chunks md : FilesApi.read_metadata chunks = Ok md → flat_metadata md.
Proof.
  unfold FilesApi.read_metadata, flat_metadata. destruct (FilesApi.read_chunks _ _ _); simpl; [|done..].
  destruct (utf8_valid _); [|done]. destruct (json_parse _) as [j|]; simpl; [|done].
  destruct (validate_flat_metadata j) as [[]|e|] eqn:Hj; simpl; [|done..]. by intros [= <-].
Qed.
Lemma read_fields_flat payload : ∀ file md file' md',
  flat_metadata md → FilesApi.read_fields file md payload = Ok (file', md') → flat_metadata md'.
Proof.
  induction payload as [|[e|field] payload IH]; intros file md file' md' Hmd; simpl.
  - by intros [= <- <-].
  - done.
  - destruct (String.eqb _ _).
    + destruct (FilesApi.read_metadata _) as [j|e|] eqn:Hj; simpl; [|done..].
      apply IH. by eapply read_metadata_flat.
    + destruct file as [f|]; [by apply IH|].
      destruct (FilesApi.read_chunks _ _ _); simpl; [|done..]. by apply IH.
Qed.

Lemma typed_api_upload sec user pid payload : Typed (FilesApi.upload_file sec user pid payload).
Proof.
  unfold FilesApi.upload_file. apply guar_bind; [apply _ | by walk typed_stmt | intros project].
  apply guar_bind; [apply _ | by walk typed_stmt | intros _].
  apply (keeps_bind _ (λ r : option (string * string * bytes) * Json, flat_metadata r.2)).
  - intros w w' [file md] _ H. m_inv. eapply read_fields_flat; [exact empty_metadata | exact H].
  - by walk typed_stmt.
  - intros [file md] Hmd. walk ltac:(idtac; match goal with
      |- Guar _ (FileService.upload_file _ _ _ _ _ _) => by apply typed_upload_file end).
Qed.

Lemma member_role_typed role :
  ProjectsApi.validate_member_role role = Ok tt → role ∈ ["member"; "writer"].
Proof.
  unfold ProjectsApi.validate_member_role.
  destruct (String.eqb_spec role "member"), (String.eqb_spec role "writer"); try done; set_solver.
Qed.

Lemma typed_add_member admin pid uid role : Typed (ProjectsApi.add_project_member admin pid uid role).
Proof.
  unfold ProjectsApi.add_project_member.
  do 2 (apply guar_bind; [apply _ | by walk typed_stmt | intros _]).
  apply (keeps_bind _ (λ _, role ∈ ["member"; "writer"])); [|by walk typed_stmt|].
  - intros w w' [] _ H. m_inv. by apply member_role_typed.
  - intros _ Hr. by apply typed_create_member.
Qed.

Lemma typed_change_member admin pid uid role :
  Typed (ProjectsApi.update_project_member admin pid uid role).
Proof.
  unfold ProjectsApi.update_project_member.
  apply (keeps_bind _ (λ _, role ∈ ["member"; "writer"])); [|by walk typed_stmt|].
  - intros w w' [] _ H. m_inv. by apply member_role_typed.
  - intros _ Hr. by apply typed_update_member.
Qed.

Lemma typed_restore id : Typed (TierService.restore_file id).
Proof.
  unfold TierService.restore_file.
  walk ltac:(idtac; first [ match goal with |- Guar _ (sql_update _ _) => apply typed_update end
                          | typed_stmt ]).
  match goal with H : row_typed _ |- _ => destruct H as [_ Hs] end. split; simpl; [set_solver | done].
Qed.

Lemma typed_create_shared_link user pid body :
  Typed (SharedLinksApi.create_shared_link user pid body).
Proof.
  unfold SharedLinksApi.create_shared_link.
  do 2 (apply guar_bind; [apply _ | by walk typed_stmt | intros ?]).
  apply (keeps_bind _ (λ _, ∀ m, clr_max_downloads body = Some m → 0 < m)); [|by walk typed_stmt|].
  - intros w w' [] _ H m Hm. m_inv. unfold SharedLinksApi.check_request in H. rewrite Hm in H.
    repeat (destruct (match _ with Some _ => _ | None => _ end); [done|]).
    destruct (m <=? 0) eqn:Hz; [done | lia].
  - intros _ Hm. walk ltac:(idtac; match goal with
      |- Guar _ (SharedLink.create _) => by apply typed_create_link end).
Qed.

Lemma when_some_ok {A} (o : option A) check a :
  BackupsApi.when_some o check = Ok tt → o = Some a → check a = Ok tt.
Proof. by intros H ->. Qed.
Lemma cron_ok e : BackupService.validate_cron e = Ok tt → is_Some (cron_parse e).
Proof. unfold BackupService.validate_cron. destruct (cron_parse e); [eauto | done]. Qed.
Lemma retention_ok n : BackupsApi.check_retention n = Ok tt → 1 ≤ n.
Proof. unfold BackupsApi.check_retention. destruct (n <? 1) eqn:Hn; [done | lia]. Qed.

(** The outcome of a check, for what follows. *)
Lemma typed_checked {A} (r : Result unit) (k : unit → M A) :
  (r = Ok tt → Typed (k tt)) → Typed (lift r ≫= k).
Proof.
  intros Hk. apply (keeps_bind _ (λ _, r = Ok tt)); [|by walk typed_stmt | by intros [] Hr; apply Hk].
  intros w w' [] _ H. by m_inv.
Qed.

Lemma typed_create_backup_config admin body : Typed (BackupsApi.create_backup_config admin body).
Proof.
  unfold BackupsApi.create_backup_config.
  do 6 (apply typed_checked; intros ?). apply guar_bind; [apply _ | by walk typed_stmt | intros _].
  apply typed_create_config. split_and!; [by apply cron_ok | |];
    intros x Hx; [apply retention_ok|]; by eapply when_some_ok.
Qed.

Lemma typed_update_backup_config admin id body :
  Typed (BackupsApi.update_backup_config admin id body).
Proof.
  unfold BackupsApi.update_backup_config.
  do 6 (apply typed_checked; intros ?). apply guar_bind; [apply _ | by walk typed_stmt | intros _].
  apply typed_update_config. split_and!; intros x Hx; [apply cron_ok | apply retention_ok|];
    by eapply when_some_ok.
Qed.

Lemma typed_execute_backup dump id path sid :
  Typed (BackupService.execute_backup_and_update dump id path sid).
Proof.
  unfold BackupService.execute_backup_and_update. apply (keeps_try_with _ (λ n, 0 ≤ n)).
  - intros w w' n _ H. unfold BackupService.execute_backup in H. m_inv. lia.
  - by walk typed_stmt.
  - intros n. apply typed_mark_completed.
  - by walk typed_stmt.
Qed.


(** ** Resumable uploads *)

Lemma typed_create_upload settings user pid req : Typed (Uploads.create settings user pid req).
Proof.
  unfold Uploads.create. do 2 (apply guar_bind; [apply _ | by walk typed_stmt | intros ?]).
  match goal with |- context [0 <? ?n] => rename n into total end.
  apply (keeps_bind _ (λ _, 0 < total)); [|by walk typed_stmt|].
  { intros w w' [] _ H. m_inv. lia. }
  intros _ Htotal. apply guar_bind; [apply _ | by walk typed_stmt | intros _]. cbv zeta.
  apply (keeps_bind _ flat_metadata); [|by walk typed_stmt|].
  - intros w w' md _ H. m_inv. unfold Uploads.session_metadata in H.
    destruct (Uploads.non_empty _) as [text|]; [|injection H as <-; exact empty_metadata].
    destruct (json_parse text) as [j|]; simpl in H; [|done]. unfold flat_metadata.
    destruct (validate_flat_metadata j) as [[]|e|] eqn:Hj; simpl in H; [|done..]. congruence.
  - intros md Hmd. walk ltac:(idtac; match goal with
      |- Guar _ (UploadSession.create _) => by apply typed_create_session end).
Qed.

Lemma append_chunks_fit session payload : ∀ written w w' n,
  0 ≤ written → ss_offset_bytes session + written ≤ ss_total_size session →
  Uploads.append_chunks session written payload w = (w', Ok n) →
  0 ≤ n ∧ ss_offset_bytes session + n ≤ ss_total_size session.
Proof.
  intros written w w' n H0 Hfit H%append_chunks_grows. lia.
Qed.

(** Finalising an upload leaves the sessions alone. *)
Lemma finalize_keeps_sessions t sec pid name ct tmp md :
  Keeps (λ d, upload_sessions d = t) (FileService.finalize_upload sec pid name ct tmp md).
Proof.
  walk ltac:(idtac; match goal with
  | |- Guar _ (sql_insert _) => apply (keeps_same _ upload_sessions); [by intros ? ? -> | solve [guar]]
  end).
Qed.


Definition stored (id : Uuid) (s : UploadSession) (d : Db) : Prop :=
  upload_sessions d !! id = Some s.

(** Once the last byte has arrived. *)
Lemma typed_finish sec session id tmp w :
  stored id session (db w) → ss_offset_bytes session = ss_total_size session →
  preserves (on_db DbTyped) w (Uploads.finish sec session id tmp w).1.
Proof.
  intros Hs Hend Hw. unfold Uploads.finish. rewrite bind_unfold.
  assert (flat_metadata (ss_metadata session)) as Hmd by apply (typed_sessions _ Hw _ _ Hs).
  pose proof (typed_finalize_upload sec (ss_project_id session) (ss_original_name session)
    (ss_content_type session) tmp _ Hmd w Hw) as Hf.
  pose proof (finalize_keeps_sessions (upload_sessions (db w)) sec (ss_project_id session)
    (ss_original_name session) (ss_content_type session) tmp (ss_metadata session) w eq_refl) as Hk.
  destruct (FileService.finalize_upload _ _ _ _ _ _ w) as [w1 [x|e|]]; simpl in *; [|done..].
  assert (stored id session (db w1)) as Hs1 by (unfold stored; by rewrite Hk).
  pose proof (typed_finish_at id session w1 Hs1 Hend Hf) as Hm. rewrite bind_unfold.
  destruct (UploadSession.mark_status _ _ w1) as [w2 [[]|e|]]; simpl in *; [|done..].
  assert (Typed (ignore (fs_remove tmp))) as Hr by by walk typed_stmt. exact (Hr w2 Hm).
Qed.

Lemma quiet_append_chunks session payload : ∀ written,
  Guar (same db) (Uploads.append_chunks session written payload).
Proof.
  induction payload as [|[e|chunk] payload IH]; intros written; simpl; [guar..|].
  unfold Uploads.append_chunks, Uploads.fs_append, fs_guard, fs_read.
  repeat first [apply IH | apply guar_modify; intros ?; by try case_match | guar_step].
Qed.

(** Counting what was written, and finishing when it was the last of it. *)
Lemma typed_advance sec id session n w :
  stored id session (db w) → 0 ≤ n → ss_offset_bytes session + n ≤ ss_total_size session →
  preserves (on_db DbTyped) w
    ((updated ← or_throw Uploads.concurrent_patch
        (UploadSession.advance_offset id (ss_offset_bytes session) (ss_offset_bytes session + n));
      (if ss_total_size updated <=? ss_offset_bytes updated
       then Uploads.finish sec updated id (ss_temp_path session) else mret tt);;
      mret (ss_offset_bytes updated)) w).1.
Proof.
  intros Hs Hn Hfit Hw.
  pose proof (typed_advance_at id session (ss_offset_bytes session + n) w Hs ltac:(lia) Hw) as Ha.
  unfold or_throw. rewrite bind_unfold, bind_unfold.
  destruct (UploadSession.advance_offset _ _ _ w) as [w1 [[s|]|e|]] eqn:Hadv; simpl in *; [|done..].
  unfold UploadSession.advance_offset in Hadv. apply bind_ok in Hadv as (t & w2 & [= <- <-] & Hadv).
  apply sql_set_id_if_ok in Hadv as (r & Hr & _ & -> & ->). simpl in Hr.
  unfold stored in Hs. assert (r = session) as -> by congruence. rewrite bind_unfold.
  destruct (_ <=? _) eqn:Hend; [|exact Ha]. simpl in Hend.
  assert (ss_offset_bytes session + n = ss_total_size session) as Heq by lia.
  match goal with |- context [Uploads.finish sec ?s id ?p ?w2] =>
    pose proof (typed_finish sec s id p w2) as Hf;
    destruct (Uploads.finish sec s id p w2) as [w3 [[]|e|]] end;
    (apply Hf; [unfold stored; simpl; by rewrite lookup_insert_eq | done | done]).
Qed.

Ltac reading :=
  eapply (keeps_after_reading _ (stored _ _) (const True));
  [ unfold fs_guard, fs_read; guar | by intros
  | let v := fresh in let H := fresh in intros ? v H _; revert v H ].

Lemma typed_patch sec user id req payload : Typed (Uploads.patch sec user id req payload).
Proof.
  intros w. unfold Uploads.patch.
  apply (keeps_after_reading _ (λ d, d = db w) (λ s, stored id s (db w))); [| |intros session w1 <-|done].
  { unfold Uploads.load_owned_session, UploadSession.find_by_id. guar. }
  { intros w0 w' s Hd _ H. unfold Uploads.load_owned_session, UploadSession.find_by_id in H.
    m_inv. unfold stored. by rewrite <- Hd. }
  revert w1. do 4 reading.
  apply (keeps_after_reading _ (stored id session)
    (λ n, 0 ≤ n ∧ ss_offset_bytes session + n ≤ ss_total_size session)).
  - apply quiet_append_chunks.
  - intros w1 w2 n Hs Hw. apply append_chunks_fit; [done|].
    destruct (typed_sessions _ Hw _ _ Hs) as (_ & ? & _). lia.
  - intros n w1 Hs [Hn Hfit]. by apply typed_advance.
Qed.

(** The operations whose rows need an argument, and those that call them. *)
Ltac typed_operation :=
  idtac;
  match goal with
  | |- Guar _ (FilesApi.upload_file _ _ _ _) => apply typed_api_upload
  | |- Guar _ (ProjectsApi.add_project_member _ _ _ _) => apply typed_add_member
  | |- Guar _ (ProjectsApi.update_project_member _ _ _ _) => apply typed_change_member
  | |- Guar _ (TierService.restore_file _) => apply typed_restore
  | |- Guar _ (SharedLinksApi.create_shared_link _ _ _) => apply typed_create_shared_link
  | |- Guar _ (BackupsApi.create_backup_config _ _) => apply typed_create_backup_config
  | |- Guar _ (BackupsApi.update_backup_config _ _ _) => apply typed_update_backup_config
  | |- Guar _ (BackupService.execute_backup_and_update _ _ _ _) => apply typed_execute_backup
  | |- Guar _ (Uploads.create _ _ _ _) => apply typed_create_upload
  | |- Guar _ (Uploads.patch _ _ _ _ _) => apply typed_patch
  | |- _ => typed_stmt
  end.

Lemma operation_typed s A (m : M A) : operation s A m → Typed m.
Proof. intros []; unfold Keeps; walk typed_operation; try first [reflexivity | set_solver]. Qed.

End operations.
