(* ===== verification/Integrity.v ===== *)
(** * Integrity of the file tables

    What holds of the rows of files, file_references, file_locations and
    sync_tasks between any two statements: rows sit under their primary key,
    no two files have the same hash, no file has two copies recorded on one
    storage, and nothing refers to a file that is not there. Every statement
    the services execute preserves it, hence so do the services. *)

From S2P Require Import Prelude Json Schema Env World Tables Laws Projects LocalDisk Registry.
From S2P Require Import Storages Files SyncTasks Users Links Search Resolver FileService.
From S2P Require Import TierService SyncWorker Frames Concrete Scenario.

Record FilesOk (d : Db) : Prop := {
  ok_file_key id f : files d !! id = Some f → f_id f = id;
  ok_file_hash i j f g : files d !! i = Some f → files d !! j = Some g →
    f_hash_sha256 f = f_hash_sha256 g → i = j;
  ok_ref_key id r : file_references d !! id = Some r → fr_id r = id;
  ok_ref_file id r : file_references d !! id = Some r → is_Some (files d !! fr_file_id r);
  ok_loc_key id l : file_locations d !! id = Some l → fl_id l = id;
  ok_loc_file id l : file_locations d !! id = Some l → is_Some (files d !! fl_file_id l);
  ok_loc_unique i j l k : file_locations d !! i = Some l → file_locations d !! j = Some k →
    fl_file_id l = fl_file_id k → fl_storage_id l = fl_storage_id k → i = j;
  ok_task_key id t : sync_tasks d !! id = Some t → tk_id t = id;
  ok_task_file id t : sync_tasks d !! id = Some t → is_Some (files d !! tk_file_id t)
}.

(** The tables the invariant speaks of. *)
Definition file_tables (d : Db) :
    gmap Uuid File * gmap Uuid FileReference * gmap Uuid FileLocation * gmap Uuid SyncTask :=
  (files d, file_references d, file_locations d, sync_tasks d).

Lemma FilesOk_tables d d' : file_tables d' = file_tables d → FilesOk d → FilesOk d'.
Proof.
  unfold file_tables. intros [= Hf Hr Hl Ht] [].
  constructor; rewrite ?Hf, ?Hr, ?Hl, ?Ht; assumption.
Qed.

Lemma FilesOk_empty d : file_tables d = (∅, ∅, ∅, ∅) → FilesOk d.
Proof.
  unfold file_tables. intros [= Hf Hr Hl Ht].
  constructor; rewrite ?Hf, ?Hr, ?Hl, ?Ht; intros *; by rewrite lookup_empty.
Qed.

(** ** The effect of a changed table *)

(** The condition of an INSERT, constraint by constraint. *)
Ltac no_violation H :=
  repeat (apply first_violation_cons in H as [? H]); clear H;
  repeat match goal with
  | H : dangling _ _ = false |- _ => apply dangling_false in H
  | H : clash _ _ _ _ = false |- _ => rewrite clash_false in H
  end.

Lemma FilesOk_insert_file d f :
  FilesOk d → files d !! f_id f = None → violates f d = None →
  FilesOk (set_files (<[f_id f := f]> (files d)) d).
Proof.
  intros Hd Hnew Hv. no_violation Hv.
  assert (∀ j g, files d !! j = Some g → f_hash_sha256 g ≠ f_hash_sha256 f) as Hh.
  { intros j g Hg Heq. assert (f_id g = f_id f) as Hid.
    { match goal with Hc : ∀ i r, _ → _ → f_id r = _ |- _ => apply (Hc j g Hg) end.
      by apply String.eqb_eq. }
    rewrite (ok_file_key d Hd _ _ Hg) in Hid. congruence. }
  assert (∀ j, is_Some (files d !! j) → is_Some (<[f_id f := f]> (files d) !! j)) as Hm.
  { intros j [g Hg]. rewrite lookup_insert. case_decide; eauto. }
  destruct Hd. constructor; simpl; eauto.
  - intros id g. rewrite lookup_insert. case_decide; naive_solver.
  - intros i j a b. rewrite !lookup_insert.
    repeat case_decide; intros; simplify_eq; try done; [exfalso; eapply Hh; eauto.. | eauto].
Qed.

(** A reference, new or changed, to a file that exists. *)
Lemma FilesOk_put_ref d r :
  FilesOk d → is_Some (files d !! fr_file_id r) →
  FilesOk (set_file_references (<[fr_id r := r]> (file_references d)) d).
Proof.
  intros [] Hf. constructor; simpl; eauto.
  - intros id g. rewrite lookup_insert. case_decide; naive_solver.
  - intros id g. rewrite lookup_insert. case_decide; naive_solver.
Qed.

Lemma FilesOk_put_task d t :
  FilesOk d → is_Some (files d !! tk_file_id t) →
  FilesOk (set_sync_tasks (<[tk_id t := t]> (sync_tasks d)) d).
Proof.
  intros [] Hf. constructor; simpl; eauto.
  - intros id g. rewrite lookup_insert. case_decide; naive_solver.
  - intros id g. rewrite lookup_insert. case_decide; naive_solver.
Qed.

Lemma FilesOk_put_location d l :
  FilesOk d → is_Some (files d !! fl_file_id l) →
  (∀ i k, file_locations d !! i = Some k → fl_file_id k = fl_file_id l →
     fl_storage_id k = fl_storage_id l → i = fl_id l) →
  FilesOk (set_file_locations (<[fl_id l := l]> (file_locations d)) d).
Proof.
  intros [] Hf Hu. constructor; simpl; eauto.
  - intros id g. rewrite lookup_insert. case_decide; naive_solver.
  - intros id g. rewrite lookup_insert. case_decide; naive_solver.
  - intros i j a b. rewrite !lookup_insert.
    repeat case_decide; intros; simplify_eq; try done; [symmetry; eauto | eauto | eauto].
Qed.

(** Rows changed in place, keys kept. *)
Definition keeps_location (f : FileLocation → FileLocation) : Prop := ∀ l,
  fl_id (f l) = fl_id l ∧ fl_file_id (f l) = fl_file_id l ∧ fl_storage_id (f l) = fl_storage_id l.
Definition keeps_task (f : SyncTask → SyncTask) : Prop := ∀ t,
  tk_id (f t) = tk_id t ∧ tk_file_id (f t) = tk_file_id t.

Lemma FilesOk_map_locations d f :
  FilesOk d → keeps_location f → FilesOk (set_file_locations (f <$> file_locations d) d).
Proof.
  intros [] Hk. constructor; simpl; eauto.
  - intros id l. rewrite lookup_fmap, fmap_Some. intros (k & Hl & ->).
    destruct (Hk k) as (-> & _). eauto.
  - intros id l. rewrite lookup_fmap, fmap_Some. intros (k & Hl & ->).
    destruct (Hk k) as (_ & -> & _). eauto.
  - intros i j a b. rewrite !lookup_fmap, !fmap_Some. intros (k & Hl & ->) (k' & Hl' & ->).
    destruct (Hk k) as (_ & -> & ->), (Hk k') as (_ & -> & ->). eauto.
Qed.

Lemma FilesOk_map_tasks d f :
  FilesOk d → keeps_task f → FilesOk (set_sync_tasks (f <$> sync_tasks d) d).
Proof.
  intros [] Hk. constructor; simpl; eauto.
  - intros id l. rewrite lookup_fmap, fmap_Some. intros (k & Hl & ->).
    destruct (Hk k) as (-> & _). eauto.
  - intros id l. rewrite lookup_fmap, fmap_Some. intros (k & Hl & ->).
    destruct (Hk k) as (_ & ->). eauto.
Qed.

(** Fewer references, locations and tasks, and no file lost that one names. *)
Lemma FilesOk_shrink d d' :
  FilesOk d →
  files d' ⊆ files d → file_references d' ⊆ file_references d →
  file_locations d' ⊆ file_locations d → sync_tasks d' ⊆ sync_tasks d →
  (∀ id r, file_references d' !! id = Some r → is_Some (files d' !! fr_file_id r)) →
  (∀ id l, file_locations d' !! id = Some l → is_Some (files d' !! fl_file_id l)) →
  (∀ id t, sync_tasks d' !! id = Some t → is_Some (files d' !! tk_file_id t)) →
  FilesOk d'.
Proof.
  intros [] Hf Hr Hl Ht ? ? ?.
  assert (∀ i x, files d' !! i = Some x → files d !! i = Some x) by eauto using lookup_weaken.
  assert (∀ i x, file_references d' !! i = Some x → file_references d !! i = Some x) by eauto using lookup_weaken.
  assert (∀ i x, file_locations d' !! i = Some x → file_locations d !! i = Some x) by eauto using lookup_weaken.
  assert (∀ i x, sync_tasks d' !! i = Some x → sync_tasks d !! i = Some x) by eauto using lookup_weaken.
  constructor; eauto.
Qed.

(** Deleting files and what their deletion cascades to. *)
Lemma lookup_forget_files ids d d' :
  delete_cascade (R := File) ids d = Some d' →
  files d' = files d ∧ projects d' = projects d ∧ storages d' = storages d ∧
  (∀ i r, file_references d' !! i = Some r ↔
     file_references d !! i = Some r ∧ fr_file_id r ∉ ids) ∧
  (∀ i l, file_locations d' !! i = Some l ↔
     file_locations d !! i = Some l ∧ fl_file_id l ∉ ids) ∧
  (∀ i t, sync_tasks d' !! i = Some t ↔ sync_tasks d !! i = Some t ∧ tk_file_id t ∉ ids).
Proof.
  revert d. induction ids as [|x ids IH]; intros d.
  - intros [= <-]. repeat split; try tauto; intros; try (split; [done|]); set_solver.
  - unfold delete_cascade. simpl. intros (Hf & Hp & Hs & Hr & Hl & Ht)%IH. simpl in *.
    split_and!; [done..| | |]; intros i r.
    + rewrite Hr, lookup_keep, uuid_ne_true. set_solver.
    + rewrite Hl, lookup_keep, uuid_ne_true. set_solver.
    + rewrite Ht, lookup_keep, uuid_ne_true. set_solver.
Qed.

(** ** Every statement preserves it *)

Section guar.
Context {E : Env}.

Definition WorldOk (w : World) : Prop := FilesOk (db w).
Abbreviation Keeps := (Guar (preserves WorldOk)).

(** A statement on another table. *)
Lemma keeps_frame {A} (m : M A) : Guar (same (λ w, file_tables (db w))) m → Keeps m.
Proof. intros Hm w Hw. apply (FilesOk_tables (db w)); [apply Hm | done]. Qed.

Section statement.
Context {R : Type} `{Table R}.

Lemma keeps_insert mk :
  (∀ id t, row_id (mk id t) = id) →
  (∀ d r, FilesOk d → tbl d !! row_id r = None → violates r d = None →
     FilesOk (set_tbl (<[row_id r := r]> (tbl d)) d)) →
  Keeps (sql_insert mk).
Proof.
  intros Hid Hput w Hw. unfold WorldOk, sql_insert, insert_row. m_run.
  specialize (Hput (db w) (mk (gen_uuid (draws w)) (now w)) Hw). rewrite Hid in Hput.
  destruct (tbl (db w) !! _); [done|]. destruct (violates _ _); [done|]. simpl. auto.
Qed.

Lemma keeps_set_id_if id P f :
  (∀ d r t, FilesOk d → tbl d !! id = Some r →
     FilesOk (set_tbl (<[id := touch t (f r)]> (tbl d)) d)) →
  Keeps (sql_set_id_if id P f).
Proof.
  intros Hput w Hw. unfold WorldOk, sql_set_id_if.
  destruct (tbl (db w) !! id) eqn:Hr; [|done]. destruct (P _); [|done]. simpl. auto.
Qed.
End statement.

Lemma keeps_create_file c : Keeps (File.create c).
Proof. apply keeps_insert; [done | apply FilesOk_insert_file]. Qed.

Lemma keeps_create_ref c : Keeps (FileReference.create c).
Proof.
  apply keeps_insert; [done|]. intros d r Hd _ Hv. no_violation Hv. by apply FilesOk_put_ref.
Qed.

Lemma keeps_create_task c : Keeps (SyncTask.create c).
Proof.
  apply keeps_insert; [done|]. intros d r Hd _ Hv. no_violation Hv. by apply FilesOk_put_task.
Qed.

Lemma keeps_create_location c : Keeps (FileLocation.create c).
Proof.
  apply keeps_insert; [done|]. intros d r Hd _ Hv. no_violation Hv.
  apply FilesOk_put_location; [done..|]. intros i k Hk Hf Hs.
  rewrite <- (ok_loc_key _ Hd _ _ Hk).
  match goal with Hc : ∀ i r, _ → _ → fl_id r = _ |- _ => apply (Hc i k Hk) end.
  rewrite Hf, Hs, !N.eqb_refl. done.
Qed.

Lemma keeps_set_ref id v : Keeps (sql_set_id id (set_fr_metadata v)).
Proof.
  apply keeps_set_id_if. intros d r t Hd Hr.
  rewrite <- (ok_ref_key _ Hd _ _ Hr) at 1.
  apply (FilesOk_put_ref d (set_fr_metadata v r)); [done|].
  apply (ok_ref_file _ Hd _ _ Hr).
Qed.

Lemma keeps_set_location id f : keeps_location f → Keeps (sql_set_id id f).
Proof.
  intros Hf. apply keeps_set_id_if. intros d l t Hd Hl. destruct (Hf l) as (Hi & Hfl & Hs).
  rewrite <- (ok_loc_key _ Hd _ _ Hl) at 1. rewrite <- Hi.
  change (FilesOk (set_file_locations (<[fl_id (f l) := f l]> (file_locations d)) d)).
  apply FilesOk_put_location; [done|..].
  - rewrite Hfl. apply (ok_loc_file _ Hd _ _ Hl).
  - rewrite Hfl, Hs, Hi, (ok_loc_key _ Hd _ _ Hl). intros i k Hk ? ?.
    apply (ok_loc_unique _ Hd i id k l); done.
Qed.

Lemma keeps_set_task id f : keeps_task f → Keeps (sql_set_id id f).
Proof.
  intros Hf. apply keeps_set_id_if. intros d l t Hd Hl. destruct (Hf l) as (Hi & Hfl).
  rewrite <- (ok_task_key _ Hd _ _ Hl) at 1.
  rewrite <- Hi. set (l' := touch t (f l)).
  change (FilesOk (set_sync_tasks (<[tk_id l' := l']> (sync_tasks d)) d)).
  apply FilesOk_put_task; [done|]. simpl. rewrite Hfl. apply (ok_task_file _ Hd _ _ Hl).
Qed.

Lemma keeps_update_locations P f :
  keeps_location f → Keeps (sql_update (R := FileLocation) P f).
Proof.
  intros Hf w Hw. apply FilesOk_map_locations; [done|].
  intros l. destruct (P l); [apply Hf | done].
Qed.

Lemma keeps_update_tasks P f : keeps_task f → Keeps (sql_update (R := SyncTask) P f).
Proof.
  intros Hf w Hw. apply FilesOk_map_tasks; [done|].
  intros l. destruct (P l); [apply Hf | done].
Qed.

Lemma keeps_delete_refs P : Keeps (sql_delete (R := FileReference) P).
Proof.
  intros w Hw. unfold WorldOk, sql_delete.
  assert (∀ ids d, delete_cascade (R := FileReference) ids d = Some d) as ->
    by (intros ids d; induction ids; done).
  pose proof Hw as []. eapply (FilesOk_shrink (db w)); [done|..]; simpl; try done.
  - apply map_filter_subseteq.
  - intros id r [Hr _]%map_lookup_filter_Some. eauto.
Qed.

Lemma keeps_delete_locations P : Keeps (sql_delete (R := FileLocation) P).
Proof.
  intros w Hw. unfold WorldOk, sql_delete.
  assert (∀ ids d, delete_cascade (R := FileLocation) ids d = Some d) as ->
    by (intros ids d; induction ids; done).
  pose proof Hw as []. eapply (FilesOk_shrink (db w)); [done|..]; simpl; try done.
  - apply map_filter_subseteq.
  - intros id r [Hr _]%map_lookup_filter_Some. eauto.
Qed.

Lemma keeps_delete_files P : Keeps (sql_delete (R := File) P).
Proof.
  intros w Hw. unfold WorldOk, sql_delete.
  destruct (delete_cascade _ _) as [d'|] eqn:Hd; [|done].
  apply lookup_forget_files in Hd as (Hf & _ & _ & Hr & Hl & Ht). simpl in *.
  set (gone := map f_id _) in *.
  assert (∀ fid, is_Some (files (db w) !! fid) → fid ∉ gone → is_Some (files d' !! fid)) as Hstay.
  { intros fid [f Hfid] Hn. rewrite Hf. exists f. apply map_lookup_filter_Some. split; [done|].
    apply not_true_iff_false. intros HP. apply Hn, list_elem_of_fmap. exists f.
    split; [symmetry; by apply (ok_file_key _ Hw)|].
    rewrite list_elem_of_filter, elem_of_rows. eauto. }
  pose proof Hw as []. eapply FilesOk_shrink; [exact Hw|..].
  - rewrite Hf. apply map_filter_subseteq.
  - apply map_subseteq_spec. intros i r. rewrite Hr. tauto.
  - apply map_subseteq_spec. intros i r. rewrite Hl. tauto.
  - apply map_subseteq_spec. intros i r. rewrite Ht. tauto.
  - intros i r. rewrite Hr. naive_solver.
  - intros i r. rewrite Hl. naive_solver.
  - intros i r. rewrite Ht. naive_solver.
Qed.

(** ** The services *)

Lemma keeps_fs w f : preserves WorldOk w (set_fs f w).
Proof. by intros ?. Qed.
Lemma keeps_remote w r : preserves WorldOk w (set_remote r w).
Proof. by intros ?. Qed.

Lemma keeps_touch id : Keeps (FileLocation.touch_accessed id).
Proof.
  unfold FileLocation.touch_accessed. apply guar_bind; [apply _ | guar | intros t].
  apply guar_bind; [apply _ | by apply keeps_set_location | intros; guar].
Qed.

Lemma with_status_keeps s t : keeps_location (FileLocation.with_status s t).
Proof. intros l. unfold FileLocation.with_status. by case_match. Qed.

Lemma integral_transaction {A} (m : M A) : Keeps m → Keeps (transaction m).
Proof.
  intros Hm w Hw. specialize (Hm w Hw). unfold transaction, WorldOk in *.
  by destruct (m w) as [w' []].
Qed.

Ltac io_premise := solve [exact keeps_fs | exact keeps_remote | apply _].
Ltac keeps :=
  repeat first
    [ apply keeps_create_file | apply keeps_create_ref | apply keeps_create_task
    | apply keeps_create_location | apply keeps_set_ref
    | apply keeps_set_location; [done || apply with_status_keeps]
    | apply keeps_set_task; [done]
    | apply keeps_update_locations; [done || apply with_status_keeps]
    | apply keeps_update_tasks; [done]
    | apply keeps_delete_refs | apply keeps_delete_locations | apply keeps_delete_files
    | apply keeps_touch | apply integral_transaction
    | apply guar_resolve_project_backend; io_premise
    | apply guar_be_upload; io_premise
    | apply guar_be_upload_from_file; io_premise
    | apply guar_be_download_to_file; io_premise
    | apply guar_hash_file | apply guar_find_primary | apply guar_pick_source
    | apply guar_registry_contains | apply guar_registry_get
    | apply guar_fs_guard | apply guar_fs_remove; io_premise
    | apply guar_cleanup_orphan; io_premise
    | guar_step ].

Lemma keeps_create_or_find c : Keeps (File.create_or_find c).
Proof. unfold File.create_or_find, File.find_by_hash. keeps. Qed.

Lemma keeps_primary_location f s p : Keeps (FileService.create_primary_location f s p).
Proof. unfold FileService.create_primary_location. keeps. Qed.

Lemma keeps_record_references pid f n s name md l :
  Keeps (FileService.record_references_and_sync pid f n s name md l).
Proof.
  unfold FileService.record_references_and_sync, FileService.schedule_target,
    FileLocation.find_all_for_file. keeps.
Qed.

Lemma keeps_upload_file sec pid name ct data md :
  Keeps (FileService.upload_file sec pid name ct data md).
Proof.
  unfold FileService.upload_file, Storage.list_for_project.
  repeat first [apply keeps_create_or_find | apply keeps_primary_location
               | apply keeps_record_references | progress keeps].
Qed.

Lemma keeps_finalize_upload sec pid name ct tmp md :
  Keeps (FileService.finalize_upload sec pid name ct tmp md).
Proof.
  unfold FileService.finalize_upload, Storage.list_for_project.
  repeat first [apply keeps_create_or_find | apply keeps_primary_location
               | apply keeps_record_references | progress keeps].
Qed.

Lemma keeps_download_file sec id : Keeps (FileService.download_file sec id).
Proof. apply guar_download_file; [apply _ | exact keeps_remote | exact keeps_touch]. Qed.

Lemma keeps_generate_temp_links sec id n b o :
  Keeps (FileService.generate_temp_links sec id n b o).
Proof. apply guar_generate_temp_links; [apply _ | exact keeps_remote | exact keeps_touch]. Qed.

Lemma keeps_bulk_delete pid fs : Keeps (FileService.bulk_delete pid fs).
Proof.
  unfold FileService.bulk_delete, FileService.bulk_delete_tx, execute_bulk_delete,
    File.find_orphaned_from_ids, FileService.collect_orphan, FileService.delete_orphan,
    FileLocation.find_all_for_file. keeps.
Qed.

Lemma keeps_claim_pending n m : Keeps (SyncTask.claim_pending n m).
Proof.
  unfold SyncTask.claim_pending, SyncTask.fetch_candidates, SyncTask.try_claim. keeps.
Qed.

Lemma keeps_requeue_for_retry id e : Keeps (SyncTask.requeue_for_retry id e).
Proof. unfold SyncTask.requeue_for_retry. keeps. Qed.

Lemma keeps_resolve_backend sec sid pid : Keeps (SyncWorker.resolve_backend sec sid pid).
Proof. unfold SyncWorker.resolve_backend, Storage.find_by_id. keeps. Qed.

Lemma keeps_finalize_task sec p tmp t : Keeps (SyncWorker.finalize_task sec p tmp t).
Proof.
  unfold SyncWorker.finalize_task, SyncWorker.record_location, SyncTask.update_status,
    SyncTask.supersede_failed_for, SyncTask.release_lock,
    FileLocation.update_status_by_file_and_storage.
  repeat first [apply keeps_resolve_backend | apply keeps_requeue_for_retry | progress keeps].
Qed.

Lemma keeps_poll_and_process sec dir n : Keeps (SyncWorker.poll_and_process sec dir n).
Proof.
  unfold SyncWorker.poll_and_process, SyncWorker.process_batch, SyncWorker.download_source,
    SyncWorker.fail_all, SyncWorker.requeue, SyncTask.release_lock, FileLocation.find_all_for_file.
  repeat first [apply keeps_claim_pending | apply keeps_resolve_backend
    | apply keeps_requeue_for_retry | apply keeps_finalize_task | progress keeps].
Qed.

Lemma keeps_create_archive_tasks : Keeps TierService.create_archive_tasks.
Proof.
  unfold TierService.create_archive_tasks, TierService.find_archivable_files,
    TierService.archive_one, TierService.find_cold_storage.
  keeps.
Qed.

Lemma keeps_scan_and_archive : Keeps TierService.scan_and_archive.
Proof.
  unfold TierService.scan_and_archive, TierService.process_completed_archives,
    TierService.mark_archived, FileLocation.update_status.
  repeat first [apply keeps_create_archive_tasks | progress keeps].
Qed.

Lemma keeps_restore_file id : Keeps (TierService.restore_file id).
Proof. unfold TierService.restore_file, File.find_by_id. keeps. Qed.

Lemma keeps_delete_reference fid pid :
  Keeps (FileReference.delete_by_file_and_project fid pid).
Proof. unfold FileReference.delete_by_file_and_project. keeps. Qed.

Lemma keeps_update_metadata id md : Keeps (FileReference.update_metadata id md).
Proof. unfold FileReference.update_metadata. keeps. Qed.
End guar.
