(* ===== verification/SystemSpec.v ===== *)
(** * Invariants of the running system

    What holds of the database whatever the servers do, proved operation by
    operation: the integrity of the file tables (Integrity.v) and the types of
    the rows (Typing.v, TypingSpec.v). *)

From S2P Require Import Prelude Json Schema Env World Tables Laws Projects LocalDisk Registry Storages Files SyncTasks Users Links Backups Search Resolver FileService TierService BulkService SharedLinkService BackupService SyncWorker Auth Access Uploads ApiProjects ApiFiles ApiBackups ApiBulk Config Server System Frames SystemLaws Typing TypingSpec Integrity Concrete Scenario.

Section files.
Context {E : Env}.

Lemma forget_user_files id d d' : forget_user id d = Some d' → file_tables d' = file_tables d.
Proof. unfold forget_user. by destruct (exists_row _ _); intros [= <-]. Qed.

Ltac elsewhere :=
  apply (keeps_same FilesOk file_tables); [exact FilesOk_tables | solve [guar]].

Ltac files_stmt :=
  idtac;
  match goal with
  | |- Guar _ (File.create _) => apply keeps_create_file
  | |- Guar _ (FileReference.create _) => apply keeps_create_ref
  | |- Guar _ (FileLocation.create _) => apply keeps_create_location
  | |- Guar _ (SyncTask.create _) => apply keeps_create_task
  | |- Guar _ (FileService.upload_file _ _ _ _ _ _) => apply keeps_upload_file
  | |- Guar _ (FileService.finalize_upload _ _ _ _ _ _) => apply keeps_finalize_upload
  | |- Guar _ (FileService.download_file _ _) => apply keeps_download_file
  | |- Guar _ (FileService.generate_temp_links _ _ _ _ _) => apply keeps_generate_temp_links
  | |- Guar _ (FileService.bulk_delete _ _) => apply keeps_bulk_delete
  | |- Guar _ (FileService.try_locations _ _ _) =>
      apply guar_try_locations; [apply _ | exact keeps_remote | exact keeps_touch]
  | |- Guar _ (SyncWorker.poll_and_process _ _ _) => apply keeps_poll_and_process
  | |- Guar _ TierService.scan_and_archive => apply keeps_scan_and_archive
  | |- Guar _ (TierService.restore_file _) => apply keeps_restore_file
  | |- Guar _ (FileReference.delete_by_file_and_project _ _) => apply keeps_delete_reference
  | |- Guar _ (FileLocation.touch_accessed _) => apply keeps_touch
  | |- Guar _ (Uploads.append_chunks _ _ _) => apply keeps_append_chunks
  | |- Guar _ (BulkService.add_entries _ _ _ _ _ _) => apply keeps_add_entries
  | |- Guar _ (sql_insert _) => elsewhere
  | |- Guar _ (sql_update _ _) => elsewhere
  | |- Guar _ (sql_update_id _ _) => elsewhere
  | |- Guar _ (sql_set_id _ _) => elsewhere
  | |- Guar _ (sql_set_id_if _ _ _) => elsewhere
  | |- Guar _ (sql_delete (R := User) _) =>
      apply (keeps_same FilesOk file_tables); [exact FilesOk_tables|];
      apply guar_sql_delete_same; [done | exact forget_user_files]
  | |- Guar _ (sql_delete _) =>
      apply (keeps_same FilesOk file_tables); [exact FilesOk_tables|];
      apply guar_sql_delete_same; [done | by intros ? ? ? [= <-]]
  end.

Lemma operation_keeps_files s A (m : M A) : operation s A m → Keeps FilesOk m.
Proof. intros []; unfold Keeps; walk files_stmt. Qed.

(** Starting from empty file tables, whatever requests, background tasks
    and worker rounds run, on any number of servers, and whether they succeed,
    fail or panic half-way, content is stored under one file row per hash,
    every reference, copy and task names an existing file, and a storage holds
    at most one recorded copy of a file. *)
Theorem files_integrity w w' :
  file_tables (db w) = (∅, ∅, ∅, ∅) → rtc system_step w w' → FilesOk (db w').
Proof.
  intros He Hs. apply (system_invariant (on_db FilesOk)) with w; [exact operation_keeps_files| |done|].
  - intros w1 w2 Hdb. unfold on_db. by rewrite Hdb.
  - by apply FilesOk_empty.
Qed.

(** C5: every row of a reachable database is well typed: digests are 64
    hexadecimal digits, metadata is flat, statuses and roles are those of their
    enumerations, a task given up or a failed backup says why, a limited link
    has not been followed more often than its limit, an upload never holds more
    bytes than announced and is completed only when it holds all of them,
    backup schedules parse, and an attempt has an end exactly when it is over.
    No constraint of the schema says so: the handlers do. *)
Theorem rows_typed `{!ShaHex} w w' :
  DbTyped (db w) → rtc system_step w w' → DbTyped (db w').
Proof.
  intros Hw Hs. apply (system_invariant (on_db DbTyped)) with w; [exact operation_typed | | done | done].
  intros w1 w2 Hdb. unfold on_db. by rewrite Hdb.
Qed.
End files.

(** ** A day in the life of a server *)

(** A pg_dump that always works, and a compressor that leaves its input as it is. *)
Definition stored_dump : PgDump := {|
  url_parse u := inr (mkDbUrl "app" (Some "secret") (Some "db") (Some 5432) "/app");
  pg_dump args password d := inr (mkOutput true "exit status: 0" "" (text "-- dump"));
  GzEncoder := bytes;
  gz_new := [];
  gz_write chunk written := written ++ chunk;
  gz_finish written := written;
  temp_name n := ".tmp" +:+ pretty n;
  dir_exists dir files := true
|}.

Definition server : Deployment :=
  mkDeployment Config.default_config stored_dump (λ _, "stamp") (λ _ _, Ok []) (λ _, "stamp")
    "/tmp".

Definition administrator : AuthenticatedUser := mkAuthenticatedUser 100 "admin".
Definition note_txt : list (string + MultipartField) :=
  [inr (mkMultipartField (Some "file") (Some "a.txt") (Some "text/plain") [inr hello])].

Definition uploaded : World :=
  (FilesApi.upload_file (dp_secret server) administrator 10 note_txt deployment).1.
Definition day_one : World :=
  (Server.sync_round (dp_config server) (dp_os_temp_dir server) uploaded).1.

Lemma a_day : rtc system_step deployment day_one.
Proof.
  eapply rtc_l; [exact (step_operation _ _ _ deployment (op_upload server administrator 10 note_txt))|].
  eapply rtc_l; [exact (step_operation _ _ _ uploaded (op_sync server))|]. apply rtc_refl.
Qed.

Example a_day_synchronises : length (rows_of (file_locations (db day_one))) = 2%nat.
Proof. vm_compute. reflexivity. Qed.

Lemma files_integrity_witness : FilesOk (db day_one).
Proof. apply (files_integrity deployment); [reflexivity | exact a_day]. Defined.

Lemma deployment_typed : DbTyped (db deployment).
Proof.
  constructor; try exact (all_rows_empty _).
  change (all_rows user_typed {[ 100%N := alice; 101%N := bob ]}). intros i r Hr.
  apply lookup_insert_Some in Hr as [[_ <-]|[_ Hr]]; [reflexivity|].
  apply lookup_singleton_Some in Hr as [_ <-]. reflexivity.
Qed.

Lemma rows_typed_witness : DbTyped (db day_one).
Proof. apply (rows_typed deployment); [exact deployment_typed | exact a_day]. Defined.
