(* ===== verification/DiskSpec.v ===== *)
(** * What the local disk backend and content addressing guarantee

    Paths stay below the base directory, the two spellings of a
    content-addressed path are the same file, what was uploaded is what is
    downloaded, a listing ends with the files below the directory it searches,
    among them every stored digest with the prefix, and the signature check of temporary links is exact; hashing by
    blocks is hashing, and the primary storage is the one the code means. *)

From S2P Require Import Prelude Text Json Schema Env World Tables Laws Projects Concrete LocalDisk Registry Storages Files SyncTasks Search Resolver FileService.

(** ** Constant-time comparison *)

Lemma lor_fold_zero (l : list (Byte.byte * Byte.byte)) d :
  foldl (λ d xy, N.lor d (N.lxor (Byte.to_N xy.1) (Byte.to_N xy.2))) d l = 0%N ↔
  d = 0%N ∧ Forall (λ xy, xy.1 = xy.2) l.
Proof.
  revert d. induction l as [|[x y] l IH]; intros d; simpl.
  { split; [by intros ->; split; [|constructor] | by intros [-> _]]. }
  rewrite IH, N.lor_eq_0_iff, N.lxor_eq_0_iff, Forall_cons_iff. simpl.
  split; [|naive_solver].
  intros [[-> Hxy] HF]. repeat split; [|done].
  apply (f_equal Byte.of_N) in Hxy. rewrite !Byte.of_to_N in Hxy. congruence.
Qed.

Lemma zip_same (a b : bytes) :
  length a = length b → Forall (λ xy, xy.1 = xy.2) (zip a b) ↔ a = b.
Proof.
  revert b. induction a as [|x a IH]; intros [|y b] Hl; simpl in *; try done.
  rewrite Forall_cons_iff, (IH b) by lia. simpl. naive_solver.
Qed.

(** The comparison that accumulates differences decides equality of byte
    strings: it accepts exactly the equal ones, whatever their lengths. *)
Theorem constant_time_eq_spec (a b : bytes) : constant_time_eq a b = bool_decide (a = b).
Proof.
  unfold constant_time_eq. destruct (Nat.eqb_spec (length a) (length b)) as [Hl|Hl]; simpl.
  - apply Bool.eq_iff_eq_true. rewrite N.eqb_eq, lor_fold_zero, zip_same by done.
    rewrite bool_decide_eq_true. naive_solver.
  - symmetry. apply bool_decide_eq_false. naive_solver.
Qed.

(** ** Paths *)

(** Splitting a path at its separators. *)
Fixpoint components (s : string) : list string :=
  match s with
  | EmptyString => [EmptyString]
  | String a s' =>
      if Ascii.eqb a slash then EmptyString :: components s'
      else match components s' with
           | p :: ps => String a p :: ps
           | [] => [String a EmptyString]
           end
  end.

Lemma components_nonempty s : components s ≠ [].
Proof. destruct s as [|a s]; simpl; [done|]. destruct (Ascii.eqb a slash), (components s); done. Qed.

Lemma str_contains_later pat c s :
  str_contains pat s = true → str_contains pat (String c s) = true.
Proof. intros H. simpl. rewrite H. apply orb_true_r. Qed.

Lemma components_first c s :
  c ∈ components s → c ≠ EmptyString →
  str_contains c s = true.
Proof.
  revert c. induction s as [|a s IH]; intros c Hc Hne; simpl in Hc.
  - apply list_elem_of_singleton in Hc. done.
  - assert (∀ p ps, components s = p :: ps → String.prefix p s = true) as Hpre.
    { clear. induction s as [|b s IH]; intros p ps Hp; simpl in Hp.
      - injection Hp as <- <-. done.
      - destruct (Ascii.eqb b slash); [by injection Hp as <- <-|].
        destruct (components s) as [|q qs] eqn:Hq; injection Hp as <- <-; simpl.
        + destruct (Ascii.ascii_dec b b); [|done]. by destruct s.
        + destruct (Ascii.ascii_dec b b); [|done]. by eapply IH. }
    destruct (Ascii.eqb a slash) eqn:Ha.
    + apply elem_of_cons in Hc as [->|Hc]; [done|]. apply str_contains_later. auto.
    + destruct (components s) as [|q qs] eqn:Hq; [by apply components_nonempty in Hq|].
      apply elem_of_cons in Hc as [->|Hc].
      * cbn [str_contains]. apply orb_true_iff. left. cbn [String.prefix].
        destruct (Ascii.ascii_dec a a); [|done]. by eapply Hpre.
      * apply str_contains_later. apply IH; [|done]. by right.
Qed.

Lemma validate_path_ok path :
  validate_path path = Ok tt →
  path ≠ EmptyString ∧ String.prefix "/" path = false ∧ str_contains ".." path = false.
Proof.
  unfold validate_path.
  destruct (str_is_empty path) eqn:H1; [done|].
  destruct (str_contains ".." path) eqn:H2; [done|].
  destruct (String.prefix "/" path) eqn:H3; [done|].
  intros _. split; [by destruct path | done].
Qed.

Lemma path_join_relative base p :
  base ≠ EmptyString → ends_with slash base = false → String.prefix "/" p = false →
  path_join base p = base +:+ "/" +:+ p.
Proof.
  intros Hb He Hp. unfold path_join. rewrite Hp.
  destruct base; [done|]. simpl str_is_empty. by rewrite He.
Qed.

Lemma str_slice_ok a b s r :
  str_slice a b s = Ok r → r = String.substring a (b - a) s ∧ (b <= String.length s)%nat.
Proof.
  unfold str_slice. destruct (Nat.leb_spec a b), (Nat.leb_spec b (String.length s));
    simpl; try done. by intros [= <-].
Qed.

Lemma str_slice_in a b s :
  (a <= b)%nat → (b <= String.length s)%nat → str_slice a b s = Ok (String.substring a (b - a) s).
Proof.
  intros Ha Hb. unfold str_slice. by rewrite !(proj2 (Nat.leb_le _ _)) by done.
Qed.

Lemma get_app s1 s2 n : String.get (String.length s1 + n) (s1 +:+ s2) = String.get n s2.
Proof. induction s1 as [|c s1 IH]; [done|]. rewrite str_app_cons. simpl. apply IH. Qed.

Lemma ends_with_app c s1 s2 :
  s2 ≠ EmptyString → ends_with c (s1 +:+ s2) = ends_with c s2.
Proof.
  intros Hne. unfold ends_with. rewrite str_app_length.
  destruct s2 as [|a s2]; [done|].
  replace (String.length s1 + String.length (String a s2) - 1)%nat
    with (String.length s1 + (String.length (String a s2) - 1))%nat by (simpl; lia).
  by rewrite get_app.
Qed.

Lemma ends_with_mem c s : ends_with c s = true → str_mem c s = true.
Proof.
  unfold ends_with. generalize (String.length s - 1)%nat as n.
  induction s as [|a s IH]; intros n; [done|]. simpl.
  destruct n as [|n].
  - by intros ->.
  - intros H. rewrite (IH n H). apply orb_true_r.
Qed.

Lemma components_app s1 s2 :
  components (s1 +:+ "/" +:+ s2) = components s1 ++ components s2.
Proof.
  induction s1 as [|a s1 IH].
  - rewrite str_app_nil_l, str_app_cons, str_app_nil_l. done.
  - rewrite str_app_cons. simpl. rewrite IH.
    destruct (Ascii.eqb a slash); [done|].
    destruct (components s1) eqn:Hc; [by apply components_nonempty in Hc | done].
Qed.

Lemma components_plain s : str_mem slash s = false → components s = [s].
Proof.
  induction s as [|a s IH]; simpl; [done|].
  intros [Ha Hs]%orb_false_iff. rewrite Ha, (IH Hs). done.
Qed.

Lemma str_contains_mem c p s : str_contains (String c p) s = true → str_mem c s = true.
Proof.
  induction s as [|a s IH]; [done|]. cbn [str_contains str_mem]. intros [H|H]%orb_prop.
  - simpl in H. destruct (Ascii.ascii_dec c a) as [->|]; [|done]. by rewrite Ascii.eqb_refl.
  - rewrite (IH H). apply orb_true_r.
Qed.

Lemma hex_no_char c s :
  is_ascii_hexdigit c = false → str_all is_ascii_hexdigit s = true → str_mem c s = false.
Proof.
  intros Hc. induction s as [|a s IH]; simpl; [done|].
  intros [Ha Hs]%andb_prop. rewrite (IH Hs), orb_false_r.
  apply Ascii.eqb_neq. intros ->. congruence.
Qed.

Lemma prefix_mem c s : String.prefix (String c EmptyString) s = true → str_mem c s = true.
Proof.
  destruct s as [|a s]; simpl; [done|]. destruct (Ascii.ascii_dec c a) as [->|]; [|done].
  by rewrite Ascii.eqb_refl.
Qed.

(** Text without any of the characters [validate_path] looks for is valid. *)
Lemma validate_path_clean p :
  p ≠ EmptyString → str_mem "."%char p = false → String.prefix "/" p = false →
  str_mem "\"%char p = false → str_mem Ascii.zero p = false → str_mem ":"%char p = false →
  validate_path p = Ok tt.
Proof.
  intros He Hd Hs Hb H0 Hc. unfold validate_path.
  replace (str_is_empty p) with false by (by destruct p).
  replace (str_contains ".." p) with false
    by (symmetry; apply not_true_iff_false; intros H%str_contains_mem; congruence).
  rewrite Hs.
  replace (String.prefix "\" p) with false
    by (symmetry; apply not_true_iff_false; intros H%prefix_mem; congruence).
  by rewrite H0, Hc.
Qed.

Lemma substring_all_p p s i n :
  str_all p s = true → str_all p (String.substring i n s) = true.
Proof.
  revert i n. induction s as [|a s IH]; intros [|i] [|n]; simpl; try done.
  - intros [Ha Hs]%andb_prop. by rewrite Ha, IH.
  - intros [Ha Hs]%andb_prop. by rewrite IH.
  - intros [Ha Hs]%andb_prop. by rewrite IH.
Qed.

Lemma substring_nonempty s i n :
  (0 < n)%nat → (i + n <= String.length s)%nat → String.substring i n s ≠ EmptyString.
Proof.
  intros Hn Hl Hs. apply (f_equal String.length) in Hs. rewrite substring_length in Hs by done.
  simpl in Hs. lia.
Qed.

(** A directory a hexadecimal name is joined to, and what that gives. *)
Definition open_dir (base : string) : Prop := base ≠ EmptyString ∧ ends_with slash base = false.

Lemma join_hex base s :
  open_dir base → str_all is_ascii_hexdigit s = true → s ≠ EmptyString →
  path_join base s = base +:+ "/" +:+ s ∧ open_dir (base +:+ "/" +:+ s).
Proof.
  intros [Hb He] Hs Hne. assert (str_mem slash s = false) as Hm by (by apply hex_no_char).
  split; [apply path_join_relative; [done..|]|split].
  - apply not_true_iff_false. intros H%prefix_mem. unfold slash in Hm. congruence.
  - by destruct base.
  - rewrite <- str_app_assoc, ends_with_app by done.
    apply not_true_iff_false. intros H%ends_with_mem. congruence.
Qed.

(** The directories a digest is stored under. *)
Lemma shard_join base h :
  base ≠ EmptyString → ends_with slash base = false →
  str_all is_ascii_hexdigit h = true → (4 <= String.length h)%nat →
  path_join (path_join (path_join base (String.substring 0 2 h)) (String.substring 2 2 h)) h =
  base +:+ "/" +:+ String.substring 0 2 h +:+ "/" +:+ String.substring 2 2 h +:+ "/" +:+ h.
Proof.
  intros Hb He Hh Hl.
  destruct (join_hex base (String.substring 0 2 h)) as [-> H1];
    [done | by apply substring_all_p | apply substring_nonempty; lia|].
  destruct (join_hex _ (String.substring 2 2 h) H1) as [-> H2];
    [by apply substring_all_p | apply substring_nonempty; lia|].
  destruct (join_hex _ h H2) as [-> _]; [done | intros ->; simpl in Hl; lia|].
  by rewrite !str_app_assoc.
Qed.

Lemma resolve_hex base h :
  base ≠ EmptyString → ends_with slash base = false →
  str_all is_ascii_hexdigit h = true → (4 <= String.length h)%nat →
  resolve_path base h =
  Ok (base +:+ "/" +:+ String.substring 0 2 h +:+ "/" +:+ String.substring 2 2 h +:+ "/" +:+ h).
Proof.
  intros Hb He Hh Hl. unfold resolve_path.
  rewrite validate_path_clean.
  2: { intros ->. simpl in Hl. lia. }
  2-6: try (by apply hex_no_char).
  2: { apply not_true_iff_false. intros H%prefix_mem.
       rewrite (hex_no_char "/"%char h) in H by done. done. }
  rewrite Hh, (proj2 (Nat.leb_le 4 _)) by done. cbn [andb mbind Result_bind].
  rewrite (str_slice_in 0 2), (str_slice_in 2 4) by lia. cbn [mbind Result_bind].
  by rewrite <- shard_join.
Qed.

Lemma hex_no_prefix s t :
  str_all is_ascii_hexdigit s = true → s ≠ EmptyString → String.prefix "/" (s +:+ t) = false.
Proof.
  destruct s as [|a s]; [done|]. cbn [str_all]. intros [Ha _]%andb_prop _.
  rewrite str_app_cons. cbn [String.prefix].
  destruct (Ascii.ascii_dec "/" a) as [<-|]; [discriminate Ha | done].
Qed.

(** A content-addressed path ["ab/cd/abcd..."] and the bare digest resolve
    to the same file below the base directory, so copies written under either
    spelling are found under both. *)
Theorem content_addressed_same_file base h p :
  base ≠ EmptyString → ends_with slash base = false →
  str_all is_ascii_hexdigit h = true → (4 <= String.length h)%nat →
  content_addressed_path h = Ok p →
  ∃ file, resolve_path base p = Ok file ∧ resolve_path base h = Ok file.
Proof.
  intros Hb He Hh Hl Hp. rewrite (resolve_hex base h) by done. eexists. split; [|reflexivity].
  assert (p = String.substring 0 2 h +:+ "/" +:+ String.substring 2 2 h +:+ "/" +:+ h) as ->.
  { unfold content_addressed_path in Hp. rewrite (proj2 (Nat.ltb_ge _ _)) in Hp by lia.
    apply Result_bind_ok in Hp as (d1 & Hd1 & Hp). apply Result_bind_ok in Hp as (d2 & Hd2 & Hp).
    apply str_slice_ok in Hd1 as [-> _]. apply str_slice_ok in Hd2 as [-> _].
    by injection Hp as <-. }
  set (d1 := String.substring 0 2 h). set (d2 := String.substring 2 2 h).
  pose proof (substring_all_p _ h 0 2 Hh : str_all is_ascii_hexdigit d1 = true) as Hd1.
  pose proof (substring_all_p _ h 2 2 Hh : str_all is_ascii_hexdigit d2 = true) as Hd2.
  pose proof (substring_nonempty h 0 2 ltac:(lia) ltac:(lia) : d1 ≠ EmptyString) as Hn1.
  assert (∀ c, is_ascii_hexdigit c = false → c ≠ "/"%char →
    str_mem c (d1 +:+ "/" +:+ d2 +:+ "/" +:+ h) = false) as Hno.
  { intros c Hc Hne. rewrite !str_mem_app.
    rewrite (hex_no_char c d1), (hex_no_char c d2), (hex_no_char c h) by done.
    cbn [str_mem orb]. rewrite (proj2 (Ascii.eqb_neq "/"%char c)) by congruence. done. }
  unfold resolve_path. rewrite validate_path_clean; try (by apply Hno).
  - replace (str_all is_ascii_hexdigit (d1 +:+ "/" +:+ d2 +:+ "/" +:+ h)) with false
      by (rewrite !str_all_app; cbn [str_all]; by rewrite !andb_false_r).
    cbn [andb mbind Result_bind]. rewrite path_join_relative; [done..|].
    by apply hex_no_prefix.
  - by destruct d1.
  - by apply hex_no_prefix.
Qed.

Lemma hex_component s : str_all is_ascii_hexdigit s = true → ".." ∉ components s.
Proof.
  intros Hs. rewrite components_plain by (by apply hex_no_char).
  intros Heq%list_elem_of_singleton. subst s. discriminate Hs.
Qed.

(** C28: whatever name the API passes down, the file a local backend touches is
    below its base directory: the resolved path is the base followed by a
    relative path none of whose components climbs. *)
Theorem resolve_path_confined base path file :
  base ≠ EmptyString → ends_with slash base = false →
  resolve_path base path = Ok file →
  ∃ rel, file = base +:+ "/" +:+ rel ∧ ".." ∉ components rel.
Proof.
  intros Hb He Hr. pose proof Hr as Hr'. unfold resolve_path in Hr'.
  apply Result_bind_ok in Hr' as ([] & Hv & Hr').
  destruct (validate_path_ok _ Hv) as (Hne & Hp & Hdd).
  destruct (str_all is_ascii_hexdigit path) eqn:Hhex;
    [destruct (Nat.leb_spec 4 (String.length path)) as [Hl|Hl]|]; cbn [andb] in Hr'.
  - rewrite resolve_hex in Hr by done. injection Hr as <-. eexists. split; [reflexivity|].
    rewrite !components_app, !elem_of_app.
    pose proof (hex_component _ (substring_all_p _ path 0 2 Hhex)).
    pose proof (hex_component _ (substring_all_p _ path 2 2 Hhex)).
    pose proof (hex_component _ Hhex). naive_solver.
  - injection Hr' as <-. exists path. split; [by apply path_join_relative|].
    by apply hex_component.
  - injection Hr' as <-. exists path. split; [by apply path_join_relative|].
    intros Hc. apply components_first in Hc; [congruence | done].
Qed.

(** ** File operations *)

Section ops.
Context {E : Env}.

Lemma fs_write_ok path data w w' u :
  fs_write path data w = (w', Ok u) → w' = set_fs (<[path := data]> (fs w)) w ∧ fs_writable w = true.
Proof.
  unfold fs_write, fs_guard. intros H. m_inv. by injection H as <- <-.
Qed.

Lemma fs_write_succeeds path data w :
  fs_writable w = true →
  fs_write path data w = (set_fs (<[path := data]> (fs w)) w, Ok tt).
Proof. intros Hw. unfold fs_write, fs_guard. rewrite !bind_unfold. simpl. by rewrite Hw. Qed.

Lemma local_upload_ok base path data w w' u :
  local_upload base path data w = (w', Ok u) →
  ∃ file, resolve_path base path = Ok file ∧ w' = set_fs (<[file := data]> (fs w)) w.
Proof.
  unfold local_upload. intros H. m_inv. apply fs_write_ok in H as [-> _]. eauto.
Qed.

Lemma local_download_eq base path file w :
  resolve_path base path = Ok file →
  local_download base path w =
  (w, match fs w !! file with Some data => Ok data | None => Err (local_not_found path) end).
Proof.
  intros Hf. unfold local_download. rewrite Hf, !bind_unfold. simpl.
  unfold fs_exists. rewrite bind_unfold. simpl.
  destruct (fs w !! file) eqn:Hd; simpl; [|done].
  unfold fs_read. m_run. by rewrite Hd.
Qed.

(** An upload to the local disk that succeeds is read back byte for byte,
    and no other file of the disk changes. *)
Theorem local_upload_download base path data w w' :
  local_upload base path data w = (w', Ok tt) →
  local_download base path w' = (w', Ok data) ∧
  (∀ other, resolve_path base path ≠ Ok other → fs w' !! other = fs w !! other) ∧
  db w' = db w.
Proof.
  intros (file & Hf & ->)%local_upload_ok. split; [|split].
  - rewrite (local_download_eq _ _ _ _ Hf). simpl. by rewrite lookup_insert_eq.
  - intros other Hne. simpl. apply lookup_insert_ne. congruence.
  - done.
Qed.

Lemma local_delete_eq base path file w :
  resolve_path base path = Ok file →
  local_delete base path w =
  match fs w !! file with Some _ => fs_remove file w | None => (w, Ok tt) end.
Proof.
  intros Hf. unfold local_delete. rewrite Hf. m_run. unfold fs_exists. m_run.
  by destruct (fs w !! file).
Qed.

(** Once deleted, a file of the local disk is gone: downloading it is a 404
    and deleting it again succeeds without changing anything. *)
Theorem local_delete_idempotent base path w w' :
  local_delete base path w = (w', Ok tt) →
  local_download base path w' = (w', Err (local_not_found path)) ∧
  local_delete base path w' = (w', Ok tt).
Proof.
  intros H. assert (∃ file, resolve_path base path = Ok file) as [file Hf].
  { unfold local_delete in H. m_inv. eauto. }
  rewrite (local_delete_eq _ _ _ _ Hf) in H.
  rewrite (local_delete_eq _ _ _ _ Hf), (local_download_eq _ _ _ _ Hf).
  destruct (fs w !! file) eqn:Hd.
  - unfold fs_remove, fs_guard in H. m_inv. injection H as <-. simpl.
    by rewrite lookup_delete_eq.
  - injection H as <-. by rewrite Hd.
Qed.
End ops.

(** Witnesses. *)
Definition digest : string := "0123456789abcdef0123456789abcdef0123456789abcdef0123456789abcdef".

Lemma content_addressed_same_file_witness :
  ∃ file, resolve_path "/data" ("01/23/" +:+ digest) = Ok file ∧ resolve_path "/data" digest = Ok file.
Proof.
  apply (content_addressed_same_file "/data" digest ("01/23/" +:+ digest));
    [discriminate | reflexivity | reflexivity | vm_compute; lia | reflexivity].
Defined.

Lemma resolve_path_confined_witness :
  ∃ rel, "/data/backups/db.sql" = "/data" +:+ "/" +:+ rel ∧ ".." ∉ components rel.
Proof.
  apply (resolve_path_confined "/data" "backups/db.sql"); [discriminate | reflexivity | reflexivity].
Defined.

Definition one_file : World := set_fs {[ "/data/a.txt" := [Byte.x61] ]} world0.

Lemma local_upload_download_witness :
  local_download "/data" "b.txt" (local_upload "/data" "b.txt" [Byte.x62] one_file).1 =
  ((local_upload "/data" "b.txt" [Byte.x62] one_file).1, Ok [Byte.x62]).
Proof.
  refine (proj1 (local_upload_download "/data" "b.txt" [Byte.x62] one_file _ _)).
  apply run_ok. vm_compute. reflexivity.
Defined.

Lemma local_delete_idempotent_witness :
  local_delete "/data" "a.txt" (local_delete "/data" "a.txt" one_file).1 =
  ((local_delete "/data" "a.txt" one_file).1, Ok tt).
Proof.
  refine (proj2 (local_delete_idempotent "/data" "a.txt" one_file _ _)).
  apply run_ok. vm_compute. reflexivity.
Defined.

(** ** Hashing *)

Section hashing.
Context {E : Env} {HS : ShaStream}.

Lemma hash_loop_spec fuel chunk i rest h total :
  (length rest <= fuel)%nat →
  hash_loop fuel chunk i rest h total =
  Some (sha_update rest h, total + Z.of_nat (length rest)).
Proof.
  revert i rest h total. induction fuel as [|fuel IH]; intros i rest h total Hl.
  - destruct rest; simpl in *; [|lia]. rewrite sha_update_nil. f_equal. f_equal. lia.
  - destruct rest as [|b rest]; cbn [hash_loop].
    + rewrite sha_update_nil. f_equal. f_equal. simpl. lia.
    + set (n := Z.to_nat _).
      assert (1 <= n)%nat by (unfold n; simpl; lia).
      rewrite IH by (rewrite length_drop; simpl in *; lia).
      rewrite <- sha_update_app, take_drop. f_equal. f_equal.
      rewrite <- (take_drop n (b :: rest)) at 3. rewrite length_app. lia.
Qed.

Lemma hash_file_run path data w :
  fs w !! path = Some data →
  hash_file_sha256 path w = (w, Ok (compute_sha256 data, Z.of_nat (length data))).
Proof.
  intros Hd. unfold hash_file_sha256, map_err, try_with, fs_read. m_run. rewrite Hd. simpl.
  by rewrite hash_loop_spec by done.
Qed.

(** Hashing a file block by block terminates for every sequence of read
    sizes the kernel may return, and yields the digest and the size of the
    whole content: the resumable path names a file exactly as the one-shot
    path does. *)
Theorem hash_file_sha256_streaming path data w :
  fs w !! path = Some data →
  hash_file_sha256 path w = (w, Ok (compute_sha256 data, Z.of_nat (length data))) ∧
  ∀ chunk, ∃ h, hash_loop (length data) chunk 0 data sha_new 0 = Some (h, Z.of_nat (length data)) ∧
                sha_hex h = compute_sha256 data.
Proof.
  intros Hd. split; [by apply hash_file_run|].
  intros chunk. rewrite hash_loop_spec by done. by eexists.
Qed.
End hashing.

Lemma hash_file_sha256_streaming_witness :
  hash_file_sha256 "f" (set_fs {[ "f" := String.list_byte_of_string "abc" ]} world0) =
  (set_fs {[ "f" := String.list_byte_of_string "abc" ]} world0,
   Ok (compute_sha256 (String.list_byte_of_string "abc"), 3)).
Proof. apply (hash_file_sha256_streaming "f" (String.list_byte_of_string "abc")). reflexivity. Defined.

(** ** The primary storage *)

Section primary.
Context {E : Env}.
Import FileService.

Definition registered (w : World) (s : Storage) : Prop := is_Some (backends w !! st_id s).

Lemma first_registered_run P l w :
  ∃ o, first_registered P l w = (w, Ok o) ∧
  match o with
  | Some s => s ∈ l ∧ P s = true ∧ registered w s
  | None => ∀ s, s ∈ l → P s = true → ¬ registered w s
  end.
Proof.
  unfold registered. induction l as [|s l (o & Hrun & Ho)]; simpl.
  - exists None. split; [done|]. intros s Hs. by apply not_elem_of_nil in Hs.
  - destruct (P s) eqn:HP.
    + unfold StorageRegistry.contains. m_run. destruct (backends w !! st_id s) eqn:Hb.
      * exists (Some s). split; [done|]. rewrite Hb. split; [by left | eauto].
      * rewrite Hrun. exists o. split; [done|]. destruct o as [s'|].
        -- destruct Ho as (Hin & ?). split; [by right | done].
        -- intros s' [->|Hin]%elem_of_cons; [|by apply Ho].
           intros _. rewrite Hb. by intros [].
    + rewrite Hrun. exists o. split; [done|]. destruct o as [s'|].
      * destruct Ho as (Hin & ?). split; [by right | done].
      * intros s' [->|Hin]%elem_of_cons; [congruence | by apply Ho].
Qed.

(** New content goes to a storage of the project that has a backend in the
    registry, and to a hot one whenever there is a hot one; choosing it changes
    nothing, and the upload is refused exactly when no storage of the project
    has a backend. *)
Theorem find_primary_storage_spec l w :
  match find_primary_storage l w with
  | (w', Ok s) => w' = w ∧ s ∈ l ∧ registered w s ∧
      (st_is_hot s = false → ∀ h, h ∈ l → st_is_hot h = true → ¬ registered w h)
  | (w', Err e) => w' = w ∧ e = no_backends ∧ ∀ s, s ∈ l → ¬ registered w s
  | (_, Panic) => False
  end.
Proof.
  unfold find_primary_storage. destruct (first_registered_run st_is_hot l w) as (o & Hr & Ho).
  rewrite bind_unfold, Hr. destruct o as [s|].
  - simpl. destruct Ho as (? & Hh & ?). split_and!; [done..|]. congruence.
  - destruct (first_registered_run (λ _, true) l w) as (o & Hr' & Ho').
    unfold or_throw. rewrite bind_unfold, Hr'. destruct o as [s|]; simpl.
    + destruct Ho' as (? & _ & ?). by split_and!.
    + split_and!; [done..|]. intros s Hs. by apply (Ho' s Hs).
Qed.
End primary.

(** ** Directories *)

Lemma prefix_rest s p : String.prefix s p = true → ∃ rest, p = s +:+ rest.
Proof.
  revert p. induction s as [|a s IH]; intros p; [by exists p|].
  destruct p as [|b p]; [done|]. cbn [String.prefix].
  destruct (Ascii.ascii_dec a b) as [<-|]; [|done]. intros [rest ->]%IH.
  exists rest. by rewrite str_app_cons.
Qed.

(** What follows a directory in the path of a file below it. *)
Lemma below_iff dir p :
  String.prefix (dir +:+ "/") p = true ↔ ∃ rest, p = dir +:+ "/" +:+ rest.
Proof.
  split.
  - intros [rest Hr]%prefix_rest. exists rest. by rewrite Hr, str_app_assoc.
  - intros [rest ->]. rewrite <- str_app_assoc. apply str_prefix_app.
Qed.

Lemma components_split s : str_split slash s = components s.
Proof. induction s as [|a s IH]; [done|]. cbn [str_split components]. by rewrite IH. Qed.

Lemma components_cons s n ns :
  components s = n :: ns →
  components n = [n] ∧ (ns = [] ∧ s = n ∨ ∃ s', s = n +:+ "/" +:+ s' ∧ components s' = ns).
Proof.
  revert n ns. induction s as [|a s IH]; intros n ns; cbn [components].
  - intros [= <- <-]. split; [done | by left].
  - destruct (Ascii.eqb_spec a slash) as [->|Ha].
    + intros [= <- <-]. split; [done|]. right. by exists s.
    + destruct (components s) as [|p ps] eqn:Hs; [by apply components_nonempty in Hs|].
      intros [= <- <-]. destruct (IH p ps eq_refl) as [Hp Hcase]. split.
      * cbn [components]. rewrite (proj2 (Ascii.eqb_neq a slash) Ha). by rewrite Hp.
      * destruct Hcase as [[-> ->]|(s' & -> & Hs')]; [by left|]. right. exists s'.
        by rewrite str_app_cons.
Qed.

Lemma entry_of_below dir rest :
  entry_of dir (dir +:+ "/" +:+ rest) =
  match components rest with
  | [name] => Some (RegularFile name)
  | name :: _ => Some (Directory name)
  | [] => None
  end.
Proof.
  unfold entry_of. rewrite <- str_app_assoc, strip_prefix_app. cbn [mbind option_bind].
  by rewrite components_split.
Qed.

Lemma entry_of_Some dir p e :
  entry_of dir p = Some e →
  ∃ rest, p = dir +:+ "/" +:+ rest ∧
    match e with
    | RegularFile n => rest = n ∧ components n = [n]
    | Directory n => ∃ rest', rest = n +:+ "/" +:+ rest' ∧ components n = [n]
    end.
Proof.
  intros He. assert (String.prefix (dir +:+ "/") p = true) as [rest ->]%below_iff.
  { unfold entry_of, strip_prefix in He. by destruct (String.prefix _ _). }
  exists rest. split; [done|]. rewrite entry_of_below in He.
  destruct (components rest) as [|n ns] eqn:Hr; [done|].
  destruct (components_cons _ _ _ Hr) as [Hn [[-> ->]|(s' & -> & Hs')]].
  - by injection He as <-.
  - destruct ns as [|n' ns]; [by apply components_nonempty in Hs'|]. injection He as <-. eauto.
Qed.

Lemma entry_of_None dir p : entry_of dir p = None ↔ String.prefix (dir +:+ "/") p = false.
Proof.
  split.
  - intros He. apply not_true_iff_false. intros [rest ->]%below_iff. rewrite entry_of_below in He.
    destruct (components rest) as [|n [|]] eqn:Hr; [by apply components_nonempty in Hr | done..].
  - unfold entry_of, strip_prefix. by intros ->.
Qed.

(** The files of an entry. *)
Lemma directory_files dir n p :
  components n = [n] →
  entry_of dir p = Some (Directory n) ↔ String.prefix ((dir +:+ "/" +:+ n) +:+ "/") p = true.
Proof.
  intros Hn. rewrite below_iff. split.
  - intros (rest & -> & rest' & -> & _)%entry_of_Some. exists rest'. by rewrite !str_app_assoc.
  - intros [rest ->]. rewrite !str_app_assoc, entry_of_below, components_app, Hn. simpl.
    destruct (components rest) eqn:Hr; [by apply components_nonempty in Hr | done].
Qed.

Lemma regular_file dir n p :
  components n = [n] → entry_of dir p = Some (RegularFile n) ↔ p = dir +:+ "/" +:+ n.
Proof.
  intros Hn. split; [by intros (rest & -> & -> & _)%entry_of_Some|]. intros ->.
  by rewrite entry_of_below, Hn.
Qed.

(** A digest can be sliced anywhere. *)
Lemma substring_take n s : String.substring 0 n s = str_take n s.
Proof. revert s. induction n as [|n IH]; intros [|c s]; simpl; try done. by rewrite IH. Qed.

Lemma substring_take_drop a n s : String.substring a n s = str_take n (str_drop a s).
Proof.
  revert s. induction a as [|a IH]; intros s; [apply substring_take|].
  destruct s as [|c s]; [by destruct n | apply IH].
Qed.

Lemma hex_boundary n s :
  str_all is_ascii_hexdigit s = true → (n <= String.length s)%nat → is_char_boundary s n = true.
Proof.
  unfold is_char_boundary. revert s. induction n as [|n IH]; intros [|c s]; simpl; try done; try lia.
  - rewrite andb_true_iff. intros [Hc _] _. by destruct c as [[] [] [] [] [] [] [] []].
  - rewrite andb_true_iff. intros [_ Hs] Hn. by apply IH; [|lia].
Qed.

Lemma hex_slice a b s :
  str_all is_ascii_hexdigit s = true → (a <= b)%nat → (b <= String.length s)%nat →
  utf8_slice a b s = Ok (String.substring a (b - a) s).
Proof.
  intros Hs Ha Hb. unfold utf8_slice. rewrite !hex_boundary by (done || lia).
  by rewrite (proj2 (Nat.leb_le _ _)) by done; rewrite substring_take_drop.
Qed.

Section listing.
Context {E : Env} (prefix : string) (w : World).

Definition file_name (path : string) : string := default "" (list.last (components path)).

(** The name of a file, when it has the prefix. *)
Definition listed (path : string) : option string :=
  if str_is_empty prefix || String.prefix prefix (file_name path) then Some (file_name path) else None.

Definition below (dir : string) : list string :=
  filter (λ p, String.prefix (dir +:+ "/") p = true) (paths w).
Definition files_of (dir : string) (e : DirEntry) : list string :=
  filter (λ p, entry_of dir p = Some e) (paths w).

(** No file is the directory of another, as on any file system. *)
Definition tree_shaped : Prop := ∀ p, p ∈ paths w → below p = [].

Lemma NoDup_paths : NoDup (paths w).
Proof. apply NoDup_fst_map_to_list. Qed.

Lemma bind_omap {X A B} (f : A → option B) (g : X → list A) (l : list X) :
  l ≫= (λ x, omap f (g x)) = omap f (l ≫= g).
Proof. induction l as [|x l IH]; [done|]. rewrite !bind_cons, omap_app. by rewrite IH. Qed.

Lemma entries_partition dir :
  remove_dups (omap (entry_of dir) (paths w)) ≫= files_of dir ≡ₚ below dir.
Proof.
  apply NoDup_Permutation.
  - apply NoDup_bind; [|intros; apply list.NoDup_filter, NoDup_paths|apply NoDup_remove_dups].
    intros e1 e2 p _ _ [H1 _]%list_elem_of_filter [H2 _]%list_elem_of_filter. congruence.
  - apply list.NoDup_filter, NoDup_paths.
  - intros p. rewrite list_elem_of_bind. unfold below, files_of. rewrite list_elem_of_filter. split.
    + intros (e & [He Hp]%list_elem_of_filter & _). split; [|done].
      destruct (entry_of_Some _ _ _ He) as (rest & -> & _). apply below_iff. by exists rest.
    + intros [Hb Hp]. destruct (entry_of dir p) as [e|] eqn:He; [|apply entry_of_None in He; congruence].
      exists e. rewrite list_elem_of_filter. split; [done|].
      apply elem_of_remove_dups, list_elem_of_omap. eauto.
Qed.

Lemma foldM_collects {X} (f : list string → X → M (list string)) (g : X → list string) l :
  (∀ results x, x ∈ l → ∃ r, f results x w = (w, Ok (results ++ r)) ∧ r ≡ₚ g x) →
  ∀ results, ∃ r, foldM f results l w = (w, Ok (results ++ r)) ∧ r ≡ₚ l ≫= g.
Proof.
  induction l as [|x l IH]; intros Hf results; simpl.
  - exists []. by rewrite app_nil_r.
  - destruct (Hf results x ltac:(by left)) as (r & Hr & Hp). rewrite bind_unfold, Hr.
    destruct (IH ltac:(intros; apply Hf; by right) (results ++ r)) as (r' & -> & Hp').
    exists (r ++ r'). rewrite app_assoc. split; [done|]. by rewrite Hp, Hp'.
Qed.

Lemma files_of_regular dir n :
  components n = [n] → (dir +:+ "/" +:+ n) ∈ paths w →
  files_of dir (RegularFile n) = [dir +:+ "/" +:+ n].
Proof.
  intros Hn Hp. apply Permutation_singleton_r, NoDup_Permutation; [apply list.NoDup_filter, NoDup_paths | apply NoDup_singleton|].
  intros p. unfold files_of. rewrite list_elem_of_filter, list_elem_of_singleton, regular_file by done.
  naive_solver.
Qed.

Lemma files_of_directory dir n :
  components n = [n] → files_of dir (Directory n) = below (dir +:+ "/" +:+ n).
Proof. intros Hn. apply list_filter_iff. intros p. by apply directory_files. Qed.

Lemma file_name_join dir n : components n = [n] → file_name (dir +:+ "/" +:+ n) = n.
Proof. intros Hn. unfold file_name. by rewrite components_app, Hn, last_snoc. Qed.

(** The descent collects every file below a directory. *)
Lemma collect_files_run fuel dir results :
  tree_shaped → dir ∉ paths w → (0 < fuel)%nat →
  (∀ p, p ∈ below dir → (String.length p < String.length dir + fuel)%nat) →
  ∃ l, collect_files fuel dir prefix results w = (w, Ok (results ++ l)) ∧
       l ≡ₚ omap listed (below dir).
Proof.
  intros Htree. revert dir results. induction fuel as [|fuel IH]; intros dir results Hdir Hf Hdepth; [lia|].
  cbn [collect_files]. unfold read_dir, fs_exists. m_run.
  destruct (fs w !! dir) as [data|] eqn:Hd; simpl.
  { exfalso. apply Hdir. apply list_elem_of_fmap. exists (dir, data).
    by rewrite elem_of_map_to_list. }
  match goal with |- context [foldM ?f _ ?l _] =>
    destruct (λ H, foldM_collects f (λ e, omap listed (files_of dir e)) l H results)
      as (r & Hr & Hp) end.
  2:{ exists r. split; [done|]. etransitivity; [exact Hp|].
      rewrite (bind_omap listed (files_of dir)). apply omap_Permutation, entries_partition. }
  clear results. intros results e He.
  apply elem_of_remove_dups, list_elem_of_omap in He as (p & Hp & He).
  destruct (entry_of_Some _ _ _ He) as (rest & Hrest & Hcase). destruct e as [n|n].
  - destruct Hcase as [-> Hn]. subst p. rewrite (files_of_regular dir n Hn Hp). simpl.
    unfold listed. rewrite (file_name_join dir n Hn).
    destruct (str_is_empty prefix || String.prefix prefix n).
    + by exists [n].
    + exists []. by rewrite app_nil_r.
  - destruct Hcase as (rest' & -> & Hn). rewrite (files_of_directory dir n Hn).
    assert (p ∈ below (dir +:+ "/" +:+ n)) as Hb.
    { apply list_elem_of_filter. split; [|done]. by apply directory_files. }
    assert (∀ q, q ∈ below (dir +:+ "/" +:+ n) →
      (String.length q < String.length (dir +:+ "/" +:+ n) + fuel)%nat) as Hsub.
    { intros q Hq. rewrite <- (files_of_directory dir n Hn) in Hq.
      apply list_elem_of_filter in Hq as [Hq Hqp]. rewrite !str_app_length. simpl.
      enough (String.length q < String.length dir + S fuel)%nat by lia.
      apply Hdepth, list_elem_of_filter. split; [|done].
      destruct (entry_of_Some _ _ _ Hq) as (r & -> & _). apply below_iff. by exists r. }
    apply IH; [|specialize (Hsub p Hb); subst p; rewrite !str_app_length in Hsub; simpl in Hsub; lia|done].
    intros Hin. by rewrite (Htree _ Hin) in Hb; apply not_elem_of_nil in Hb.
Qed.

Lemma shorter_than_depth p : p ∈ paths w → (String.length p < depth w)%nat.
Proof.
  intros Hp. unfold depth. apply Nat.lt_succ_r.
  apply (proj1 (Forall_forall _ _) (proj1 (list_max_le _ _) (Nat.le_refl _))).
  apply list_elem_of_In, list_elem_of_fmap. eauto.
Qed.

Lemma dir_exists_run dir : dir_exists dir w = (w, Ok true) ∨ (dir_exists dir w = (w, Ok false) ∧ below dir = []).
Proof.
  unfold dir_exists, gets. destruct (existsb _ _) eqn:Hex; [by left | right]. split; [done|].
  apply elem_of_nil_inv. intros p [Hb Hp]%list_elem_of_filter.
  apply not_true_iff_false in Hex. apply Hex, existsb_exists. exists p.
  split; [by apply list_elem_of_In|]. by rewrite Hb, orb_true_r.
Qed.

(** The descent always ends, and the fuel it is given is enough. *)
Lemma local_list_run base_path dir :
  tree_shaped → search_dir base_path prefix = Ok dir → dir ∉ paths w →
  ∃ l, local_list base_path prefix w = (w, Ok l) ∧ l ≡ₚ omap listed (below dir).
Proof.
  intros Htree Hdir Hfile. unfold local_list. rewrite Hdir, bind_unfold. cbn [lift].
  rewrite bind_unfold. destruct (dir_exists_run dir) as [->|[-> ->]]; simpl; [|by exists []].
  rewrite bind_unfold. simpl.
  destruct (collect_files_run (depth w) dir []) as (l & Hl & Hp); eauto; [unfold depth; lia|].
  intros p [_ Hp]%list_elem_of_filter. apply shorter_than_depth in Hp. lia.
Qed.

Lemma substring_prefix i n s t :
  (i + n <= String.length s)%nat → String.substring i n (s +:+ t) = String.substring i n s.
Proof.
  revert i n. induction s as [|a s IH]; intros i n Hl; simpl in Hl.
  - assert (i = 0 ∧ n = 0)%nat as [-> ->] by lia. by destruct t.
  - rewrite str_app_cons. destruct i as [|i], n as [|n]; simpl; try done; rewrite IH by lia; done.
Qed.

(** The directory a prefix of a digest selects is one the digest is below. *)
Lemma search_dir_digest base rest :
  open_dir base → let h := prefix +:+ rest in
  str_all is_ascii_hexdigit h = true → (4 <= String.length h)%nat →
  ∃ dir tail, search_dir base prefix = Ok dir ∧
    base +:+ "/" +:+ String.substring 0 2 h +:+ "/" +:+ String.substring 2 2 h +:+ "/" +:+ h =
    dir +:+ "/" +:+ tail.
Proof.
  intros Hb h Hh Hl. subst h. unfold search_dir.
  assert (str_all is_ascii_hexdigit prefix = true) as Hp
    by (rewrite str_all_app in Hh; by apply andb_true_iff in Hh as [? _]).
  destruct (str_is_empty prefix) eqn:Hempty; [by eauto|].
  destruct (Nat.leb_spec 4 (String.length prefix)) as [H4|_];
    [|destruct (Nat.leb_spec 2 (String.length prefix)) as [H2|_]; [|by eauto]].
  - rewrite !hex_slice by (done || lia). cbn [mbind Result_bind Nat.sub].
    rewrite <- (substring_prefix 0 2 prefix rest), <- (substring_prefix 2 2 prefix rest) by lia.
    destruct (join_hex base (String.substring 0 2 (prefix +:+ rest))) as [-> H1];
      [done | by apply substring_all_p | apply substring_nonempty; lia|].
    destruct (join_hex _ (String.substring 2 2 (prefix +:+ rest)) H1) as [-> _];
      [by apply substring_all_p | apply substring_nonempty; lia|].
    do 2 eexists. split; [done|]. by rewrite !str_app_assoc.
  - rewrite !hex_slice by (done || lia). cbn [mbind Result_bind Nat.sub].
    rewrite <- (substring_prefix 0 2 prefix rest) by lia.
    destruct (join_hex base (String.substring 0 2 (prefix +:+ rest))) as [-> _];
      [done | by apply substring_all_p | apply substring_nonempty; lia|].
    do 2 eexists. split; [done|]. by rewrite !str_app_assoc.
Qed.

(** A stored digest is below the directory any prefix of it selects. *)
Lemma digest_below base rest file :
  open_dir base →
  str_all is_ascii_hexdigit (prefix +:+ rest) = true →
  (4 <= String.length (prefix +:+ rest))%nat →
  resolve_path base (prefix +:+ rest) = Ok file → file ∈ paths w →
  ∃ dir, search_dir base prefix = Ok dir ∧ file ∈ below dir ∧ listed file = Some (prefix +:+ rest).
Proof.
  intros Hb Hh Hl Hr Hin. pose proof Hb as [Hb1 Hb2].
  rewrite resolve_hex in Hr by done. injection Hr as <-.
  destruct (search_dir_digest base rest Hb Hh Hl) as (dir & tail & Hdir & Heq).
  exists dir. split_and!; [done| |].
  - apply list_elem_of_filter. split; [apply below_iff; eauto | done].
  - unfold listed, file_name.
    rewrite !components_app, (components_plain (prefix +:+ rest)), !app_assoc, last_snoc
      by (by apply hex_no_char). simpl.
    by rewrite str_prefix_app, orb_true_r.
Qed.

(** C16: a listing ends, changes nothing, and gives, in some order, the name of
    every file below the directory the prefix selects whose name has the prefix,
    each as often as there are such files, and nothing else; and a digest under
    which something is stored is in the listing of each of its prefixes. *)
Theorem local_list_spec base :
  open_dir base → tree_shaped →
  (∀ dir, search_dir base prefix = Ok dir → dir ∉ paths w →
     ∃ l, local_list base prefix w = (w, Ok l) ∧ l ≡ₚ omap listed (below dir)) ∧
  (∀ rest file,
     str_all is_ascii_hexdigit (prefix +:+ rest) = true →
     (4 <= String.length (prefix +:+ rest))%nat →
     resolve_path base (prefix +:+ rest) = Ok file → file ∈ paths w →
     ∃ l, local_list base prefix w = (w, Ok l) ∧ prefix +:+ rest ∈ l).
Proof.
  intros Hb Htree. split; [intros dir; by apply local_list_run|]. intros rest file Hh Hl Hr Hin.
  destruct (digest_below base rest file Hb Hh Hl Hr Hin) as (dir & Hdir & Hbelow & Hlisted).
  destruct (local_list_run base dir Htree Hdir) as (l & Hrun & Hp).
  { intros Hf. rewrite (Htree _ Hf) in Hbelow. by apply not_elem_of_nil in Hbelow. }
  exists l. split; [done|]. rewrite Hp. apply list_elem_of_omap. eauto.
Qed.
End listing.

(** Two digests that share a prefix, and a dump. *)
Definition three_files : World :=
  set_fs {[ "/data/ab/cd/abcd01" := [Byte.x61]; "/data/ab/ce/abce02" := [Byte.x62];
            "/data/backups/db.sql" := [Byte.x63] ]} world0.

Lemma three_files_paths :
  paths three_files = ["/data/ab/ce/abce02"; "/data/ab/cd/abcd01"; "/data/backups/db.sql"].
Proof. vm_compute. reflexivity. Qed.

Lemma three_files_tree : tree_shaped three_files.
Proof.
  refine (proj1 (list.Forall_forall (λ p, below three_files p = []) (paths three_files)) _). rewrite three_files_paths.
  apply Forall_cons_2; [vm_compute; reflexivity|].
  apply Forall_cons_2; [vm_compute; reflexivity|].
  apply Forall_cons_2; [vm_compute; reflexivity|]. apply Forall_nil_2.
Qed.

Lemma local_list_spec_witness :
  (∃ l, local_list "/data" "ab" three_files = (three_files, Ok l) ∧ l ≡ₚ ["abcd01"; "abce02"]) ∧
  (∃ l, local_list "/data" "ab" three_files = (three_files, Ok l) ∧ "abcd01" ∈ l).
Proof.
  destruct (local_list_spec "ab" three_files "/data" ltac:(by split) three_files_tree) as [Hall Hone].
  split.
  - destruct (Hall "/data/ab") as (l & Hl & Hp); [reflexivity | |].
    { rewrite three_files_paths. refine (bool_decide_eq_false_1 _ _). vm_compute. reflexivity. }
    exists l. split; [exact Hl|]. etransitivity; [exact Hp|].
    replace (omap _ _) with ["abce02"; "abcd01"] by (vm_compute; reflexivity).
    apply Permutation_swap.
  - apply (Hone "cd01" "/data/ab/cd/abcd01"); [reflexivity | simpl; lia | reflexivity |].
    rewrite three_files_paths. right. left.
Defined.
