(* ===== verification/RoundTrip.v ===== *)
(** * From upload to download

    Content the service had never seen, once accepted, is downloaded again
    byte for byte, whether it came in one request or from the temporary file
    of a resumable upload; content it knows is stored once. *)

From S2P Require Import Prelude Json Schema Env World Tables Laws Concrete Projects LocalDisk.
From S2P Require Import Registry Storages Scenario Files SyncTasks Search Resolver FileService.
From S2P Require Import Frames Integrity DiskSpec.

(** What the file service reads besides the tables of Integrity.v. *)
Definition admin_tables (d : Db) :
    gmap Uuid Project * gmap Uuid Storage * gmap Uuid ProjectStorage :=
  (projects d, storages d, project_storages d).

Definition StoragesOk (d : Db) : Prop := ∀ id s, storages d !! id = Some s → st_id s = id.

Section io.
Context {E : Env} {HRb : RemoteReadback}.

(** The remote services may have been asked for a container in between. *)
Definition only_containers (r r' : RemoteState) : Prop :=
  r' = r ∨ ∃ b n, r' = (remote_create_container b n r).1.

Definition readable (b : Backend) (p : string) (data : bytes) (w : World) : Prop :=
  be_download b p w = (w, Ok data).

Lemma readable_stable b p data w w' :
  readable b p data w → fs w' = fs w → only_containers (remote w) (remote w') →
  readable b p data w'.
Proof.
  unfold readable. intros Hr Hfs Hrem. destruct b as [base key| | | | | | |]; simpl in *.
  1: { destruct (resolve_path base p) as [f|e|] eqn:Hf.
       2-3: unfold local_download in *; rewrite Hf in *; discriminate Hr.
       rewrite (local_download_eq _ _ _ w Hf) in Hr. rewrite (local_download_eq _ _ _ w' Hf), Hfs.
       destruct (fs w !! f); congruence. }
  all: simpl in *; unfold lift, gets in *; rewrite bind_unfold in *; simpl in *;
    apply (f_equal snd) in Hr; simpl in Hr; f_equal; destruct Hrem as [-> | (b' & n & ->)];
    [done | by apply remote_download_container].
Qed.

Lemma be_upload_readable b p data w w' :
  be_upload b p data w = (w', Ok tt) → readable b p data w' ∧ db w' = db w.
Proof.
  unfold readable. destruct b; simpl.
  1: { intros H. pose proof (local_upload_download _ _ _ _ _ H) as (? & _ & ?). done. }
  all: unfold remote_step; destruct (remote_upload _ _ _ _) as [st r] eqn:Hu;
    intros [= <- ->]; split; [|done]; unfold gets, lift; rewrite bind_unfold; simpl;
    by rewrite (remote_download_upload _ _ _ _ _ Hu).
Qed.

(** ** Resolving a backend twice *)

Lemma ignore_container b n w :
  ∃ r, (if be_supports_containers b then ignore (be_create_container b n) else mret tt) w =
       (set_remote r w, Ok tt) ∧ only_containers (remote w) r.
Proof.
  unfold be_create_container.
  destruct (be_supports_containers b); [|exists (remote w); split; [by destruct w | by left]].
  unfold ignore, try_with, remote_step.
  pose proof (remote_container_no_panic b n (remote w)) as Hp.
  assert (only_containers (remote w) (remote_create_container b n (remote w)).1) as Hc
    by (right; eauto).
  destruct (remote_create_container b n (remote w)) as [st []]; [exists st; by split.. | done].
Qed.

(** The reads of [resolve_project_backend]: the backend and its container. *)
Definition backend_for (d : Db) (s : Storage) (pid : Uuid) (sec : string) :
    Result (Backend * string) :=
  project ← ok_or (p ← projects d !! pid; if is_live p then Some p else None)
              (Project.not_found pid);
  let a := head (select_in (ProjectStorage.is_pair pid (st_id s)) d) in
  container ← effective_container project a;
  config ← project_config s a container;
  backend ← create_backend (st_storage_type s) config sec;
  Ok (backend, container).

Lemma resolve_project_backend_eq s pid sec w :
  resolve_project_backend s pid sec w =
  (bc ← lift (backend_for (db w) s pid sec);
   (if be_supports_containers bc.1 then ignore (be_create_container bc.1 bc.2) else mret tt);;
   mret bc.1) w.
Proof.
  unfold resolve_project_backend, Project.find_by_id, backend_for, or_throw, sql_find_if,
    ProjectStorage.find_for_project_and_storage, sql_select_first, gets, lift.
  rewrite !bind_unfold. simpl. destruct (ok_or _ _) as [p|e|]; simpl; [|done..].
  rewrite !bind_unfold. simpl.
  destruct (effective_container _ _) as [c|e|]; simpl; [|done..]. rewrite !bind_unfold. simpl.
  destruct (project_config _ _ _) as [j|e|]; simpl; [|done..]. rewrite !bind_unfold. simpl.
  by destruct (create_backend _ _ _).
Qed.

Lemma backend_for_tables d d' s pid sec :
  admin_tables d' = admin_tables d → backend_for d' s pid sec = backend_for d s pid sec.
Proof.
  unfold admin_tables, backend_for, select_in. intros [= Hp _ Hps]. simpl. by rewrite Hp, Hps.
Qed.

Lemma resolve_run s pid sec w :
  match backend_for (db w) s pid sec with
  | Ok (b, c) => ∃ r, resolve_project_backend s pid sec w = (set_remote r w, Ok b) ∧
                      only_containers (remote w) r
  | Err e => resolve_project_backend s pid sec w = (w, Err e)
  | Panic => resolve_project_backend s pid sec w = (w, Panic)
  end.
Proof.
  rewrite resolve_project_backend_eq. unfold lift.
  rewrite bind_unfold. destruct (backend_for _ _ _ _) as [[b c]|e|]; [|done..]. simpl.
  destruct (ignore_container b c w) as (r & Hr & Hc). rewrite bind_unfold, Hr. eauto.
Qed.

Lemma resolve_twice s pid sec w w1 b w' :
  resolve_project_backend s pid sec w = (w1, Ok b) →
  admin_tables (db w') = admin_tables (db w) →
  ∃ r, resolve_project_backend s pid sec w' = (set_remote r w', Ok b) ∧
       only_containers (remote w') r.
Proof.
  intros H Ha. pose proof (resolve_run s pid sec w) as Hw. pose proof (resolve_run s pid sec w') as Hw'.
  rewrite (backend_for_tables _ _ _ _ _ Ha) in Hw'.
  destruct (backend_for _ _ _ _) as [[b' c]|e|]; [|congruence..].
  destruct Hw as (r & Hr & _). rewrite Hr in H. by injection H as _ <-.
Qed.

(** ** References and copies *)

(** What a download of the new file depends on, references apart. *)
Definition stored (w : World) :
    gmap Uuid Project * gmap Uuid Storage * gmap Uuid ProjectStorage * gmap Uuid File *
    gmap Uuid FileLocation * gmap string bytes * RemoteState :=
  (admin_tables (db w), files (db w), file_locations (db w), fs w, remote w).

Definition after_create (pid : Uuid) (f : File) (r : FileReference) (n : bool) (s : Storage)
    (l : list Storage) : M FileService.UploadResult :=
  existing ← ok (FileLocation.find_all_for_file (f_id f));
  let existing_locations := default [] existing in
  source ←
    (if n then mret (st_id s)
     else
       o ← FileService.pick_source (map st_id l) None existing_locations;
       mret (default (st_id s) o));
  c ← foldM (FileService.schedule_target pid (f_id f) source (map fl_storage_id existing_locations))
        0 l;
  mret (FileService.mkUploadResult f r (negb n) c).

Lemma after_create_quiet pid f r n s l :
  Guar (same (λ w, (stored w, file_references (db w)))) (after_create pid f r n s l).
Proof.
  unfold after_create, FileLocation.find_all_for_file, FileService.schedule_target.
  repeat first [ apply guar_pick_source; apply _ | apply guar_registry_contains; apply _
    | apply guar_sql_insert; [apply _ | done | done] | unfold SyncTask.create; guar_step | guar_step ].
Qed.

Lemma after_create_result pid f r n s l w w' ur :
  after_create pid f r n s l w = (w', Ok ur) →
  FileService.ur_file ur = f ∧ FileService.ur_file_reference ur = r ∧
  FileService.ur_is_duplicate ur = negb n.
Proof. unfold after_create. intros H. by m_inv. Qed.

Lemma record_references_ok pid f n s name md l w w' ur :
  FileService.record_references_and_sync pid f n s name md l w = (w', Ok ur) →
  ∃ rid, let ref := mkFileReference rid (f_id f) pid name md (now w) in
    file_references (db w) !! rid = None ∧
    file_references (db w') = <[rid := ref]> (file_references (db w)) ∧
    stored w' = stored w ∧
    FileService.ur_file ur = f ∧ FileService.ur_file_reference ur = ref ∧
    FileService.ur_is_duplicate ur = negb n.
Proof.
  change (FileService.record_references_and_sync pid f n s name md l) with
    (r ← FileReference.create (mkCreateFileReference (f_id f) pid name md);
     after_create pid f r n s l).
  intros (r & w1 & Hc & Ha)%bind_ok. apply sql_insert_ok in Hc as (-> & Hid & _ & ->).
  pose proof (guar_outcome _ _ _ _ _ (after_create_quiet pid _ _ n s l) Ha) as Hq.
  apply after_create_result in Ha as (Hf & Hr & Hd). injection Hq as Hq. simpl in *.
  exists (gen_uuid (draws w)). split_and!; try done.
  unfold stored, admin_tables in *. simpl in *. congruence.
Qed.

(** The copy recorded for content just stored. *)
Lemma primary_location_ok fid sid path w w' :
  FilesOk (db w) →
  (∀ i l, file_locations (db w) !! i = Some l → fl_file_id l ≠ fid) →
  file_locations (db w) !! gen_uuid (draws w) = None →
  FileService.create_primary_location fid sid path w = (w', Ok tt) →
  let lid := gen_uuid (draws w) in
  w' = set_db (set_file_locations
         (<[lid := mkFileLocation lid fid sid path "synced" (Some (now w)) None (now w)]>
            (file_locations (db w))) (db w)) (set_draws (draws w + 1)%N w) ∧
  is_Some (storages (db w) !! sid).
Proof.
  intros Hok Hno Hfree. unfold FileService.create_primary_location.
  intros [(l & w1 & Hc & Hr)|(e & w1 & Hc & Hr)]%try_with_ok.
  - apply ret_ok in Hr as [-> _]. apply sql_insert_ok in Hc as (-> & _ & Hv & ->).
    split; [done|]. by no_violation Hv.
  - exfalso. revert Hc Hr. unfold FileLocation.create, sql_insert, insert_row. m_run.
    rewrite Hfree. set (l := mkFileLocation _ _ _ _ _ _ _ _).
    destruct (dangling fid (files (db w))); [by intros [= <- <-]|].
    destruct (dangling sid (storages (db w))); [by intros [= <- <-]|].
    replace (clash _ _ _ _) with false; [done|]. symmetry. apply clash_false.
    intros i k Hk [Hf%N.eqb_eq _]%andb_prop. by destruct (Hno i k Hk).
Qed.

(** Content not yet known gets a file row of its own. *)
Lemma create_or_find_new h size ct w w' r :
  (∀ i f, files (db w) !! i = Some f → f_hash_sha256 f ≠ h) →
  File.create_or_find (mkCreateFile h size ct) w = (w', Ok r) →
  let fid := gen_uuid (draws w) in let f := mkFile fid h size ct (now w) in
  r = (f, true) ∧ files (db w) !! fid = None ∧
  w' = set_db (set_files (<[fid := f]> (files (db w))) (db w)) (set_draws (draws w + 1)%N w).
Proof.
  intros Hnew. unfold File.create_or_find, File.find_by_hash. intros H. m_inv.
  assert (head (select_in (λ f, String.eqb (f_hash_sha256 f) h) (db w)) = None) as Hnone.
  { apply head_select_None. intros i f Hf. apply String.eqb_neq. by eapply Hnew. }
  simpl in *. rewrite Hnone in *. subst.
  apply try_with_ok in H as [(f & w1 & Hc & Hr)|(e & w1 & Hc & Hr)].
  - apply ret_ok in Hr as [-> ->]. by apply sql_insert_ok in Hc as (-> & Hid & _ & ->).
  - exfalso. apply sql_insert_err in Hc as [-> [s ->]].
    destruct (is_unique_violation s); [|done]. m_inv. simpl in *. congruence.
Qed.

(** ** One copy, one reference *)

(** The file has one copy, on an enabled storage, and one reference, through
    whose project the copy can be read. *)
Record SoleCopy (sec : string) (w : World) (f : File) (l : FileLocation) (r : FileReference)
    (s : Storage) (b : Backend) (data : bytes) : Prop := {
  sc_file : files (db w) !! f_id f = Some f;
  sc_location : file_locations (db w) !! fl_id l = Some l;
  sc_location_file : fl_file_id l = f_id f;
  sc_synced : fl_status l = "synced";
  sc_location_only i k : file_locations (db w) !! i = Some k → fl_file_id k = f_id f → i = fl_id l;
  sc_reference : file_references (db w) !! fr_id r = Some r;
  sc_reference_file : fr_file_id r = f_id f;
  sc_reference_only i k :
    file_references (db w) !! i = Some k → fr_file_id k = f_id f → i = fr_id r;
  sc_storage : storages (db w) !! fl_storage_id l = Some s;
  sc_enabled : st_enabled s = true;
  sc_backend : ∃ c, backend_for (db w) s (fr_project_id r) sec = Ok (b, c);
  sc_readable : readable b (fl_storage_path l) data w
}.

Lemma resolve_sole sec w f l r s b data :
  SoleCopy sec w f l r s b data →
  ∃ rem, resolve_backends_for_location (fl_storage_id l) [r] sec w = (set_remote rem w, Ok [b]) ∧
         only_containers (remote w) rem.
Proof.
  intros []. unfold resolve_backends_for_location, Storage.find_by_id, ok, or_throw, sql_find.
  destruct sc_backend0 as [c Hb]. pose proof (resolve_run s (fr_project_id r) sec w) as Hr.
  rewrite Hb in Hr. destruct Hr as (rem & Hr & Hc). exists rem. split; [|done].
  rewrite bind_unfold. unfold try_with. rewrite bind_unfold. unfold gets, lift. simpl.
  rewrite sc_storage0. simpl. rewrite bind_unfold. simpl.
  rewrite !bind_unfold. rewrite Hr. done.
Qed.

Lemma touch_run id w : ∃ w', ignore (FileLocation.touch_accessed id) w = (w', Ok tt).
Proof.
  unfold ignore, try_with, FileLocation.touch_accessed, sql_set_id, sql_set_id_if. m_run.
  by destruct (file_locations (db w) !! id); simpl; eauto.
Qed.

Lemma sole_copy_download sec w f l r s b data :
  SoleCopy sec w f l r s b data →
  (FileService.download_file sec (f_id f) w).2 =
  Ok (FileService.mkDownloadResult data f (f_content_type f) (Some (fr_original_name r))).
Proof.
  intros Hs. pose proof (resolve_sole _ _ _ _ _ _ _ _ Hs) as (rem & Hres & Hrem).
  destruct Hs. unfold FileService.download_file, File.find_by_id, or_throw, sql_find, gets, lift.
  rewrite !bind_unfold. simpl. rewrite sc_file0. simpl.
  assert (select_in (FileLocation.downloadable (db w) (f_id f)) (db w) = [l]) as Hl.
  { apply (select_in_unique _ _ (fl_id l)); [done|..].
    - unfold FileLocation.downloadable.
      by rewrite sc_location_file0, N.eqb_refl, sc_synced0, sc_storage0, sc_enabled0.
    - intros j k Hk Hd. apply (sc_location_only0 _ _ Hk).
      unfold FileLocation.downloadable in Hd. rewrite !andb_true_iff in Hd.
      destruct Hd as [[Hd _] _]. by apply N.eqb_eq. }
  assert (select_in (λ fr, N.eqb (fr_file_id fr) (f_id f)) (db w) = [r]) as Hr.
  { apply (select_in_unique _ _ (fr_id r)); [done|by rewrite sc_reference_file0, N.eqb_refl|].
    intros j k Hk Hd%N.eqb_eq. by apply (sc_reference_only0 _ _ Hk). }
  unfold FileLocation.find_for_file, FileReference.find_by_file_id, sql_select, gets.
  m_run. rewrite Hl. simpl. m_run. rewrite Hr. simpl. rewrite Hres. m_run.
  assert (readable b (fl_storage_path l) data (set_remote rem w)) as Hread
    by by eapply readable_stable.
  unfold readable in Hread. unfold ok, try_with. rewrite Hread. simpl.
  destruct (touch_run (fl_id l) (set_remote rem w)) as [w' Ht]. by rewrite bind_unfold, Ht.
Qed.

(** ** The two ways in *)

(** What both uploads do once the content is hashed; they differ in how the
    content reaches the backend. *)
Definition upload_core (sec : string) (pid : Uuid) (name ct h : string) (size : Z) (md : Json)
    (store : Backend → string → M unit) : M FileService.UploadResult :=
  '(file, is_new) ← File.create_or_find (mkCreateFile h size ct);
  storages ← Storage.list_for_project pid;
  ensure (negb (Nat.eqb (length storages) 0)) FileService.no_storages;;
  primary ← FileService.find_primary_storage storages;
  path ← lift (content_addressed_path h);
  (if is_new then
     backend ← resolve_project_backend primary pid sec;
     store backend path;;
     FileService.create_primary_location (f_id file) (st_id primary) path
   else mret tt);;
  FileService.record_references_and_sync pid file is_new primary name md storages.

Lemma upload_file_core sec pid name ct data md :
  FileService.upload_file sec pid name ct data md =
  upload_core sec pid name ct (compute_sha256 data) (Z.of_nat (length data)) md
    (λ b p, be_upload b p data).
Proof. reflexivity. Qed.

Lemma finalize_upload_core sec pid name ct tmp md h size w w1 :
  hash_file_sha256 tmp w = (w1, Ok (h, size)) →
  FileService.finalize_upload sec pid name ct tmp md w =
  upload_core sec pid name ct h size md (λ b p, be_upload_from_file b p tmp) w1.
Proof. intros Hh. unfold FileService.finalize_upload. by rewrite bind_unfold, Hh. Qed.

(** A way to store content that works: the backend yields it back. *)
Definition stores (store : Backend → string → M unit) (data : bytes) (w : World) : Prop :=
  ∀ b p wa wb, fs wa = fs w → store b p wa = (wb, Ok tt) →
    readable b p data wb ∧ db wb = db wa ∧ draws wb = draws wa.

Lemma stores_upload data w : stores (λ b p, be_upload b p data) data w.
Proof.
  intros b p wa wb _ H. pose proof (be_upload_readable _ _ _ _ _ H) as [? ?].
  split_and!; [done..|]. change (same draws wa wb).
  eapply guar_outcome, H. apply guar_be_upload; [apply _ | done..].
Qed.

Lemma stores_upload_from_file data tmp w :
  fs w !! tmp = Some data → stores (λ b p, be_upload_from_file b p tmp) data w.
Proof.
  intros Hd b p wa wb Hfs H.
  assert (fs wa !! tmp = Some data) as Hd' by congruence.
  assert (same (λ w, (db w, draws w)) wa wb) as [= ? ?]
    by (eapply guar_outcome, H; apply guar_be_upload_from_file; [apply _ | done..]).
  split_and!; [|done..]. unfold readable. destruct b as [base key| | | | | | |]; simpl in *.
  2-8: unfold try_with, fs_read, gets, lift in H; revert H; m_run; rewrite Hd'; simpl;
    unfold remote_step; destruct (remote_upload_from_file _ _ _ _) as [st r] eqn:Hu;
    intros [= <- ->]; simpl; by rewrite (remote_download_upload_from_file _ _ _ _ _ Hu).
  unfold local_upload_from_file, fs_guard in H. m_inv.
  apply try_with_ok in H as [([] & w1 & Hr & Hk)|(e & w1 & Hr & _)];
    unfold fs_rename, fs_read, fs_guard, ensure in Hr.
  - apply ret_ok in Hk as [-> _]. m_inv. simpl in *. injection Hr as <-.
    match goal with Hg : (if ?b then _ else _) _ = _, Hb : ?b = true |- _ =>
      rewrite Hb in Hg; apply ret_ok in Hg as [-> _] end.
    rewrite Hd' in *. simplify_eq/=. erewrite local_download_eq by done. simpl.
    by rewrite lookup_insert_eq.
  - exfalso. revert Hr. m_run. rewrite Hd'. m_run.
    by match goal with Hw : fs_writable _ = true |- _ => rewrite Hw end.
Qed.

(** ** New content *)

(** Identifiers to come are not taken by recorded copies. *)
Definition fresh_locations (w : World) : Prop :=
  ∀ n, (draws w <= n)%N → file_locations (db w) !! gen_uuid n = None.

Lemma elem_of_project_storages d pid s :
  s ∈ Storage.project_storages_in d pid →
  ∃ sid, storages d !! sid = Some s ∧ st_enabled s = true.
Proof.
  unfold Storage.project_storages_in. rewrite list_elem_of_omap. intros (ps & _ & H).
  destruct (storages d !! ps_storage_id ps) as [s'|] eqn:Hs; simplify_eq/=.
  destruct (st_enabled s') eqn:?; simplify_eq. eauto.
Qed.

(** The steps of an upload of new content: the state after the file row, after
    the backend accepted the content, and after the copy was recorded. *)
Lemma upload_core_steps sec pid name ct h size md store w w' ur :
  (∀ i f, files (db w) !! i = Some f → f_hash_sha256 f ≠ h) →
  upload_core sec pid name ct h size md store w = (w', Ok ur) →
  let f := mkFile (gen_uuid (draws w)) h size ct (now w) in
  ∃ l s path b c w1 w2 w3 w4,
    w1 = set_db (set_files (<[f_id f := f]> (files (db w))) (db w)) (set_draws (draws w + 1)%N w) ∧
    files (db w) !! f_id f = None ∧ (FilesOk (db w) → FilesOk (db w1)) ∧
    s ∈ Storage.project_storages_in (db w1) pid ∧
    backend_for (db w1) s pid sec = Ok (b, c) ∧ db w2 = db w1 ∧ fs w2 = fs w1 ∧
    draws w2 = draws w1 ∧
    content_addressed_path h = Ok path ∧ store b path w2 = (w3, Ok tt) ∧
    FileService.create_primary_location (f_id f) (st_id s) path w3 = (w4, Ok tt) ∧
    FileService.record_references_and_sync pid f true s name md l w4 = (w', Ok ur).
Proof.
  intros Hnew. unfold upload_core.
  intros ([f n] & w1 & Hcf & H)%bind_ok.
  pose proof (guar_outcome _ _ _ _ _ (keeps_create_or_find _) Hcf) as Hkeep.
  apply create_or_find_new in Hcf as (Hf & Hfid & Hw1); [|done].
  injection Hf as -> ->. cbn beta iota in H.
  apply bind_ok in H as (l & w2 & Hl & H). unfold Storage.list_for_project in Hl.
  apply bind_ok in Hl as (l' & w3 & Hg & Hl). apply gets_ok in Hg as [-> ->].
  apply ret_ok in Hl as [-> ->].
  apply bind_ok in H as ([] & w2 & He & H). apply ensure_ok in He as [-> _].
  apply bind_ok in H as (s & w2 & Hp & H).
  pose proof (find_primary_storage_spec
    (order_by (then_by (desc (λ s, bool_key (st_is_hot s))) (desc st_created_at))
       (Storage.project_storages_in (db w1) pid)) w1) as Hspec.
  rewrite Hp in Hspec. destruct Hspec as (-> & Hin%elem_of_order_by & _ & _). clear Hp.
  apply bind_ok in H as (path & w2 & Hpath & H). apply lift_ok in Hpath as [-> Hpath].
  apply bind_ok in H as ([] & w4 & Hs & H).
  apply bind_ok in Hs as (b & w2 & Hres & Hs). apply bind_ok in Hs as ([] & w3 & Hup & Hloc).
  pose proof (resolve_run s pid sec w1) as Hrun.
  destruct (backend_for (db w1) s pid sec) as [[b' c]|e|] eqn:Hb; [|congruence..].
  destruct Hrun as (r & Hr & _). rewrite Hr in Hres. injection Hres as <- <-.
  eexists _, s, path, b', c, w1, (set_remote r w1), w3, w4. by split_and!.
Qed.

Lemma upload_core_new sec pid name ct h size md store data w w' ur :
  FilesOk (db w) → StoragesOk (db w) → fresh_locations w →
  (∀ i f, files (db w) !! i = Some f → f_hash_sha256 f ≠ h) →
  stores store data w →
  upload_core sec pid name ct h size md store w = (w', Ok ur) →
  let f := mkFile (gen_uuid (draws w)) h size ct (now w) in
  FileService.ur_file ur = f ∧ FileService.ur_is_duplicate ur = false ∧
  ∃ l r s b, SoleCopy sec w' f l r s b data ∧ content_addressed_path h = Ok (fl_storage_path l) ∧
    fr_original_name r = name.
Proof.
  intros Hok Hst Hfresh Hnew Hstore Hup%upload_core_steps f; [|done]. fold f in Hup. clearbody f.
  destruct Hup as (ss & s & path & b & c & w1 & w2 & w3 & w4 & -> & Hfid & Hkeep & Hin & Hb & Hdb2 & Hfs2
    & Hdr2 & Hpath & Hput & Hloc & Hrec).
  destruct (Hstore _ _ _ _ Hfs2 Hput) as (Hread & Hdb3 & Hdr3).
  rewrite Hdb2 in Hdb3. rewrite Hdr2 in Hdr3. clear Hstore Hput Hdb2 Hfs2 Hdr2 w2. simpl in *.
  assert (∀ i k, file_locations (db w) !! i = Some k → fl_file_id k ≠ f_id f) as Hnol.
  { intros i k Hk Heq. destruct (ok_loc_file _ Hok _ _ Hk) as [g Hg]. congruence. }
  assert (∀ i k, file_references (db w) !! i = Some k → fr_file_id k ≠ f_id f) as Hnor.
  { intros i k Hk Heq. destruct (ok_ref_file _ Hok _ _ Hk) as [g Hg]. congruence. }
  apply primary_location_ok in Hloc as [-> Hs]; rewrite ?Hdb3 in *; simpl in *.
  2: { by apply Hkeep. }
  2: done.
  2: { rewrite Hdr3. apply Hfresh. lia. }
  apply record_references_ok in Hrec as (rid & Hrid & Href & Hq & Hf & Hr & Hd). simpl in *.
  split_and!; [done..|].
  set (l := mkFileLocation _ _ _ _ _ _ _ _) in *. set (ref := mkFileReference _ _ _ _ _ _) in *.
  destruct (elem_of_project_storages _ _ _ Hin) as (sid & Hsid & Hen). simpl in Hsid.
  unfold stored, admin_tables in Hq. injection Hq as Hp Hst' Hps Hfi Hlo Hfs Hrem. simpl in *.
  exists l, ref, s, b. split; [|done].
  constructor; rewrite ?Hst', ?Hfi, ?Hlo, ?Href; try done; try (by rewrite lookup_insert_eq).
  - intros i k. rewrite lookup_insert. case_decide; [by intros; simplify_eq/=|].
    intros Hk Heq. by destruct (Hnol _ _ Hk).
  - intros i k. rewrite lookup_insert. case_decide; [by intros; simplify_eq/=|].
    intros Hk Heq. by destruct (Hnor _ _ Hk).
  - simpl. by rewrite (Hst _ _ Hsid).
  - exists c. rewrite <- Hb. apply backend_for_tables. unfold admin_tables. simpl. congruence.
  - eapply readable_stable; [exact Hread | done | by left].
Qed.

Definition unknown_content (data : bytes) (w : World) : Prop :=
  ∀ i f, files (db w) !! i = Some f → f_hash_sha256 f ≠ compute_sha256 data.

(** C1: content the service does not know, uploaded in one request to a project
    with any mix of storages, is downloaded afterwards byte for byte, with the
    content type and name it was uploaded under. *)
Theorem upload_then_download sec pid name ct data md w w' ur :
  FilesOk (db w) → StoragesOk (db w) → fresh_locations w → unknown_content data w →
  FileService.upload_file sec pid name ct data md w = (w', Ok ur) →
  (FileService.download_file sec (f_id (FileService.ur_file ur)) w').2 =
  Ok (FileService.mkDownloadResult data (FileService.ur_file ur) ct (Some name)).
Proof.
  intros Hok Hst Hfr Hnew. rewrite upload_file_core. intros Hup.
  apply (upload_core_new _ _ _ _ _ _ _ _ data) in Hup
    as (Hf & _ & l & r & s & b & Hs & _ & Hn); try done; [|apply stores_upload].
  rewrite Hf. rewrite (sole_copy_download _ _ _ _ _ _ _ _ Hs). by rewrite Hn.
Qed.

(** The same holds of a resumable upload: what its temporary file held when
    it was finalised is what is downloaded. *)
Theorem finalize_then_download `{!ShaStream} sec pid name ct tmp data md w w' ur :
  FilesOk (db w) → StoragesOk (db w) → fresh_locations w → unknown_content data w →
  fs w !! tmp = Some data →
  FileService.finalize_upload sec pid name ct tmp md w = (w', Ok ur) →
  f_hash_sha256 (FileService.ur_file ur) = compute_sha256 data ∧
  (FileService.download_file sec (f_id (FileService.ur_file ur)) w').2 =
  Ok (FileService.mkDownloadResult data (FileService.ur_file ur) ct (Some name)).
Proof.
  intros Hok Hst Hfr Hnew Htmp.
  rewrite (finalize_upload_core _ _ _ _ _ _ _ _ w w (hash_file_run tmp data w Htmp)).
  intros Hup. apply (upload_core_new _ _ _ _ _ _ _ _ data) in Hup
    as (Hf & _ & l & r & s & b & Hs & _ & Hn); try done; [|by apply stores_upload_from_file].
  rewrite Hf. split; [done|]. rewrite (sole_copy_download _ _ _ _ _ _ _ _ Hs). by rewrite Hn.
Qed.

(** C3: content the service already knows is stored once: a second upload, of
    any project and under any name, reports a duplicate of the existing file
    and adds a reference, but touches no file row, no copy and no storage. *)
Theorem upload_known_content sec pid name ct data md i f w w' ur :
  FilesOk (db w) → files (db w) !! i = Some f → f_hash_sha256 f = compute_sha256 data →
  FileService.upload_file sec pid name ct data md w = (w', Ok ur) →
  FileService.ur_file ur = f ∧ FileService.ur_is_duplicate ur = true ∧ stored w' = stored w ∧
  ∃ rid, file_references (db w) !! rid = None ∧
    file_references (db w') =
      <[rid := mkFileReference rid i pid name md (now w)]> (file_references (db w)).
Proof.
  intros Hok Hi Hh. rewrite upload_file_core. unfold upload_core.
  intros ([f' n] & w1 & Hcf & H)%bind_ok.
  assert (f' = f ∧ n = false ∧ w1 = w) as (-> & -> & ->).
  { unfold File.create_or_find, File.find_by_hash in Hcf.
    apply bind_ok in Hcf as (o & w2 & Ho & Hcf). apply gets_ok in Ho as [-> ->]. simpl in Hcf.
    rewrite (select_in_unique _ _ i f) in Hcf; [|done|by rewrite Hh, String.eqb_refl|].
    - by apply ret_ok in Hcf as [-> [= -> ->]].
    - intros j g Hg Hhg%String.eqb_eq. apply (ok_file_hash _ Hok j i g f); [exact Hg | exact Hi | congruence]. }
  cbn beta iota in H. unfold Storage.list_for_project in H.
  apply bind_ok in H as (l & w2 & Hl & H). apply bind_ok in Hl as (l' & w3 & Hg & Hl).
  apply gets_ok in Hg as [-> ->]. apply ret_ok in Hl as [-> ->].
  apply bind_ok in H as ([] & w2 & He & H). apply ensure_ok in He as [-> _].
  apply bind_ok in H as (s & w2 & Hp & H).
  match type of Hp with FileService.find_primary_storage ?l _ = _ =>
    pose proof (find_primary_storage_spec l w) as Hspec end.
  rewrite Hp in Hspec. destruct Hspec as (-> & _).
  apply bind_ok in H as (path & w2 & Hpath & H). apply lift_ok in Hpath as [-> _].
  apply bind_ok in H as ([] & w2 & Hs & H). apply ret_ok in Hs as [-> _].
  apply record_references_ok in H as (rid & Hrid & Href & Hq & Hf & Hr & Hd).
  split_and!; [done..|]. exists rid. split; [done|]. by rewrite Href, (ok_file_key _ Hok _ _ Hi).
Qed.
End io.

(** Witnesses, on the deployment of Scenario.v. *)
Lemma deployment_files_ok : FilesOk (db deployment).
Proof. by apply FilesOk_empty. Defined.

Lemma deployment_storages_ok : StoragesOk (db deployment).
Proof.
  intros id s. change (storages (db deployment)) with ({[ 20%N := hot; 21%N := cold ]} : gmap Uuid _).
  rewrite lookup_insert. case_decide; [by intros [= <-]|].
  intros [<- <-]%lookup_singleton_Some. done.
Defined.

Lemma deployment_fresh : fresh_locations deployment.
Proof. intros n _. apply lookup_empty. Defined.

Lemma deployment_unknown data : unknown_content data deployment.
Proof. intros i f. change (files (db deployment)) with (∅ : gmap Uuid File). by rewrite lookup_empty. Defined.

Definition uploaded : World * Result FileService.UploadResult :=
  FileService.upload_file "k" 10 "a.txt" "text/plain" hello no_metadata deployment.

Definition hello_file : File := mkFile 1001 (compute_sha256 hello) 5 "text/plain" (seconds 1000000).

Lemma upload_then_download_witness :
  (FileService.download_file "k" 1001 uploaded.1).2 =
  Ok (FileService.mkDownloadResult hello hello_file "text/plain" (Some "a.txt")).
Proof.
  apply (upload_then_download "k" 10 "a.txt" "text/plain" hello no_metadata deployment uploaded.1
    (FileService.mkUploadResult hello_file
       (mkFileReference 1003 1001 10 "a.txt" no_metadata (seconds 1000000)) false 1)).
  - exact deployment_files_ok.
  - exact deployment_storages_ok.
  - exact deployment_fresh.
  - exact (deployment_unknown hello).
  - apply run_ok. vm_compute. reflexivity.
Defined.

Definition with_temp : World := set_fs {[ "/tmp/u.part" := hello ]} deployment.
Definition finalized : World * Result FileService.UploadResult :=
  FileService.finalize_upload "k" 10 "a.txt" "text/plain" "/tmp/u.part" no_metadata with_temp.

Lemma finalize_then_download_witness :
  f_hash_sha256 hello_file = compute_sha256 hello ∧
  (FileService.download_file "k" 1001 finalized.1).2 =
  Ok (FileService.mkDownloadResult hello hello_file "text/plain" (Some "a.txt")).
Proof.
  apply (finalize_then_download "k" 10 "a.txt" "text/plain" "/tmp/u.part" hello no_metadata with_temp
    finalized.1 (FileService.mkUploadResult hello_file
       (mkFileReference 1003 1001 10 "a.txt" no_metadata (seconds 1000000)) false 1)).
  - exact deployment_files_ok.
  - exact deployment_storages_ok.
  - exact deployment_fresh.
  - exact (deployment_unknown hello).
  - reflexivity.
  - apply run_ok. vm_compute. reflexivity.
Defined.

Definition uploaded_again : World * Result FileService.UploadResult :=
  FileService.upload_file "k" 11 "b.txt" "text/plain" hello no_metadata uploaded.1.

Lemma upload_known_content_witness :
  uploaded_again.2 = Ok (FileService.mkUploadResult hello_file
    (mkFileReference 1005 1001 11 "b.txt" no_metadata (seconds 1000000)) true 0) ∧
  stored uploaded_again.1 = stored uploaded.1.
Proof.
  split; [vm_compute; reflexivity|].
  apply (upload_known_content "k" 11 "b.txt" "text/plain" hello no_metadata 1001 hello_file uploaded.1
    uploaded_again.1 (FileService.mkUploadResult hello_file
    (mkFileReference 1005 1001 11 "b.txt" no_metadata (seconds 1000000)) true 0)).
  - exact (keeps_upload_file "k" 10 "a.txt" "text/plain" hello no_metadata deployment
             deployment_files_ok).
  - vm_compute. reflexivity.
  - vm_compute. reflexivity.
  - apply run_ok. vm_compute. reflexivity.
Defined.
