(* ===== verification/SearchSpec.v ===== *)
(** * What the metadata search computes

    The meaning of a filter, as a predicate on metadata, and the proof that the
    compiled SQL condition with its numbered parameters evaluates to it; the
    searches, the preview and the bulk deletion in terms of that meaning. *)

From S2P Require Import Prelude Json Schema Env World Tables Laws Concrete Files Search.

(** ** The meaning of a filter *)

Section filters.
Context {E : Env}.

Fixpoint matches (metadata : Json) (f : MetadataFilter) : bool :=
  match f with
  | FAnd l => forallb (matches metadata) l
  | FOr l => existsb (matches metadata) l
  | FNot f => negb (matches metadata f)
  | FLeaf key value => jsonb_contains metadata (JObject [(key, value)])
  end.
End filters.

(** Levels of nesting. *)
Fixpoint height (f : MetadataFilter) : nat :=
  match f with
  | FAnd l | FOr l => S (list_max (map height l))
  | FNot f => S (height f)
  | FLeaf _ _ => 1
  end.

Section induction.
Context (P : MetadataFilter → Prop).
Hypothesis (Hand : ∀ l, Forall P l → P (FAnd l)) (Hor : ∀ l, Forall P l → P (FOr l))
  (Hnot : ∀ f, P f → P (FNot f)) (Hleaf : ∀ k v, P (FLeaf k v)).

Fixpoint filter_ind (f : MetadataFilter) : P f :=
  let fix all (l : list MetadataFilter) : Forall P l :=
    match l with
    | [] => Forall_nil_2 P
    | f :: l' => Forall_cons_2 P f l' (filter_ind f) (all l')
    end in
  match f with
  | FAnd l => Hand l (all l)
  | FOr l => Hor l (all l)
  | FNot f => Hnot f (filter_ind f)
  | FLeaf k v => Hleaf k v
  end.
End induction.

(** ** Compilation *)

Section compile.
Context {E : Env}.

(** The parameters [ps], bound from number [n] on. *)
Definition bound (args : list SqlValue) (n : nat) (ps : list Json) : Prop :=
  ∀ i j, ps !! i = Some j → arg args (n + i) = Some (VJson j).

Lemma bound_app args n ps qs :
  bound args n (ps ++ qs) → bound args n ps ∧ bound args (n + length ps) qs.
Proof.
  intros H. split; intros i j Hi.
  - apply H. by apply lookup_app_l_Some.
  - rewrite <- Nat.add_assoc. apply H. rewrite lookup_app_r by lia.
    by replace (length ps + i - length ps)%nat with i by lia.
Qed.

(** What a compilation step promises: it appends its parameters, numbered
    consecutively, and its condition means [m]. *)
Definition compiles (c c' : MetadataFilterCompiler) (P : list SqlValue → Row → Db → Prop) : Prop :=
  ∃ ps, c' = mkCompiler (next_param c + length ps) (params c ++ ps) ∧
    ∀ d args row, bound args (next_param c) ps → P args row d.

Lemma compile_list_ok depth l c es c' :
  Forall (λ f, ∀ depth c e c', compile_inner f depth c = Ok (e, c') →
    compiles c c' (λ args row d, eval d args row e = Some (matches (fr_metadata row.1) f))) l →
  compile_list (λ f, compile_inner f depth) l c = Ok (es, c') →
  compiles c c' (λ args row d,
    map (eval d args row) es = map Some (map (matches (fr_metadata row.1)) l)).
Proof.
  intros Hl. revert c es c'. induction Hl as [|f l Hf _ IH]; intros c es c'; cbn [compile_list].
  - intros [= <- <-]. exists []. rewrite Nat.add_0_r, app_nil_r. by destruct c.
  - intros H. apply Result_bind_ok in H as ([e c1] & He & H).
    apply Result_bind_ok in H as ([es' c2] & Hes & H). injection H as <- <-.
    apply Hf in He as (ps & -> & He). apply IH in Hes as (qs & -> & Hes). simpl in *.
    exists (ps ++ qs). rewrite length_app, Nat.add_assoc, app_assoc. split; [done|].
    intros d args row [Hp Hq]%bound_app. by rewrite He, Hes by done.
Qed.

Lemma all_of_some bs : all_of (map Some bs) = Some (forallb id bs).
Proof. induction bs as [|b bs IH]; simpl; [done|]. by rewrite IH. Qed.
Lemma any_of_some bs : any_of (map Some bs) = Some (existsb id bs).
Proof. induction bs as [|b bs IH]; simpl; [done|]. by rewrite IH. Qed.
Lemma forallb_map_id {A} (f : A → bool) l : forallb id (map f l) = forallb f l.
Proof. induction l as [|x l IH]; simpl; by rewrite ?IH. Qed.
Lemma existsb_map_id {A} (f : A → bool) l : existsb id (map f l) = existsb f l.
Proof. induction l as [|x l IH]; simpl; by rewrite ?IH. Qed.

Lemma compile_inner_ok f depth c e c' :
  compile_inner f depth c = Ok (e, c') →
  compiles c c' (λ args row d, eval d args row e = Some (matches (fr_metadata row.1) f)).
Proof.
  revert depth c e c'. induction f as [l IH|l IH|f IH|k v] using filter_ind;
    intros depth c e c'; cbn [compile_inner]; destruct (Nat.leb MAX_DEPTH depth); try done.
  - destruct l as [|f0 l].
    { intros [= <- <-]. exists []. rewrite Nat.add_0_r, app_nil_r. by destruct c. }
    intros H. apply Result_bind_ok in H as ([es c1] & Hes & H). injection H as <- <-.
    apply compile_list_ok in Hes as (ps & -> & Hes); [|done].
    exists ps. split; [done|]. intros d args row Hb. cbn [eval].
    by rewrite Hes, all_of_some, forallb_map_id.
  - destruct l as [|f0 l].
    { intros [= <- <-]. exists []. rewrite Nat.add_0_r, app_nil_r. by destruct c. }
    intros H. apply Result_bind_ok in H as ([es c1] & Hes & H). injection H as <- <-.
    apply compile_list_ok in Hes as (ps & -> & Hes); [|done].
    exists ps. split; [done|]. intros d args row Hb. cbn [eval].
    by rewrite Hes, any_of_some, existsb_map_id.
  - intros H. apply Result_bind_ok in H as ([e1 c1] & He & H). injection H as <- <-.
    apply IH in He as (ps & -> & He). exists ps. split; [done|].
    intros d args row Hb. cbn [eval]. by rewrite He.
  - intros [= <- <-]. exists [JObject [(k, v)]]. simpl. rewrite Nat.add_1_r. split; [done|].
    intros d args row Hb. specialize (Hb 0%nat _ eq_refl). rewrite Nat.add_0_r in Hb.
    cbn [eval]. by rewrite Hb.
Qed.

(** C10: a compiled filter means what the filter means: whatever arguments are
    bound after the filter's own, the SQL condition evaluates without error,
    on every row, to the filter's value on the row's metadata; its parameters
    are numbered consecutively from the start, one per leaf value. *)
Theorem compile_correct f n e c :
  compile f (new_compiler n) = Ok (e, c) →
  next_param c = (n + length (params c))%nat ∧
  ∀ d args row, bound args n (params c) →
    eval d args row e = Some (matches (fr_metadata row.1) f).
Proof. intros H%compile_inner_ok. destruct H as (ps & -> & He). by split. Qed.

(** The outcome of a compilation whose deepest node is at level [h]. *)
Definition depth_checked {A} (h : nat) (r : Result A) : Prop :=
  match r with
  | Ok _ => (h <= MAX_DEPTH)%nat
  | Err e => e = too_deep ∧ (MAX_DEPTH < h)%nat
  | Panic => False
  end.

Lemma depth_checked_bind {A B} h (r : Result A) (k : A → B) :
  depth_checked h r → depth_checked h (a ← r; Ok (k a)).
Proof. by destruct r. Qed.

Lemma compile_list_depth depth l c :
  (depth <= MAX_DEPTH)%nat →
  Forall (λ f, ∀ depth c, (depth <= MAX_DEPTH)%nat →
    depth_checked (depth + height f) (compile_inner f depth c)) l →
  depth_checked (depth + list_max (map height l)) (compile_list (λ f, compile_inner f depth) l c).
Proof.
  intros Hd Hl. revert c. induction Hl as [|f l Hf _ IH]; intros c; cbn [compile_list].
  - simpl. lia.
  - specialize (Hf depth c Hd). simpl list_max.
    destruct (compile_inner f depth c) as [[e c1]|e|]; simpl in *; [|naive_solver lia|done].
    specialize (IH c1). destruct (compile_list _ l c1) as [[es c2]|e'|]; simpl in *;
      [lia | naive_solver lia | done].
Qed.

Lemma compile_inner_depth f depth c :
  (depth <= MAX_DEPTH)%nat → depth_checked (depth + height f) (compile_inner f depth c).
Proof.
  revert depth c. induction f as [l IH|l IH|f IH|k v] using filter_ind;
    intros depth c Hd; cbn [compile_inner];
    (destruct (Nat.leb_spec MAX_DEPTH depth); [split; [done | simpl; lia]|]).
  - destruct l as [|f0 l]; [simpl; lia|]. cbn [height]. rewrite Nat.add_succ_r.
    pose proof (compile_list_depth (S depth) (f0 :: l) c ltac:(lia) IH) as Hl.
    destruct (compile_list _ _ _) as [[]|e|]; done.
  - destruct l as [|f0 l]; [simpl; lia|]. cbn [height]. rewrite Nat.add_succ_r.
    pose proof (compile_list_depth (S depth) (f0 :: l) c ltac:(lia) IH) as Hl.
    destruct (compile_list _ _ _) as [[]|e|]; done.
  - specialize (IH (S depth) c ltac:(lia)). simpl height. rewrite Nat.add_succ_r.
    destruct (compile_inner f (S depth) c) as [[]|e|]; done.
  - simpl. lia.
Qed.

(** Compilation always terminates with a condition or with a 400, never
    with a panic: a filter is accepted exactly when it is nested at most 32
    levels deep. *)
Theorem compile_depth f n :
  match compile f (new_compiler n) with
  | Ok _ => (height f <= 32)%nat
  | Err e => e = too_deep ∧ (32 < height f)%nat
  | Panic => False
  end.
Proof.
  pose proof (compile_inner_depth f 0 (new_compiler n) ltac:(unfold MAX_DEPTH; lia)) as H.
  unfold compile. by destruct (compile_inner f 0 _).
Qed.
End compile.

(** ** Clauses *)

Section clauses.
Context {E : Env}.

(** A conjunction of conditions and its arguments: the next parameter is free,
    and on the rows of [V], whatever is bound after, the conjunction is [P]. *)
Definition clause_ok (V : Row → Prop) (conds : list SqlExpr) (idx : nat) (args : list SqlValue)
    (P : Db → Row → bool) : Prop :=
  idx = S (length args) ∧
  ∀ d extra row, V row → all_of (map (eval d (args ++ extra) row) conds) = Some (P d row).

Lemma all_of_app l1 l2 :
  all_of (l1 ++ l2) = (b1 ← all_of l1; b2 ← all_of l2; Some (b1 && b2)).
Proof.
  induction l1 as [|[b|] l1 IH]; simpl; [by destruct (all_of l2)| |done].
  rewrite IH. destruct (all_of l1), (all_of l2); simpl; try done. by rewrite andb_assoc.
Qed.

Lemma clause_push {A} V conds idx args P (o : option A) mk mkv (Q : A → Db → Row → bool) :
  clause_ok V conds idx args P →
  (∀ a d args' n row, o = Some a → V row → arg args' n = Some (mkv a) →
     eval d args' row (mk n) = Some (Q a d row)) →
  clause_ok V (push_if o mk (conds, idx)).1 (push_if o mk (conds, idx)).2 (args ++ arg_if o mkv)
    (λ d row, P d row && match o with Some a => Q a d row | None => true end).
Proof.
  intros [-> Hc] HQ. destruct o as [a|]; simpl.
  - split; [rewrite length_app; simpl; lia|]. intros d extra row HV.
    rewrite <- app_assoc, map_app, all_of_app, Hc by done. simpl.
    rewrite (HQ a) by (try done; unfold arg; by rewrite lookup_app_r, Nat.sub_diag). simpl.
    by rewrite andb_true_r.
  - rewrite app_nil_r. split; [done|]. intros d extra row HV. by rewrite Hc, andb_true_r.
Qed.

Lemma arg_time_eq args n t : arg args n = Some (VTime t) → arg_time args n = Some t.
Proof. unfold arg_time. by intros ->. Qed.
Lemma arg_int_eq args n z : arg args n = Some (VInt z) → arg_int args n = Some z.
Proof. unfold arg_int. by intros ->. Qed.

Lemma where_rows_ok V conds idx args P d extra rows :
  clause_ok V conds idx args P → Forall V rows →
  where_rows d (args ++ extra) conds rows = Ok (filter (λ row, P d row = true) rows).
Proof.
  intros [_ Hc] Hv. induction Hv as [|row rows HV _ IH]; simpl; [done|].
  rewrite Hc by done. simpl. rewrite IH. simpl. rewrite filter_cons.
  by destruct (P d row).
Qed.

(** The project condition and an optional metadata filter, at parameters 1
    and from 2 on. *)
Definition filter_matches (filters : option MetadataFilter) (row : Row) : bool :=
  match filters with Some f => matches (fr_metadata row.1) f | None => true end.

Lemma clause_filter (pid : Uuid) f e c V :
  compile f (new_compiler 2) = Ok (e, c) →
  clause_ok V [SProjectIs 1; e] (2 + length (params c)) (VUuid pid :: map VJson (params c))
    (λ _ row, N.eqb (fr_project_id row.1) pid && matches (fr_metadata row.1) f).
Proof.
  intros (ps & -> & He)%compile_inner_ok. split; [simpl; by rewrite length_map|].
  intros d extra row _. simpl. rewrite He; simpl; [by rewrite andb_true_r|].
  intros i j Hj. simpl. apply lookup_app_l_Some. rewrite list_lookup_fmap, Hj. done.
Qed.

Lemma clause_ext V conds idx args P Q :
  clause_ok V conds idx args P → (∀ d row, P d row = Q d row) → clause_ok V conds idx args Q.
Proof. intros [? H] HPQ. split; [done|]. intros. rewrite <- HPQ. by apply H. Qed.

Lemma clause_project (pid : Uuid) V :
  clause_ok V [SProjectIs 1] 2 [VUuid pid] (λ _ row, N.eqb (fr_project_id row.1) pid).
Proof. split; [done|]. intros. simpl. by rewrite andb_true_r. Qed.

Lemma clause_true V conds idx args P :
  clause_ok V conds idx args P → clause_ok V (conds ++ [STrue]) idx args P.
Proof.
  intros [? H]. split; [done|]. intros d extra row HV. rewrite map_app, all_of_app, H by done.
  simpl. by rewrite andb_true_r.
Qed.

Lemma push_if_base {A} (o : option A) mk base acc :
  push_if o mk (base ++ acc.1, acc.2) = (base ++ (push_if o mk acc).1, (push_if o mk acc).2).
Proof. destruct o; simpl; by rewrite ?app_assoc. Qed.

(** ** Searches *)

Definition name_matches (x : SearchExtras) (row : Row) : bool :=
  match se_name_contains x with
  | Some s => ilike (fr_original_name row.1) ("%" +:+ s +:+ "%")
  | None => true
  end.
Definition created_matches (x : SearchExtras) (row : Row) : bool :=
  match se_created_after x with Some t => t <=? fr_created_at row.1 | None => true end &&
  match se_created_before x with Some t => fr_created_at row.1 <=? t | None => true end.

Definition search_matches (pid : Uuid) (filters : option MetadataFilter) (x : SearchExtras)
    (fr : FileReference) : bool :=
  N.eqb (fr_project_id fr) pid && filter_matches filters (fr, None) &&
  name_matches x (fr, None) && created_matches x (fr, None).

Lemma clause_extras V base n args x P :
  clause_ok V base n args P →
  clause_ok V (base ++ (extras_clause x n).1) (extras_clause x n).2 (args ++ extras_bind x)
    (λ d row, P d row && name_matches x row && created_matches x row).
Proof.
  intros Hc. unfold extras_clause, extras_bind.
  eapply (clause_push _ _ _ _ _ (se_name_contains x) SNameIlike
    (λ s, VText ("%" +:+ s +:+ "%")) (λ s _ row, ilike (fr_original_name row.1) ("%" +:+ s +:+ "%")))
    in Hc; [|by intros a d args' m row _ _ Hm; simpl; rewrite Hm].
  eapply (clause_push _ _ _ _ _ (se_created_after x) SCreatedGe VTime
    (λ t _ row, t <=? fr_created_at row.1)) in Hc;
    [|by intros a d args' m row _ _ Hm; simpl; rewrite (arg_time_eq _ _ _ Hm)].
  eapply (clause_push _ _ _ _ _ (se_created_before x) SCreatedLe VTime
    (λ t _ row, fr_created_at row.1 <=? t)) in Hc;
    [|by intros a d args' m row _ _ Hm; simpl; rewrite (arg_time_eq _ _ _ Hm)].
  set (acc := ([] : list SqlExpr, n)) in *.
  replace (base, n) with (base ++ acc.1, acc.2) in Hc by (simpl; by rewrite app_nil_r).
  rewrite <- !surjective_pairing, !push_if_base, <- !app_assoc in Hc.
  eapply clause_ext; [exact Hc|]. intros d row. unfold name_matches, created_matches.
  by rewrite !andb_assoc.
Qed.

Lemma search_clause_ok pid filters x :
  match search_clause pid filters x with
  | Ok (conds, args, idx) =>
      clause_ok (λ _, True) conds idx args (λ _ row, search_matches pid filters x row.1)
  | Err e => e = too_deep ∧ ∃ f, filters = Some f ∧ (32 < height f)%nat
  | Panic => False
  end.
Proof.
  unfold search_clause. destruct filters as [f|].
  - pose proof (compile_inner_depth f 0 (new_compiler 2) ltac:(unfold MAX_DEPTH; lia)) as Hd.
    change (compile_inner f 0) with (compile f) in Hd.
    destruct (compile f (new_compiler 2)) as [[e c]|e|] eqn:He; simpl in *; [|naive_solver..].
    pose proof (clause_extras _ _ _ _ x _ (clause_filter pid f e c (λ _, True) He)) as Hc.
    rewrite (Nat.add_comm (length (params c)) 2). destruct (extras_clause x _) as [xs idx].
    eapply clause_ext; [exact Hc|]. done.
  - pose proof (clause_extras _ _ _ _ x _ (clause_true _ _ _ _ _ (clause_project pid (λ _, True))))
      as Hc.
    simpl in *. destruct (extras_clause x _) as [xs idx]. eapply clause_ext; [exact Hc|].
    intros d row. unfold search_matches. simpl. by rewrite andb_true_r.
Qed.

(** C11: a metadata search changes nothing and reports all and only the
    project's references that match the filter, the name pattern and the time
    range: their exact number, and the requested page of them in order of
    creation, newest first; pages hold 1 to 100 entries whatever is asked for,
    and the only failure is a filter nested too deep. *)
Theorem search_by_metadata_spec pid filters x page per_page w :
  let found := filter (λ fr, search_matches pid filters x fr = true)
                 (rows_of (file_references (db w))) in
  match search_by_metadata pid filters x page per_page w with
  | (w', Ok r) =>
      w' = w ∧ sr_total r = Z.of_nat (length found) ∧
      sr_page r = Z.max page 1 ∧ sr_per_page r = clamp per_page 1 100 ∧
      ∃ sorted, sorted ≡ₚ found ∧ Sorted (λ a b, fr_created_at b ≤ fr_created_at a) sorted ∧
        sr_results r = take (Z.to_nat (sr_per_page r))
          (drop (Z.to_nat (i64_saturate (i64_saturate (sr_page r - 1) * sr_per_page r))) sorted)
  | (w', Err e) => w' = w ∧ e = too_deep ∧ ∃ f, filters = Some f ∧ (32 < height f)%nat
  | (_, Panic) => False
  end.
Proof.
  intros found. unfold search_by_metadata.
  pose proof (search_clause_ok pid filters x) as Hc. rewrite bind_unfold. unfold lift at 1.
  destruct (search_clause pid filters x) as [[[conds args] idx]|e|]; [|by split|done].
  assert (∀ extra, where_rows (db w) (args ++ extra) conds
      (map (λ fr, (fr, None)) (rows_of (file_references (db w)))) =
    Ok (filter (λ row, search_matches pid filters x row.1 = true)
         (map (λ fr, (fr, None)) (rows_of (file_references (db w)))))) as Hw.
  { intros extra. apply (where_rows_ok _ _ _ _ _ (db w) extra _ Hc). by apply Forall_true. }
  pose proof (Hw []) as Hw0. rewrite app_nil_r in Hw0. destruct Hc as [-> _].
  unfold gets, lift. m_run.
  rewrite Hw0. m_run. rewrite Hw. m_run.
  unfold arg_int. simpl. rewrite lookup_app_r, Nat.sub_diag by lia. m_run.
  rewrite lookup_app_r by lia. replace (S (length args) - length args)%nat with 1%nat by lia.
  m_run. split_and!; try done.
  - unfold found. by rewrite (filter_map (λ row : Row, _)), length_map.
  - eexists. split_and!; [|apply order_by_desc|done].
    rewrite order_by_perm, (filter_map (λ row : Row, _)), map_map. simpl. by rewrite map_id.
Qed.

(** ** Bulk deletion *)

Definition opt_all {A} (P : A → bool) (o : option A) : bool :=
  match o with Some a => P a | None => true end.

Definition size_matches (x : BulkDeleteFilters) (row : Row) : bool :=
  opt_all (λ z, opt_all (λ f, z <=? f_size f) row.2) (bdf_size_min x) &&
  opt_all (λ z, opt_all (λ f, f_size f <=? z) row.2) (bdf_size_max x).

Definition bulk_matches (pid : Uuid) (x : BulkDeleteFilters) (d : Db) (row : Row) : bool :=
  N.eqb (fr_project_id row.1) pid && filter_matches (bdf_metadata_filters x) row &&
  opt_all (λ t, fr_created_at row.1 <? t) (bdf_created_before x) &&
  opt_all (λ t, t <? fr_created_at row.1) (bdf_created_after x) && size_matches x row &&
  opt_all (λ t, not_accessed_since d (fr_file_id row.1) t) (bdf_last_accessed_before x).

Lemma clause_bulk V base n args x P :
  (∀ row, V row → is_some (bdf_size_min x) || is_some (bdf_size_max x) = true → is_Some row.2) →
  clause_ok V base n args P →
  let acc := push_if (bdf_last_accessed_before x) SNotAccessedSince
    (push_if (bdf_size_max x) SSizeLe
      (push_if (bdf_size_min x) SSizeGe
        (push_if (bdf_created_after x) SCreatedGt
          (push_if (bdf_created_before x) SCreatedLt (base, n))))) in
  clause_ok V acc.1 acc.2
    (args ++ arg_if (bdf_created_before x) VTime ++ arg_if (bdf_created_after x) VTime ++
     arg_if (bdf_size_min x) VInt ++ arg_if (bdf_size_max x) VInt ++
     arg_if (bdf_last_accessed_before x) VTime)
    (λ d row, P d row && opt_all (λ t, fr_created_at row.1 <? t) (bdf_created_before x) &&
      opt_all (λ t, t <? fr_created_at row.1) (bdf_created_after x) && size_matches x row &&
      opt_all (λ t, not_accessed_since d (fr_file_id row.1) t) (bdf_last_accessed_before x)).
Proof.
  intros HV Hc.
  eapply (clause_push _ _ _ _ _ (bdf_created_before x) SCreatedLt VTime
    (λ t _ row, fr_created_at row.1 <? t)) in Hc;
    [|by intros a d args' m row _ _ Hm; simpl; rewrite (arg_time_eq _ _ _ Hm)].
  eapply (clause_push _ _ _ _ _ (bdf_created_after x) SCreatedGt VTime
    (λ t _ row, t <? fr_created_at row.1)) in Hc;
    [|by intros a d args' m row _ _ Hm; simpl; rewrite (arg_time_eq _ _ _ Hm)].
  eapply (clause_push _ _ _ _ _ (bdf_size_min x) SSizeGe VInt
    (λ z _ row, opt_all (λ f, z <=? f_size f) row.2)) in Hc.
  2: { intros a d args' m row Hx Hrow Hm. simpl. rewrite (arg_int_eq _ _ _ Hm).
       destruct (HV row Hrow) as [f ->]; [by rewrite Hx | done]. }
  eapply (clause_push _ _ _ _ _ (bdf_size_max x) SSizeLe VInt
    (λ z _ row, opt_all (λ f, f_size f <=? z) row.2)) in Hc.
  2: { intros a d args' m row Hx Hrow Hm. simpl. rewrite (arg_int_eq _ _ _ Hm).
       destruct (HV row Hrow) as [f ->]; [by rewrite Hx, orb_true_r | done]. }
  eapply (clause_push _ _ _ _ _ (bdf_last_accessed_before x) SNotAccessedSince VTime
    (λ t d row, not_accessed_since d (fr_file_id row.1) t)) in Hc;
    [|by intros a d args' m row _ _ Hm; simpl; rewrite (arg_time_eq _ _ _ Hm)].
  rewrite <- !surjective_pairing, <- !app_assoc in Hc. intros acc.
  eapply clause_ext; [exact Hc|]. intros d row. unfold size_matches, opt_all.
  by rewrite !andb_assoc.
Qed.
End clauses.

Lemma compile_correct_witness :
  eval (E := concrete_env) empty_db
    [VUuid 1; VJson (JObject [("tag", JString "x")]); VJson (JObject [("tag", JString "y")])]
    (mkFileReference 1 2 3 "a" (JObject [("tag", JString "x")]) 0, None)
    (SAll [SMetadataContains 2; SNot (SMetadataContains 3)]) = Some true.
Proof.
  refine (proj2 (compile_correct
    (FAnd [FLeaf "tag" (JString "x"); FNot (FLeaf "tag" (JString "y"))]) 2 _
    (mkCompiler 4 [JObject [("tag", JString "x")]; JObject [("tag", JString "y")]]) _) _ _
    (mkFileReference 1 2 3 "a" (JObject [("tag", JString "x")]) 0, None) _).
  - reflexivity.
  - intros [|[|i]] j; [by intros [= <-]..|]. done.
Defined.
