(* ===== verification/BulkSpec.v ===== *)
(** * Bulk deletion

    What a bulk deletion selects, that the preview counts exactly that, and
    that only the project's own references and files nobody refers to are
    lost. *)

From S2P Require Import Prelude Json Schema Env World Tables Laws Concrete LocalDisk Registry.
From S2P Require Import Storages Files SyncTasks Scenario Search Resolver FileService Frames.
From S2P Require Import Integrity SearchSpec.

#[local] Arguments from_refs : simpl never.

Section bulk.
Context {E : Env}.

Definition needs_join (x : BulkDeleteFilters) : bool :=
  is_some (bdf_size_min x) || is_some (bdf_size_max x).

Definition joined (join : bool) (row : Row) : Prop := join = true → is_Some row.2.

Lemma bulk_clause_ok pid x :
  match build_bulk_delete_clause x 2 with
  | Ok (conds, mps, join, idx) =>
      join = needs_join x ∧
      ∀ j, (join = true → j = true) →
        clause_ok (joined j) (SProjectIs 1 :: conds) idx (bind_bulk_delete_args pid x mps)
          (bulk_matches pid x)
  | Err e => e = too_deep ∧ ∃ f, bdf_metadata_filters x = Some f ∧ (32 < height f)%nat
  | Panic => False
  end.
Proof.
  unfold build_bulk_delete_clause, bind_bulk_delete_args, bulk_matches, filter_matches.
  assert (∀ j row, (needs_join x = true → j = true) → joined j row →
    is_some (bdf_size_min x) || is_some (bdf_size_max x) = true → is_Some row.2) as HV.
  { unfold joined, needs_join. auto. }
  assert (∀ base l n, ∃ acc,
    push_if (bdf_last_accessed_before x) SNotAccessedSince
    (push_if (bdf_size_max x) SSizeLe
      (push_if (bdf_size_min x) SSizeGe
        (push_if (bdf_created_after x) SCreatedGt
          (push_if (bdf_created_before x) SCreatedLt (l, n))))) = acc ∧
    push_if (bdf_last_accessed_before x) SNotAccessedSince
    (push_if (bdf_size_max x) SSizeLe
      (push_if (bdf_size_min x) SSizeGe
        (push_if (bdf_created_after x) SCreatedGt
          (push_if (bdf_created_before x) SCreatedLt (base ++ l, n))))) =
    (base ++ acc.1, acc.2)) as Hbase.
  { intros base l n. eexists. split; [reflexivity|].
    change (base ++ l, n) with (base ++ (l, n).1, (l, n).2). by rewrite !push_if_base. }
  destruct (bdf_metadata_filters x) as [f|].
  - pose proof (compile_inner_depth f 0 (new_compiler 2) ltac:(unfold MAX_DEPTH; lia)) as Hd.
    change (compile_inner f 0) with (compile f) in Hd.
    destruct (compile f (new_compiler 2)) as [[e c]|e|] eqn:He; simpl in Hd |- *; [|naive_solver..].
    split; [done|]. intros j Hj.
    pose proof (clause_bulk (joined j) _ _ _ x _ (λ row, HV j row Hj)
      (clause_filter pid f e c _ He)) as Hc.
    destruct (Hbase [SProjectIs 1] [e] (2 + length (params c))%nat) as (acc & Ha & Hb).
    simpl app in Hb. cbv zeta in Hc. rewrite Hb in Hc. simpl in Ha |- *. rewrite Ha.
    eapply clause_ext; [exact Hc|]. done.
  - simpl. split; [done|]. intros j Hj.
    pose proof (clause_bulk (joined j) _ _ _ x _ (λ row, HV j row Hj)
      (clause_project pid _)) as Hc.
    destruct (Hbase [SProjectIs 1] [] 2%nat) as (acc & Ha & Hb).
    simpl app in Hb. cbv zeta in Hc. rewrite Hb in Hc. rewrite Ha.
    eapply clause_ext; [exact Hc|]. intros d row. by rewrite andb_true_r.
Qed.

(** ** The rows selected *)

(** A reference with its file. *)
Definition ref_row (d : Db) (fr : FileReference) : Row := (fr, files d !! fr_file_id fr).

Definition selected (pid : Uuid) (x : BulkDeleteFilters) (d : Db) (fr : FileReference) : bool :=
  bulk_matches pid x d (ref_row d fr).

Lemma from_refs_join d :
  FilesOk d → from_refs true d = map (ref_row d) (rows_of (file_references d)).
Proof.
  intros Hok. unfold from_refs.
  assert (∀ fr, fr ∈ rows_of (file_references d) → is_Some (files d !! fr_file_id fr)) as Hf.
  { intros fr [id Hid]%elem_of_rows. by apply (ok_ref_file _ Hok _ _ Hid). }
  revert Hf. generalize (rows_of (file_references d)) as l. intros l Hf.
  induction l as [|fr l IH]; [done|]. simpl. unfold ref_row at 1.
  destruct (Hf fr) as [f ->]; [by left|]. simpl. f_equal. apply IH. intros. apply Hf. by right.
Qed.

Lemma where_refs d pid x join conds idx mps :
  FilesOk d →
  (join = needs_join x ∧ ∀ j, (join = true → j = true) →
    clause_ok (joined j) (SProjectIs 1 :: conds) idx (bind_bulk_delete_args pid x mps)
      (bulk_matches pid x)) →
  ∀ j, (join = true → j = true) →
  ∃ rows, where_rows d (bind_bulk_delete_args pid x mps) (SProjectIs 1 :: conds) (from_refs j d)
          = Ok rows ∧
    map fst rows = filter (λ fr, selected pid x d fr = true) (rows_of (file_references d)) ∧
    (j = true → sum_z row_size rows = sum_z (λ fr, row_size (ref_row d fr)) (map fst rows)).
Proof.
  intros Hok [-> Hc] j Hj. specialize (Hc j Hj).
  rewrite <- (app_nil_r (bind_bulk_delete_args pid x mps)).
  rewrite (where_rows_ok _ _ _ _ _ d [] (from_refs j d) Hc).
  - eexists. split; [done|]. destruct j.
    + rewrite from_refs_join by done. rewrite (filter_map (λ row : Row, _)), map_map. simpl.
      rewrite map_id. split; [done|]. intros _. clear.
      induction (filter _ _) as [|fr l IH]; [done|]. simpl. by rewrite IH.
    + unfold from_refs. rewrite (filter_map (λ row : Row, _)), map_map. simpl. rewrite map_id.
      split; [|done]. apply filter_ext_in. intros fr _. unfold selected, bulk_matches, size_matches.
      assert (bdf_size_min x = None ∧ bdf_size_max x = None) as [-> ->]; [|done].
      unfold needs_join in Hj.
      destruct (bdf_size_min x), (bdf_size_max x); simpl in Hj; by try (discriminate (Hj eq_refl)).
  - apply Forall_forall. intros row Hrow ->. rewrite from_refs_join in Hrow by done.
    apply list_elem_of_In, list_elem_of_fmap in Hrow as (fr & -> & [id Hid]%elem_of_rows).
    apply (ok_ref_file _ Hok _ _ Hid).
Qed.

Definition selection (pid : Uuid) (x : BulkDeleteFilters) (d : Db) : list FileReference :=
  filter (λ fr, selected pid x d fr = true) (rows_of (file_references d)).

(** The references left after the selected ones are deleted. *)
Definition without_selected (pid : Uuid) (x : BulkDeleteFilters) (d : Db) : Db :=
  set_file_references (keep (λ fr, negb (selected pid x d fr)) (file_references d)) d.

Lemma elem_of_selection pid x d fr :
  fr ∈ selection pid x d ↔
  selected pid x d fr = true ∧ ∃ id, file_references d !! id = Some fr.
Proof. unfold selection. by rewrite list_elem_of_filter, elem_of_rows. Qed.

(** Deleting by identifier deletes the selected rows and no other. *)
Lemma selection_by_id pid x d fr :
  FilesOk d → fr ∈ rows_of (file_references d) →
  bool_decide (fr_id fr ∈ map fr_id (selection pid x d)) = selected pid x d fr.
Proof.
  intros Hok [id Hid]%elem_of_rows. apply eq_true_iff_eq. rewrite bool_decide_eq_true.
  rewrite list_elem_of_fmap. split.
  - intros (fr' & Heq & [Hs [id' Hid']]%elem_of_selection).
    assert (id = id') as <-.
    { rewrite <- (ok_ref_key _ Hok _ _ Hid), <- (ok_ref_key _ Hok _ _ Hid'). done. }
    congruence.
  - intros Hs. exists fr. split; [done|]. apply elem_of_selection. eauto.
Qed.

Lemma execute_run pid x w :
  FilesOk (db w) →
  match build_bulk_delete_clause x 2 with
  | Ok _ =>
      execute_bulk_delete pid x w =
      (set_db (without_selected pid x (db w)) w,
       Ok (Z.of_nat (length (selection pid x (db w))),
           map fr_file_id (selection pid x (db w))))
  | Err e => execute_bulk_delete pid x w = (w, Err e)
  | Panic => False
  end.
Proof.
  intros Hok. unfold execute_bulk_delete. pose proof (bulk_clause_ok pid x) as Hc.
  rewrite bind_unfold. unfold lift at 1.
  destruct (build_bulk_delete_clause x 2) as [[[[conds mps] join] idx]|e|];
    [|done..].
  destruct (where_refs (db w) pid x join conds idx mps Hok Hc join (λ H, H)) as (rows & Hr & Hs & _).
  unfold gets, lift. m_run. rewrite Hr. rewrite bind_unfold. unfold sql_delete.
  assert (∀ ids d, delete_cascade (R := FileReference) ids d = Some d) as ->
    by (intros ids d; induction ids; done).
  assert (map (λ r : Row, fr_id r.1) rows = map fr_id (selection pid x (db w))) as ->.
  { unfold selection. by rewrite <- Hs, map_map. }
  change (tbl (db w)) with (file_references (db w)).
  assert (filter (λ fr, bool_decide (fr_id fr ∈ map fr_id (selection pid x (db w))) = true)
    (rows_of (file_references (db w))) = selection pid x (db w)) as ->.
  { unfold selection at 2. apply filter_ext_in. intros fr Hfr. by apply selection_by_id. }
  rewrite length_map. unfold without_selected, keep. simpl.
  match goal with |- mret _ (set_db (set_file_references ?A _) _) =
    (set_db (set_file_references ?B _) _, _) => assert (A = B) as ->; [|done] end.
  apply map_filter_ext. intros id fr Hid. simpl.
  rewrite selection_by_id by (try done; apply elem_of_rows; eauto).
  by destruct (selected _ _ _ _).
Qed.

(** C12: the preview of a bulk deletion changes nothing and announces exactly the
    number of references the deletion then removes, and the sum of the sizes
    of their files; both read the filters the same way, with or without the
    join with the files table. *)
Theorem preview_then_execute pid x w w1 p :
  FilesOk (db w) → preview_bulk_delete pid x w = (w1, Ok p) →
  w1 = w ∧
  bdp_total_size p = sum_z (λ fr, match files (db w) !! fr_file_id fr with
                                  | Some f => f_size f | None => 0 end) (selection pid x (db w)) ∧
  execute_bulk_delete pid x w =
    (set_db (without_selected pid x (db w)) w,
     Ok (bdp_matching_references p, map fr_file_id (selection pid x (db w)))).
Proof.
  intros Hok. unfold preview_bulk_delete. pose proof (bulk_clause_ok pid x) as Hc.
  pose proof (execute_run pid x w Hok) as He.
  rewrite bind_unfold. unfold lift at 1.
  destruct (build_bulk_delete_clause x 2) as [[[[conds mps] join] idx]|e|]; [|done..].
  destruct (where_refs (db w) pid x join conds idx mps Hok Hc true (λ _, eq_refl))
    as (rows & Hr & Hs & Hsz).
  unfold gets, lift. m_run. rewrite Hr. m_run.
  unfold bigint. destruct (_ && _); [|done]. intros [= <- <-]. simpl.
  fold (selection pid x (db w)) in Hs. split_and!; [done| |].
  - by rewrite Hsz, Hs by done.
  - rewrite He, <- Hs, !length_map. done.
Qed.

(** ** Orphans *)

(** [d'] is [d] without the files [ids] and what is recorded about them. *)
Definition lost (ids : list Uuid) (d d' : Db) : Prop :=
  (∀ i f, files d' !! i = Some f ↔ files d !! i = Some f ∧ i ∉ ids) ∧
  (∀ i r, file_references d' !! i = Some r ↔
     file_references d !! i = Some r ∧ fr_file_id r ∉ ids) ∧
  (∀ i l, file_locations d' !! i = Some l ↔
     file_locations d !! i = Some l ∧ fl_file_id l ∉ ids).

Lemma lost_nil d : lost [] d d.
Proof. repeat split; try tauto; intros; try (split; [done|]); set_solver. Qed.

Lemma lost_app ids1 ids2 d d1 d2 :
  lost ids1 d d1 → lost ids2 d1 d2 → lost (ids1 ++ ids2) d d2.
Proof.
  intros (Hf1 & Hr1 & Hl1) (Hf2 & Hr2 & Hl2). split_and!; intros i x.
  - rewrite Hf2, Hf1, not_elem_of_app. tauto.
  - rewrite Hr2, Hr1, not_elem_of_app. tauto.
  - rewrite Hl2, Hl1, not_elem_of_app. tauto.
Qed.

Lemma delete_files_run P w :
  FilesOk (db w) →
  ∃ gone w', sql_delete (R := File) P w = (w', Ok gone) ∧ FilesOk (db w') ∧
    ∀ ids, (∀ i f, files (db w) !! i = Some f → P f = true ↔ i ∈ ids) →
      (∀ i, i ∈ ids → is_Some (files (db w) !! i)) → lost ids (db w) (db w').
Proof.
  intros Hok. pose proof (keeps_delete_files P w Hok) as Hok'. unfold sql_delete in Hok' |- *.
  set (d1 := set_tbl _ (db w)) in *.
  destruct (delete_cascade (R := File) _ d1) as [d'|] eqn:Hd.
  2: { exfalso. revert Hd. generalize d1 as d. generalize (map row_id (filter (λ r, P r = true)
         (rows_of (tbl (db w))))) as l.
       intros l. induction l as [|i l IH]; intros d; [done | apply IH]. }
  eexists _, _. split; [done|]. split; [exact Hok'|]. intros ids HP Hex.
  apply lookup_forget_files in Hd as (Hf & _ & _ & Hr & Hl & _). simpl in *.
  assert (∀ i, i ∈ map f_id (filter (λ r, P r = true) (rows_of (files (db w)))) ↔ i ∈ ids) as Hgone.
  { intros i. rewrite list_elem_of_fmap. setoid_rewrite list_elem_of_filter.
    setoid_rewrite elem_of_rows. split.
    - intros (f & -> & HPf & j & Hj). rewrite (ok_file_key _ Hok _ _ Hj). by apply (HP j f).
    - intros Hi. destruct (Hex i Hi) as [f Hfi]. exists f.
      split; [symmetry; by apply (ok_file_key _ Hok)|]. split; [by apply (HP i f) | eauto]. }
  split_and!; intros i x.
  - rewrite Hf, map_lookup_filter_Some. simpl. split; intros [Hx Hn]; (split; [done|]).
    + intros Hi. apply (HP i x Hx) in Hi. congruence.
    + apply not_true_iff_false. intros HPx. apply Hn. by apply (HP i x Hx).
  - rewrite Hr. simpl. by rewrite Hgone.
  - rewrite Hl. simpl. by rewrite Hgone.
Qed.

Lemma delete_orphan_run freed info w :
  FilesOk (db w) → is_Some (files (db w) !! FileService.oi_file_id info) →
  ∃ z w', FileService.delete_orphan freed info w = (w', Ok z) ∧
    lost [FileService.oi_file_id info] (db w) (db w') ∧ FilesOk (db w').
Proof.
  set (fid := FileService.oi_file_id info). intros Hok Hex.
  unfold FileService.delete_orphan. fold fid. rewrite bind_unfold.
  pose proof (keeps_delete_locations (λ fl, N.eqb (fl_file_id fl) fid) w Hok) as Hok1.
  rewrite sql_delete_plain in Hok1 |- * by done. set (w1 := set_db _ w) in *.
  destruct (delete_files_run (λ f, N.eqb (f_id f) fid) w1 Hok1) as (gone & w' & Hd & Hok' & Hlost).
  rewrite bind_unfold, Hd. eexists _, _. split; [done|]. split; [|done].
  destruct (Hlost [fid]) as (Hf & Hr & Hl).
  - intros i f Hi. rewrite N.eqb_eq, (ok_file_key _ Hok1 _ _ Hi). set_solver.
  - intros i ->%list_elem_of_singleton. done.
  - split_and!; [done..|]. intros i l. rewrite Hl. simpl.
    rewrite map_lookup_filter_Some. simpl. rewrite N.eqb_neq. set_solver.
Qed.

Lemma delete_orphans_run infos freed w :
  FilesOk (db w) → NoDup (map FileService.oi_file_id infos) →
  (∀ info, info ∈ infos → is_Some (files (db w) !! FileService.oi_file_id info)) →
  ∃ z w', foldM FileService.delete_orphan freed infos w = (w', Ok z) ∧
    lost (map FileService.oi_file_id infos) (db w) (db w') ∧ FilesOk (db w').
Proof.
  revert freed w. induction infos as [|info infos IH]; intros freed w Hok Hnd Hex.
  - eexists _, _. split; [done|]. split; [apply lost_nil | done].
  - apply list.NoDup_cons in Hnd as [Hn Hnd]. cbn [foldM]. rewrite bind_unfold.
    destruct (delete_orphan_run freed info w Hok) as (z & w1 & -> & Hl & Hok1);
      [apply Hex; by left|].
    destruct (IH z w1 Hok1 Hnd) as (z' & w2 & -> & Hl' & Hok2).
    { intros i Hi. destruct (Hex i) as [f Hf]; [by right|]. exists f. apply Hl. split; [done|].
      intros Heq%list_elem_of_singleton. apply Hn. rewrite <- Heq. by apply list_elem_of_fmap_2. }
    eexists _, _. split; [done|]. split; [|done]. by apply (lost_app [_] _ _ (db w1)).
Qed.

Lemma elem_of_dedup seen l x : x ∈ FileService.dedup seen l ↔ x ∈ l ∧ x ∉ seen.
Proof.
  revert seen. induction l as [|y l IH]; intros seen; simpl; [set_solver|].
  destruct (bool_decide (y ∈ seen)) eqn:Hb;
    [apply bool_decide_eq_true in Hb; rewrite IH
    | apply bool_decide_eq_false in Hb; rewrite elem_of_cons, IH];
    destruct (decide (x = y)); set_solver.
Qed.

Lemma find_orphaned_run l w :
  FilesOk (db w) →
  ∃ o, File.find_orphaned_from_ids l w = (w, Ok o) ∧ NoDup o ∧
    ∀ i, i ∈ o ↔ i ∈ l ∧ is_Some (files (db w) !! i) ∧
      ∀ j r, file_references (db w) !! j = Some r → fr_file_id r ≠ i.
Proof.
  intros Hok. unfold File.find_orphaned_from_ids. destruct l as [|x l'].
  { exists []. split; [done|]. split; [constructor|]. set_solver. }
  set (l := x :: l'). unfold gets. rewrite bind_unfold. unfold sql_select, gets. rewrite bind_unfold.
  eexists. split; [done|]. split; [apply NoDup_keys, (ok_file_key _ Hok)|].
  intros i. rewrite list_elem_of_fmap. setoid_rewrite elem_of_select_in.
  setoid_rewrite andb_true_iff. setoid_rewrite bool_decide_eq_true.
  setoid_rewrite negb_true_iff. setoid_rewrite exists_row_false. setoid_rewrite N.eqb_neq. split.
  - intros (f & -> & (Hl & Hr) & j & Hj). rewrite (ok_file_key _ Hok _ _ Hj) in *. by eauto.
  - intros (Hl & [f Hf] & Hr). exists f. rewrite (ok_file_key _ Hok _ _ Hf). eauto 6.
Qed.

Lemma collect_orphans_run l acc w :
  ∃ infos, foldM FileService.collect_orphan acc l w = (w, Ok (acc ++ infos)) ∧
    map FileService.oi_file_id infos = l.
Proof.
  revert acc. induction l as [|i l IH]; intros acc.
  - exists []. by rewrite app_nil_r.
  - assert (∃ info, FileService.collect_orphan acc i w = (w, Ok (acc ++ [info])) ∧
      FileService.oi_file_id info = i) as (info & Hrun & Hid).
    { unfold FileService.collect_orphan, FileLocation.find_all_for_file, sql_find, sql_select, gets.
      m_run. eexists. by split. }
    cbn [foldM]. rewrite (bind_step _ _ _ _ _ Hrun).
    destruct (IH (acc ++ [info])) as (infos & -> & Hi). exists (info :: infos).
    rewrite <- app_assoc. split; [done|]. simpl. by rewrite Hi, Hid.
Qed.

(** Cleanup swallows the errors of the storages. *)
Definition no_error {A} (m : M A) : Prop := ∀ w e, (m w).2 ≠ Err e.

Lemma no_error_bind {A B} (m : M A) (k : A → M B) :
  no_error m → (∀ a, no_error (k a)) → no_error (m ≫= k).
Proof.
  intros Hm Hk w e. specialize (Hm w). rewrite bind_unfold.
  destruct (m w) as [w1 [a|e1|]]; simpl in *; [apply Hk | by destruct (Hm e1) | done].
Qed.
Lemma no_error_ok {A} (m : M A) : no_error (ok m).
Proof. intros w e. unfold ok, try_with. by destruct (m w) as [w1 []]. Qed.
Lemma no_error_ignore {A} (m : M A) : no_error (ignore m).
Proof. intros w e. unfold ignore, try_with. by destruct (m w) as [w1 []]. Qed.
Lemma no_error_for_each {A} (f : A → M unit) l :
  (∀ a, no_error (f a)) → no_error (for_each f l).
Proof.
  intros Hf. unfold for_each. induction l as [|x l IH]; cbn [foldM]; [by intros w e|].
  apply no_error_bind; [apply Hf | by intros []].
Qed.

Lemma cleanup_no_error infos : no_error (for_each FileService.cleanup_orphan infos).
Proof.
  apply no_error_for_each. intros i. apply no_error_for_each. intros l.
  apply no_error_bind; [apply no_error_ok|]. intros [b|]; [apply no_error_ignore | by intros w e].
Qed.

(** ** The whole operation *)

(** The files whose last reference the deletion takes. *)
Definition orphaned (pid : Uuid) (x : BulkDeleteFilters) (d : Db) (i : Uuid) : Prop :=
  (∃ fr, fr ∈ selection pid x d ∧ fr_file_id fr = i) ∧
  ∀ j fr, file_references d !! j = Some fr → fr_file_id fr = i → selected pid x d fr = true.

Definition deleted_exactly (pid : Uuid) (x : BulkDeleteFilters) (d d' : Db) : Prop :=
  (∀ j fr, file_references d' !! j = Some fr ↔
     file_references d !! j = Some fr ∧ selected pid x d fr = false) ∧
  (∀ i f, files d' !! i = Some f ↔ files d !! i = Some f ∧ ¬ orphaned pid x d i) ∧
  (∀ j l, file_locations d' !! j = Some l ↔
     file_locations d !! j = Some l ∧ ¬ orphaned pid x d (fl_file_id l)).

Lemma lookup_without pid x d j fr :
  file_references (without_selected pid x d) !! j = Some fr ↔
  file_references d !! j = Some fr ∧ selected pid x d fr = false.
Proof. unfold without_selected. simpl. by rewrite lookup_keep, negb_true_iff. Qed.

Lemma orphaned_iff pid x d (o : list Uuid) :
  FilesOk d →
  (∀ i, i ∈ o ↔ i ∈ map fr_file_id (selection pid x d) ∧ is_Some (files d !! i) ∧
     ∀ j r, file_references (without_selected pid x d) !! j = Some r → fr_file_id r ≠ i) →
  ∀ i, i ∈ o ↔ orphaned pid x d i.
Proof.
  intros Hok Ho i. rewrite Ho, list_elem_of_fmap. unfold orphaned. split.
  - intros ((fr & -> & Hfr) & _ & Hno). split; [eauto|]. intros j fr' Hj Heq.
    apply not_false_iff_true. intros Hs. apply (Hno j fr'); [by apply lookup_without | done].
  - intros ((fr & Hfr & <-) & Hall). split; [eauto|]. split.
    + apply elem_of_selection in Hfr as (_ & id & Hid). apply (ok_ref_file _ Hok _ _ Hid).
    + intros j r [Hj Hs]%lookup_without Heq. specialize (Hall j r Hj Heq). congruence.
Qed.

Lemma bulk_delete_tx_run pid x w :
  FilesOk (db w) →
  match FileService.bulk_delete_tx pid x w with
  | (w', Ok (n, _, _)) =>
      deleted_exactly pid x (db w) (db w') ∧ n = Z.of_nat (length (selection pid x (db w)))
  | (_, Err e) => e = too_deep
  | (_, Panic) => False
  end.
Proof.
  intros Hok. unfold FileService.bulk_delete_tx. pose proof (execute_run pid x w Hok) as He.
  pose proof (bulk_clause_ok pid x) as Hc.
  destruct (build_bulk_delete_clause x 2) as [r|e|]; [|rewrite (bind_err _ _ _ _ _ He); by destruct Hc|done].
  rewrite (bind_step _ _ _ _ _ He). cbn beta iota.
  set (w1 := set_db (without_selected pid x (db w)) w).
  assert (FilesOk (db w1)) as Hok1.
  { pose proof (keeps_delete_refs (λ fr, selected pid x (db w) fr) w Hok) as Hk.
    rewrite sql_delete_plain in Hk by done. unfold WorldOk in Hk. simpl in Hk |- *.
    unfold without_selected, keep.
    match type of Hk with FilesOk (set_file_references ?A _) =>
      match goal with |- FilesOk (set_file_references ?B _) => replace B with A; [done|] end end.
    apply map_filter_ext. intros i fr _. simpl. by destruct (selected _ _ _ _). }
  destruct (Z.eqb_spec (Z.of_nat (length (selection pid x (db w)))) 0) as [H0|H0].
  - assert (selection pid x (db w) = []) as Hnil by (destruct (selection _ _ _); [done|simpl in H0; lia]).
    cbn. rewrite Hnil. split; [|done].
    assert (∀ i, ¬ orphaned pid x (db w) i) as Hno.
    { intros i ((fr & Hfr & _) & _). rewrite Hnil in Hfr. by apply not_elem_of_nil in Hfr. }
    split_and!; [intros j fr; apply lookup_without | naive_solver..].
  - destruct (find_orphaned_run (FileService.dedup [] (map fr_file_id (selection pid x (db w)))) w1 Hok1)
      as (o & Ho & Hnd & Hin).
    rewrite (bind_step _ _ _ _ _ Ho).
    destruct (collect_orphans_run o [] w1) as (infos & Hcol & Hids). simpl in Hcol.
    rewrite (bind_step _ _ _ _ _ Hcol).
    destruct (delete_orphans_run infos 0 w1 Hok1) as (z & w2 & Hdel & Hlost & _);
      [by rewrite Hids | |].
    { intros info Hi. apply (Hin (FileService.oi_file_id info)). rewrite <- Hids.
      by apply list_elem_of_fmap_2. }
    rewrite (bind_step _ _ _ _ _ Hdel). simpl. split; [|done].
    assert (∀ i, i ∈ o ↔ orphaned pid x (db w) i) as Horph.
    { apply orphaned_iff; [done|]. intros i. rewrite Hin, elem_of_dedup. simpl. set_solver. }
    rewrite Hids in Hlost. destruct Hlost as (Hf & Hr & Hl). split_and!.
    + intros j fr. rewrite Hr. change (db w1) with (without_selected pid x (db w)).
      rewrite lookup_without. split; [tauto|].
      intros [Hj Hs]. split; [done|]. rewrite Horph. intros [_ Hall].
      specialize (Hall j fr Hj eq_refl). congruence.
    + intros i f. by rewrite Hf, Horph.
    + intros j l. by rewrite Hl, Horph.
Qed.

(** C6: a bulk deletion removes exactly the project's references its filters
    select, and, with their recorded copies, exactly the files that lose their
    last reference that way: a file another reference needs keeps its row and
    every copy. When the filters are rejected the database is as before; best
    effort cleanup of the storages cannot undo any of it. *)
Theorem bulk_delete_exact pid x w :
  FilesOk (db w) →
  match FileService.bulk_delete pid x w with
  | (w', Ok r) =>
      deleted_exactly pid x (db w) (db w') ∧
      FileService.bdr_deleted_references r = Z.of_nat (length (selection pid x (db w)))
  | (w', Err e) => db w' = db w ∧ e = too_deep
  | (w', Panic) => deleted_exactly pid x (db w) (db w')
  end.
Proof.
  intros Hok. unfold FileService.bulk_delete, transaction. pose proof (bulk_delete_tx_run pid x w Hok) as Htx.
  rewrite bind_unfold. destruct (FileService.bulk_delete_tx pid x w) as [w1 [[[n infos] z]|e|]];
    [|by split|done].
  destruct Htx as [Hd ->].
  assert (Guar (same db) (for_each FileService.cleanup_orphan infos)) as Hg.
  { apply guar_for_each; [apply _|]. intros i. by apply guar_cleanup_orphan; [apply _|..]. }
  specialize (Hg w1). unfold same in Hg. rewrite bind_unfold.
  pose proof (cleanup_no_error infos w1) as Hne.
  destruct (for_each FileService.cleanup_orphan infos w1) as [w2 [[]|e|]]; simpl in *;
    [by rewrite Hg | by destruct (Hne e) | by rewrite Hg].
Qed.
End bulk.

(** Witnesses. *)
Definition two_refs : World :=
  (FileService.upload_file "k" 11 "b.txt" "text/plain" hello no_metadata
    (FileService.upload_file "k" 10 "a.txt" "text/plain" hello no_metadata deployment).1).1.

Lemma two_refs_ok : FilesOk (db two_refs).
Proof. apply keeps_upload_file, keeps_upload_file. by apply FilesOk_empty. Defined.

Definition everything : BulkDeleteFilters := mkBulkDeleteFilters None None None (Some 1) None None.

Lemma preview_then_execute_witness :
  bdp_total_size (mkBulkDeletePreview 1 5) =
    sum_z (λ fr, match files (db two_refs) !! fr_file_id fr with
                 | Some f => f_size f | None => 0 end) (selection 10 everything (db two_refs)).
Proof.
  refine (proj1 (proj2 (preview_then_execute 10 everything two_refs
    (preview_bulk_delete 10 everything two_refs).1 (mkBulkDeletePreview 1 5) two_refs_ok _))).
  apply run_ok. vm_compute. reflexivity.
Defined.

Lemma bulk_delete_exact_witness :
  match FileService.bulk_delete 10 everything two_refs with
  | (w', Ok r) =>
      deleted_exactly 10 everything (db two_refs) (db w') ∧
      FileService.bdr_deleted_references r =
        Z.of_nat (length (selection 10 everything (db two_refs)))
  | (w', Err e) => db w' = db two_refs ∧ e = too_deep
  | (w', Panic) => deleted_exactly 10 everything (db two_refs) (db w')
  end.
Proof. apply bulk_delete_exact, two_refs_ok. Defined.

(** The other project's reference keeps the file. *)
Example shared_file_survives :
  let w' := (FileService.bulk_delete 10 everything two_refs).1 in
  is_some (files (db w') !! 1001%N) = true ∧ size (file_references (db w')) = 1%nat.
Proof. by vm_compute. Qed.
