(* ===== verification/LinkSpec.v ===== *)
(** * Shared links

    Who gets past a shared link, how often, and for how long. *)

From S2P Require Import Prelude Json Schema Env World Tables Laws Concrete LocalDisk Registry.
From S2P Require Import Storages Files SyncTasks Links Scenario Search Resolver FileService.
From S2P Require Import Frames SharedLinkService.

Section links.
Context {E : Env} (jwt hmac : string).

(** The primary key, and the UNIQUE constraint on tokens. *)
Record LinksOk (d : Db) : Prop := {
  ok_link_key id l : shared_links d !! id = Some l → sl_id l = id;
  ok_link_token i j l k : shared_links d !! i = Some l → shared_links d !! j = Some k →
    sl_token l = sl_token k → i = j
}.

Lemma LinksOk_sub d d' : LinksOk d → shared_links d' ⊆ shared_links d → LinksOk d'.
Proof.
  intros [Hk Ht] Hs.
  assert (∀ i l, shared_links d' !! i = Some l → shared_links d !! i = Some l)
    by eauto using lookup_weaken.
  split; eauto.
Qed.

(** Changing a link, but neither its identifier nor its token. *)
Lemma LinksOk_set d d' id l0 l :
  LinksOk d → shared_links d !! id = Some l0 →
  sl_id l = sl_id l0 → sl_token l = sl_token l0 →
  shared_links d' = <[id := l]> (shared_links d) → LinksOk d'.
Proof.
  intros [Hk Ht] Hl0 Hid Htok Hd'. split; rewrite Hd'.
  - intros i k. rewrite lookup_insert. case_decide; [intros [= <-]; subst; by rewrite Hid, (Hk _ _ Hl0)|].
    apply Hk.
  - intros i j k1 k2. rewrite !lookup_insert.
    repeat case_decide; intros; simplify_eq; try done.
    + eapply Ht; [exact Hl0 | done | congruence].
    + symmetry. eapply Ht; [exact Hl0 | done | congruence].
    + eauto.
Qed.

Lemma LinksOk_add d d' id l :
  LinksOk d → shared_links d !! id = None → sl_id l = id → violates l d = None →
  shared_links d' = <[id := l]> (shared_links d) → LinksOk d'.
Proof.
  intros [Hk Ht] Hnew Hid Hv Hd'.
  do 3 (apply first_violation_cons in Hv as [_ Hv]).
  apply first_violation_cons in Hv as [Hc _]. rewrite clash_false in Hc.
  assert (∀ j k, shared_links d !! j = Some k → sl_token k ≠ sl_token l) as Hfresh.
  { intros j k Hj Heq. assert (sl_id k = sl_id l) as Hkl.
    { apply (Hc j k Hj). by apply String.eqb_eq. }
    rewrite (Hk _ _ Hj), Hid in Hkl. congruence. }
  split; rewrite Hd'.
  - intros i k. rewrite lookup_insert. case_decide; [by intros [= <-]; subst | apply Hk].
  - intros i j k1 k2. rewrite !lookup_insert.
    repeat case_decide; intros; simplify_eq; try done; [exfalso; eapply Hfresh; eauto..|eauto].
Qed.

(** The link a token names. *)
Definition link_of (d : Db) (token : string) : option SharedLink :=
  head (select_in (λ l, String.eqb (sl_token l) token) d).

Lemma link_of_Some d token link :
  LinksOk d → link_of d token = Some link →
  sl_token link = token ∧ shared_links d !! sl_id link = Some link.
Proof.
  intros Hok [Ht%String.eqb_eq [id Hid]]%head_select_Some. split; [done|].
  simpl in Hid. by rewrite (ok_link_key _ Hok _ _ Hid).
Qed.

(** What a download token must say to be accepted for a link. *)
Definition token_valid (link : SharedLink) (t : Timestamp) (dl : string) : Prop :=
  ∃ claims,
    jwt_decode (SharedLinkService.token_key jwt) jwt_leeway (t / usec_per_sec) dl = Some claims ∧
    as_str (json_index "sub" claims) = Some (sl_token link) ∧
    as_str (json_index "link_id" claims) = Some (uuid_str (sl_id link)).

(** The gate in front of the file. *)
Definition may_download (link : SharedLink) (t : Timestamp) (dl : option string) : Prop :=
  sl_is_active link = true ∧ is_expired t link = false ∧
  (SharedLink.password_protected link = true → ∃ tok, dl = Some tok ∧ token_valid link t tok) ∧
  SharedLink.below_limit link = true.

Lemma accessible_run link w :
  SharedLinkService.accessible link w =
  (w, if sl_is_active link && negb (is_expired (now w) link) then Ok tt else Err link_hidden).
Proof.
  unfold SharedLinkService.accessible, gets, lift, validate_link_accessible. m_run.
  by destruct (sl_is_active link), (is_expired _ _).
Qed.

Lemma claims_of_json_Some j c :
  claims_of_json j = Some c →
  as_str (json_index "sub" j) = Some (dtc_sub c) ∧
  as_str (json_index "link_id" j) = Some (dtc_link_id c).
Proof.
  unfold claims_of_json. destruct (as_str (json_index "sub" j)); [|done].
  destruct (as_str (json_index "link_id" j)); [|done].
  destruct (as_u64 _); [|done]. by intros [= <-].
Qed.

Lemma validate_token_run link dl w :
  ∃ r, SharedLinkService.validate_download_token jwt dl (sl_token link) (sl_id link) w = (w, r) ∧
    (r = Ok tt → token_valid link (now w) dl) ∧ r ≠ Panic.
Proof.
  unfold SharedLinkService.validate_download_token, now_secs, gets, lift. m_run.
  destruct (jwt_decode _ _ _ dl) as [j|] eqn:Hj; [|eexists; by split_and!].
  simpl. destruct (claims_of_json j) as [c|] eqn:Hc; [|eexists; by split_and!]. simpl.
  apply claims_of_json_Some in Hc as [Hs Hl]. unfold ensure.
  destruct (String.eqb_spec (dtc_sub c) (sl_token link)) as [Es|]; [|eexists; by split_and!].
  destruct (String.eqb_spec (dtc_link_id c) (uuid_str (sl_id link))) as [El|];
    [|eexists; by split_and!].
  eexists. split_and!; [done| |done]. intros _. exists j. by rewrite Hs, Hl, Es, El.
Qed.

Lemma authorize_run link dl w :
  ∃ r, SharedLinkService.authorize_download jwt link dl w = (w, r) ∧
    (r = Ok tt → may_download link (now w) dl) ∧ r ≠ Panic.
Proof.
  unfold SharedLinkService.authorize_download, may_download. rewrite bind_unfold, accessible_run.
  destruct (sl_is_active link); [|eexists; by split_and!].
  destruct (is_expired (now w) link); [eexists; by split_and!|]. simpl.
  destruct (SharedLink.password_protected link).
  - destruct dl as [tok|]; [|eexists; by split_and!]. unfold lift. m_run.
    destruct (validate_token_run link tok w) as (r & Hr & Hv & Hp). rewrite Hr.
    destruct r as [[]|e|]; [|eexists; by split_and!|done]. unfold ensure.
    destruct (SharedLink.below_limit link); [|eexists; by split_and!].
    eexists. split_and!; [done| |done]. intros _. split_and!; eauto.
  - m_run. unfold ensure. destruct (SharedLink.below_limit link); eexists; by split_and!.
Qed.

(** ** The effect of a download on the links *)

Definition served_once (t : Timestamp) (l : SharedLink) : SharedLink :=
  set_sl_download_count (sl_download_count l + 1) (set_sl_last_accessed_at (Some t) l).

Lemma increment_run id w :
  SharedLink.increment_download_count id w =
  match shared_links (db w) !! id with
  | Some l =>
      if SharedLink.below_limit l then
        (set_db (set_shared_links (<[id := served_once (now w) l]> (shared_links (db w))) (db w)) w,
         Ok true)
      else (w, Ok false)
  | None => (w, Ok false)
  end.
Proof.
  unfold SharedLink.increment_download_count, gets, sql_set_id_if. m_run.
  change (tbl (db w)) with (shared_links (db w)).
  destruct (shared_links (db w) !! id) as [l|]; [|done].
  by destruct (SharedLink.below_limit l).
Qed.

(** Reading the copy leaves links and clock alone. *)
Lemma try_locations_links refs l :
  Guar (same (λ w, (shared_links (db w), now w))) (FileService.try_locations hmac refs l).
Proof.
  apply guar_try_locations; [apply _ | done|]. intros id. unfold FileLocation.touch_accessed. guar.
Qed.

Lemma download_run token dl w :
  LinksOk (db w) →
  match SharedLinkService.download_via_link jwt hmac token dl w with
  | (w', Ok r) => ∃ link, link_of (db w) token = Some link ∧ may_download link (now w) dl ∧
      shared_links (db w') = <[sl_id link := served_once (now w) link]> (shared_links (db w))
  | (w', _) => shared_links (db w') = shared_links (db w)
  end.
Proof.
  intros Hok. unfold SharedLinkService.download_via_link, SharedLink.find_by_token, or_throw,
    sql_select_first. rewrite bind_unfold. unfold gets at 1, lift at 1. rewrite bind_unfold.
  fold (link_of (db w) token).
  destruct (link_of (db w) token) as [link|] eqn:Hlink; [|done]. simpl.
  destruct (link_of_Some _ _ _ Hok Hlink) as [_ Hid].
  destruct (authorize_run link dl w) as (r & Hr & Hmay & _). rewrite bind_unfold, Hr.
  destruct r as [[]|e|]; [|done..]. specialize (Hmay eq_refl).
  unfold File.find_by_id, or_throw, sql_find, FileLocation.find_for_file,
    FileReference.find_by_file_id, sql_select, gets, lift. m_run.
  destruct (ok_or _ _) as [f|e|]; [|done..]. m_run.
  unfold ensure at 1. destruct (negb _); [|done]. m_run.
  match goal with |- context [FileService.try_locations hmac ?rs ?ls w] =>
    pose proof (try_locations_links rs ls w) as Hg;
    destruct (FileService.try_locations hmac rs ls w) as [w1 [o|e|]] end;
    injection Hg as Hl Ht; [|done..].
  destruct o as [got|]; [|done]. simpl. rewrite bind_unfold, increment_run, Hl, Hid, Ht.
  destruct Hmay as (Ha & He & Hp & Hb). rewrite Hb. simpl. exists link. by split_and!.
Qed.

(** C9: a download through a shared link is served only while the link is active
    and not expired, only with room left in its quota, and, when the link is
    protected, only on presentation of a token signed for that very link; it
    is counted before the bytes leave, and no other link changes. A refused
    download is not counted. *)
Theorem shared_download_gate token dl w w' r :
  LinksOk (db w) →
  SharedLinkService.download_via_link jwt hmac token dl w = (w', r) →
  if is_ok r then
    ∃ link, link_of (db w) token = Some link ∧ may_download link (now w) dl ∧
      shared_links (db w') = <[sl_id link := served_once (now w) link]> (shared_links (db w))
  else shared_links (db w') = shared_links (db w).
Proof.
  intros Hok H. pose proof (download_run token dl w Hok) as Hr. rewrite H in Hr.
  by destruct r.
Qed.

(** ** The quota *)

(** Everything else that happens to the links: creation, deactivation, and
    whatever deletes some of them or does not touch them (the information and
    password pages, the passage of time, the rest of the system). *)
Inductive other_step : World → World → Prop :=
  | other_create input w : other_step w (SharedLinkService.create_link input w).1
  | other_deactivate id u role w : other_step w (SharedLinkService.deactivate_link id u role w).1
  | other_quiet w w' : shared_links (db w') ⊆ shared_links (db w) → other_step w w'.

(** A history in which the link [lid] served [n] downloads; the identifier of a
    deleted link is not drawn again. *)
Inductive history (lid : Uuid) : World → nat → World → Prop :=
  | history_done w : history lid w 0 w
  | history_served token dl w n w' link :
      link_of (db w) token = Some link → sl_id link = lid →
      is_ok (SharedLinkService.download_via_link jwt hmac token dl w).2 = true →
      history lid (SharedLinkService.download_via_link jwt hmac token dl w).1 n w' →
      history lid w (S n) w'
  | history_not_served token dl w n w' :
      (is_ok (SharedLinkService.download_via_link jwt hmac token dl w).2 = true →
       ∀ link, link_of (db w) token = Some link → sl_id link ≠ lid) →
      history lid (SharedLinkService.download_via_link jwt hmac token dl w).1 n w' →
      history lid w n w'
  | history_other w w1 n w' :
      other_step w w1 →
      (shared_links (db w) !! lid = None → shared_links (db w1) !! lid = None) →
      history lid w1 n w' → history lid w n w'.

(** Links may be added, none changes. *)
Definition grows (w w' : World) : Prop :=
  shared_links (db w) ⊆ shared_links (db w') ∧ (LinksOk (db w) → LinksOk (db w')).
#[local] Instance grows_preorder : PreOrder grows.
Proof. split; [by split | intros w1 w2 w3 [] []; split; [by etrans | auto]]. Qed.

Lemma insert_link_grows mk :
  (∀ id t, sl_id (mk id t) = id) → Guar grows (sql_insert (R := SharedLink) mk).
Proof.
  intros Hmk w. unfold sql_insert, insert_row. rewrite bind_unfold, new_uuid_eq. cbn -[violates].
  change (tbl (db w)) with (shared_links (db w)).
  destruct (shared_links (db w) !! gen_uuid (draws w)) eqn:Hid; [by split|].
  destruct (violates _ _) eqn:Hv; [by split|]. split; simpl; [by apply insert_subseteq|].
  intros Hok. by eapply LinksOk_add.
Qed.

Lemma create_link_grows input : Guar grows (SharedLinkService.create_link input).
Proof.
  unfold SharedLinkService.create_link, File.find_by_id, FileReference.find_by_file_and_project,
    SharedLink.create, SharedLink.generate_token, argon2_hash_new.
  repeat first
    [ apply insert_link_grows; done
    | match goal with |- Guar _ draw => intros w; by split end
    | guar_step ].
Qed.

(** A link keeps its limit and its count. *)
Definition keeps_links (w w1 : World) : Prop :=
  LinksOk (db w1) ∧ ∀ lid l', shared_links (db w1) !! lid = Some l' →
    shared_links (db w) !! lid = None ∨
    ∃ l, shared_links (db w) !! lid = Some l ∧ sl_max_downloads l' = sl_max_downloads l ∧
         sl_download_count l' = sl_download_count l.

Lemma other_step_keeps w w1 : other_step w w1 → LinksOk (db w) → keeps_links w w1.
Proof.
  intros [input w2|id u role w2|w2 w3 Hsub] Hok.
  - destruct (create_link_grows input w2) as [Hsub Hok']. split; [auto|]. intros lid l' Hl'.
    destruct (shared_links (db w2) !! lid) as [l|] eqn:Hl; [right|by left].
    pose proof (lookup_weaken _ _ _ _ Hl Hsub). exists l. split; [done|]. by simplify_eq.
  - unfold SharedLinkService.deactivate_link.
    assert (keeps_links w2 w2) as Hrefl by (split; [done|]; intros lid l' ?; right; eauto).
    unfold SharedLink.find_by_id, or_throw, sql_find, gets, lift. m_run.
    destruct (ok_or _ _) as [l|e|]; [|done..]. unfold ensure. destruct (_ || _); [|done].
    unfold SharedLink.deactivate, or_throw, sql_set_id, sql_set_id_if. m_run.
    change (tbl (db w2)) with (shared_links (db w2)).
    destruct (shared_links (db w2) !! id) as [k|] eqn:Hk; [|done]. split; simpl.
    + by apply (LinksOk_set (db w2) _ id k (set_sl_is_active false k)).
    + intros i l'. rewrite lookup_insert. case_decide; [|by right; eauto].
      intros [= <-]. subst. right. exists k. done.
  - split; [by eapply LinksOk_sub|].
    intros lid l' Hl'. right. exists l'. split; [by eapply lookup_weaken | done].
Qed.

Lemma download_keeps_ok token dl w :
  LinksOk (db w) → LinksOk (db (SharedLinkService.download_via_link jwt hmac token dl w).1).
Proof.
  intros Hok. pose proof (download_run token dl w Hok) as Hr.
  destruct (SharedLinkService.download_via_link jwt hmac token dl w) as [w' [r|e|]]; simpl;
    [|by (eapply LinksOk_sub; [done|]; rewrite Hr)..].
  destruct Hr as (link & Hl & _ & Hs). destruct (link_of_Some _ _ _ Hok Hl) as [_ Hid].
  by apply (LinksOk_set (db w) _ (sl_id link) link (served_once (now w) link)).
Qed.

(** The downloads a link has left. *)
Definition left (d : Db) (lid : Uuid) : option Z :=
  match shared_links d !! lid with
  | Some l => (λ m, Z.max 0 (m - sl_download_count l)) <$> sl_max_downloads l
  | None => Some 0
  end.

Lemma history_bound lid w n w' :
  history lid w n w' → LinksOk (db w) → ∀ m, left (db w) lid = Some m → Z.of_nat n ≤ m.
Proof.
  induction 1 as [w|token dl w n w' link Hlink Hid Hserved _ IH|token dl w n w' Hns _ IH
    |w w1 n w' Hstep Hnew _ IH]; intros Hok m Hm.
  - unfold left in Hm. destruct (shared_links (db w) !! lid) as [l|]; [|by injection Hm as <-].
    destruct (sl_max_downloads l); simplify_eq/=. lia.
  - pose proof (download_run token dl w Hok) as Hr. specialize (IH (download_keeps_ok _ _ _ Hok)).
    destruct (SharedLinkService.download_via_link jwt hmac token dl w) as [w1 [r|e|]];
      [|done..]. simpl in *.
    destruct Hr as (link' & Hlink' & (_ & _ & _ & Hb) & Hs).
    assert (link' = link) as -> by congruence.
    destruct (link_of_Some _ _ _ Hok Hlink) as [_ Hl]. rewrite Hid in Hl, Hs.
    unfold left in *. rewrite Hs, lookup_insert_eq in IH. rewrite Hl in Hm.
    unfold SharedLink.below_limit in Hb. simpl in *.
    destruct (sl_max_downloads link) as [x|]; simplify_eq/=. apply Z.ltb_lt in Hb.
    specialize (IH _ eq_refl). lia.
  - pose proof (download_run token dl w Hok) as Hr.
    apply IH; [by apply download_keeps_ok|]. rewrite <- Hm. unfold left.
    destruct (SharedLinkService.download_via_link jwt hmac token dl w) as [w1 [r|e|]]; simpl in *;
      [|by rewrite Hr..].
    destruct Hr as (link & Hlink & _ & ->). rewrite lookup_insert_ne; [done|].
    apply Hns; [done | exact Hlink].
  - destruct (other_step_keeps _ _ Hstep Hok) as [Hok1 Hk]. specialize (IH Hok1).
    unfold left in IH, Hm. destruct (shared_links (db w1) !! lid) as [l'|] eqn:Hl'.
    + apply IH. rewrite <- Hm.
      destruct (Hk lid l' Hl') as [Hn|(l & -> & -> & ->)]; [by specialize (Hnew Hn)|done].
    + specialize (IH 0 eq_refl).
      destruct (shared_links (db w) !! lid) as [l|]; [|by simplify_eq].
      destruct (sl_max_downloads l); simplify_eq/=. lia.
Qed.

(** A link limited to [m] downloads that has served [c] serves at most
    [m - c] more, in whatever order requests for this and other links, link
    creations, deactivations and unrelated changes follow each other. *)
Theorem download_quota lid l m w n w' :
  LinksOk (db w) → shared_links (db w) !! lid = Some l → sl_max_downloads l = Some m →
  history lid w n w' → Z.of_nat n ≤ Z.max 0 (m - sl_download_count l).
Proof.
  intros Hok Hl Hm Hh. apply (history_bound _ _ _ _ Hh Hok). unfold left. by rewrite Hl, Hm.
Qed.

(** ** Deactivation *)

Lemma link_of_unique d id l :
  LinksOk d → shared_links d !! id = Some l → link_of d (sl_token l) = Some l.
Proof.
  intros Hok Hl. unfold link_of. rewrite (select_in_unique _ _ id l); [done..| |].
  - apply String.eqb_refl.
  - intros j k Hk Ht%String.eqb_eq. by apply (ok_link_token _ Hok j id k l).
Qed.

(** Once a link is deactivated it answers 404 to the information page, to
    the password check and to downloads, with or without a download token. *)
Theorem deactivated_link_is_hidden id user role w w' l :
  LinksOk (db w) → SharedLinkService.deactivate_link id user role w = (w', Ok l) →
  SharedLinkService.get_link_info (sl_token l) w' = (w', Err link_hidden) ∧
  (∀ pw, SharedLinkService.verify_password jwt (sl_token l) pw w' = (w', Err link_hidden)) ∧
  (∀ dl, SharedLinkService.download_via_link jwt hmac (sl_token l) dl w' = (w', Err link_hidden)).
Proof.
  intros Hok H.
  assert (LinksOk (db w')) as Hok'.
  { replace w' with (SharedLinkService.deactivate_link id user role w).1 by (by rewrite H).
    by apply (other_step_keeps _ _ (other_deactivate id user role w)). }
  assert (sl_is_active l = false ∧ shared_links (db w') !! id = Some l) as [Hina Hl].
  { unfold SharedLinkService.deactivate_link, SharedLink.deactivate, SharedLink.find_by_id in H.
    m_inv. apply sql_set_id_ok in H as (k & Hk & -> & ->). split; [done|].
    simpl. by rewrite lookup_insert_eq. }
  pose proof (link_of_unique _ _ _ Hok' Hl) as Hof.
  assert (SharedLink.find_by_token (sl_token l) w' = (w', Ok l)) as Hfind.
  { unfold SharedLink.find_by_token, or_throw, sql_select_first, gets, lift. m_run.
    unfold link_of in Hof. by rewrite Hof. }
  assert (SharedLinkService.accessible l w' = (w', Err link_hidden)) as Hacc.
  { by rewrite accessible_run, Hina. }
  unfold SharedLinkService.get_link_info, SharedLinkService.verify_password,
    SharedLinkService.download_via_link, SharedLinkService.authorize_download.
  split_and!; intros; rewrite bind_unfold, Hfind, !bind_unfold; by rewrite Hacc.
Qed.

(** ** Passwords *)

Context {HJ : JwtExpiry} {HU : UuidText}.

(** What the validator makes of a token: one that does not decode is invalid, one
    that decodes to the claims of something else does not match. *)
Lemma validate_token_eq tok expected id w :
  SharedLinkService.validate_download_token jwt tok expected id w =
  (w, match jwt_decode (SharedLinkService.token_key jwt) jwt_leeway (now w / usec_per_sec) tok
              ≫= claims_of_json with
      | None => Err SharedLinkService.invalid_token
      | Some c => if String.eqb (dtc_sub c) expected && String.eqb (dtc_link_id c) (uuid_str id)
                  then Ok tt else Err SharedLinkService.token_mismatch
      end).
Proof.
  unfold SharedLinkService.validate_download_token, now_secs, gets, lift, ensure. m_run.
  destruct (jwt_decode _ _ _ tok ≫= claims_of_json) as [c|]; simpl; [|done].
  by destruct (_ && _).
Qed.

(** The claims of the token handed out for a password. *)
Lemma verify_password_claims token pw w w' tok link :
  link_of (db w) token = Some link → sl_token link = token →
  SharedLinkService.verify_password jwt token pw w = (w', Ok tok) →
  jwt_encode (SharedLinkService.token_key jwt)
    (claims_json (mkDownloadTokenClaims token (uuid_str (sl_id link))
       (now w / usec_per_sec + DOWNLOAD_TOKEN_TTL_SECS))) = Some tok.
Proof.
  intros Hlink Htok H.
  unfold SharedLinkService.verify_password, SharedLink.find_by_token,
    SharedLinkService.accessible, SharedLinkService.generate_download_token, now_secs in H.
  m_inv. unfold link_of in Hlink. subst.
  match goal with Hx : Some ?x = list.head _ |- _ => assert (x = link) as -> by congruence end.
  destruct (jwt_encode _ _); [|done]. by injection H as <-.
Qed.

Lemma claims_json_back c : 0 ≤ dtc_exp c → claims_of_json (claims_json c) = Some c.
Proof. intros He. unfold claims_of_json. simpl. rewrite Z2N.id by done. by destruct c. Qed.

(** C24: the token handed out for the right password is accepted by the validator
    for its link, and for no link with another identifier or token, for five
    minutes and the minute of tolerated clock skew; in every other case the
    validator answers 401. What it answers is what the gate in front of the file
    answers, when the link is otherwise open. *)
Theorem download_token_lifetime token pw w w' tok link other w2 :
  LinksOk (db w) → link_of (db w) token = Some link →
  valid_uuid (sl_id link) → valid_uuid (sl_id other) → 0 ≤ now w →
  SharedLinkService.verify_password jwt token pw w = (w', Ok tok) →
  ∃ r, SharedLinkService.validate_download_token jwt tok (sl_token other) (sl_id other) w2 = (w2, r) ∧
    (r = Ok tt ∧ sl_id other = sl_id link ∧ sl_token other = token ∧
       now w2 / usec_per_sec ≤ now w / usec_per_sec + 300 + 60 ∨
     (∃ e, r = Err e ∧ status_code e = 401) ∧
     ¬ (sl_id other = sl_id link ∧ sl_token other = token ∧
        now w2 / usec_per_sec ≤ now w / usec_per_sec + 300 + 60)) ∧
    (sl_is_active other = true → is_expired (now w2) other = false →
     SharedLink.password_protected other = true → SharedLink.below_limit other = true →
     SharedLinkService.authorize_download jwt other (Some tok) w2 = (w2, r)).
Proof.
  intros Hok Hlink Hval Hval' Hnow H. destruct (link_of_Some _ _ _ Hok Hlink) as [Htok _].
  pose proof (verify_password_claims _ _ _ _ _ _ Hlink Htok H) as Henc.
  set (n := now w / usec_per_sec) in *. set (claims := mkDownloadTokenClaims _ _ _) in Henc.
  assert (0 ≤ n) as Hn by (apply Z.div_pos; [done | unfold usec_per_sec; lia]).
  assert (claims_of_json (claims_json claims) = Some claims) as Hback
    by (apply claims_json_back; simpl; unfold DOWNLOAD_TOKEN_TTL_SECS; lia).
  assert (as_u64 (json_index "exp" (claims_json claims)) = Some (n + 300)) as Hexp
    by (simpl; rewrite Z2N.id; unfold DOWNLOAD_TOKEN_TTL_SECS; [done | lia]).
  eexists. split; [apply validate_token_eq|]. split.
  - destruct (jwt_decode _ _ (now w2 / usec_per_sec) tok) as [c|] eqn:Hdec; simpl.
    + assert (c = claims_json claims) as ->.
      { eapply jwt_decode_stable; [exact Hdec|]. eapply (jwt_decode_encode _ _ n); [done..|].
        unfold jwt_leeway. lia. }
      apply jwt_decode_fresh in Hdec as (e & He & Hle). rewrite Hexp in He. injection He as <-.
      rewrite Hback. unfold jwt_leeway in Hle. simpl.
      destruct (String.eqb_spec token (sl_token other)) as [Ht|Ht]; simpl;
        [|right; split; [by eexists | naive_solver]].
      destruct (String.eqb_spec (uuid_str (sl_id link)) (uuid_str (sl_id other))) as [Hid|Hid]; simpl.
      * left. by apply uuid_str_inj in Hid.
      * right. split; [by eexists|]. intros (Hi & _). by rewrite Hi in Hid.
    + right. split; [by eexists|]. intros (_ & _ & Hle).
      rewrite (jwt_decode_encode _ _ _ _ _ _ Henc Hexp) in Hdec; [done|]. exact Hle.
  - intros Ha He Hp Hb. unfold SharedLinkService.authorize_download.
    rewrite bind_unfold, accessible_run, Ha, He. simpl. rewrite Hp, Hb. unfold lift. m_run.
    rewrite validate_token_eq. destruct (jwt_decode _ _ _ tok ≫= claims_of_json) as [c|]; [|done].
    simpl. by destruct (_ && _).
Qed.
End links.

(** Witnesses. *)
Definition shared : World :=
  (SharedLinkService.create_link
    (mkCreateSharedLinkInput 1001 10 101 "user" (Some "pw") None (Some 2))
    (FileService.upload_file "k" 10 "a.txt" "text/plain" hello no_metadata deployment).1).1.

Definition hello_link : SharedLink :=
  mkSharedLink 1007 "token-1004" 1001 10 "a.txt" 101 (Some "argon2:pw") None (Some 2) 0 None true
    (seconds 1000000).

Lemma shared_ok : LinksOk (db shared).
Proof.
  apply create_link_grows. split; intros *;
    (replace (shared_links _) with (∅ : gmap Uuid SharedLink) by (vm_compute; reflexivity));
    by rewrite lookup_empty.
Defined.

Definition hello_token : string :=
  match (SharedLinkService.verify_password "s" "token-1004" "pw" shared).2 with
  | Ok tok => tok
  | _ => ""
  end.

Definition download_hello (w : World) : World * Result SharedLinkDownloadResult :=
  SharedLinkService.download_via_link "s" "k" "token-1004" (Some hello_token) w.

Lemma shared_download_gate_witness :
  ∃ link, link_of (db shared) "token-1004" = Some link ∧
    may_download "s" link (now shared) (Some hello_token) ∧
    shared_links (db (download_hello shared).1) =
      <[sl_id link := served_once (now shared) link]> (shared_links (db shared)).
Proof.
  exact (shared_download_gate "s" "k" "token-1004" (Some hello_token) shared (download_hello shared).1
    (Ok (mkSharedLinkDownloadResult hello "text/plain" "a.txt" 1001 10 20 5)) shared_ok
    ltac:(apply run_ok; vm_compute; reflexivity)).
Defined.

Lemma download_quota_witness : Z.of_nat 2 ≤ Z.max 0 (2 - sl_download_count hello_link).
Proof.
  apply (download_quota "s" "k" 1007 hello_link 2 shared 2
    (download_hello (download_hello shared).1).1).
  - exact shared_ok.
  - vm_compute. reflexivity.
  - reflexivity.
  - apply (history_served _ _ _ "token-1004" (Some hello_token) _ _ _ hello_link);
      [vm_compute; reflexivity | reflexivity | vm_compute; reflexivity|].
    apply (history_served _ _ _ "token-1004" (Some hello_token) _ _ _
      (served_once (seconds 1000000) hello_link));
      [vm_compute; reflexivity | reflexivity | vm_compute; reflexivity|].
    apply history_done.
Defined.

Lemma deactivated_link_is_hidden_witness :
  SharedLinkService.get_link_info "token-1004"
    (SharedLinkService.deactivate_link 1007 101 "user" shared).1 =
  ((SharedLinkService.deactivate_link 1007 101 "user" shared).1, Err link_hidden).
Proof.
  refine (proj1 (deactivated_link_is_hidden "s" "k" 1007 101 "user" shared _
    (set_sl_is_active false hello_link) shared_ok _)).
  apply run_ok. vm_compute. reflexivity.
Defined.

(** Fourteen seconds before the token lapses. *)
Definition much_later : World := set_now (seconds 1000346) shared.

Lemma download_token_lifetime_witness :
  SharedLinkService.validate_download_token "s" hello_token (sl_token hello_link)
    (sl_id hello_link) much_later = (much_later, Ok tt).
Proof.
  destruct (download_token_lifetime "s" "token-1004" "pw" shared
    (SharedLinkService.verify_password "s" "token-1004" "pw" shared).1 hello_token hello_link
    hello_link much_later) as (r & Hr & [(-> & _)|[_ Hn]] & _).
  - exact shared_ok.
  - vm_compute. reflexivity.
  - reflexivity.
  - reflexivity.
  - vm_compute. discriminate.
  - apply run_ok. vm_compute. reflexivity.
  - exact Hr.
  - exfalso. apply Hn. split_and!; [reflexivity | reflexivity | vm_compute; discriminate].
Defined.

(** A third download is refused. *)
Example quota_exhausted :
  (download_hello (download_hello (download_hello shared).1).1).2 =
  Err SharedLinkService.limit_reached.
Proof. by vm_compute. Qed.
