(* ===== verification/AuthSpec.v ===== *)
(** * Authentication and authorisation

    Sessions: what a login hands out, how long it is good for, and what ends
    it; and the relation between the access checks. *)

From S2P Require Import Prelude Text Json Schema Env World Tables Laws Concrete Projects LocalDisk.
From S2P Require Import Registry Storages Scenario Links Users Auth Access.

Section auth.
Context {E : Env} (config : AuthConfig).

(** ** Access tokens *)

Lemma access_token_run uid role w w' tok :
  AuthService.generate_access_token config uid role w = (w', Ok tok) →
  w' = w ∧ jwt_encode (ac_jwt_secret config) (access_claims_json (mkClaims (uuid_str uid) role
    (now w / usec_per_sec + ac_access_token_ttl_secs config))) = Some tok.
Proof.
  unfold AuthService.generate_access_token, now_secs. intros H. m_inv. split; [done|].
  destruct (jwt_encode _ _); simpl in H; congruence.
Qed.

Section sessions.
Context {HJ : JwtExpiry} {HU : UuidText}.

(** The claims a token was issued with decide what it is worth, at any time. *)
Lemma extract_issued uid role n tok w :
  valid_uuid uid → 0 ≤ n →
  jwt_encode (ac_jwt_secret config) (access_claims_json (mkClaims (uuid_str uid) role n)) =
    Some tok →
  (extract_user config (Some ("Bearer " +:+ tok)) w).2 =
  if now w / usec_per_sec <=? n then Ok (mkAuthenticatedUser uid role)
  else Err (AuthService.invalid_token config (now w / usec_per_sec) tok).
Proof.
  intros Hu Hn Henc. set (claims := access_claims_json _) in Henc.
  assert (as_u64 (json_index "exp" claims) = Some n) as Hexp by (simpl; by rewrite Z2N.id).
  unfold extract_user, AuthService.validate_access_token, now_secs, lift, gets. m_run.
  rewrite strip_prefix_app. m_run.
  destruct (Z.leb_spec (now w / usec_per_sec) n) as [Hle|Hlt].
  - erewrite jwt_decode_encode by (try done; lia). simpl. m_run. by rewrite uuid_parse_str.
  - destruct (jwt_decode _ _ _ tok) as [c|] eqn:Hdec; [|done]. exfalso.
    assert (c = claims) as ->.
    { eapply jwt_decode_stable; [exact Hdec|]. apply (jwt_decode_encode _ _ n _ _ n); [done..|lia]. }
    apply jwt_decode_fresh in Hdec as (e & He & Hle). rewrite Hexp in He. injection He as <-. lia.
Qed.

(** C23: the access token of a login identifies the user who logged in, with the
    role the account had then, to every request until its lifetime has
    passed, and identifies nobody after. *)
Theorem access_token_session username password w w' tokens later :
  0 ≤ now w → 0 ≤ ac_access_token_ttl_secs config →
  (∀ id u, users (db w) !! id = Some u → valid_uuid (u_id u)) →
  AuthRoutes.login config username password w = (w', Ok tokens) →
  ∃ u, (∃ id, users (db w) !! id = Some u) ∧ u_username u = username ∧
    argon2_verify password (u_password_hash u) = true ∧
    (extract_user config (Some ("Bearer " +:+ access_token tokens)) later).2 =
    if now later / usec_per_sec <=? now w / usec_per_sec + ac_access_token_ttl_secs config
    then Ok (mkAuthenticatedUser (u_id u) (u_role u))
    else Err (AuthService.invalid_token config (now later / usec_per_sec) (access_token tokens)).
Proof.
  intros Hnow Httl Hval. unfold AuthRoutes.login, User.find_by_username. intros H.
  apply bind_ok in H as (u & w1 & Hu & H). apply or_throw_ok, gets_ok in Hu as [-> Hu].
  symmetry in Hu. apply head_select_Some in Hu as [Hname [id Hid]].
  apply bind_ok in H as ([] & w1 & Hpw & H). apply ensure_ok in Hpw as [-> Hpw].
  unfold AuthRoutes.issue_tokens in H. apply bind_ok in H as (tok & w1 & Htok & H).
  apply access_token_run in Htok as [-> Henc].
  apply bind_ok in H as (rt & w2 & Hrt & H). apply bind_ok in H as (t & w3 & Ht & H).
  apply bind_ok in H as (row & w4 & Hrow & H). apply ret_ok in H as [_ ->].
  exists u. split; [by exists id|]. split; [by apply String.eqb_eq|]. split; [done|].
  apply extract_issued; [by eapply Hval | | done].
  assert (0 ≤ now w / usec_per_sec) by (apply Z.div_pos; [done | unfold usec_per_sec; lia]). lia.
Qed.
End sessions.

(** A login that names no account and one with a wrong password are
    answered alike, and neither leaves a trace. *)
Theorem login_refused username password w :
  (∀ id u, users (db w) !! id = Some u → u_username u = username →
     argon2_verify password (u_password_hash u) = false) →
  AuthRoutes.login config username password w = (w, Err AuthRoutes.bad_credentials).
Proof.
  intros Hno. unfold AuthRoutes.login, User.find_by_username, or_throw, sql_select_first, gets, lift.
  m_run. destruct (list.head _) as [u|] eqn:Hu; [|done]. simpl.
  apply head_select_Some in Hu as [Hname%String.eqb_eq [id Hid]].
  unfold AuthService.verify_password. by rewrite (Hno id u Hid Hname).
Qed.

(** ** Refresh tokens *)

Definition usable (d : Db) (t : Timestamp) (h : string) : Prop :=
  ∃ id r, refresh_tokens d !! id = Some r ∧ RefreshToken.is_valid t h r = true.

Lemma consume_run h w :
  RefreshToken.consume_by_hash h w =
  (set_db (set_refresh_tokens (filter (λ kv, RefreshToken.is_valid (now w) h kv.2 = false)
      (refresh_tokens (db w))) (db w)) w,
   Ok (list.head (select_in (RefreshToken.is_valid (now w) h) (db w)))).
Proof.
  unfold RefreshToken.consume_by_hash, gets. m_run. rewrite sql_delete_plain by done. done.
Qed.

Lemma refresh_unusable token w :
  ¬ usable (db w) (now w) (AuthService.hash_refresh_token token) →
  (AuthRoutes.refresh config token w).2 = Err AuthRoutes.invalid_refresh.
Proof.
  intros Hno. unfold AuthRoutes.refresh, or_throw, lift. rewrite !bind_unfold, consume_run.
  assert (list.head (select_in (RefreshToken.is_valid (now w)
    (AuthService.hash_refresh_token token)) (db w)) = None) as ->; [|done].
  apply head_select_None. intros id r Hr. apply not_true_iff_false. intros Hv.
  apply Hno. by exists id, r.
Qed.

(** What a refresh does to the other refresh tokens: at most one is added, for
    the token handed out. *)
Lemma issue_tokens_rows u w w' r h :
  AuthRoutes.issue_tokens config u w = (w', r) →
  (∀ t, r = Ok t → AuthService.hash_refresh_token (refresh_token t) ≠ h) →
  now w' = now w ∧ (usable (db w') (now w) h → usable (db w) (now w) h).
Proof.
  unfold AuthRoutes.issue_tokens. rewrite bind_unfold.
  assert (∃ a, AuthService.generate_access_token config (u_id u) (u_role u) w = (w, a)) as [a Ha].
  { unfold AuthService.generate_access_token, now_secs, gets, lift. m_run. eauto. }
  rewrite Ha. destruct a as [tok|e|]; [|by intros [= <- <-]..].
  unfold AuthService.generate_refresh_token, draw, gets. m_run.
  destruct (RefreshToken.create _ _) as [w2 [row|e|]] eqn:Hc; intros [= <- <-] Hh.
  - apply sql_insert_ok in Hc as (-> & _ & _ & ->). simpl. split; [done|].
    intros (id & x & Hx & Hv). simpl in Hx. rewrite lookup_insert in Hx. case_decide.
    + injection Hx as <-. unfold RefreshToken.is_valid in Hv.
      apply andb_prop in Hv as [Hv%String.eqb_eq _]. by destruct (Hh _ eq_refl).
    + by exists id, x.
  - apply sql_insert_err in Hc as [-> _]. done.
  - by apply sql_insert_no_panic in Hc.
Qed.

(** A refresh token is good for one use: whatever came of the first use,
    even a failure, a second one with the same token is refused. *)
Theorem refresh_token_single_use token w w' r :
  AuthRoutes.refresh config token w = (w', r) →
  (∀ t, r = Ok t →
     AuthService.hash_refresh_token (refresh_token t) ≠ AuthService.hash_refresh_token token) →
  (AuthRoutes.refresh config token w').2 = Err AuthRoutes.invalid_refresh.
Proof.
  intros H Hfresh. apply refresh_unusable. revert H. unfold AuthRoutes.refresh, or_throw, lift.
  set (h := AuthService.hash_refresh_token token) in *.
  rewrite !bind_unfold, consume_run. set (w1 := set_db _ w).
  assert (¬ usable (db w1) (now w1) h) as Hno.
  { intros (id & x & Hx & Hv). simpl in Hx, Hv.
    apply map_lookup_filter_Some in Hx as [_ Hx]. simpl in Hx. congruence. }
  destruct (list.head _) as [row|]; [|by intros [= <- <-]]. simpl. rewrite bind_unfold.
  assert (∃ a, map_err (λ e, match e with NotFound _ => AuthRoutes.account_gone | _ => e end)
    (User.find_by_id (rt_user_id row)) w1 = (w1, a)) as [a Ha].
  { unfold map_err, try_with, User.find_by_id, or_throw, sql_find, gets, lift. m_run.
    destruct (ok_or _ _) as [u|e|]; eauto. }
  rewrite Ha. destruct a as [u|e|]; [|by intros [= <- <-]..].
  intros Hi. destruct (issue_tokens_rows _ _ _ _ h Hi Hfresh) as [-> Hrows]. by intros Hu%Hrows.
Qed.

(** ** Changing an account *)

Lemma apply_update_ok uid u body h w w' u' :
  (∀ id x, users (db w) !! id = Some x → u_id x = id) →
  users (db w) !! uid = Some u →
  AuthRoutes.apply_update uid u body h w = (w', Ok u') →
  (∀ id r, refresh_tokens (db w') !! id = Some r → rt_user_id r ≠ uid) ∧
  users (db w') !! uid = Some u' ∧
  (∀ role, uur_role body = Some role → u_role u' = role) ∧
  (∀ x, h = Some x → u_password_hash u' = x).
Proof.
  intros Hkey Hu. unfold AuthRoutes.apply_update. intros H.
  apply bind_ok in H as (u1 & w1 & H1 & H). apply bind_ok in H as (u2 & w2 & H2 & H).
  apply bind_ok in H as ([] & w3 & H3 & H). apply ret_ok in H as [-> ->].
  assert (users (db w1) !! uid = Some u1 ∧ (∀ role, uur_role body = Some role → u_role u1 = role))
    as [Hu1 Hrole].
  { destruct (uur_role body) as [role|]; [|by apply ret_ok in H1 as [-> ->]].
    apply or_throw_ok, sql_update_id_ok in H1. change (tbl (db w)) with (users (db w)) in H1.
    rewrite Hu in H1. destruct H1 as (_ & -> & [= ->]). simpl. rewrite lookup_insert_eq.
    split; [done|]. by intros ? [= <-]. }
  assert (users (db w2) !! uid = Some u2 ∧ u_role u2 = u_role u1 ∧
    (∀ x, h = Some x → u_password_hash u2 = x)) as (Hu2 & Hr2 & Hh).
  { destruct h as [x|]; [|by apply ret_ok in H2 as [-> ->]].
    apply or_throw_ok, sql_set_id_ok in H2 as (u0 & Hu0 & -> & ->).
    change (tbl (db w1)) with (users (db w1)) in Hu0. simplify_eq. simpl. rewrite lookup_insert_eq.
    split_and!; [done..|]. by intros ? [= <-]. }
  unfold RefreshToken.delete_by_user_id in H3. rewrite bind_unfold, sql_delete_plain in H3 by done.
  injection H3 as <-. simpl. split_and!; [|done| |done].
  - intros id r. rewrite map_lookup_filter_Some. simpl. rewrite N.eqb_neq. tauto.
  - intros role Hb. rewrite Hr2. by apply Hrole.
Qed.

Definition check_new_role (admin : AdminUser) (uid : Uuid) (o : option string) : M unit :=
  match o with
  | Some role =>
      ensure (is_role role) bad_role;;
      ensure (negb (N.eqb uid (ad_user_id admin) && negb (String.eqb role "admin")))
        (BadRequest "Cannot demote your own admin account")
  | None => mret tt
  end.

Lemma check_new_role_run admin uid o w :
  ∃ r, check_new_role admin uid o w = (w, r) ∧
    (r = Ok tt → ∀ role, o = Some role → uid = ad_user_id admin → role = "admin").
Proof.
  unfold check_new_role, ensure. destruct o as [role|]; [|eexists; by split].
  destruct (is_role role); [|by eexists]. m_run.
  destruct (N.eqb_spec uid (ad_user_id admin)), (String.eqb_spec role "admin"); simpl;
    eexists; (split; [done|]); naive_solver.
Qed.

Definition hash_new_password (o : option string) : M (option string) :=
  match o with
  | Some password =>
      lift (check_password password);; h ← AuthService.hash_password password; mret (Some h)
  | None => mret None
  end.

Lemma hash_new_password_run `{!PasswordHash} o w :
  ∃ w' r, hash_new_password o w = (w', r) ∧ db w' = db w ∧
    ∀ h, r = Ok h → ∀ pw, o = Some pw → ∃ x, h = Some x ∧ argon2_verify pw x = true.
Proof.
  unfold hash_new_password. destruct o as [pw|]; [|eexists _, _; split_and!; [done..|]; by intros h].
  unfold lift. m_run. destruct (check_password pw) as [[]|e|]; [|by eexists _, _..].
  unfold AuthService.hash_password, draw. m_run.
  destruct (argon2_hash (draws w) pw) as [h|] eqn:Hh; [|by eexists _, _].
  eexists _, _. split_and!; [done..|]. intros ? [= <-] ? [= <-].
  exists h. split; [done|]. by eapply argon2_verify_hash.
Qed.

(** C21: when an administrator changes an account, the stored account has the
    new role and a hash of the new password, and every session of the user is
    over: no refresh token is left. Nobody takes their own administrator role
    away. A change that fails leaves the database as it was. *)
Theorem update_user_spec `{!PasswordHash} admin uid body w :
  (∀ id x, users (db w) !! id = Some x → u_id x = id) →
  match AuthRoutes.update_user admin uid body w with
  | (w', Ok u) =>
      users (db w') !! uid = Some u ∧
      (∀ id r, refresh_tokens (db w') !! id = Some r → rt_user_id r ≠ uid) ∧
      (∀ role, uur_role body = Some role → u_role u = role ∧
         (uid = ad_user_id admin → role = "admin")) ∧
      (∀ pw, uur_password body = Some pw → argon2_verify pw (u_password_hash u) = true)
  | (w', _) => db w' = db w
  end.
Proof.
  intros Hkey. unfold AuthRoutes.update_user. rewrite bind_unfold. unfold ensure at 1.
  destruct (match uur_role body with Some _ => _ | None => _ end); [|done].
  change (mret (M := M) tt w) with (w, Ok tt). cbv beta iota.
  unfold User.find_by_id, or_throw, sql_find, gets. rewrite !bind_unfold. unfold lift at 1.
  change (tbl (db w)) with (users (db w)).
  destruct (users (db w) !! uid) as [u|] eqn:Hu; [|done]. cbn [ok_or].
  fold (check_new_role admin uid (uur_role body)). fold (hash_new_password (uur_password body)).
  destruct (check_new_role_run admin uid (uur_role body) w) as (r & Hr & Hdem).
  rewrite bind_unfold, Hr. destruct r as [[]|e|]; [|done..]. specialize (Hdem eq_refl).
  destruct (hash_new_password_run (uur_password body) w) as (w1 & r & Hp & Hdb & Hver).
  rewrite bind_unfold, Hp. destruct r as [h|e|]; [|done..]. specialize (Hver h eq_refl).
  destruct (transaction _ w1) as [w2 r] eqn:Ht.
  destruct r as [u'|e|].
  - apply transaction_ok, apply_update_ok in Ht as (Hrt & Hu' & Hrole & Hh); rewrite ?Hdb; try done.
    split_and!; [done..| |].
    + intros role Hb. split; [by apply Hrole | by apply Hdem].
    + intros pw Hpw. destruct (Hver pw Hpw) as (x & -> & Hx). by rewrite (Hh x eq_refl).
  - rewrite <- Hdb. by eapply transaction_not_ok.
  - rewrite <- Hdb. by eapply transaction_not_ok.
Qed.

(** ** Access checks *)

(** Whoever may write may read: write access to a project implies read
    access to it, and write access to a file read access to the file. *)
Theorem write_implies_read user p file_id w :
  (require_project_write_access user p w = (w, Ok tt) →
   require_project_read_access user p w = (w, Ok tt)) ∧
  (check_file_write_access file_id user w = (w, Ok tt) →
   check_file_access file_id user w = (w, Ok tt)).
Proof.
  split.
  - unfold require_project_write_access, require_project_read_access.
    destruct (is_admin user); [done|]. destruct (is_owner user _); [done|]. simpl.
    unfold UserProject.get_role, UserProject.is_member, sql_select_first, gets. m_run.
    unfold ensure at 1. intros H.
    assert (exists_row (UserProject.is_pair (au_user_id user) (p_id p)) (user_projects (db w)) = true)
      as ->; [|done].
    destruct (list.head _) as [up|] eqn:Hup in H; [|discriminate].
    apply head_select_Some in Hup as [Hp [id Hid]]. apply exists_row_true. by exists id, up.
  - unfold check_file_write_access, check_file_access. destruct (_ =? "admin")%string; [done|].
    intros H. m_inv. apply ensure_ok in H as [_ H]. unfold gets. m_run.
    assert (file_accessible (db w) file_id (au_user_id user) (λ _, true) = true) as ->; [|done].
    revert H. unfold file_accessible. rewrite !exists_row_true. intros (id & fr & Hid & Hfr).
    exists id, fr. split; [done|]. apply andb_prop in Hfr as [-> Hfr]. simpl.
    destruct (projects (db w) !! fr_project_id fr) as [q|]; [|done].
    unfold accessible_project in *. apply andb_prop in Hfr as [-> Hfr]. simpl.
    apply orb_prop in Hfr as [->|Hfr]; [done|].
    apply exists_row_true in Hfr as (i & up & Hi & Hup). apply orb_true_iff. right.
    apply exists_row_true. exists i, up. split; [done|].
    apply andb_prop in Hup as [-> _]. done.
Qed.
End auth.

(** Witnesses. *)
Definition auth_config : AuthConfig := mkAuthConfig "s" 900 86400.

Lemma deployment_users_keyed id x : users (db deployment) !! id = Some x → u_id x = id.
Proof.
  change (users (db deployment)) with ({[ 100%N := alice; 101%N := bob ]} : gmap Uuid User).
  rewrite lookup_insert. case_decide; [by intros [= <-]|].
  by intros [<- <-]%lookup_singleton_Some.
Defined.

Lemma deployment_users_valid id x : users (db deployment) !! id = Some x → valid_uuid (u_id x).
Proof.
  change (users (db deployment)) with ({[ 100%N := alice; 101%N := bob ]} : gmap Uuid User).
  rewrite lookup_insert. case_decide; [by intros [= <-]|].
  by intros [<- <-]%lookup_singleton_Some.
Defined.

Definition logged_in : World * Result Tokens :=
  AuthRoutes.login auth_config "bob" "hunter2" deployment.
Definition bob_tokens : Tokens :=
  match logged_in.2 with Ok t => t | _ => mkTokens "" "" end.

Lemma access_token_session_witness :
  ∃ u, (∃ id, users (db deployment) !! id = Some u) ∧ u_username u = "bob" ∧
    argon2_verify "hunter2" (u_password_hash u) = true ∧
    (extract_user auth_config (Some ("Bearer " +:+ access_token bob_tokens))
       (set_now (seconds 1000900) logged_in.1)).2 =
    Ok (mkAuthenticatedUser (u_id u) (u_role u)).
Proof.
  exact (access_token_session auth_config "bob" "hunter2" deployment logged_in.1 bob_tokens
    (set_now (seconds 1000900) logged_in.1)
    ltac:(vm_compute; discriminate) ltac:(vm_compute; discriminate) deployment_users_valid
    ltac:(apply run_ok; vm_compute; reflexivity)).
Defined.

Lemma login_refused_witness :
  AuthRoutes.login auth_config "bob" "letmein" deployment =
  (deployment, Err AuthRoutes.bad_credentials).
Proof.
  apply login_refused. intros id u.
  change (users (db deployment)) with ({[ 100%N := alice; 101%N := bob ]} : gmap Uuid User).
  rewrite lookup_insert. case_decide; [by intros [= <-]|].
  by intros [<- <-]%lookup_singleton_Some.
Defined.

Definition refreshed : World * Result Tokens :=
  AuthRoutes.refresh auth_config (refresh_token bob_tokens) logged_in.1.

Lemma refresh_token_single_use_witness :
  (AuthRoutes.refresh auth_config (refresh_token bob_tokens) refreshed.1).2 =
  Err AuthRoutes.invalid_refresh.
Proof.
  apply (refresh_token_single_use auth_config (refresh_token bob_tokens) logged_in.1 refreshed.1
    refreshed.2); [apply surjective_pairing|].
  assert (match refreshed.2 with
          | Ok t => String.eqb (AuthService.hash_refresh_token (refresh_token t))
                               (AuthService.hash_refresh_token (refresh_token bob_tokens))
          | _ => false end = false) as Hne by (vm_compute; reflexivity).
  intros t Ht. rewrite Ht in Hne. by apply String.eqb_neq.
Defined.

Definition promotion : UpdateUserRequest := mkUpdateUserRequest (Some "admin") (Some "longer-secret").

Lemma update_user_spec_witness :
  match AuthRoutes.update_user (mkAdminUser 100) 101 promotion logged_in.1 with
  | (w', Ok u) =>
      users (db w') !! 101%N = Some u ∧
      (∀ id r, refresh_tokens (db w') !! id = Some r → rt_user_id r ≠ 101%N) ∧
      (∀ role, uur_role promotion = Some role → u_role u = role ∧ (101%N = 100%N → role = "admin")) ∧
      (∀ pw, uur_password promotion = Some pw → argon2_verify pw (u_password_hash u) = true)
  | (w', _) => db w' = db logged_in.1
  end.
Proof.
  apply (update_user_spec (mkAdminUser 100) 101 promotion logged_in.1).
  intros id x. change (users (db logged_in.1)) with (users (db deployment)).
  apply deployment_users_keyed.
Defined.
