(* ===== verification/SyncSpec.v ===== *)
(** * The synchronisation queue and its worker

    Back-off, the outcome of a copy, the grouping of a batch, and what two
    workers can do to each other. *)

From S2P Require Import Prelude Json Schema Env World Tables Laws Concrete Projects LocalDisk.
From S2P Require Import Registry Storages Scenario Files SyncTasks Search Resolver FileService.
From S2P Require Import SyncWorker Frames Integrity DiskSpec RoundTrip.

(** ** Back-off *)

Lemma retry_delay_bounds r : 0 ≤ r → seconds 1 ≤ retry_delay r ≤ minutes 5.
Proof.
  intros Hr. unfold retry_delay. assert (1 ≤ 2 ^ r) by (apply (Z.pow_le_mono_r 2 0 r); lia).
  unfold seconds, minutes, seconds, usec_per_sec. lia.
Qed.

Section queue.
Context {E : Env}.

Lemma requeue_run id msg w :
  SyncTask.requeue_for_retry id msg w =
  match sync_tasks (db w) !! id with
  | None => (w, Err (SyncTask.not_found id))
  | Some t =>
      let t' := set_tk_updated_at (now w) (set_tk_status "pending" (set_tk_error_msg (Some msg)
        (set_tk_retries (tk_retries t + 1)
          (set_tk_retry_after (Some (now w + retry_delay (tk_retries t))) t)))) in
      (set_db (set_sync_tasks (<[id := t']> (sync_tasks (db w))) (db w)) w, Ok t')
  end.
Proof.
  unfold SyncTask.requeue_for_retry, gets, or_throw, sql_set_id, sql_set_id_if, lift. m_run.
  change (tbl (db w)) with (sync_tasks (db w)). by destruct (sync_tasks (db w) !! id).
Qed.

(** C31: a failed task waits before its next attempt: one second after the first
    failure, twice as long after each further one, five minutes at most; until
    then no worker may claim it, from then on any may, and once it has used up
    its attempts none will. *)
Theorem requeue_backoff id msg max w w' t t0 :
  sync_tasks (db w) !! id = Some t0 → 0 ≤ tk_retries t0 →
  SyncTask.requeue_for_retry id msg w = (w', Ok t) →
  sync_tasks (db w') !! id = Some t ∧ tk_retries t = tk_retries t0 + 1 ∧
  (∀ later, is_claimable later max t = true ↔
     tk_retries t0 + 1 < max ∧ now w + Z.min (seconds (2 ^ tk_retries t0)) (minutes 5) ≤ later) ∧
  seconds 1 ≤ retry_delay (tk_retries t0) ≤ minutes 5.
Proof.
  intros Ht0 Hr. rewrite requeue_run, Ht0. intros [= <- <-].
  split_and!; [simpl; by rewrite lookup_insert_eq | done | |by apply retry_delay_bounds..].
  intros later. unfold is_claimable, has_status. cbn -[Z.add Z.min Z.pow retry_delay].
  rewrite andb_true_iff, Z.ltb_lt, Z.leb_le. unfold retry_delay. tauto.
Qed.

(** ** Grouping *)

Lemma group_tasks_perm (tasks : list SyncTask) : mjoin (group_tasks tasks) ≡ₚ tasks.
Proof.
  unfold group_tasks. apply filter_keys_perm.
  - rewrite order_by_perm. apply NoDup_remove_dups.
  - intros t Ht. rewrite elem_of_order_by, elem_of_remove_dups. by apply list_elem_of_fmap_2.
Qed.

(** Grouping a batch loses and duplicates nothing: every claimed task is in
    exactly one group, and the tasks of a group copy the same file from the
    same storage for the same project, so one download serves them all. *)
Theorem group_tasks_partition (tasks : list SyncTask) :
  mjoin (group_tasks tasks) ≡ₚ tasks ∧
  ∀ g, g ∈ group_tasks tasks → g ≠ [] ∧
    ∀ t u, t ∈ g → u ∈ g → group_key t = group_key u.
Proof.
  split; [apply group_tasks_perm|]. unfold group_tasks.
  - intros g (k & -> & Hk)%list_elem_of_fmap.
    rewrite elem_of_order_by, elem_of_remove_dups in Hk.
    apply list_elem_of_fmap in Hk as (t & -> & Ht). split.
    + intros Hnil. apply (not_elem_of_nil t). rewrite <- Hnil. by apply list_elem_of_filter.
    + intros x y [-> _]%list_elem_of_filter [-> _]%list_elem_of_filter. done.
Qed.

(** ** The outcome of a copy *)

Context {HRb : RemoteReadback} (hmac : string).

Definition has_synced_copy (d : Db) (file storage : Uuid) : Prop :=
  ∃ i l, file_locations d !! i = Some l ∧ fl_file_id l = file ∧ fl_storage_id l = storage ∧
         fl_status l = "synced".

(** Everything but the database. *)
Definition outside (w : World) : gmap string bytes * RemoteState := (fs w, remote w).

Lemma record_location_outside task p :
  Guar (same (λ w, (outside w, sync_tasks (db w), now w))) (SyncWorker.record_location task p).
Proof.
  unfold SyncWorker.record_location, FileLocation.create,
    FileLocation.update_status_by_file_and_storage. guar.
Qed.

Lemma mark_synced_ok file storage w w' l :
  FileLocation.update_status_by_file_and_storage file storage "synced" w = (w', Ok l) →
  has_synced_copy (db w') file storage.
Proof.
  unfold FileLocation.update_status_by_file_and_storage. intros (ls & w1 & Hu & Hr)%bind_ok.
  apply lift_ok in Hr as [-> Hr]. unfold sql_update in Hu. m_inv. simpl in *.
  destruct (list.head _) as [l'|] eqn:Hh in Hr; [|done].
  match type of Hh with list.head ?ls = _ => assert (l' ∈ ls) as Hin end.
  { destruct (map _ _); simplify_eq/=. by left. }
  apply list_elem_of_fmap in Hin as (l0 & -> & [HP [i Hi]%elem_of_rows]%list_elem_of_filter).
  exists i. eexists. simpl. rewrite lookup_fmap, Hi. simpl. rewrite HP. split; [done|].
  apply andb_prop in HP as [Hf%N.eqb_eq Hs%N.eqb_eq]. done.
Qed.

Lemma record_location_ok task p w w' :
  SyncWorker.record_location task p w = (w', Ok tt) →
  has_synced_copy (db w') (tk_file_id task) (tk_target_storage_id task).
Proof.
  unfold SyncWorker.record_location.
  intros [(l & w1 & Hc & Hr)|(e & w1 & Hc & Hr)]%try_with_ok.
  - apply ret_ok in Hr as [-> _]. apply sql_insert_ok in Hc as (-> & _ & _ & ->).
    eexists _, _. simpl. rewrite lookup_insert_eq. done.
  - destruct e; try done. destruct (is_unique_violation e); [|done].
    apply bind_ok in Hr as (l & w2 & Hu & Hr). apply ret_ok in Hr as [-> _].
    by eapply mark_synced_ok.
Qed.

Lemma resolve_backend_quiet sid pid :
  Guar (same (λ w, (fs w, sync_tasks (db w), now w))) (SyncWorker.resolve_backend hmac sid pid).
Proof.
  unfold SyncWorker.resolve_backend, Storage.find_by_id.
  repeat first [apply guar_resolve_project_backend; [apply _ | done] | apply guar_registry_get; apply _
    | guar_step].
Qed.

Lemma be_upload_from_file_quiet b p src :
  Guar (same (λ w, (db w, now w))) (be_upload_from_file b p src).
Proof. by apply guar_be_upload_from_file; [apply _|..]. Qed.

(** The three steps of a copy, up to its record. *)
Definition copy_step (p tmp : string) (task : SyncTask) : M unit :=
  b ← SyncWorker.resolve_backend hmac (tk_target_storage_id task) (tk_project_id task);
  be_upload_from_file b p tmp;;
  SyncWorker.record_location task p.

Lemma copy_step_quiet p tmp task :
  Guar (same (λ w, (sync_tasks (db w), now w))) (copy_step p tmp task).
Proof.
  unfold copy_step. apply guar_bind; [apply _ | |].
  - intros w. pose proof (resolve_backend_quiet (tk_target_storage_id task) (tk_project_id task) w)
      as H. injection H as _ H1 H2. unfold same. congruence.
  - intros b. apply guar_bind; [apply _ | |].
    + intros w. pose proof (be_upload_from_file_quiet b p tmp w) as H. injection H as H1 H2.
      unfold same. congruence.
    + intros _ w. pose proof (record_location_outside task p w) as H. injection H as _ _ H1 H2.
      unfold same. congruence.
Qed.

Lemma copy_step_ok p tmp task data w w' :
  fs w !! tmp = Some data → copy_step p tmp task w = (w', Ok tt) →
  has_synced_copy (db w') (tk_file_id task) (tk_target_storage_id task) ∧
  ∃ b w1, SyncWorker.resolve_backend hmac (tk_target_storage_id task) (tk_project_id task) w =
            (w1, Ok b) ∧ readable b p data w'.
Proof.
  intros Htmp. unfold copy_step. intros (b & w1 & Hb & H)%bind_ok.
  apply bind_ok in H as ([] & w2 & Hu & Hr). split; [by eapply record_location_ok|].
  exists b, w1. split; [done|].
  pose proof (guar_outcome _ _ _ _ _ (resolve_backend_quiet _ _) Hb) as Hq. injection Hq as Hfs _ _.
  destruct (stores_upload_from_file data tmp w Htmp b p w1 w2 Hfs Hu) as [Hread _].
  pose proof (guar_outcome _ _ _ _ _ (record_location_outside _ _) Hr) as Ho.
  injection Ho as Hfs' Hrem' _ _. eapply readable_stable; [done..|]. by left.
Qed.

(** ** The outcome of a task *)

Definition same_but_tasks (w w' : World) : Prop :=
  fs w' = fs w ∧ remote w' = remote w ∧ file_locations (db w') = file_locations (db w).

Definition copied (task t : SyncTask) (p : string) (data : bytes) (w0 w' : World) : Prop :=
  tk_status t = "completed" ∧ tk_error_msg t = None ∧
  has_synced_copy (db w') (tk_file_id task) (tk_target_storage_id task) ∧
  ∃ b w1, SyncWorker.resolve_backend hmac (tk_target_storage_id task) (tk_project_id task) w0 =
            (w1, Ok b) ∧ readable b p data w'.

Definition requeued (row t : SyncTask) (w0 : World) : Prop :=
  tk_status t = "pending" ∧ tk_retries t = tk_retries row + 1 ∧ is_Some (tk_error_msg t) ∧
  tk_retry_after t = Some (now w0 + retry_delay (tk_retries row)).

Lemma complete_task_run task row w :
  sync_tasks (db w) !! tk_id task = Some row →
  ∃ w' t,
    (ignore (SyncTask.update_status (tk_id task) "completed" None);;
     ignore (SyncTask.supersede_failed_for (tk_file_id task) (tk_target_storage_id task)
               (tk_id task))) w = (w', Ok tt) ∧
    sync_tasks (db w') !! tk_id task = Some t ∧ tk_status t = "completed" ∧
    tk_error_msg t = None ∧ same_but_tasks w w'.
Proof.
  intros Hrow. eexists _, _. split.
  - unfold ignore, try_with, SyncTask.update_status, SyncTask.supersede_failed_for, or_throw,
      sql_set_id, sql_set_id_if, sql_update, lift. m_run.
    change (tbl (db w)) with (sync_tasks (db w)). rewrite Hrow. m_run. done.
  - simpl. rewrite lookup_fmap, lookup_insert_eq. done.
Qed.

Lemma finalize_task_eq p tmp task :
  SyncWorker.finalize_task hmac p tmp task =
  (try_with (copy_step p tmp task)
     (λ _, ignore (SyncTask.update_status (tk_id task) "completed" None);;
           ignore (SyncTask.supersede_failed_for (tk_file_id task) (tk_target_storage_id task)
                     (tk_id task)))
     (λ e, ignore (SyncTask.requeue_for_retry (tk_id task) (display_error e)));;
   ignore (SyncTask.release_lock (tk_id task))).
Proof. reflexivity. Qed.

(** C29: a copy has two outcomes, never a third. Either the task is completed,
    and then the target is recorded as holding the file and gives its bytes
    back; or the task is back in the queue with one more attempt counted, the
    reason, and the time of the next attempt. It is never left in progress. *)
Theorem finalize_task_outcome p tmp data task row w w' u :
  sync_tasks (db w) !! tk_id task = Some row → fs w !! tmp = Some data →
  SyncWorker.finalize_task hmac p tmp task w = (w', Ok u) →
  ∃ t, sync_tasks (db w') !! tk_id task = Some t ∧
       (copied task t p data w w' ∨ requeued row t w).
Proof.
  intros Hrow Htmp. rewrite finalize_task_eq.
  intros ([] & w2 & H & Hrel)%bind_ok. injection Hrel as <- _.
  apply try_with_ok in H as [([] & w1 & Hc & H)|(e & w1 & Hc & H)];
    pose proof (guar_outcome _ _ _ _ _ (copy_step_quiet p tmp task) Hc) as Hq;
    injection Hq as Hq Hnow.
  - destruct (complete_task_run task row w1) as (w3 & t & Hrun & Ht & Hs & He & Hfs & Hrem & Hl);
      [by rewrite Hq|].
    rewrite Hrun in H. injection H as <-. exists t. split; [done|]. left.
    apply (copy_step_ok _ _ _ _ _ _ Htmp) in Hc as [Hcopy (b & w4 & Hb & Hread)].
    split_and!; [done..| |].
    + unfold has_synced_copy in *. by rewrite Hl.
    + exists b, w4. split; [done|]. eapply readable_stable; [done..|]. by left.
  - unfold ignore, try_with in H. rewrite requeue_run, Hq, Hrow in H. injection H as <-.
    eexists. simpl. rewrite lookup_insert_eq. split; [done|]. right. unfold requeued. simpl. by rewrite Hnow.
Qed.
End queue.

(** ** Instances *)

Definition sync_row : SyncTask :=
  mkSyncTask 1004 1001 20 21 "pending" 2 None None (Some 10%N) 0 0.
Definition queued : World := set_db (set_sync_tasks {[ 1004%N := sync_row ]} deployment_db) deployment.

Lemma requeue_backoff_witness :
  let r := SyncTask.requeue_for_retry 1004 "timeout" queued in
  ∃ t, sync_tasks (db r.1) !! 1004%N = Some t ∧ tk_retries t = 3 ∧
  is_claimable (seconds 1000003) 10 t = false ∧ is_claimable (seconds 1000004) 10 t = true.
Proof.
  eexists. split; [vm_compute; reflexivity|].
  destruct (requeue_backoff 1004 "timeout" 10 queued
    (SyncTask.requeue_for_retry 1004 "timeout" queued).1
    (set_tk_updated_at (seconds 1000000) (set_tk_status "pending" (set_tk_error_msg (Some "timeout")
        (set_tk_retries 3 (set_tk_retry_after (Some (seconds 1000004)) sync_row))))) sync_row)
    as (_ & H1 & H2 & _).
  - reflexivity.
  - done.
  - apply run_ok. vm_compute. reflexivity.
  - split; [exact H1|]. split; [|by apply H2].
    apply not_true_iff_false. intros [_ H]%H2. vm_compute in H. by apply H.
Defined.

Definition fetched : World := set_fs (<["/tmp/t.part" := hello]> (fs uploaded.1)) uploaded.1.
Definition copy_task : SyncTask :=
  mkSyncTask 1004 1001 20 21 "pending" 0 None None (Some 10%N) (seconds 1000000) (seconds 1000000).
Definition finalized_copy : World * Result unit :=
  SyncWorker.finalize_task "k" "2c/f2/hello" "/tmp/t.part" copy_task fetched.

Lemma finalize_task_outcome_witness :
  ∃ t, sync_tasks (db finalized_copy.1) !! 1004%N = Some t ∧
       (copied "k" copy_task t "2c/f2/hello" hello fetched finalized_copy.1 ∨
        requeued copy_task t fetched).
Proof.
  apply (finalize_task_outcome "k" "2c/f2/hello" "/tmp/t.part" hello copy_task copy_task fetched
    finalized_copy.1 tt).
  - vm_compute. reflexivity.
  - vm_compute. reflexivity.
  - apply run_ok. vm_compute. reflexivity.
Defined.

(** The copy of the instance is made. *)
Example finalized_copy_completed :
  option_map tk_status (sync_tasks (db finalized_copy.1) !! 1004%N) = Some "completed".
Proof. vm_compute. reflexivity. Qed.

(** ** Fan-out to local targets *)

(** A third local storage for the project. *)
Definition attic : Storage :=
  mkStorage 22 "attic" "local" (local_config "/data/attic") false None true true 3 3.
Definition three_storages : World :=
  set_backends (<[22%N := LocalDiskBackend "/data/attic" "k"]> (backends deployment)) (set_db (set_storages (<[22%N := attic]> (storages deployment_db))
    (set_project_storages (<[33%N := assignment 33 10 22]> (project_storages deployment_db))
       deployment_db)) deployment).
Definition uploaded_once : World :=
  (FileService.upload_file "k" 10 "a.txt" "text/plain" hello no_metadata three_storages).1.

(** The copy to a local target moves the shared temporary file into place, so
    the other targets of the group find it gone and are put off. *)
Example local_fan_out :
  map (λ t, (tk_target_storage_id t, tk_status t, tk_retries t))
    (order_by (asc (λ t, Z.of_N (tk_target_storage_id t))) (rows_of (sync_tasks
      (db (SyncWorker.poll_and_process "k" "/tmp" 10 uploaded_once).1)))) =
  [(21%N, "pending", 1); (22%N, "completed", 0)].
Proof. vm_compute. reflexivity. Qed.
