(* ===== verification/ClaimSpec.v ===== *)
(** * Claiming tasks

    What one poll of the queue claims, what it cleans up on the way, and how
    far the lock a claim takes protects it. *)

From S2P Require Import Prelude Json Schema Env World Tables Laws Concrete LocalDisk Registry.
From S2P Require Import Storages Scenario Files SyncTasks FileService Frames Integrity RoundTrip.

(** ** Sorted lists *)

Lemma StronglySorted_filter {A} (R : relation A) (P : A → Prop) `{∀ x, Decision (P x)} l :
  StronglySorted R l → StronglySorted R (filter P l).
Proof.
  induction 1 as [|x l Hl IH Hx]; [constructor|]. rewrite filter_cons.
  destruct (decide (P x)); [|done]. constructor; [done|].
  rewrite Forall_forall in Hx |- *. intros y [_ Hy]%list_elem_of_In%list_elem_of_filter.
  by apply Hx, list_elem_of_In.
Qed.

Lemma StronglySorted_take {A} (R : relation A) n l :
  StronglySorted R l → StronglySorted R (take n l).
Proof.
  intros Hl. revert n. induction Hl as [|x l Hl IH Hx]; intros [|n]; simpl; constructor; [done|].
  rewrite Forall_forall in Hx |- *. intros y Hy. apply Hx.
  apply list_elem_of_In in Hy. apply list_elem_of_In. by eapply elem_of_take in Hy as (i & ? & _);
    eapply list_elem_of_lookup_2.
Qed.

Lemma StronglySorted_map {A B} (f : A → B) (R : relation A) (S : relation B) l :
  (∀ x y, R x y → S (f x) (f y)) → StronglySorted R l → StronglySorted S (map f l).
Proof.
  intros HRS. induction 1 as [|x l Hl IH Hx]; simpl; constructor; [done|].
  rewrite Forall_forall in Hx |- *. intros y (z & <- & Hz)%in_map_iff. by apply HRS, Hx.
Qed.

Lemma NoDup_map_filter {A B} (f : A → B) (P : A → Prop) `{∀ x, Decision (P x)} l :
  NoDup (map f l) → NoDup (map f (filter P l)).
Proof.
  induction l as [|x l IH]; [done|]. intros [Hx Hl]%list.NoDup_cons. rewrite filter_cons.
  destruct (decide (P x)); [|by apply IH]. simpl. apply list.NoDup_cons. split; [|by apply IH].
  intros (y & Heq & [_ Hy]%list_elem_of_filter)%list_elem_of_fmap. apply Hx. rewrite Heq.
  by apply list_elem_of_fmap_2.
Qed.

Section claim.
Context {E : Env}.

Definition older (t u : SyncTask) : Prop := tk_created_at t ≤ tk_created_at u.

(** The table after the two clean-up statements of a poll. *)
Definition sweep (max t : Z) (tasks : gmap Uuid SyncTask) : gmap Uuid SyncTask :=
  (λ r, if is_exhausted max r then set_tk_updated_at t (give_up_task r) else r) <$>
  ((λ r, if is_stuck t r then set_tk_updated_at t (reclaim r) else r) <$> tasks).

Definition candidates (lim max t : Z) (tasks : gmap Uuid SyncTask) : list SyncTask :=
  limit lim (order_by (asc tk_created_at)
    (filter (λ r, is_claimable t max r = true) (rows_of (sweep max t tasks)))).

Lemma fetch_candidates_run lim max w :
  SyncTask.fetch_candidates lim max w =
  (set_db (set_sync_tasks (sweep max (now w) (sync_tasks (db w))) (db w)) w,
   Ok (candidates lim max (now w) (sync_tasks (db w)))).
Proof. reflexivity. Qed.

Lemma sweep_swept max t tasks id r :
  sweep max t tasks !! id = Some r → is_stuck t r = false ∧ is_exhausted max r = false.
Proof.
  unfold sweep. rewrite !lookup_fmap. destruct (tasks !! id) as [r0|]; [|done]. simpl.
  intros [= <-]. set (r1 := if is_stuck t r0 then _ else _).
  assert (is_stuck t r1 = false) as H1.
  { unfold r1. destruct (is_stuck t r0) eqn:Hs; [|done]. unfold is_stuck, has_status. done. }
  destruct (is_exhausted max r1) eqn:He; [|done]. done.
Qed.

Lemma sweep_keys max t tasks :
  (∀ id r, tasks !! id = Some r → tk_id r = id) →
  ∀ id r, sweep max t tasks !! id = Some r → tk_id r = id.
Proof.
  intros Hk id r. unfold sweep. rewrite !lookup_fmap.
  destruct (tasks !! id) as [r0|] eqn:Hr; [|done]. simpl. intros [= <-].
  destruct (is_stuck t r0); destruct (is_exhausted _ _); simpl; by apply Hk.
Qed.

Lemma candidates_sound lim max t tasks r :
  (∀ id r, tasks !! id = Some r → tk_id r = id) →
  r ∈ candidates lim max t tasks →
  is_claimable t max r = true ∧ sweep max t tasks !! tk_id r = Some r.
Proof.
  intros Hk Hr%elem_of_limit. rewrite elem_of_order_by, list_elem_of_filter in Hr.
  destruct Hr as [Hc [id Hid]%elem_of_rows]. split; [done|]. by rewrite (sweep_keys _ _ _ Hk _ _ Hid).
Qed.

Lemma candidates_sorted lim max t tasks : StronglySorted older (candidates lim max t tasks).
Proof.
  apply StronglySorted_take, Sorted_StronglySorted; [|apply order_by_asc].
  intros x y z. unfold older. lia.
Qed.

Lemma candidates_distinct lim max t tasks :
  (∀ id r, tasks !! id = Some r → tk_id r = id) →
  NoDup (map tk_id (candidates lim max t tasks)).
Proof.
  intros Hk. unfold candidates, limit. change (map tk_id) with (fmap (M := list) tk_id).
  rewrite fmap_take. eapply sublist_NoDup; [|apply sublist_take]. rewrite order_by_perm.
  apply NoDup_keys. by apply sweep_keys.
Qed.

(** ** The locks *)

Definition unlocked (w : World) (t : SyncTask) : bool :=
  bool_decide (lock_key (tk_id t) ∉ other_locks w).

Definition claimed_row (t : Timestamp) (r : SyncTask) : SyncTask :=
  set_tk_updated_at t (set_tk_status "in_progress" r).

Definition claim_one (claimed : list SyncTask) (task : SyncTask) : M (list SyncTask) :=
  o ← transaction (SyncTask.try_claim task);
  match o with
  | Some t => mret (claimed ++ [t])
  | None => mret claimed
  end.

Lemma try_claim_run task row w :
  sync_tasks (db w) !! tk_id task = Some row →
  transaction (SyncTask.try_claim task) w =
  if unlocked w task
  then (set_db (set_sync_tasks (<[tk_id task := claimed_row (now w) row]> (sync_tasks (db w)))
          (db w)) w, Ok (Some (set_tk_status "in_progress" task)))
  else (w, Ok None).
Proof.
  intros Hrow. unfold transaction, SyncTask.try_claim. m_run. unfold unlocked.
  destruct (bool_decide _); [|done]. unfold sql_set_id, sql_set_id_if. m_run.
  change (tbl (db w)) with (sync_tasks (db w)). by rewrite Hrow.
Qed.

Lemma claim_loop tasks : ∀ acc w,
  NoDup (map tk_id tasks) → (∀ t, t ∈ tasks → sync_tasks (db w) !! tk_id t = Some t) →
  let mine := filter (λ t, unlocked w t = true) tasks in
  ∃ w', foldM claim_one acc tasks w = (w', Ok (acc ++ map (set_tk_status "in_progress") mine)) ∧
    (∀ t, t ∈ mine → sync_tasks (db w') !! tk_id t = Some (claimed_row (now w) t)) ∧
    (∀ id, id ∉ map tk_id mine → sync_tasks (db w') !! id = sync_tasks (db w) !! id).
Proof.
  induction tasks as [|t tasks IH]; intros acc w Hnd Hrows mine.
  { exists w. simpl. rewrite app_nil_r. split_and!; [done | by intros ? ?%not_elem_of_nil | done]. }
  apply list.NoDup_cons in Hnd as [Ht Hnd].
  assert (sync_tasks (db w) !! tk_id t = Some t) as Hrow by (apply Hrows; by left).
  change (foldM claim_one acc (t :: tasks)) with
    (claim_one acc t ≫= λ acc', foldM claim_one acc' tasks).
  rewrite bind_unfold. unfold claim_one at 1. rewrite bind_unfold, (try_claim_run _ _ _ Hrow).
  subst mine. rewrite filter_cons. destruct (unlocked w t) eqn:Hl; simpl.
  - set (w1 := set_db _ _).
    destruct (IH (acc ++ [set_tk_status "in_progress" t]) w1 Hnd) as (w' & Hrun & Hmine & Hrest).
    { intros u Hu. simpl. rewrite lookup_insert_ne; [apply Hrows; by right|].
      intros Heq. apply Ht. rewrite Heq. by apply list_elem_of_fmap_2. }
    change (λ u, unlocked w1 u = true) with (λ u, unlocked w u = true) in *.
    exists w'. rewrite <- app_assoc in Hrun. split_and!; [done| |].
    + intros u [->|Hu]%elem_of_cons; [|by apply Hmine].
      rewrite Hrest; [simpl; by rewrite lookup_insert_eq|].
      intros (u & Heq & [_ Hu]%list_elem_of_filter)%list_elem_of_fmap.
      apply Ht. rewrite Heq. by apply list_elem_of_fmap_2.
    + intros id [Hne Hid]%not_elem_of_cons. rewrite Hrest by done. simpl.
      by rewrite lookup_insert_ne.
  - apply (IH acc w Hnd). intros u Hu. apply Hrows. by right.
Qed.

Lemma claimed_row_clean max t r :
  is_stuck t (claimed_row t r) = false ∧ is_exhausted max (claimed_row t r) = false.
Proof.
  unfold is_stuck, is_exhausted, has_status. simpl. split; [|done].
  unfold minutes, seconds, usec_per_sec. apply Z.ltb_ge. lia.
Qed.

(** C30: one poll always succeeds. It hands out at most as many tasks as asked,
    oldest first, each once; each was waiting, had attempts left and was due,
    no other session held its lock, and its row now says in progress. On the
    way every abandoned task went back to the queue and every exhausted one
    was given up: none of either kind is left. *)
Theorem claim_pending_spec lim max w :
  FilesOk (db w) →
  ∃ w' l, SyncTask.claim_pending lim max w = (w', Ok l) ∧
    (length l ≤ Z.to_nat lim)%nat ∧ NoDup (map tk_id l) ∧ StronglySorted older l ∧
    (∀ t, t ∈ l → lock_key (tk_id t) ∉ other_locks w ∧ tk_retries t < max ∧
       (∀ due, tk_retry_after t = Some due → due ≤ now w) ∧
       ∃ row, sync_tasks (db w') !! tk_id t = Some row ∧ tk_status row = "in_progress" ∧
              tk_updated_at row = now w ∧ tk_retries row = tk_retries t) ∧
    (∀ id row, sync_tasks (db w') !! id = Some row →
       is_stuck (now w) row = false ∧ is_exhausted max row = false).
Proof.
  intros Hok. pose proof (ok_task_key _ Hok) as Hk. unfold SyncTask.claim_pending.
  rewrite bind_unfold, fetch_candidates_run. set (w1 := set_db _ w).
  set (l := candidates lim max (now w) (sync_tasks (db w))).
  assert (∀ t, t ∈ l → is_claimable (now w) max t = true ∧
    sync_tasks (db w1) !! tk_id t = Some t) as Hl by (intros; by apply (candidates_sound lim)).
  destruct (claim_loop l [] w1) as (w' & Hrun & Hmine & Hrest).
  { by apply candidates_distinct. }
  { intros t Ht. by apply Hl. }
  set (mine := filter _ l) in *. exists w', (map (set_tk_status "in_progress") mine).
  split_and!; [exact Hrun|..].
  - rewrite length_map. etrans; [apply length_filter|]. unfold l, candidates, limit.
    rewrite length_take. lia.
  - rewrite map_map. simpl. by apply NoDup_map_filter, candidates_distinct.
  - apply (StronglySorted_map _ older); [done|]. apply StronglySorted_filter, candidates_sorted.
  - intros t' (t & -> & Ht)%list_elem_of_fmap. pose proof (Hmine t Ht) as Hrow.
    apply list_elem_of_filter in Ht as [Hu%bool_decide_eq_true Ht].
    destruct (Hl t Ht) as [Hc _]. unfold is_claimable in Hc. simpl.
    rewrite !andb_true_iff in Hc. destruct Hc as [[_ Hr%Z.ltb_lt] Hd].
    split_and!; [done | done | |by eauto]. intros due Hdue. rewrite Hdue in Hd. by apply Z.leb_le.
  - intros id row Hrow. destruct (decide (id ∈ map tk_id mine)) as [Hin|Hnin].
    + apply list_elem_of_fmap in Hin as (t & -> & Ht). rewrite (Hmine t Ht) in Hrow.
      injection Hrow as <-. apply claimed_row_clean.
    + rewrite Hrest in Hrow by done. by apply (sweep_swept _ _ _ _ _ Hrow).
Qed.

(** The lock is gone once the claim commits, and the statement that marks the
    row does not look at its status: a worker that listed the task before
    claims it again. *)
Lemma claim_not_exclusive task row w :
  sync_tasks (db w) !! tk_id task = Some row → lock_key (tk_id task) ∉ other_locks w →
  ∃ w1 w2, transaction (SyncTask.try_claim task) w =
             (w1, Ok (Some (set_tk_status "in_progress" task))) ∧
           transaction (SyncTask.try_claim task) w1 =
             (w2, Ok (Some (set_tk_status "in_progress" task))).
Proof.
  intros Hrow Hl. rewrite (try_claim_run _ _ _ Hrow). unfold unlocked.
  rewrite bool_decide_true by done. eexists _, _. split; [done|].
  erewrite try_claim_run by (simpl; by rewrite lookup_insert_eq).
  unfold unlocked. simpl. by rewrite bool_decide_true.
Qed.
End claim.

(** ** Instances *)

Lemma claim_pending_spec_witness :
  FilesOk (db uploaded.1) ∧
  ∃ w' l, SyncTask.claim_pending 16 10 uploaded.1 = (w', Ok l) ∧ (length l ≤ 16)%nat.
Proof.
  assert (FilesOk (db uploaded.1)) as Hok.
  { exact (keeps_upload_file "k" 10 "a.txt" "text/plain" hello no_metadata deployment
             deployment_files_ok). }
  split; [exact Hok|]. destruct (claim_pending_spec 16 10 uploaded.1 Hok) as (w' & l & H & Hl & _).
  exists w', l. split; [exact H | exact Hl].
Defined.

Example claims_the_copy :
  match (SyncTask.claim_pending 16 10 uploaded.1).2 with
  | Ok l => map tk_id l | _ => []
  end = [1004%N].
Proof. vm_compute. reflexivity. Qed.
