(* ===== verification/QueueSpec.v ===== *)
(** * The queue as a state machine

    What a whole poll of the worker does to each task, against the life cycle
    of a task as an abstract machine; and how many attempts a task gets. *)

From S2P Require Import Prelude Json Schema Env World Tables Laws Concrete LocalDisk Registry.
From S2P Require Import Storages Scenario Files SyncTasks Search Resolver FileService SyncWorker.
From S2P Require Import Frames Integrity RoundTrip SyncSpec ClaimSpec.

(** ** The life cycle *)

Inductive Phase :=
  | Waiting (attempts : Z)
  | Running (attempts : Z)
  | Done
  | GaveUp
  | Unknown (status : string).

(** What the machine sees of a row. *)
Definition phase (t : SyncTask) : Phase :=
  if String.eqb (tk_status t) "pending" then Waiting (tk_retries t)
  else if String.eqb (tk_status t) "in_progress" then Running (tk_retries t)
  else if String.eqb (tk_status t) "completed" then Done
  else if String.eqb (tk_status t) "failed" then GaveUp
  else Unknown (tk_status t).

Inductive lifecycle (max : Z) : Phase → Phase → Prop :=
  | lc_claim n : n < max → lifecycle max (Waiting n) (Running n)
  | lc_done n : lifecycle max (Running n) Done
  (** A failed copy, or one abandoned for fifteen minutes. *)
  | lc_retry n : lifecycle max (Running n) (Waiting (n + 1))
  | lc_give_up n : max ≤ n → lifecycle max (Waiting n) GaveUp
  (** A later task made the copy. *)
  | lc_supersede : lifecycle max GaveUp Done.

(** ** What a round does to the rows *)

Definition settled (n : Z) (t : SyncTask) : Prop :=
  tk_status t = "completed" ∨ (tk_status t = "pending" ∧ tk_retries t = n + 1).

(** A task somebody else's round may have superseded. *)
Definition bystander (t t' : SyncTask) : Prop :=
  t' = t ∨ (tk_status t = "failed" ∧ tk_status t' = "completed" ∧ tk_retries t' = tk_retries t).

Lemma bystander_trans t1 t2 t3 : bystander t1 t2 → bystander t2 t3 → bystander t1 t3.
Proof. unfold bystander. intros [->|(H1 & H2 & H3)] [->|(H4 & H5 & H6)]; [by left | right | right |]; naive_solver congruence. Qed.

Section queue.
Context {E : Env} (hmac os_temp_dir : string) (max : Z).

(** The tasks [ids] were attempted, the others at most superseded. *)
Definition settles (ids : list Uuid) (w w' : World) : Prop :=
  ∀ id t, sync_tasks (db w) !! id = Some t → ∃ t', sync_tasks (db w') !! id = Some t' ∧
    if decide (id ∈ ids) then settled (tk_retries t) t' else bystander t t'.

Lemma settles_quiet w w' : sync_tasks (db w') = sync_tasks (db w) → settles [] w w'.
Proof.
  intros Hq id t Ht. exists t. rewrite Hq. split; [done|].
  rewrite decide_False by apply not_elem_of_nil. by left.
Qed.

Lemma settles_app ids1 ids2 w w1 w' :
  (∀ id, id ∈ ids1 → id ∉ ids2) →
  settles ids1 w w1 → settles ids2 w1 w' → settles (ids1 ++ ids2) w w'.
Proof.
  intros Hdis H1 H2 id t Ht. destruct (H1 id t Ht) as (t1 & Ht1 & Hs1).
  destruct (H2 id t1 Ht1) as (t2 & Ht2 & Hs2). exists t2. split; [done|].
  destruct (decide (id ∈ ids1)) as [Hin|Hnin].
  - rewrite decide_True by set_solver. rewrite decide_False in Hs2 by auto.
    destruct Hs2 as [->|(Hf & _)]; [done|]. destruct Hs1 as [Hs1|[Hs1 _]]; congruence.
  - destruct (decide (id ∈ ids2)).
    + rewrite decide_True by set_solver.
      assert (tk_retries t1 = tk_retries t) as <- by (destruct Hs1 as [->|(_ & _ & ?)]; done). done.
    + rewrite decide_False by set_solver. by eapply bystander_trans.
Qed.

Lemma requeue_settles id msg w w' u :
  ignore (SyncTask.requeue_for_retry id msg) w = (w', Ok u) → settles [id] w w'.
Proof.
  unfold ignore, try_with. rewrite requeue_run.
  destruct (sync_tasks (db w) !! id) as [t|] eqn:Ht; intros [= <-]; intros i s Hs.
  - destruct (decide (i = id)) as [->|Hne].
    + rewrite Ht in Hs. injection Hs as <-. eexists. simpl. rewrite lookup_insert_eq.
      split; [done|]. rewrite decide_True by by left. by right.
    + exists s. simpl. rewrite lookup_insert_ne by done. split; [done|].
      rewrite decide_False by (rewrite list_elem_of_singleton; done). by left.
  - exists s. split; [done|]. rewrite decide_False by (rewrite list_elem_of_singleton; congruence).
    by left.
Qed.

Lemma complete_settles task w w' u :
  (ignore (SyncTask.update_status (tk_id task) "completed" None);;
   ignore (SyncTask.supersede_failed_for (tk_file_id task) (tk_target_storage_id task)
             (tk_id task))) w = (w', Ok u) →
  settles [tk_id task] w w'.
Proof.
  unfold ignore, try_with, SyncTask.update_status, SyncTask.supersede_failed_for, or_throw,
    sql_set_id, sql_set_id_if, sql_update, lift. m_run.
  change (tbl (db w)) with (sync_tasks (db w)).
  destruct (sync_tasks (db w) !! tk_id task) as [t|] eqn:Ht; m_run; intros [= <-] i s Hs; simpl;
    rewrite lookup_fmap.
  - destruct (decide (i = tk_id task)) as [->|Hne].
    + rewrite Ht in Hs. injection Hs as <-. eexists. rewrite lookup_insert_eq. split; [done|].
      rewrite decide_True by by left. by left.
    + rewrite lookup_insert_ne, Hs by done. eexists. split; [done|].
      rewrite decide_False by (rewrite list_elem_of_singleton; done).
      destruct (_ && _) eqn:Hc; [|by left]. right. split_and!; [|done..].
      by repeat apply andb_prop in Hc as [Hc _]; apply String.eqb_eq.
  - rewrite Hs. eexists. split; [done|].
    rewrite decide_False by (rewrite list_elem_of_singleton; congruence).
    destruct (_ && _) eqn:Hc; [|by left]. right. split_and!; [|done..].
    by repeat apply andb_prop in Hc as [Hc _]; apply String.eqb_eq.
Qed.

Lemma finalize_settles p tmp task w w' u :
  SyncWorker.finalize_task hmac p tmp task w = (w', Ok u) → settles [tk_id task] w w'.
Proof.
  rewrite finalize_task_eq. intros ([] & w2 & H & Hrel)%bind_ok. injection Hrel as <- _.
  apply try_with_ok in H as [(u1 & w1 & Hc & H)|(e & w1 & Hc & H)];
    pose proof (guar_outcome _ _ _ _ _ (copy_step_quiet hmac p tmp task) Hc) as Hq;
    injection Hq as Hq _; apply (settles_app [] [tk_id task] w w1);
    try (by intros ? ?%not_elem_of_nil); try by apply settles_quiet.
  - by eapply complete_settles.
  - by eapply requeue_settles.
Qed.

Lemma for_each_settles {A} (f : A → M unit) (ids : A → list Uuid) (l : list A) :
  (∀ x w w' u, x ∈ l → f x w = (w', Ok u) → settles (ids x) w w') →
  NoDup (mjoin (map ids l)) →
  ∀ w w' u, for_each f l w = (w', Ok u) → settles (mjoin (map ids l)) w w'.
Proof.
  induction l as [|x l IH]; intros Hf Hnd w w' u.
  { intros [= <-]. by apply settles_quiet. }
  change (mjoin (map ids (x :: l))) with (ids x ++ mjoin (map ids l)) in *.
  apply list.NoDup_app in Hnd as (_ & Hdis & Hnd).
  intros (w1 & Hx & H)%for_each_ok. eapply settles_app; [exact Hdis | |].
  - eapply Hf, Hx. by left.
  - eapply IH; [|done..]. intros y ? ? ? Hy. apply Hf. by right.
Qed.

Lemma singletons {A} (key : A → Uuid) (l : list A) : mjoin (map (λ x, [key x]) l) = map key l.
Proof. induction l as [|x l IH]; [done|]. cbn. by rewrite <- IH. Qed.

Lemma for_each_task_settles (f : SyncTask → M unit) (l : list SyncTask) w w' u :
  (∀ x w w' u, f x w = (w', Ok u) → settles [tk_id x] w w') → NoDup (map tk_id l) →
  for_each f l w = (w', Ok u) → settles (map tk_id l) w w'.
Proof.
  rewrite <- (singletons tk_id). intros Hf Hnd. apply for_each_settles; [|done]. eauto.
Qed.

Lemma mjoin_map_map {A B} (f : A → B) (ll : list (list A)) :
  mjoin (map (map f) ll) = map f (mjoin ll).
Proof.
  induction ll as [|l ll IH]; [done|].
  change (map f l ++ mjoin (map (map f) ll) = map f (l ++ mjoin ll)). by rewrite IH, map_app.
Qed.

Lemma sublist_mjoin_map {A B} (f : A → B) l (ll : list (list A)) :
  l ∈ ll → map f l `sublist_of` map f (mjoin ll).
Proof.
  induction ll as [|l' ll IH]; [by intros ?%not_elem_of_nil|].
  change (mjoin (l' :: ll)) with (l' ++ mjoin ll). rewrite map_app.
  intros [->|Hl]%elem_of_cons; [by apply sublist_inserts_r | by apply sublist_inserts_l, IH].
Qed.

Lemma settles_after ids w w1 w' :
  sync_tasks (db w1) = sync_tasks (db w) → settles ids w1 w' → settles ids w w'.
Proof. intros Hq H id t. rewrite <- Hq. apply H. Qed.

Lemma settles_before ids w w1 w' :
  sync_tasks (db w') = sync_tasks (db w1) → settles ids w w1 → settles ids w w'.
Proof. intros Hq H id t Ht. rewrite Hq. by apply H. Qed.

Lemma fail_all_settles batch msg w w' u :
  NoDup (map tk_id batch) → SyncWorker.fail_all batch msg w = (w', Ok u) →
  settles (map tk_id batch) w w'.
Proof.
  intros Hnd. apply for_each_task_settles; [|done]. clear. intros t w w' u.
  unfold SyncWorker.requeue. intros ([] & w1 & H & Hrel)%bind_ok. injection Hrel as <- _.
  by eapply requeue_settles.
Qed.

Lemma download_source_quiet head tmp :
  Guar (same (λ w, sync_tasks (db w))) (SyncWorker.download_source hmac head tmp).
Proof.
  unfold SyncWorker.download_source, FileLocation.find_all_for_file.
  apply guar_bind; [apply _ | |].
  - intros w. pose proof (resolve_backend_quiet hmac (tk_source_storage_id head)
      (tk_project_id head) w) as H. by injection H.
  - intros b. repeat first [apply guar_be_download_to_file; [apply _ | done..] | guar_step].
Qed.

Lemma fs_remove_quiet p : Guar (same (λ w, sync_tasks (db w))) (ignore (fs_remove p)).
Proof. apply guar_ignore; [apply _|]. apply guar_fs_remove; [apply _ | done]. Qed.

Lemma process_batch_settles batch w w' u :
  NoDup (map tk_id batch) → SyncWorker.process_batch hmac os_temp_dir batch w = (w', Ok u) →
  settles (map tk_id batch) w w'.
Proof.
  intros Hnd. destruct batch as [|head batch]; [intros [= <-]; by apply settles_quiet|].
  unfold SyncWorker.process_batch. set (l := head :: batch) in *.
  set (tmp := SyncWorker.temp_path_for _ head).
  assert (Guar (same (λ w, sync_tasks (db w))) fs_guard) as Hg by (apply guar_fs_guard; apply _).
  intros [(u1 & w1 & H1 & H)|(e & w1 & H1 & H)]%try_with_ok;
    pose proof (guar_outcome _ _ _ _ _ Hg H1) as Hq1; apply (settles_after _ _ w1); try exact Hq1;
    [|by eapply fail_all_settles].
  apply try_with_ok in H as [(p & w2 & H2 & H)|(e & w2 & H2 & H)];
    pose proof (guar_outcome _ _ _ _ _ (download_source_quiet head tmp) H2) as Hq2;
    apply (settles_after _ _ w2); try exact Hq2; apply bind_ok in H as ([] & w3 & H3 & H).
  - pose proof (guar_outcome _ _ _ _ _ (fs_remove_quiet tmp) H) as Hq.
    apply (settles_before _ _ w3); [exact Hq|].
    eapply for_each_task_settles, H3; [|done]. intros. by eapply finalize_settles.
  - pose proof (guar_outcome _ _ _ _ _ (fs_remove_quiet tmp) H3) as Hq.
    apply (settles_after _ _ w3); [exact Hq|]. by eapply fail_all_settles.
Qed.

Lemma batches_settle (tasks : list SyncTask) w w' u :
  NoDup (map tk_id tasks) →
  for_each (SyncWorker.process_batch hmac os_temp_dir) (group_tasks tasks) w = (w', Ok u) →
  settles (map tk_id tasks) w w'.
Proof.
  intros Hnd H.
  assert (mjoin (map (map tk_id) (group_tasks tasks)) ≡ₚ map tk_id tasks) as Hperm.
  { rewrite mjoin_map_map. apply Permutation_map, group_tasks_perm. }
  assert (settles (mjoin (map (map tk_id) (group_tasks tasks))) w w') as Hs.
  { eapply for_each_settles, H; [|by rewrite Hperm]. intros g w0 w1 u0 Hg.
    apply process_batch_settles. eapply sublist_NoDup; [|by apply sublist_mjoin_map].
    rewrite <- mjoin_map_map. by rewrite Hperm. }
  intros id t Ht. destruct (Hs id t Ht) as (t' & Ht' & H'). exists t'. split; [done|].
  destruct (decide (id ∈ map tk_id tasks)) as [Hin|Hin]; rewrite <- Hperm in Hin;
    by case_decide.
Qed.

(** ** A poll *)

(** The tasks a poll would claim. *)
Definition claims (w : World) : list SyncTask :=
  filter (λ t, unlocked w t = true) (candidates 16 max (now w) (sync_tasks (db w))).

Lemma claim_run w :
  FilesOk (db w) →
  ∃ w1, SyncTask.claim_pending 16 max w =
          (w1, Ok (map (set_tk_status "in_progress") (claims w))) ∧
    (∀ t, t ∈ claims w → sync_tasks (db w1) !! tk_id t = Some (claimed_row (now w) t)) ∧
    (∀ id, id ∉ map tk_id (claims w) →
       sync_tasks (db w1) !! id = sweep max (now w) (sync_tasks (db w)) !! id).
Proof.
  intros Hok. pose proof (ok_task_key _ Hok) as Hk. unfold SyncTask.claim_pending.
  rewrite bind_unfold, fetch_candidates_run.
  destruct (claim_loop (candidates 16 max (now w) (sync_tasks (db w))) []
    (set_db (set_sync_tasks (sweep max (now w) (sync_tasks (db w))) (db w)) w))
    as (w1 & Hrun & Hmine & Hrest).
  - by apply candidates_distinct.
  - intros t Ht. by eapply candidates_sound.
  - exists w1. split; [exact Hrun|]. split; [exact Hmine | exact Hrest].
Qed.

Lemma claims_sound w t :
  FilesOk (db w) → t ∈ claims w →
  is_claimable (now w) max t = true ∧ sweep max (now w) (sync_tasks (db w)) !! tk_id t = Some t.
Proof.
  intros Hok [_ Ht]%list_elem_of_filter. by apply (candidates_sound 16 max _ _ _ (ok_task_key _ Hok)).
Qed.

Lemma poll_run w w' b :
  FilesOk (db w) → SyncWorker.poll_and_process hmac os_temp_dir max w = (w', Ok b) →
  ∃ w1, (∀ t, t ∈ claims w → sync_tasks (db w1) !! tk_id t = Some (claimed_row (now w) t)) ∧
    (∀ id, id ∉ map tk_id (claims w) →
       sync_tasks (db w1) !! id = sweep max (now w) (sync_tasks (db w)) !! id) ∧
    settles (map tk_id (claims w)) w1 w'.
Proof.
  intros Hok. destruct (claim_run w Hok) as (w1 & Hc & Hmine & Hrest).
  unfold SyncWorker.poll_and_process. intros H. exists w1. split; [done|]. split; [done|].
  assert (map tk_id (map (set_tk_status "in_progress") (claims w)) = map tk_id (claims w)) as Hids
    by by rewrite map_map.
  rewrite <- Hids. unfold try_with in H. rewrite Hc in H.
  destruct (map _ (claims w)) as [|t l] eqn:Hl; [injection H as <- _; by apply settles_quiet|].
  apply bind_ok in H as (u & w2 & H & Hr). apply ret_ok in Hr as [-> _].
  eapply batches_settle, H. rewrite Hids.
  apply NoDup_map_filter, candidates_distinct, (ok_task_key _ Hok).
Qed.

Ltac phases := unfold phase, is_stuck, is_exhausted, is_claimable, has_status in *; simpl in *.

Lemma sweep_lifecycle t tasks id r :
  tasks !! id = Some r → ∃ r', sweep max t tasks !! id = Some r' ∧
    rtc (lifecycle max) (phase r) (phase r').
Proof.
  intros Hr. unfold sweep. rewrite !lookup_fmap, Hr. simpl. eexists. split; [done|].
  set (r1 := if is_stuck t r then _ else _).
  assert (rtc (lifecycle max) (phase r) (phase r1)) as Hr1.
  { unfold r1. destruct (is_stuck t r) eqn:Hs; [|done]. apply rtc_once. phases.
    apply andb_prop in Hs as [->%String.eqb_eq _]. simpl. constructor. }
  etrans; [exact Hr1|]. destruct (is_exhausted max r1) eqn:He; [|done]. apply rtc_once. phases.
  apply andb_prop in He as [->%String.eqb_eq He%Z.leb_le]. simpl. by constructor.
Qed.

Lemma settled_lifecycle n r :
  settled n r → rtc (lifecycle max) (Running n) (phase r).
Proof.
  intros [Hs|[Hs Hn]]; unfold phase; rewrite Hs; simpl; apply rtc_once; rewrite ?Hn; constructor.
Qed.

Lemma bystander_lifecycle r r' : bystander r r' → rtc (lifecycle max) (phase r) (phase r').
Proof.
  intros [->|(Hs & Hs' & _)]; [done|]. unfold phase. rewrite Hs, Hs'. simpl. apply rtc_once. constructor.
Qed.

(** C36: a poll refines the life cycle of tasks: whatever a whole round of the
    worker does to the queue, each task went through a path of the abstract
    machine; in particular a completed task stays completed, attempts are only
    counted up, no task is given up before its attempts are used, and none
    disappears. *)
Theorem poll_refines_lifecycle w w' b id t :
  FilesOk (db w) → SyncWorker.poll_and_process hmac os_temp_dir max w = (w', Ok b) →
  sync_tasks (db w) !! id = Some t →
  ∃ t', sync_tasks (db w') !! id = Some t' ∧ rtc (lifecycle max) (phase t) (phase t').
Proof.
  intros Hok (w1 & Hmine & Hrest & Hs)%poll_run Ht; [|done].
  destruct (sweep_lifecycle (now w) _ _ _ Ht) as (r & Hr & Hpath).
  destruct (decide (id ∈ map tk_id (claims w))) as [Hin|Hnin].
  - pose proof Hin as (c & -> & Hc)%list_elem_of_fmap.
    destruct (claims_sound w c Hok Hc) as [Hcl Hsw]. rewrite Hr in Hsw. injection Hsw as ->.
    destruct (Hs _ _ (Hmine c Hc)) as (t' & Ht' & Hset). rewrite decide_True in Hset by done.
    exists t'. split; [done|]. etrans; [exact Hpath|].
    etrans; [|by eapply settled_lifecycle]. apply rtc_once. phases.
    rewrite !andb_true_iff in Hcl. destruct Hcl as [[->%String.eqb_eq Hn%Z.ltb_lt] _]. by constructor.
  - rewrite <- Hrest in Hr by done. destruct (Hs _ _ Hr) as (t' & Ht' & Hby).
    rewrite decide_False in Hby by done. exists t'. split; [done|].
    etrans; [exact Hpath|]. by apply bystander_lifecycle.
Qed.

(** ** Attempts *)

Lemma sweep_pending t tasks id r :
  tasks !! id = Some r → tk_status r = "pending" →
  sweep max t tasks !! id =
  Some (if max <=? tk_retries r then set_tk_updated_at t (give_up_task r) else r).
Proof.
  intros Hr Hs. unfold sweep. rewrite !lookup_fmap, Hr. simpl. do 2 f_equal.
  unfold is_stuck, is_exhausted, has_status. rewrite Hs. simpl. by rewrite Hs.
Qed.

Lemma poll_attempt id t w w' b :
  FilesOk (db w) → sync_tasks (db w) !! id = Some t → tk_status t = "pending" →
  id ∈ map tk_id (claims w) → SyncWorker.poll_and_process hmac os_temp_dir max w = (w', Ok b) →
  tk_retries t < max ∧ ∃ t', sync_tasks (db w') !! id = Some t' ∧ settled (tk_retries t) t'.
Proof.
  intros Hok Ht Hs Hin (w1 & Hmine & _ & Hset)%poll_run; [|done].
  pose proof Hin as (c & -> & Hc)%list_elem_of_fmap. destruct (claims_sound w c Hok Hc) as [Hcl Hsw].
  rewrite (sweep_pending _ _ _ _ Ht Hs) in Hsw. injection Hsw as Hsw.
  destruct (Hset _ _ (Hmine c Hc)) as (t' & Ht' & Hst). rewrite decide_True in Hst by done.
  destruct (Z.leb_spec max (tk_retries t)); subst c; [done|]. eauto.
Qed.

Lemma poll_gives_up id t w w' b :
  FilesOk (db w) → sync_tasks (db w) !! id = Some t → tk_status t = "pending" →
  max ≤ tk_retries t → SyncWorker.poll_and_process hmac os_temp_dir max w = (w', Ok b) →
  ∃ t', sync_tasks (db w') !! id = Some t' ∧ (tk_status t' = "failed" ∨ tk_status t' = "completed").
Proof.
  intros Hok Ht Hs Hr (w1 & Hmine & Hrest & Hset)%poll_run; [|done].
  pose proof (sweep_pending (now w) _ _ _ Ht Hs) as Hsw. rewrite (proj2 (Z.leb_le _ _)) in Hsw by done.
  assert (id ∉ map tk_id (claims w)) as Hnin.
  { intros (c & -> & Hc)%list_elem_of_fmap. destruct (claims_sound w c Hok Hc) as [Hcl Hsw'].
    rewrite Hsw in Hsw'. by injection Hsw' as <-. }
  rewrite <- Hrest in Hsw by done. destruct (Hset _ _ Hsw) as (t' & Ht' & Hby).
  rewrite decide_False in Hby by done. exists t'. split; [done|].
  destruct Hby as [->|(_ & Hd & _)]; [by left | by right].
Qed.

(** [n] polls that each claim the task, with anything that leaves its row alone
    in between. *)
Inductive attempted (id : Uuid) : nat → World → World → Prop :=
  | attempted_0 w : attempted id 0 w w
  | attempted_S n w w1 w2 w' b :
      sync_tasks (db w1) !! id = sync_tasks (db w) !! id → FilesOk (db w1) →
      id ∈ map tk_id (claims w1) →
      SyncWorker.poll_and_process hmac os_temp_dir max w1 = (w2, Ok b) →
      attempted id n w2 w' → attempted id (S n) w w'.

Lemma sweep_completed t tasks id r :
  tasks !! id = Some r → tk_status r = "completed" → sweep max t tasks !! id = Some r.
Proof.
  intros Hr Hs. unfold sweep. rewrite !lookup_fmap, Hr. simpl. f_equal.
  unfold is_stuck, is_exhausted, has_status. rewrite Hs. simpl. by rewrite Hs.
Qed.

Lemma completed_not_claimed id t w :
  FilesOk (db w) → sync_tasks (db w) !! id = Some t → tk_status t = "completed" →
  id ∉ map tk_id (claims w).
Proof.
  intros Hok Ht Hs (c & -> & Hc)%list_elem_of_fmap. destruct (claims_sound w c Hok Hc) as [Hcl Hsw].
  rewrite (sweep_completed _ _ _ _ Ht Hs) in Hsw. injection Hsw as <-.
  unfold is_claimable, has_status in Hcl. by rewrite Hs in Hcl.
Qed.

Lemma poll_completed id t w w' b :
  FilesOk (db w) → sync_tasks (db w) !! id = Some t → tk_status t = "completed" →
  SyncWorker.poll_and_process hmac os_temp_dir max w = (w', Ok b) →
  sync_tasks (db w') !! id = Some t.
Proof.
  intros Hok Ht Hs (w1 & _ & Hrest & Hset)%poll_run; [|done].
  pose proof (completed_not_claimed _ _ _ Hok Ht Hs) as Hnin.
  pose proof (sweep_completed (now w) _ _ _ Ht Hs) as Hsw. rewrite <- Hrest in Hsw by done.
  destruct (Hset _ _ Hsw) as (t' & Ht' & Hby). rewrite decide_False in Hby by done.
  destruct Hby as [->|(Hf & _)]; [done | congruence].
Qed.

Lemma attempted_outcome id n w w' :
  attempted id n w w' → ∀ t, sync_tasks (db w) !! id = Some t → tk_status t = "pending" →
  tk_retries t ≤ max →
  Z.of_nat n ≤ max - tk_retries t ∧
  ∃ t', sync_tasks (db w') !! id = Some t' ∧
    (tk_status t' = "completed" ∨
     tk_status t' = "pending" ∧ tk_retries t' = tk_retries t + Z.of_nat n).
Proof.
  induction 1 as [w|n w w1 w2 w' b Heq Hok Hin Hp Hatt IH]; intros t Ht Hs Hr.
  { split; [lia|]. exists t. split; [done|]. right. split; [done | lia]. }
  rewrite <- Heq in Ht.
  destruct (poll_attempt _ _ _ _ _ Hok Ht Hs Hin Hp) as (Hlt & t2 & Ht2 & [Hs2|[Hs2 Hr2]]).
  - inversion Hatt as [|n' ? w3 w4 ? ? Heq3 Hok3 Hin3]; subst.
    + split; [lia|]. eauto.
    + rewrite <- Heq3 in Ht2. by destruct (completed_not_claimed _ _ _ Hok3 Ht2 Hs2).
  - destruct (IH t2 Ht2 Hs2 ltac:(lia)) as (Hn & t' & Ht' & Ho). split; [lia|].
    exists t'. split; [done|]. destruct Ho as [Ho|[Ho Hn']]; [by left | right]. split; [done | lia].
Qed.

(** C37: a task is attempted at most as often as it may be, and then it is over:
    no task can be claimed more than [max_retries] times less the failures it
    starts with, and once it has been claimed that often, it is completed or
    the next poll gives it up. *)
Theorem attempts_end id t n w w1 w2 w3 b :
  sync_tasks (db w) !! id = Some t → tk_status t = "pending" → tk_retries t ≤ max →
  attempted id n w w1 →
  Z.of_nat n ≤ max - tk_retries t ∧
  (Z.of_nat n = max - tk_retries t → sync_tasks (db w2) !! id = sync_tasks (db w1) !! id →
   FilesOk (db w2) → SyncWorker.poll_and_process hmac os_temp_dir max w2 = (w3, Ok b) →
   ∃ t', sync_tasks (db w3) !! id = Some t' ∧
         (tk_status t' = "failed" ∨ tk_status t' = "completed")).
Proof.
  intros Ht Hs Hr Hatt. destruct (attempted_outcome _ _ _ _ Hatt t Ht Hs Hr) as (Hn & t1 & Ht1 & Ho).
  split; [done|]. intros Hmax Heq Hok Hp. rewrite <- Heq in Ht1. destruct Ho as [Ho|[Ho Hn1]].
  - exists t1. split; [by eapply poll_completed | by right].
  - eapply poll_gives_up; [done..|lia|done].
Qed.

(** The claimable tasks created no later than [t]. *)
Definition ahead (t : SyncTask) (w : World) : list SyncTask :=
  filter (λ u, is_claimable (now w) max u && (tk_created_at u <=? tk_created_at t) &&
               uuid_ne (tk_id u) (tk_id t) = true)
    (rows_of (sweep max (now w) (sync_tasks (db w)))).

Lemma NoDup_rows (tasks : gmap Uuid SyncTask) :
  (∀ id r, tasks !! id = Some r → tk_id r = id) → NoDup (rows_of tasks).
Proof.
  intros Hk. apply (NoDup_fmap_1 tk_id). pose proof (NoDup_keys tk_id (λ _, true) tasks Hk) as Hnd.
  assert (∀ l : list SyncTask, filter (λ _, true = true) l = l) as Hall.
  { induction l as [|x l IH]; [done|]. rewrite filter_cons, decide_True by done. by rewrite IH. }
  by rewrite Hall in Hnd.
Qed.

(** C38: no task waits for ever behind newer ones: a waiting task that is due and
    has attempts left is claimed by the next poll unless another session holds
    its lock or sixteen claimable tasks are at least as old. *)
Theorem due_task_is_claimed id t w :
  FilesOk (db w) → sync_tasks (db w) !! id = Some t → is_claimable (now w) max t = true →
  unlocked w t = true → (length (ahead t w) < 16)%nat →
  ∃ w' l, SyncTask.claim_pending 16 max w = (w', Ok l) ∧ id ∈ map tk_id l ∧
    ∃ t', sync_tasks (db w') !! id = Some t' ∧ tk_status t' = "in_progress".
Proof.
  intros Hok Ht Hc Hu Hlen. destruct (claim_run w Hok) as (w' & Hrun & Hmine & _).
  exists w', (map (set_tk_status "in_progress") (claims w)). split; [exact Hrun|].
  assert (t ∈ claims w) as Hin; [|].
  { apply list_elem_of_filter. split; [done|]. unfold candidates, limit.
    set (tasks := sweep max (now w) (sync_tasks (db w))).
    set (l := order_by _ _).
    assert (tasks !! id = Some t) as Hsw.
    { unfold is_claimable, has_status in Hc. rewrite !andb_true_iff in Hc.
      destruct Hc as [[Hp%String.eqb_eq Hr%Z.ltb_lt] _]. unfold tasks.
      rewrite (sweep_pending _ _ _ _ Ht Hp). by rewrite (proj2 (Z.leb_gt _ _)) by done. }
    pose proof (sweep_keys max (now w) _ (ok_task_key _ Hok) : ∀ i r, tasks !! i = Some r → tk_id r = i)
      as Hkeys.
    assert (t ∈ l) as Hl.
    { apply elem_of_order_by, list_elem_of_filter. split; [done|]. apply elem_of_rows. eauto. }
    assert (NoDup l) as Hnd.
    { unfold l. rewrite order_by_perm. apply list.NoDup_filter, NoDup_rows.
      apply sweep_keys, (ok_task_key _ Hok). }
    assert (StronglySorted older l) as Hsorted.
    { apply Sorted_StronglySorted; [intros x y z; unfold older; lia | apply order_by_asc]. }
    assert (∀ u, u ∈ l → is_claimable (now w) max u = true ∧ u ∈ rows_of tasks) as Hsub.
    { intros u. unfold l. by rewrite elem_of_order_by, list_elem_of_filter. }
    clearbody l. apply list_elem_of_split in Hl as (l1 & l2 & ->).
    apply elem_of_take. exists (length l1). split; [by apply list_lookup_middle|].
    change (Z.to_nat 16) with 16%nat. eapply Nat.le_lt_trans, Hlen.
    apply submseteq_length, NoDup_submseteq.
    - by apply list.NoDup_app in Hnd as [? _].
    - intros u Hu1. destruct (Hsub u) as [Hcu Hru]; [set_solver|].
      apply list_elem_of_filter. split; [|done].
      rewrite !andb_true_iff, Z.leb_le, uuid_ne_true. split_and!; [done| |].
      + apply (StronglySorted_app_rel _ _ _ _ _ Hsorted Hu1). by left.
      + intros Heq. apply list.NoDup_app in Hnd as (_ & Hno & _). apply (Hno u Hu1).
        apply elem_of_rows in Hru as [i Hi].
        rewrite <- (Hkeys _ _ Hi), Heq, (Hkeys _ _ Hsw), Hsw in Hi. injection Hi as <-. by left. }
  split.
  - rewrite map_map. apply list_elem_of_fmap. exists t. split; [|done]. simpl.
    by rewrite (ok_task_key _ Hok _ _ Ht).
  - exists (claimed_row (now w) t). rewrite <- (Hmine t Hin). split; [|done].
    by rewrite (ok_task_key _ Hok _ _ Ht).
Qed.
End queue.

(** ** Instances *)

Lemma uploaded_files_ok : FilesOk (db uploaded.1).
Proof.
  exact (keeps_upload_file "k" 10 "a.txt" "text/plain" hello no_metadata deployment
           deployment_files_ok).
Defined.

Definition polled : World * Result bool := SyncWorker.poll_and_process "k" "/tmp" 10 uploaded.1.

Lemma poll_refines_lifecycle_witness :
  ∃ t', sync_tasks (db polled.1) !! 1004%N = Some t' ∧
        rtc (lifecycle 10) (Waiting 0) (phase t').
Proof.
  apply (poll_refines_lifecycle "k" "/tmp" 10 uploaded.1 polled.1 true 1004 copy_task).
  - exact uploaded_files_ok.
  - apply run_ok. vm_compute. reflexivity.
  - vm_compute. reflexivity.
Defined.

Lemma due_task_is_claimed_witness :
  ∃ w' l, SyncTask.claim_pending 16 10 uploaded.1 = (w', Ok l) ∧ 1004%N ∈ map tk_id l ∧
    ∃ t', sync_tasks (db w') !! 1004%N = Some t' ∧ tk_status t' = "in_progress".
Proof.
  apply (due_task_is_claimed 10 1004 copy_task uploaded.1).
  - exact uploaded_files_ok.
  - vm_compute. reflexivity.
  - vm_compute. reflexivity.
  - vm_compute. reflexivity.
  - apply Nat.ltb_lt. vm_compute. reflexivity.
Defined.

(** The source copy is lost and a task may be attempted once. *)
Definition source_lost : World := set_fs ∅ uploaded.1.
Definition attempt : World * Result bool := SyncWorker.poll_and_process "k" "/tmp" 1 source_lost.
Definition next_poll : World * Result bool := SyncWorker.poll_and_process "k" "/tmp" 1 attempt.1.

Lemma db_set_fs {E : Env} f w : db (set_fs f w) = db w.
Proof. reflexivity. Qed.

Lemma source_lost_ok : FilesOk (db source_lost).
Proof. unfold source_lost. rewrite db_set_fs. exact uploaded_files_ok. Defined.

Lemma attempts_end_witness :
  ∃ t', sync_tasks (db next_poll.1) !! 1004%N = Some t' ∧
        (tk_status t' = "failed" ∨ tk_status t' = "completed").
Proof.
  destruct (attempts_end "k" "/tmp" 1 1004 copy_task 1 source_lost attempt.1 attempt.1 next_poll.1 false)
    as [_ H].
  - vm_compute. reflexivity.
  - reflexivity.
  - vm_compute. discriminate.
  - apply (attempted_S "k" "/tmp" 1 1004 0 source_lost source_lost attempt.1 attempt.1 true).
    + reflexivity.
    + exact source_lost_ok.
    + assert (map tk_id (claims 1 source_lost) = [1004%N]) as -> by (vm_compute; reflexivity). left.
    + apply run_ok. vm_compute. reflexivity.
    + apply attempted_0.
  - apply H.
    + reflexivity.
    + reflexivity.
    + exact (keeps_poll_and_process "k" "/tmp" 1 source_lost source_lost_ok).
    + apply run_ok. vm_compute. reflexivity.
Defined.
