(* ===== verification/TierSpec.v ===== *)
(** * Tiers

    A scan selects each idle file once, and marks a hot copy archived only
    when a cold copy remains: no file that could be downloaded stops being so. *)

From S2P Require Import Prelude Json Schema Env World Tables Laws Concrete Registry Scenario.
From S2P Require Import Files SyncTasks LocalDisk Resolver FileService TierService Frames.
From S2P Require Import SyncWorker Integrity RoundTrip ClaimSpec.

(** ** [DISTINCT ON] *)

Section distinct.
Context {A : Type} (key : A → Uuid).

Lemma distinct_on_elem prev l x : x ∈ distinct_on key prev l → x ∈ l.
Proof.
  revert prev. induction l as [|y l IH]; intros prev; simpl; [done|].
  destruct (option_uuid_eqb _ _); [intros Hx%IH; by right|].
  intros [->|Hx%IH]%elem_of_cons; [by left | by right].
Qed.

Lemma distinct_on_complete prev l x :
  x ∈ l → Some (key x) = prev ∨ key x ∈ map key (distinct_on key prev l).
Proof.
  revert prev. induction l as [|y l IH]; intros prev; [by intros ?%not_elem_of_nil|]. simpl.
  unfold option_uuid_eqb. case_bool_decide as Hp.
  - intros [->|Hx]%elem_of_cons; [by left | by apply IH].
  - intros [->|Hx]%elem_of_cons; [right; by left|].
    destruct (IH (Some (key y)) Hx) as [[= ->]|Hk]; [right; by left | right; by right].
Qed.

Definition key_le (x y : A) : Prop := (key x ≤ key y)%N.

Lemma distinct_on_NoDup prev l :
  StronglySorted key_le l → (∀ p x, prev = Some p → x ∈ l → (p ≤ key x)%N) →
  NoDup (map key (distinct_on key prev l)) ∧
  ∀ p, prev = Some p → p ∉ map key (distinct_on key prev l).
Proof.
  intros Hl. revert prev. induction Hl as [|y l Hl IH Hy]; intros prev Hp; simpl.
  { split; [constructor|]. by intros p _ ?%not_elem_of_nil. }
  rewrite Forall_forall in Hy.
  assert (∀ x, x ∈ l → (key y ≤ key x)%N) as Hle by (intros; by apply Hy, list_elem_of_In).
  unfold option_uuid_eqb. case_bool_decide as Hpy.
  - apply IH. intros p x Heq Hx. apply Hp; [done | by right].
  - destruct (IH (Some (key y))) as [Hnd Hno]; [naive_solver|]. split.
    + simpl. apply list.NoDup_cons. split; [by apply Hno | done].
    + intros p ->. simpl. intros [->|Hin]%elem_of_cons; [done|].
      apply list_elem_of_fmap in Hin as (x & -> & Hx%distinct_on_elem).
      apply Hpy. f_equal. apply N.le_antisymm; [apply Hp; [done | by left] | by apply Hle].
Qed.
End distinct.

(** ** What a scan selects *)

Section tiers.
Context {E : Env}.

Lemma elem_of_archivable_rows d t fl fr :
  (fl, fr) ∈ archivable_rows d t ↔
  (∃ i, file_locations d !! i = Some fl) ∧ (∃ j, file_references d !! j = Some fr) ∧
  archivable_location d fl = true ∧ idle_for_reference d t fl fr = true.
Proof.
  unfold archivable_rows. rewrite list_elem_of_join. split.
  - intros (l & Hin & (fl' & -> & Hfl)%list_elem_of_fmap).
    apply list_elem_of_fmap in Hin as (fr' & [= <- <-] & Hfr).
    apply list_elem_of_filter in Hfl as [? ?%elem_of_rows].
    apply list_elem_of_filter in Hfr as [? ?%elem_of_rows]. done.
  - intros (Hi & Hj & Ha & Hr). exists (map (λ fr, (fl, fr))
      (filter (λ fr, idle_for_reference d t fl fr = true) (rows_of (file_references d)))). split.
    + apply list_elem_of_fmap. exists fr. split; [done|]. apply list_elem_of_filter.
      split; [exact Hr|]. by apply elem_of_rows.
    + apply list_elem_of_fmap. exists fl. split; [done|]. apply list_elem_of_filter.
      split; [exact Ha|]. by apply elem_of_rows.
Qed.

(** The file is unread for longer than a project that refers to it allows,
    its copy is on an enabled hot storage, and nothing has been done about it
    yet. *)
Definition archivable (d : Db) (t : Timestamp) (x : ArchivableFile) : Prop :=
  ∃ fl fr n,
    (∃ i, file_locations d !! i = Some fl) ∧ (∃ j, file_references d !! j = Some fr) ∧
    fr_file_id fr = fl_file_id fl ∧ archive_days d fr = Some n ∧ is_idle t n fl = true ∧
    on_storage d is_hot_enabled fl = true ∧ fl_status fl = "synced" ∧
    has_cold_copy d (fl_file_id fl) = false ∧ has_active_task d (fl_file_id fl) = false ∧
    x = mkArchivableFile (fl_file_id fl) (fl_id fl) (fl_storage_id fl) (fl_storage_path fl)
          (fr_project_id fr).

Definition of_row (r : FileLocation * FileReference) : ArchivableFile :=
  mkArchivableFile (fl_file_id r.1) (fl_id r.1) (fl_storage_id r.1) (fl_storage_path r.1)
    (fr_project_id r.2).

Lemma archivable_row d t x :
  archivable d t x ↔ ∃ r, r ∈ archivable_rows d t ∧ x = of_row r.
Proof.
  split.
  - intros (fl & fr & n & Hi & Hj & Hf & Hn & Hd & Hh & Hs & Hc & Hk & ->).
    exists (fl, fr). split; [|done]. apply elem_of_archivable_rows. split_and!; [done..| |].
    + unfold archivable_location, is_synced. by rewrite Hh, Hs, Hc, Hk.
    + unfold idle_for_reference. by rewrite Hf, N.eqb_refl, Hn, Hd.
  - intros ([fl fr] & (Hi & Hj & Ha & Hr)%elem_of_archivable_rows & ->).
    unfold archivable_location, is_synced in Ha. rewrite !andb_true_iff, !negb_true_iff in Ha.
    destruct Ha as [[[Hh Hs%String.eqb_eq] Hc] Hk]. unfold idle_for_reference in Hr.
    apply andb_prop in Hr as [Hf%N.eqb_eq Hd]. destruct (archive_days d fr) as [n|] eqn:Hn; [|done].
    by exists fl, fr, n.
Qed.

(** C33: a scan selects at most the asked number of files, each once, and each
    is idle: on an enabled hot storage, unread for longer than some project
    that refers to it allows, without a cold copy and without a copy under
    way. When it selects fewer than asked, it selects every idle file. *)
Theorem find_archivable_spec lim w :
  0 ≤ lim →
  ∃ l, TierService.find_archivable_files lim w = (w, Ok l) ∧
    Z.of_nat (length l) ≤ lim ∧ NoDup (map af_file_id l) ∧
    (∀ x, x ∈ l → archivable (db w) (now w) x) ∧
    (Z.of_nat (length l) < lim →
     ∀ x, archivable (db w) (now w) x → af_file_id x ∈ map af_file_id l).
Proof.
  intros Hlim. unfold TierService.find_archivable_files, limit. m_run. eexists. split; [done|].
  change (λ r : FileLocation * FileReference, mkArchivableFile _ _ _ _ _) with of_row.
  set (c := then_by _ _). set (key := λ r : FileLocation * FileReference, fl_file_id r.1).
  set (rows := order_by c (archivable_rows (db w) (now w))).
  assert (StronglySorted (key_le key) rows) as Hsorted.
  { apply Sorted_StronglySorted; [intros x y z; unfold key_le; lia|].
    eapply Sorted_weaken, order_by_sorted; [|apply _]. intros x y.
    unfold cmp_le, c, then_by, asc, key_le, key.
    destruct (Z.compare_spec (Z.of_N (fl_file_id x.1)) (Z.of_N (fl_file_id y.1))); [lia | lia | done]. }
  assert (map af_file_id (map of_row (distinct_on key None rows)) =
    map key (distinct_on key None rows)) as Hkeys by (rewrite map_map; done).
  set (l := map of_row _) in *. split_and!.
  - rewrite length_take. lia.
  - change (map af_file_id) with (fmap (M := list) af_file_id). rewrite fmap_take.
    eapply sublist_NoDup; [|apply sublist_take].
    change (NoDup (map af_file_id l)). rewrite Hkeys. by apply distinct_on_NoDup.
  - intros x (i & Hx & _)%elem_of_take. apply list_elem_of_lookup_2 in Hx.
    apply list_elem_of_fmap in Hx as (r & -> & Hr%distinct_on_elem).
    apply archivable_row. exists r. split; [|done]. by apply elem_of_order_by in Hr.
  - rewrite length_take. intros Hlt x (r & Hr & ->)%archivable_row. rewrite take_ge by lia.
    rewrite Hkeys. destruct (distinct_on_complete key None rows r) as [|]; [|done..].
    by apply elem_of_order_by.
Qed.

(** ** What a scan marks *)

Definition archive (fl : FileLocation) : FileLocation := set_fl_status "archived" fl.

Lemma mark_archived_run n fl w :
  ∃ w' n', TierService.mark_archived n fl w = (w', Ok n') ∧
    w' = set_db (set_file_locations (match file_locations (db w) !! fl_id fl with
           | Some k => <[fl_id fl := archive k]> (file_locations (db w))
           | None => file_locations (db w) end) (db w)) w.
Proof.
  unfold TierService.mark_archived, FileLocation.update_status, ok, try_with, or_throw,
    sql_set_id, sql_set_id_if, lift. m_run. change (tbl (db w)) with (file_locations (db w)).
  destruct (file_locations (db w) !! fl_id fl); simpl; eexists _, _; split; [done..| |done].
  destruct w as [d ? ? ? ? ? ? ?]. by destruct d.
Qed.

Lemma mark_loop l : ∀ n w, ∃ w' n',
  foldM TierService.mark_archived n l w = (w', Ok n') ∧
  (∃ t, w' = set_db (set_file_locations t (db w)) w) ∧
  ∀ i, (i ∉ map fl_id l ∧ file_locations (db w') !! i = file_locations (db w) !! i) ∨
       (i ∈ map fl_id l ∧ file_locations (db w') !! i = archive <$> file_locations (db w) !! i).
Proof.
  induction l as [|fl l IH]; intros n w.
  { exists w, n. split_and!; [done| |].
    - exists (file_locations (db w)). destruct w as [d ? ? ? ? ? ? ?]. by destruct d.
    - intros i. left. split; [by apply not_elem_of_nil | done]. }
  change (foldM TierService.mark_archived n (fl :: l)) with
    (TierService.mark_archived n fl ≫= λ n', foldM TierService.mark_archived n' l).
  rewrite bind_unfold. destruct (mark_archived_run n fl w) as (w1 & n1 & -> & ->).
  set (w1 := set_db _ _). destruct (IH n1 w1) as (w' & n' & -> & [t ->] & Hl).
  eexists _, _. split_and!; [done | by exists t |]. intros i. simpl in *.
  assert (file_locations (db w1) !! i =
    if decide (i = fl_id fl) then archive <$> file_locations (db w) !! i
    else file_locations (db w) !! i) as Hw1.
  { simpl. destruct (decide (i = fl_id fl)) as [->|Hne].
    - destruct (file_locations (db w) !! fl_id fl) as [k|] eqn:Hk; simpl;
        [by rewrite lookup_insert_eq | done].
    - destruct (file_locations (db w) !! fl_id fl); [by rewrite lookup_insert_ne | done]. }
  change (set_file_locations (match _ with _ => _ end) (db w)) with (db w1) in Hl.
  destruct (decide (i = fl_id fl)) as [Heq|Hne].
  - right. split; [apply elem_of_cons; by left|]. destruct (Hl i) as [[_ ->]|[_ ->]]; simpl in Hw1; rewrite Hw1; [done|].
    by destruct (file_locations (db w) !! i).
  - destruct (Hl i) as [[Hno ->]|[Hin ->]]; [left | right]; simpl in Hw1; rewrite Hw1; (split; [|done]).
    + by intros [?|?]%elem_of_cons.
    + by right.
Qed.

Lemma elem_of_limited_select {R} `{Table R} n (P : R → bool) d r :
  r ∈ limit n (select_in P d) → P r = true ∧ ∃ id, tbl d !! id = Some r.
Proof. intros Hr%elem_of_limit. by apply elem_of_select_in. Qed.

Definition cold_copy (d : Db) (k : FileLocation) : Prop :=
  fl_status k = "synced" ∧ on_storage d is_cold_enabled k = true.

(** The locations after the marking: some hot copies that have a cold one are
    archived, nothing else changes. *)
Lemma process_completed_run w :
  FilesOk (db w) →
  ∃ w' n t, TierService.process_completed_archives w = (w', Ok n) ∧
    w' = set_db (set_file_locations t (db w)) w ∧
    ∀ i, t !! i = file_locations (db w) !! i ∨
         ∃ l, file_locations (db w) !! i = Some l ∧ t !! i = Some (archive l) ∧
              archive_complete (db w) (now w) l = true.
Proof.
  intros Hok. unfold TierService.process_completed_archives. m_run.
  set (l := limit 100 _). destruct (mark_loop l 0 w) as (w' & n & -> & [t ->] & Hl).
  exists (set_db (set_file_locations t (db w)) w), n, t. split_and!; [done..|].
  intros i. destruct (Hl i) as [[_ H]|[Hin H]]; [by left|]. right. simpl in H.
  apply list_elem_of_fmap in Hin as (k & -> & Hk).
  apply elem_of_limited_select in Hk as (Hc & id & Hid).
  change (tbl (db w)) with (file_locations (db w)) in Hid.
  rewrite (ok_loc_key _ Hok _ _ Hid) in *. rewrite Hid in H. by exists k.
Qed.

Lemma cold_not_hot d k : on_storage d is_cold_enabled k = true → on_storage d st_is_hot k = false.
Proof.
  unfold on_storage, is_cold_enabled. destruct (storages d !! _) as [s|]; [|done].
  by destruct (st_is_hot s).
Qed.

Definition has_download (d : Db) (file : Uuid) : Prop :=
  ∃ i l, file_locations d !! i = Some l ∧ FileLocation.downloadable d file l = true.

Lemma has_cold_copy_true d file :
  has_cold_copy d file = true ↔
  ∃ i k, file_locations d !! i = Some k ∧ fl_file_id k = file ∧ cold_copy d k.
Proof.
  unfold has_cold_copy. rewrite exists_row_true. unfold cold_copy, is_synced.
  split; intros (i & k & Hk & H); exists i, k; (split; [done|]).
  - rewrite !andb_true_iff, N.eqb_eq, String.eqb_eq in H. tauto.
  - rewrite !andb_true_iff, N.eqb_eq, String.eqb_eq. tauto.
Qed.

Lemma cold_downloadable d k :
  cold_copy d k → FileLocation.downloadable d (fl_file_id k) k = true.
Proof.
  intros [Hs Hc]. unfold FileLocation.downloadable. rewrite N.eqb_refl, Hs. simpl.
  unfold on_storage, is_cold_enabled in Hc. destruct (storages d !! _) as [s|]; [|done].
  by apply andb_prop in Hc as [_ ->].
Qed.

(** The first phase only adds tasks. *)
Lemma create_archive_tasks_quiet :
  Guar (same (λ w, (now w, fs w, remote w, storages (db w), files (db w),
                    file_references (db w), file_locations (db w), projects (db w))))
    TierService.create_archive_tasks.
Proof.
  unfold TierService.create_archive_tasks, TierService.find_archivable_files,
    TierService.archive_one, TierService.find_cold_storage.
  repeat first [ apply guar_registry_contains; apply _
    | apply guar_sql_insert; [apply _ | done | done] | unfold SyncTask.create; guar_step | guar_step ].
Qed.

Lemma archive_one_run n x w : ∃ w' n', TierService.archive_one n x w = (w', Ok n').
Proof.
  unfold TierService.archive_one, TierService.find_cold_storage. m_run.
  destruct (list.head _) as [cold|]; [|by eauto].
  unfold StorageRegistry.contains. m_run. destruct (negb _); [by eauto|].
  unfold ok. rewrite bind_unfold. unfold try_with.
  destruct (SyncTask.create _ w) as [w1 [t|e|]] eqn:Hc; [by eauto..|].
  by apply sql_insert_no_panic in Hc.
Qed.

Lemma create_archive_tasks_run w : ∃ w' n, TierService.create_archive_tasks w = (w', Ok n).
Proof.
  unfold TierService.create_archive_tasks. rewrite bind_unfold.
  assert (∃ l, TierService.find_archivable_files 100 w = (w, Ok l)) as [l ->].
  { unfold TierService.find_archivable_files. m_run. by eexists. }
  revert w. generalize 0 as n. induction l as [|x l IH]; intros n w; [by eexists _, _|].
  change (foldM TierService.archive_one n (x :: l)) with
    (TierService.archive_one n x ≫= λ n', foldM TierService.archive_one n' l).
  rewrite bind_unfold. destruct (archive_one_run n x w) as (w1 & n1 & ->). apply IH.
Qed.

(** C32: a scan always completes. It touches no stored byte and removes no
    location; the only locations it changes are copies on hot storages, marked
    archived once a synced copy remains on an enabled cold storage. So every
    file that could be downloaded still can be. *)
Theorem scan_keeps_copies w :
  FilesOk (db w) →
  ∃ w', TierService.scan_and_archive w = (w', Ok tt) ∧ fs w' = fs w ∧ remote w' = remote w ∧
    (∀ i l, file_locations (db w) !! i = Some l → ∃ l', file_locations (db w') !! i = Some l' ∧
       (l' = l ∨
        l' = archive l ∧ on_storage (db w) st_is_hot l = true ∧
        ∃ j k, file_locations (db w') !! j = Some k ∧ fl_file_id k = fl_file_id l ∧
               cold_copy (db w') k)) ∧
    (∀ file, has_download (db w) file → has_download (db w') file).
Proof.
  intros Hok. destruct (create_archive_tasks_run w) as (w1 & n & Hc).
  pose proof (guar_outcome _ _ _ _ _ create_archive_tasks_quiet Hc) as Hq.
  injection Hq as Hnow Hfs Hrem Hst _ _ Hloc _.
  assert (FilesOk (db w1)) as Hok1.
  { pose proof (keeps_create_archive_tasks w Hok) as H. by rewrite Hc in H. }
  destruct (process_completed_run w1 Hok1) as (w' & m & t & Hp & -> & Ht).
  unfold TierService.scan_and_archive. rewrite bind_unfold. unfold ignore, try_with.
  rewrite Hc. simpl. rewrite Hp. eexists. split; [done|]. simpl.
  rewrite Hloc in Ht.
  assert (∀ j k, file_locations (db w) !! j = Some k → on_storage (db w) st_is_hot k = false →
    t !! j = Some k) as Hcold.
  { intros j k Hk Hcold. destruct (Ht j) as [->|(l & Hl & _ & Ha)]; [done|].
    rewrite Hk in Hl. injection Hl as <-. unfold archive_complete, on_storage in Ha, Hcold.
    rewrite Hst in Ha. by rewrite Hcold in Ha. }
  assert (∀ l, archive_complete (db w1) (now w1) l = true → on_storage (db w) st_is_hot l = true ∧
    ∃ j k, t !! j = Some k ∧ fl_file_id k = fl_file_id l ∧ cold_copy (db w) k) as Hcomplete.
  { intros l Ha. unfold archive_complete in Ha. rewrite !andb_true_iff in Ha.
    destruct Ha as [[[Hh _] (j & k & Hk & Hf & Hck)%has_cold_copy_true] _].
    assert (cold_copy (db w) k) as Hck' by (unfold cold_copy, on_storage in *; by rewrite <- Hst).
    split; [unfold on_storage in *; by rewrite <- Hst|]. exists j, k. split_and!; [|done..].
    apply Hcold; [by rewrite <- Hloc|]. apply cold_not_hot, Hck'. }
  split_and!; [done | done | |].
  - intros i l Hl. destruct (Ht i) as [->|(l0 & Hl0 & -> & Ha)]; [by eauto|].
    rewrite Hl in Hl0. injection Hl0 as <-. eexists. split; [done|]. right.
    destruct (Hcomplete l Ha) as (Hh & j & k & Hk & Hf & Hck). split_and!; [done..|].
    exists j, k. split_and!; [done..|]. unfold cold_copy, on_storage in *. simpl. by rewrite Hst.
  - intros file (i & l & Hl & Hd). destruct (Ht i) as [Hi|(l0 & Hl0 & _ & Ha)].
    + exists i, l. simpl. rewrite Hi. split; [done|]. unfold FileLocation.downloadable in *. simpl.
      by rewrite Hst.
    + rewrite Hl in Hl0. injection Hl0 as <-.
      destruct (Hcomplete l Ha) as (_ & j & k & Hk & Hf & Hck). exists j, k. split; [done|].
      apply andb_prop in Hd as [[Hfl%N.eqb_eq _]%andb_prop _]. rewrite <- Hfl, <- Hf.
      apply cold_downloadable. unfold cold_copy, on_storage in *. simpl. by rewrite Hst.
Qed.
End tiers.

(** ** Instances *)

(** The upload of RoundTrip.v, copied to the cold storage, a month later. *)
Definition a_month_later : World :=
  set_now (seconds 1000000 + days 31)
    (SyncWorker.poll_and_process "k" "/tmp" 10 uploaded.1).1.

Lemma db_set_now {E : Env} t w : db (set_now t w) = db w.
Proof. reflexivity. Qed.

Lemma a_month_later_ok : FilesOk (db a_month_later).
Proof.
  unfold a_month_later. rewrite db_set_now. apply keeps_poll_and_process.
  exact (keeps_upload_file "k" 10 "a.txt" "text/plain" hello no_metadata deployment
           deployment_files_ok).
Qed.

Definition scanned : World * Result unit := TierService.scan_and_archive a_month_later.

Lemma scan_keeps_copies_witness :
  FilesOk (db a_month_later) ∧
  ∃ w', TierService.scan_and_archive a_month_later = (w', Ok tt) ∧
    (has_download (db a_month_later) 1001 → has_download (db w') 1001).
Proof.
  split; [exact a_month_later_ok|].
  destruct (scan_keeps_copies a_month_later a_month_later_ok) as (w' & H & _ & _ & _ & Hd).
  exists w'. split; [exact H | apply Hd].
Defined.

(** The hot copy of the instance is archived, the cold one stays. *)
Example hot_copy_archived :
  map (λ l, (fl_storage_id l, fl_status l))
    (order_by (asc (λ l, Z.of_N (fl_storage_id l))) (rows_of (file_locations (db scanned.1)))) =
  [(20%N, "archived"); (21%N, "synced")].
Proof. vm_compute. reflexivity. Qed.

Definition idle_upload : World := set_now (seconds 1000000 + days 31)
  (set_db (set_sync_tasks ∅ (db uploaded.1)) uploaded.1).

Lemma find_archivable_spec_witness :
  0 ≤ 100 ∧ ∃ l, TierService.find_archivable_files 100 idle_upload = (idle_upload, Ok l) ∧
    (length l < 100)%nat.
Proof.
  split; [lia|]. destruct (find_archivable_spec 100 idle_upload) as (l & H & _); [lia|].
  exists l. split; [exact H|].
  assert (length l = 1%nat) as ->; [|lia].
  assert (match (TierService.find_archivable_files 100 idle_upload).2 with
          | Ok l => length l | _ => 0%nat end = 1%nat) as Hlen by (vm_compute; reflexivity).
  rewrite H in Hlen. exact Hlen.
Defined.
