(* ===== verification/BackupSpec.v ===== *)
(** * Backups

    Retention removes old backups only and keeps the newest; an attempt ends
    recorded as what it was; an accepted path is a path a backend accepts. *)

From S2P Require Import Prelude Json Schema Env World Tables Laws Concrete LocalDisk Registry.
From S2P Require Import Storages Scenario Files SyncTasks Backups BackupService ApiBackups Search.
From S2P Require Import Resolver FileService Frames Integrity DiskSpec RoundTrip ClaimSpec System.
From S2P Require Import SystemSpec.

Definition BackupsOk (d : Db) : Prop := ∀ id r, backup_history d !! id = Some r → br_id r = id.

(** ** Paths *)

Lemma str_contains_app_l p a b : str_contains p a = true → str_contains p (a +:+ b) = true.
Proof.
  assert (∀ p a, String.prefix p a = true → String.prefix p (a +:+ b) = true) as Hpre.
  { clear. induction p as [|c p IH]; intros [|d a]; try done; [by destruct b|].
    rewrite str_app_cons. simpl. destruct (Ascii.ascii_dec c d); [apply IH | done]. }
  induction a as [|c a IH].
  - cbn [str_contains]. rewrite orb_false_r. destruct p; [|done]. intros _. by destruct b.
  - rewrite str_app_cons. cbn [str_contains]. intros [Hp|Hp]%orb_prop.
    + apply Hpre in Hp. rewrite str_app_cons in Hp. by rewrite Hp.
    + by rewrite (IH Hp), orb_true_r.
Qed.

Lemma prefix_dots c s :
  String.prefix ".." (String c s) = Ascii.eqb c "."%char && String.prefix "." s.
Proof.
  cbn [String.prefix]. destruct (Ascii.ascii_dec "." c) as [<-|Hne]; [done|].
  destruct (Ascii.eqb_spec c "."%char); [congruence | done].
Qed.

Lemma prefix_one c d s : String.prefix (String c EmptyString) (String d s) = Ascii.eqb c d.
Proof.
  cbn [String.prefix]. destruct (Ascii.ascii_dec c d) as [<-|Hne].
  - rewrite Ascii.eqb_refl. by destruct s.
  - symmetry. by apply Ascii.eqb_neq.
Qed.

(** No [..] appears where a slash joins two parts. *)
Lemma dots_join a b :
  str_contains ".." (a +:+ "/" +:+ b) = str_contains ".." a || str_contains ".." b.
Proof.
  induction a as [|c a IH]; [done|]. rewrite str_app_cons. cbn [str_contains].
  rewrite IH, orb_assoc, !prefix_dots. f_equal. f_equal. f_equal.
  destruct a as [|d a]; [done|]. rewrite str_app_cons. cbn [String.prefix].
  by destruct (Ascii.ascii_dec _ d), a.
Qed.

Lemma dots_after a b :
  str_mem "."%char a = false → str_contains ".." (a +:+ b) = str_contains ".." b.
Proof.
  induction a as [|c a IH]; [done|]. rewrite str_app_cons. cbn [str_contains str_mem].
  intros [Hc Ha]%orb_false_iff. by rewrite (IH Ha), prefix_dots, Hc.
Qed.

Lemma trim_end_app c s : ∃ t, s = trim_end_matches c s +:+ t.
Proof.
  induction s as [|a s [t IH]]; [by exists EmptyString|]. simpl.
  destruct (trim_end_matches c s) as [|d u] eqn:Hs.
  - destruct (Ascii.eqb a c); [by eexists|]. exists t. by rewrite IH.
  - exists t. by rewrite str_app_cons, <- IH.
Qed.

Lemma trim_end_empty c a s : trim_end_matches c (String a s) = EmptyString → a = c.
Proof.
  simpl. destruct (trim_end_matches c s); [|done].
  destruct (Ascii.eqb_spec a c); [done | done].
Qed.

(** The characters of a generated file name. *)
Definition is_stamp_char (c : Ascii.ascii) : bool := is_ascii_digit c || Ascii.eqb c "_"%char.

Lemma str_all_no_char q c s : q c = false → str_all q s = true → str_mem c s = false.
Proof.
  intros Hc. induction s as [|a s IH]; simpl; [done|]. intros [Ha Hs]%andb_prop.
  rewrite (IH Hs), orb_false_r. apply Ascii.eqb_neq. intros ->. congruence.
Qed.

(** ** Retention *)

Section retention.
Context {E : Env}.

Lemma delete_from_storage_quiet r :
  Guar (same (λ w, (db w, now w))) (BackupService.delete_from_storage r).
Proof.
  unfold BackupService.delete_from_storage.
  apply guar_bind; [apply _ | apply guar_registry_get; apply _|].
  intros b. apply guar_be_delete; [apply _ | done..].
Qed.

Lemma delete_record_ok id w w' u :
  BackupRecord.delete id w = (w', Ok u) →
  ∀ i r, backup_history (db w') !! i = Some r ↔
         backup_history (db w) !! i = Some r ∧ br_id r ≠ id.
Proof.
  unfold BackupRecord.delete. rewrite bind_unfold, sql_delete_plain by done.
  intros [-> _]%ensure_ok i r. cbn -[filter]. rewrite map_lookup_filter_Some. simpl.
  by rewrite N.eqb_neq.
Qed.

(** The records of [w'] are those of [w] without [gone]. *)
Definition without (gone : list BackupRecord) (w w' : World) : Prop :=
  ∀ i r, backup_history (db w') !! i = Some r ↔
         backup_history (db w) !! i = Some r ∧ br_id r ∉ map br_id gone.

Lemma delete_with_file_ok n r w w' k :
  BackupService.delete_with_file n r w = (w', Ok k) →
  (k = n ∧ without [] w w') ∨ (k = n + 1 ∧ without [r] w w').
Proof.
  unfold BackupService.delete_with_file. intros (o & w1 & Ho & H)%bind_ok.
  assert (db w1 = db w) as Hdb.
  { pose proof (guar_outcome _ _ _ _ _ (guar_ok _ _ (delete_from_storage_quiet r)) Ho) as Hq.
    by injection Hq. }
  destruct o as [u|].
  - right. apply bind_ok in H as (u' & w2 & Hd & H). apply ret_ok in H as [-> ->]. split; [done|].
    intros i x. rewrite (delete_record_ok _ _ _ _ Hd), Hdb. simpl.
    by rewrite list_elem_of_singleton.
  - left. apply ret_ok in H as [-> ->]. split; [done|]. intros i x. rewrite Hdb. simpl.
    split; [|tauto]. intros H. split; [done | apply not_elem_of_nil].
Qed.

Lemma delete_loop_ok l : ∀ n w w' k,
  foldM BackupService.delete_with_file n l w = (w', Ok k) →
  ∃ gone, gone `sublist_of` l ∧ k = n + Z.of_nat (length gone) ∧ without gone w w'.
Proof.
  induction l as [|r l IH]; intros n w w' k.
  { intros [= <- <-]. exists []. split_and!; [done | simpl; lia |]. intros i x.
    split; [|tauto]. intros H. split; [done | apply not_elem_of_nil]. }
  intros (n1 & w1 & Hr & H)%bind_ok. apply IH in H as (gone & Hsub & -> & Hw).
  apply delete_with_file_ok in Hr as [[-> H1]|[-> H1]].
  - exists gone. split_and!; [by apply sublist_cons | done |]. intros i x.
    rewrite (Hw i x), (H1 i x). simpl. pose proof (not_elem_of_nil (br_id x)). tauto.
  - exists (r :: gone). split_and!; [by apply sublist_skip | simpl; lia |]. intros i x.
    rewrite (Hw i x), (H1 i x). simpl. rewrite list_elem_of_singleton, not_elem_of_cons. tauto.
Qed.

Definition completed_of (config : Uuid) (r : BackupRecord) : Prop :=
  BackupRecord.of_config config r && BackupRecord.has_status "completed" r = true.

(** The completed backups of a configuration: those to keep, and the older. *)
Lemma retention_list config n w :
  BackupsOk (db w) → 1 ≤ n →
  ∃ kept old, BackupRecord.list_oldest_completed_by_config config n w = (w, Ok old) ∧
    NoDup (map br_id (kept ++ old)) ∧
    (∀ x, x ∈ kept ++ old → completed_of config x ∧ backup_history (db w) !! br_id x = Some x) ∧
    (old ≠ [] → Z.of_nat (length kept) = n) ∧
    (∀ x y, x ∈ kept → y ∈ old → br_created_at y ≤ br_created_at x).
Proof.
  intros Hok Hn. unfold BackupRecord.list_oldest_completed_by_config, ensure.
  rewrite (proj2 (Z.leb_le 0 n)) by lia. m_run. unfold offset.
  match goal with |- context [order_by _ ?s] => set (sel := s) end.
  set (l := order_by (desc br_created_at) sel). set (m := Z.to_nat n).
  exists (take m l), (drop m l). split; [done|].
  assert (take m l ++ drop m l = l) as -> by apply firstn_skipn. split_and!.
  - unfold l. rewrite order_by_perm. by apply NoDup_keys.
  - intros x Hx. apply elem_of_order_by, elem_of_select_in in Hx as [Hc [i Hi]].
    split; [exact Hc|]. change (backup_history (db w) !! i = Some x) in Hi. by rewrite (Hok _ _ Hi).
  - intros Hd. rewrite length_take. destruct (Nat.le_gt_cases (length l) m) as [Hle|Hgt].
    + by rewrite drop_ge in Hd.
    + unfold m in *. lia.
  - intros x y. apply (StronglySorted_app_rel (λ x y, br_created_at y ≤ br_created_at x)).
    assert (take m l ++ drop m l = l) as -> by apply firstn_skipn.
    apply Sorted_StronglySorted; [intros u v z; lia | apply order_by_desc].
Qed.

(** C39: retention removes nothing but old backups: a record that disappears was
    a completed backup of that configuration, and as many completed backups as
    are to be kept, none of them older than it, remain; the answer is the
    number removed. A retention below one removes nothing. *)
Theorem cleanup_keeps_newest config n w w' k :
  BackupsOk (db w) → BackupService.cleanup_old_backups config n w = (w', Ok k) →
  (∀ i r, backup_history (db w') !! i = Some r → backup_history (db w) !! i = Some r) ∧
  ∃ gone, k = Z.of_nat (length gone) ∧ NoDup (map br_id gone) ∧
    (∀ i r, backup_history (db w) !! i = Some r →
       backup_history (db w') !! i = None ↔ r ∈ gone) ∧
    ∀ r, r ∈ gone → completed_of config r ∧ 1 ≤ n ∧
      ∃ kept, Z.of_nat (length kept) = n ∧ NoDup (map br_id kept) ∧
        ∀ x, x ∈ kept → backup_history (db w') !! br_id x = Some x ∧ completed_of config x ∧
             br_created_at r ≤ br_created_at x.
Proof.
  intros Hok. unfold BackupService.cleanup_old_backups.
  destruct (Z.ltb_spec n 1) as [Hn|Hn].
  { intros [= <- <-]. split; [done|]. exists []. split_and!; [done | constructor | |].
    - intros i r Hr. rewrite Hr. split; [done | by intros ?%not_elem_of_nil].
    - by intros r ?%not_elem_of_nil. }
  destruct (retention_list config n w Hok Hn) as (kept & old & Hrun & Hnd & Hl & Hlen & Hle).
  rewrite (bind_step _ _ _ _ _ Hrun). intros H.
  apply delete_loop_ok in H as (gone & Hsub & -> & Hw).
  rewrite map_app in Hnd. apply list.NoDup_app in Hnd as (Hnk & Hdis & Hno).
  assert (∀ x, x ∈ gone → x ∈ old) as Hgone
    by (intros x Hx; eapply elem_of_submseteq; [exact Hx | by apply sublist_submseteq]).
  split; [by intros i r [? _]%Hw|]. exists gone. split; [lia|]. split_and!.
  - eapply sublist_NoDup; [exact Hno|]. by apply (fmap_sublist br_id).
  - intros i r Hr. split.
    + intros Hnone. destruct (decide (br_id r ∈ map br_id gone)) as [Hin|Hnin].
      * apply list_elem_of_fmap in Hin as (x & Heq & Hx).
        destruct (Hl x) as [_ Hx']; [apply elem_of_app; right; by apply Hgone|].
        rewrite <- Heq, (Hok _ _ Hr), Hr in Hx'. by injection Hx' as ->.
      * assert (backup_history (db w') !! i = Some r) by (by apply Hw). congruence.
    + intros Hin. destruct (backup_history (db w') !! i) as [x|] eqn:Hx; [|done].
      apply Hw in Hx as [Hx Hnin]. rewrite Hr in Hx. injection Hx as <-.
      destruct Hnin. by apply list_elem_of_fmap_2.
  - intros r Hr%Hgone. split; [apply Hl, elem_of_app; by right|]. split; [done|].
    exists kept. split_and!; [apply Hlen; by intros ->; apply not_elem_of_nil in Hr | done |].
    intros x Hx. destruct (Hl x) as [Hcx Hix]; [apply elem_of_app; by left|].
    split_and!; [|done | by apply Hle]. apply Hw. split; [done|].
    intros (y & Heq & Hy%Hgone)%list_elem_of_fmap.
    apply (Hdis (br_id x)); [by apply list_elem_of_fmap_2|]. rewrite Heq. by apply list_elem_of_fmap_2.
Qed.

End retention.

(** ** One attempt *)

Section attempt.
Context {E : Env} {HRb : RemoteReadback} (s : Dumper) (stamp : Timestamp → string).

Lemma set_record_run id f w :
  sql_set_id id f w =
  match backup_history (db w) !! id with
  | Some r => (set_db (set_backup_history (<[id := f r]> (backup_history (db w))) (db w)) w, Ok (Some (f r)))
  | None => (w, Ok None)
  end.
Proof. reflexivity. Qed.

(** [data] is what pg_dump writes of the database, compressed. *)
Definition dump_of (w : World) (data : bytes) : Prop :=
  ∃ path url out, url_parse (dm_pg s) (dm_database_url s) = inr url ∧
    pg_dump (dm_pg s) (BackupService.pg_dump_args url path) (url_password url) (db w) = inr out ∧
    out_success out = true ∧ BackupService.compress s (out_written out) = Some data.

Lemma gz_loop_total fuel : ∀ rest enc,
  (length rest ≤ fuel)%nat → is_Some (BackupService.gz_loop s fuel rest enc).
Proof.
  assert (0 < BackupService.gz_chunk)%nat as Hc by (unfold BackupService.gz_chunk; lia).
  induction fuel as [|fuel IH]; intros [|x rest] enc Hl; cbn [BackupService.gz_loop];
    try (by eexists); [cbn in Hl; lia|].
  apply IH. rewrite length_drop. cbn [length] in *. lia.
Qed.

(** A dump is always compressed to the end. *)
Lemma compress_total data : is_Some (BackupService.compress s data).
Proof.
  unfold BackupService.compress.
  destruct (gz_loop_total (length data) data (gz_new (dm_pg s)) (le_n _)) as [enc ->]. by eexists.
Qed.

Lemma dump_quiet : Guar (same (λ w, (db w, backends w, now w))) (BackupService.dump s).
Proof.
  unfold BackupService.dump, BackupService.make_temp_dir, BackupService.temp_file, fs_guard.
  repeat first [guar_step | intros ?; reflexivity].
Qed.

Lemma dump_ok w w' data : BackupService.dump s w = (w', Ok data) → dump_of w data.
Proof.
  unfold BackupService.dump. intros ([] & w1 & H1 & H)%bind_ok.
  apply bind_ok in H as (path & w2 & H2 & H). apply bind_ok in H as (url & w3 & H3 & H).
  apply lift_ok in H3 as [-> H3]. apply bind_ok in H as (d & w3 & Hd & H). apply gets_ok in Hd as [-> ->].
  apply bind_ok in H as (out & w3 & H4 & H). apply lift_ok in H4 as [-> H4].
  apply bind_ok in H as ([] & w3 & H5 & H). apply ensure_ok in H5 as [-> H5].
  apply bind_ok in H as (path2 & w4 & _ & H). apply lift_ok in H as [_ H].
  assert (db w2 = db w) as Hdb.
  { assert (Guar (same db) (BackupService.make_temp_dir s ;; BackupService.temp_file s)) as Hq.
    { unfold BackupService.make_temp_dir, BackupService.temp_file, fs_guard.
      repeat first [guar_step | intros ?; reflexivity]. }
    specialize (Hq w). rewrite bind_unfold, H1, H2 in Hq. exact Hq. }
  rewrite Hdb in H4. exists path, url, out.
  destruct (url_parse _ _); [done|]. injection H3 as ->.
  destruct (pg_dump _ _ _ _); [done|]. injection H4 as ->.
  destruct (BackupService.compress _ _); [|done]. by injection H as ->.
Qed.

(** The dump is where the record says, and as long as it says. *)
Definition holds_dump (r : BackupRecord) (b : Backend) (data : bytes) (w : World) : Prop :=
  readable b (br_file_path r) data w ∧ br_file_size_bytes r = Z.of_nat (length data).

Lemma execute_backup_ok path sid w w' n :
  BackupService.execute_backup s path sid w = (w', Ok n) →
  ∃ data b, dump_of w data ∧ backends w !! sid = Some b ∧ n = Z.of_nat (length data) ∧
    readable b path data w'.
Proof.
  unfold BackupService.execute_backup, StorageRegistry.get. intros (data & w1 & Hd & H)%bind_ok.
  pose proof (guar_outcome _ _ _ _ _ dump_quiet Hd) as Hq. injection Hq as _ Hbe _.
  apply dump_ok in Hd. apply bind_ok in H as (b & w2 & Hb & H).
  apply or_throw_ok, gets_ok in Hb as [-> Hb]. rewrite Hbe in Hb.
  apply bind_ok in H as ([] & w2 & Hu & H).
  apply ret_ok in H as [-> ->]. exists data, b. split_and!; [done..|].
  by apply be_upload_readable in Hu as [? _].
Qed.

Lemma execute_backup_quiet path sid :
  Guar (same (λ w, (db w, backends w, now w))) (BackupService.execute_backup s path sid).
Proof.
  unfold BackupService.execute_backup.
  repeat first [apply dump_quiet | apply guar_registry_get; apply _ | apply guar_be_upload; [apply _ | done..] | guar_step].
Qed.

(** What an attempt makes of its record. *)
Definition finished (r : Result BackupRecord) (row : BackupRecord) (w w' : World) : Prop :=
  match r with
  | Ok rec => rec = row ∧ br_status row = "completed" ∧
      ∃ data b, dump_of w data ∧ backends w !! br_storage_id row = Some b ∧ holds_dump row b data w'
  | Err e => br_status row = "failed" ∧ br_error_message row = Some (display_error e)
  | Panic => False
  end.

Lemma execute_and_update_outcome id path row w w' r :
  backup_history (db w) !! id = Some row →
  BackupService.execute_backup_and_update s id path (br_storage_id row) w = (w', r) → r ≠ Panic →
  ∃ row', backup_history (db w') = <[id := row']> (backup_history (db w)) ∧
    br_storage_id row' = br_storage_id row ∧ finished r row' w w'.
Proof.
  intros Hrow. unfold BackupService.execute_backup_and_update, try_with.
  destruct (BackupService.execute_backup _ _ _ w) as [w1 [n|e|]] eqn:Hx; [| |by intros [= <- <-]];
    pose proof (guar_outcome _ _ _ _ _ (execute_backup_quiet _ _) Hx) as Hq; injection Hq as Hdb Hbe Hnow.
  - apply execute_backup_ok in Hx as (data & b & Hd & Hb & -> & Hread).
    unfold BackupRecord.mark_completed, or_throw, lift. m_run. rewrite set_record_run, Hdb, Hrow.
    m_run. intros [= <- <-] _. eexists. split; [done|]. split; [done|].
    split; [done|]. split; [done|]. exists data, b. split_and!; [done..|]. split; [|done]. simpl.
    eapply readable_stable; [exact Hread | done | by left].
  - unfold ignore, try_with, BackupRecord.mark_failed, or_throw, lift. m_run.
    rewrite set_record_run, Hdb, Hrow. m_run. intros [= <- <-] _. by eexists.
Qed.

Definition but_history (w : World) : Db := set_backup_history ∅ (db w).

(** A record was added, for storage [sid], and nothing else changed in the database. *)
Lemma create_record_outcome c w w' r :
  BackupRecord.create c w = (w', r) →
  match r with
  | Ok rec => backup_history (db w) !! br_id rec = None ∧ br_storage_id rec = cbr_storage_id c ∧
      br_file_path rec = cbr_file_path c ∧
      backup_history (db w') = <[br_id rec := rec]> (backup_history (db w)) ∧
      but_history w' = but_history w ∧ backends w' = backends w
  | Err _ => backup_history (db w') = backup_history (db w)
  | Panic => False
  end.
Proof.
  intros H. destruct r as [rec|e|].
  - apply sql_insert_ok in H as (-> & Hid & _ & ->). done.
  - by apply sql_insert_err in H as [-> _].
  - by apply sql_insert_no_panic in H.
Qed.

Lemma filename_run w :
  ∃ r, BackupService.generate_backup_filename stamp w = (set_draws (draws w + 1)%N w, r).
Proof.
  unfold BackupService.generate_backup_filename. rewrite bind_unfold, new_uuid_eq. unfold lift. m_run.
  destruct (str_slice 0 8 _); m_run; by eexists.
Qed.

(** C40: an attempt at a backup never leaves a record that lies: other records
    are as before, and the one it adds, if any, is completed when the attempt
    succeeded, and then the storage gives back the dump that was taken of the
    database, byte for byte and of the recorded size; otherwise it is failed
    and says why. *)
Theorem create_backup_outcome config name sid path w w' r :
  BackupService.create_backup s stamp config name sid path w = (w', r) → r ≠ Panic →
  (∀ i x, backup_history (db w) !! i = Some x → backup_history (db w') !! i = Some x) ∧
  (∀ i x, backup_history (db w') !! i = Some x → backup_history (db w) !! i = None →
     match r with
     | Ok rec => x = rec
     | Err e => br_status x = "failed" ∧ is_Some (br_error_message x)
     | Panic => False
     end) ∧
  ∀ rec, r = Ok rec → br_status rec = "completed" ∧
    (∃ i, backup_history (db w') !! i = Some rec) ∧
    ∃ w1 data b, but_history w1 = but_history w ∧ dump_of w1 data ∧
      backends w1 !! br_storage_id rec = Some b ∧ br_storage_id rec = sid ∧ holds_dump rec b data w'.
Proof.
  unfold BackupService.create_backup, try_with.
  assert (BackupService.validate_storage_available sid w =
    (w, if backends w !! sid is Some _ then Ok tt else Err (BackupService.not_available sid))) as ->.
  { unfold BackupService.validate_storage_available, StorageRegistry.get, map_err, try_with,
      or_throw, lift. m_run. by destruct (backends w !! sid). }
  intros H Hp. destruct (backends w !! sid) as [b0|].
  - rewrite bind_unfold in H. destruct (filename_run w) as [[file|e|] Hf]; rewrite Hf in H;
      [|by injection H as <- <-; split_and!; [done|simpl; congruence|] | by injection H as <- <-].
    rewrite bind_unfold in H. revert H.
    set (c := mkCreateBackupRecord _ _ _ _). set (w0 := set_draws _ w).
    destruct (BackupRecord.create c w0) as [w1 [rec|e|]] eqn:Hc;
      apply create_record_outcome in Hc; [| |done].
    + destruct Hc as (Hnew & Hst & Hpath & Hh & Hbut & _). simpl in Hst, Hpath.
      intros H. rewrite <- Hst, <- Hpath in H.
      apply (execute_and_update_outcome _ _ rec) in H as (row & Hh' & Hsid & Hfin);
        [|rewrite Hh; apply lookup_insert_eq | done].
      rewrite Hh, insert_insert_eq in Hh'. change (backup_history (db w0)) with (backup_history (db w)) in *.
      rewrite Hh'. split_and!.
      * intros i x Hx. rewrite lookup_insert_ne; [done | congruence].
      * intros i x. rewrite lookup_insert. case_decide; [intros [= <-] _ | congruence].
        destruct r as [r|e|]; [by destruct Hfin | by destruct Hfin as [? ->] | done].
      * intros r' ->. destruct Hfin as (-> & Hs & data & b & Hd & Hb & Hold). split; [done|].
        split; [exists (br_id rec); apply lookup_insert_eq|].
        exists w1, data, b. split_and!; [done..| congruence | done].
    + intros [= <- <-]. change (backup_history (db w0)) with (backup_history (db w)) in Hc.
      rewrite Hc. split_and!; [done | congruence | done].
  - revert H. rewrite bind_unfold.
    destruct (BackupRecord.create _ w) as [w1 [rec|e|]] eqn:Hc; apply create_record_outcome in Hc; [| |done].
    + destruct Hc as (Hnew & _ & _ & Hh & _). unfold ignore, try_with, BackupRecord.mark_failed,
        or_throw, lift. m_run. rewrite set_record_run, Hh, lookup_insert_eq. m_run. intros [= <- <-].
      simpl. rewrite insert_insert_eq. split_and!; [| |done].
      * intros i x Hx. rewrite lookup_insert_ne; [done | congruence].
      * intros i x. rewrite lookup_insert. case_decide; [by intros [= <-] _ | congruence].
    + intros [= <- <-]. rewrite Hc. split_and!; [done | congruence | done].
Qed.

End attempt.

(** ** Where a backup goes *)

Section place.
Context {E : Env} (stamp : Timestamp → string).

Lemma filename_shape w w' file :
  BackupService.generate_backup_filename stamp w = (w', Ok file) →
  ∃ id t, file = "backup_" +:+ stamp t +:+ "_" +:+ String.substring 0 8 (uuid_str id) +:+ ".sql.gz".
Proof.
  unfold BackupService.generate_backup_filename. intros (id & w1 & _ & H)%bind_ok.
  apply bind_ok in H as (short & w2 & Hs & H). apply lift_ok in Hs as [_ Hs].
  apply str_slice_ok in Hs as [-> _]. apply bind_ok in H as (t & w3 & _ & H).
  apply ret_ok in H as [_ ->]. by exists id, t.
Qed.

Lemma filename_plain `{!UuidText} w w' file :
  (∀ t, str_all is_stamp_char (stamp t) = true) →
  BackupService.generate_backup_filename stamp w = (w', Ok file) →
  (∃ rest, file = String "b" rest) ∧ str_contains ".." file = false ∧
  str_mem Ascii.zero file = false ∧ str_mem ":"%char file = false.
Proof.
  intros Hst (id & t & ->)%filename_shape.
  pose proof (substring_all_p _ _ 0 8 (uuid_str_chars id)) as Hid.
  set (short := String.substring 0 8 (uuid_str id)) in *.
  assert (∀ c, is_stamp_char c = false → is_uuid_char c = false →
    str_mem c "backup_" = false → str_mem c "_" = false →
    str_mem c ("backup_" +:+ stamp t +:+ "_" +:+ short) = false) as Hno.
  { intros c H1 H2 H3 H4. rewrite !str_mem_app, H3, H4.
    by rewrite (str_all_no_char _ _ _ H1 (Hst t)), (str_all_no_char _ _ _ H2 Hid). }
  replace ("backup_" +:+ stamp t +:+ "_" +:+ short +:+ ".sql.gz") with
    (("backup_" +:+ stamp t +:+ "_" +:+ short) +:+ ".sql.gz") by (by rewrite !str_app_assoc).
  split_and!.
  - by eexists.
  - rewrite dots_after by by apply Hno. done.
  - by rewrite str_mem_app, Hno.
  - by rewrite str_mem_app, Hno.
Qed.

(** A path the API accepts for backups is a path every local storage
    accepts: wherever the backup is sent, it is not refused for its name, and
    it stays below the storage's directory. *)
Theorem backup_path_accepted `{!UuidText} path w w' file :
  (∀ t, str_all is_stamp_char (stamp t) = true) →
  BackupService.validate_storage_path path = Ok tt →
  BackupService.generate_backup_filename stamp w = (w', Ok file) →
  validate_path (BackupService.build_upload_path path file) = Ok tt.
Proof.
  intros Hst Hv Hf. destruct (filename_plain _ _ _ Hst Hf) as ([rest Hb] & Hdd & Hz & Hc). clear Hf.
  unfold BackupService.validate_storage_path in Hv.
  destruct (str_mem Ascii.zero path) eqn:Hpz; [done|].
  destruct (str_contains ".." path) eqn:Hpd; [done|].
  destruct (_ || _) eqn:Hps in Hv; [done|]. destruct (str_mem ":"%char path) eqn:Hpc; [done|].
  apply orb_false_iff in Hps as [Hp1 Hp2].
  unfold BackupService.build_upload_path. destruct path as [|a path].
  { unfold validate_path. subst file. simpl in *. by rewrite Hdd, Hz, Hc. }
  destruct (trim_end_app slash (String a path)) as [t Ht]. cbn [str_is_empty].
  destruct (trim_end_matches slash (String a path)) as [|a' p] eqn:Hp.
  { apply trim_end_empty in Hp as ->. by destruct path. }
  rewrite Ht in Hpz, Hpc, Hp1, Hp2. rewrite str_mem_app in Hpz, Hpc.
  apply orb_false_iff in Hpz as [Hpz _]. apply orb_false_iff in Hpc as [Hpc _].
  assert (str_contains ".." (String a' p) = false) as Hpd'.
  { apply not_true_iff_false. intros Hd. apply not_true_iff_false in Hpd. apply Hpd.
    rewrite Ht. by apply str_contains_app_l. }
  unfold validate_path. rewrite dots_join, Hpd', Hdd. rewrite !str_mem_app, Hpz, Hpc, Hz, Hc.
  rewrite str_app_cons in *. rewrite prefix_one in Hp1, Hp2. by rewrite !prefix_one, Hp1, Hp2.
Qed.
End place.

(** ** Instances *)

Definition nightly_dump : Dumper := dp_dump server.
Definition fixed_stamp : Timestamp → string := λ _, "19700112_134640".

Definition nightly (n : Z) : BackupRecord :=
  mkBackupRecord (Z.to_N (60 + n)) (Some 50%N) (Some "nightly") 20 (pretty n +:+ ".sql.gz") 9
    "completed" None (Some (seconds n)) (Some (seconds n)) (seconds n).
Definition three_backups : World :=
  set_fs {[ "/data/hot/1.sql.gz" := hello; "/data/hot/2.sql.gz" := hello; "/data/hot/3.sql.gz" := hello ]}
    (set_db (set_backup_history {[ 61%N := nightly 1; 62%N := nightly 2; 63%N := nightly 3 ]}
       deployment_db) deployment).

Lemma three_backups_ok : BackupsOk (db three_backups).
Proof.
  intros id r. change (backup_history (db three_backups)) with
    ({[ 61%N := nightly 1; 62%N := nightly 2; 63%N := nightly 3 ]} : gmap Uuid BackupRecord).
  rewrite !lookup_insert. repeat case_decide; [by intros [= <-]..|].
  intros [<- <-]%lookup_singleton_Some. reflexivity.
Defined.

Definition cleaned : World * Result Z := BackupService.cleanup_old_backups 50 2 three_backups.

Lemma cleanup_keeps_newest_witness :
  BackupsOk (db three_backups) ∧
  ∃ gone : list BackupRecord, 1 = Z.of_nat (length gone) ∧ NoDup (map br_id gone).
Proof.
  split; [exact three_backups_ok|].
  destruct (cleanup_keeps_newest 50 2 three_backups cleaned.1 1 three_backups_ok)
    as (_ & gone & Hlen & Hnd & _).
  - apply run_ok. vm_compute. reflexivity.
  - exists gone. split; [exact Hlen | exact Hnd].
Defined.

(** The oldest of the instance is the one that went. *)
Example oldest_removed :
  map br_id (order_by (asc br_created_at) (rows_of (backup_history (db cleaned.1)))) = [62%N; 63%N].
Proof. vm_compute. reflexivity. Qed.

Definition backed_up : World * Result BackupRecord :=
  BackupService.create_backup nightly_dump fixed_stamp None None 20 "backups" deployment.

Lemma create_backup_outcome_witness :
  ∃ rec, backed_up.2 = Ok rec ∧ br_status rec = "completed" ∧
         ∃ i, backup_history (db backed_up.1) !! i = Some rec.
Proof.
  assert (∃ rec, backed_up.2 = Ok rec) as [rec Hrec].
  { eexists. vm_compute. reflexivity. }
  exists rec. split; [exact Hrec|].
  destruct (create_backup_outcome nightly_dump fixed_stamp None None 20 "backups" deployment
    backed_up.1 (Ok rec)) as (_ & _ & H).
  - apply run_ok. exact Hrec.
  - discriminate.
  - destruct (H rec eq_refl) as (Hs & Hi & _). split; [exact Hs | exact Hi].
Defined.

Definition named : World * Result string :=
  BackupService.generate_backup_filename fixed_stamp deployment.

Lemma backup_path_accepted_witness :
  validate_path (BackupService.build_upload_path "nightly//"
    "backup_19700112_134640_00000000.sql.gz") = Ok tt.
Proof.
  apply (backup_path_accepted fixed_stamp "nightly//" deployment named.1).
  - intros t. reflexivity.
  - reflexivity.
  - apply run_ok. vm_compute. reflexivity.
Defined.
