(* ===== verification/UploadSpec.v ===== *)
(** * Resumable uploads

    What a session has received is what its temporary file holds; a request
    that names another offset changes nothing; and what was sent piece by piece
    is downloaded in one piece. *)

From S2P Require Import Prelude Text Json Schema Env World Tables Laws Concrete Projects LocalDisk.
From S2P Require Import Registry Storages Scenario Files SyncTasks Users Links Search Resolver.
From S2P Require Import FileService Auth Access Uploads Frames Integrity DiskSpec RoundTrip.

(** ** Names of temporary files *)

Lemma path_join_ends c base p : p ≠ EmptyString → ends_with c (path_join base p) = ends_with c p.
Proof.
  intros Hp. unfold path_join. destruct (String.prefix "/" p); [done|].
  destruct (str_is_empty base); [done|]. destruct (ends_with slash base).
  - by apply ends_with_app.
  - rewrite ends_with_app by done. by apply (ends_with_app c "/" p).
Qed.

Lemma resolve_path_ends c base p file :
  p ≠ EmptyString → resolve_path base p = Ok file → ends_with c file = ends_with c p.
Proof.
  intros Hp. unfold resolve_path. intros (u & _ & H)%Result_bind_ok.
  destruct (_ && _); [|injection H as <-; by apply path_join_ends].
  apply Result_bind_ok in H as (d1 & _ & H). apply Result_bind_ok in H as (d2 & _ & [= <-]).
  by apply path_join_ends.
Qed.

Lemma content_path_ends c h p :
  is_ascii_hexdigit c = false → str_all is_ascii_hexdigit h = true → h ≠ EmptyString →
  content_addressed_path h = Ok p → p ≠ EmptyString ∧ ends_with c p = false.
Proof.
  intros Hc Hh Hne. unfold content_addressed_path. destruct (Nat.ltb _ 4).
  - intros [= <-]. split; [done|]. apply not_true_iff_false. intros H%ends_with_mem.
    by rewrite (hex_no_char c h Hc Hh) in H.
  - intros (d1 & _ & H)%Result_bind_ok. apply Result_bind_ok in H as (d2 & _ & [= <-]). split.
    + destruct d1; [|done]. by destruct d2.
    + assert (∀ a b, b ≠ EmptyString → a +:+ b ≠ EmptyString) as Hn.
      { intros a b Hb Heq. apply (f_equal String.length) in Heq. rewrite str_app_length in Heq.
        destruct b; [done|]. simpl in Heq. lia. }
      rewrite !ends_with_app by (repeat apply Hn; done).
      apply not_true_iff_false. intros H%ends_with_mem. by rewrite (hex_no_char c h Hc Hh) in H.
Qed.

Definition is_part (path : string) : Prop := ends_with "t"%char path = true.

Section upload.
Context {E : Env} {HRb : RemoteReadback} {HSha : ShaStream} {HHex : ShaHex}.
Context (config : UploadSettings) (sec : string).

Lemma temp_path_part id : is_part (Uploads.temp_path_for config id).
Proof.
  unfold is_part, Uploads.temp_path_for. rewrite path_join_ends by by destruct (uuid_str id).
  by rewrite ends_with_app.
Qed.

(** Removing a temporary file loses no stored content. *)
Lemma readable_remove_part b h p data tmp w w' :
  content_addressed_path h = Ok p → str_all is_ascii_hexdigit h = true → h ≠ EmptyString →
  is_part tmp → readable b p data w →
  fs w' = base.delete tmp (fs w) → remote w' = remote w → readable b p data w'.
Proof.
  intros Hp Hh Hne Hpart Hread Hfs Hrem. unfold readable in *.
  destruct b as [base key| | | | | | |].
  1: { cbn [be_download] in *. destruct (resolve_path base p) as [f|e|] eqn:Hf.
       2-3: unfold local_download in *; rewrite Hf in *; discriminate Hread.
       rewrite (local_download_eq _ _ _ w Hf) in Hread. rewrite (local_download_eq _ _ _ w' Hf), Hfs.
       destruct (content_path_ends "t"%char h p ltac:(done) Hh Hne Hp) as [Hpe Hends].
       rewrite lookup_delete_ne; [destruct (fs w !! f); congruence|].
       intros <-. unfold is_part in Hpart.
       rewrite (resolve_path_ends _ _ _ _ Hpe Hf) in Hpart. congruence. }
  all: simpl in *; unfold lift, gets in *; rewrite bind_unfold in *; simpl in *; rewrite Hrem;
    apply (f_equal snd) in Hread; simpl in Hread; by rewrite Hread.
Qed.

(** ** Appending *)

Lemma fs_append_ok path data old w w' u :
  fs w !! path = Some old → Uploads.fs_append path data w = (w', Ok u) →
  w' = set_fs (<[path := old ++ data]> (fs w)) w.
Proof.
  intros Hold. unfold Uploads.fs_append, fs_guard, modify, ensure.
  m_run. destruct (fs_writable w); m_run; [|done]. rewrite Hold. by intros [= <- <-].
Qed.

(** The pieces of a payload that was read to its end. *)
Lemma append_chunks_ok s payload : ∀ written old w w' n,
  fs w !! ss_temp_path s = Some old →
  ss_offset_bytes s + written ≤ ss_total_size s →
  Uploads.append_chunks s written payload w = (w', Ok n) →
  ∃ chunks, payload = map inr chunks ∧ n = written + Z.of_nat (length (mjoin chunks)) ∧
    ss_offset_bytes s + n ≤ ss_total_size s ∧
    w' = set_fs (<[ss_temp_path s := old ++ mjoin chunks]> (fs w)) w.
Proof.
  induction payload as [|[e|chunk] payload IH]; intros written old w w' n Hold Hle.
  - intros [= <- <-]. exists []. simpl. split_and!; [done | lia | lia |].
    rewrite app_nil_r, insert_id by done. by destruct w.
  - done.
  - cbn [Uploads.append_chunks]. intros ([] & w1 & He & H)%bind_ok.
    apply ensure_ok in He as [-> He%Z.leb_le].
    apply bind_ok in H as (u & w1 & Ha & H). apply map_err_ok in Ha.
    apply (fs_append_ok _ _ _ _ _ _ Hold) in Ha as ->.
    apply (IH _ (old ++ chunk)) in H as (chunks & -> & -> & Hn & ->).
    + exists (chunk :: chunks). simpl. rewrite length_app. split_and!; [done | lia | lia |].
      unfold set_fs. simpl. by rewrite insert_insert_eq, app_assoc.
    + simpl. by rewrite lookup_insert_eq.
    + lia.
Qed.

(** ** Sessions *)

(** A session in progress has received exactly what its temporary file holds. *)
Record Receiving (id : Uuid) (s : UploadSession) (data : bytes) (w : World) : Prop := {
  rv_row : upload_sessions (db w) !! id = Some s;
  rv_open : UploadSession.is_in_progress s = true;
  rv_data : fs w !! ss_temp_path s = Some data;
  rv_offset : Z.of_nat (length data) = ss_offset_bytes s;
  rv_total : ss_offset_bytes s ≤ ss_total_size s;
  rv_part : is_part (ss_temp_path s)
}.

Definition advanced (n : Z) (t : Timestamp) (s : UploadSession) : UploadSession :=
  set_ss_offset_bytes n (set_ss_updated_at t s).

Definition appended (id : Uuid) (s' : UploadSession) (data : bytes) (w : World) : World :=
  set_db (set_upload_sessions (<[id := s']> (upload_sessions (db w))) (db w))
    (set_fs (<[ss_temp_path s' := data]> (fs w)) w).

Lemma load_owned_session_ok user id s w w' s0 :
  upload_sessions (db w) !! id = Some s →
  Uploads.load_owned_session user id w = (w', Ok s0) → w' = w ∧ s0 = s.
Proof.
  intros Hs. unfold Uploads.load_owned_session, UploadSession.find_by_id.
  intros (s1 & w1 & Hf & H)%bind_ok. apply or_throw_ok, gets_ok in Hf as [-> Hf].
  change (tbl (db w)) with (upload_sessions (db w)) in Hf. rewrite Hs in Hf. injection Hf as ->.
  apply bind_ok in H as ([] & w1 & He & H). apply ensure_ok in He as [-> _].
  by apply ret_ok in H as [-> ->].
Qed.

Lemma patch_steps user id req payload s data w w' n :
  Receiving id s data w → Uploads.patch sec user id req payload w = (w', Ok n) →
  ∃ chunks, payload = map inr chunks ∧
    upload_offset req ≫= parse_i64 = Some (ss_offset_bytes s) ∧
    n = ss_offset_bytes s + Z.of_nat (length (mjoin chunks)) ∧
    let s' := advanced n (now w) s in let w1 := appended id s' (data ++ mjoin chunks) w in
    Receiving id s' (data ++ mjoin chunks) w1 ∧
    (if ss_total_size s <=? n then Uploads.finish sec s' id (ss_temp_path s) w1 = (w', Ok tt)
     else w' = w1).
Proof.
  intros []. unfold Uploads.patch. intros (s0 & w1 & Hl & H)%bind_ok.
  apply (load_owned_session_ok _ _ _ _ _ _ rv_row0) in Hl as [-> ->].
  apply bind_ok in H as ([] & w1 & He & H). apply ensure_ok in He as [-> _].
  apply bind_ok in H as (off & w1 & Ho & H). apply lift_ok in Ho as [-> Ho].
  apply bind_ok in H as ([] & w1 & He & H). apply ensure_ok in He as [-> ->%Z.eqb_eq].
  apply bind_ok in H as (d & w1 & Hopen & H). apply map_err_ok in Hopen.
  assert (w1 = w) as ->.
  { apply bind_ok in Hopen as ([] & w2 & Hg & Hr). unfold fs_guard, fs_read in *.
    apply bind_ok in Hg as (b & w3 & Hg & Hg'). apply gets_ok in Hg as [-> ->].
    apply ensure_ok in Hg' as [-> _]. apply bind_ok in Hr as (o & w3 & Hr & Hr').
    apply gets_ok in Hr as [-> ->]. by apply lift_ok in Hr' as [-> _]. }
  clear Hopen. apply bind_ok in H as (written & w1 & Ha & H).
  apply (append_chunks_ok _ _ _ data) in Ha as (chunks & -> & -> & Hn & ->); [|done|lia].
  apply bind_ok in H as (s1 & w2 & Hadv & H). apply or_throw_ok in Hadv.
  unfold UploadSession.advance_offset in Hadv. apply bind_ok in Hadv as (t & w3 & Ht & Hadv).
  apply gets_ok in Ht as [-> ->]. apply sql_set_id_if_ok in Hadv as (s2 & Hs2 & _ & -> & ->).
  change (upload_sessions (db w) !! id = Some s2) in Hs2. rewrite rv_row0 in Hs2. injection Hs2 as <-.
  exists chunks. split; [done|]. split; [by destruct (_ ≫= _); simplify_eq/=|].
  apply bind_ok in H as ([] & w3 & Hfin & Hret). apply ret_ok in Hret as [-> ->]. simpl in *.
  split; [done|]. split.
  - constructor; simpl; try done.
    + by rewrite lookup_insert_eq.
    + by rewrite lookup_insert_eq.
    + rewrite length_app. lia.
  - destruct (_ <=? _); [exact Hfin|]. by apply ret_ok in Hfin as [-> _].
Qed.

(** ** Completion *)

(** The service has not seen the content, and its tables are sound. *)
Definition ready (data : bytes) (w : World) : Prop :=
  FilesOk (db w) ∧ StoragesOk (db w) ∧ fresh_locations w ∧ unknown_content data w.

Lemma ready_stable data w w' :
  file_tables (db w') = file_tables (db w) → storages (db w') = storages (db w) →
  (draws w <= draws w')%N → ready data w → ready data w'.
Proof.
  intros Ht Hs Hd (Hok & Hst & Hfr & Hnew). pose proof Ht as Ht'.
  unfold file_tables in Ht'. injection Ht' as Hf _ Hl _. split_and!.
  - by eapply FilesOk_tables.
  - intros id st. rewrite Hs. apply Hst.
  - intros n Hn. rewrite Hl. apply Hfr. lia.
  - intros i f. rewrite Hf. apply Hnew.
Qed.

Lemma sole_copy_stable w w' f l r s b data :
  SoleCopy sec w f l r s b data → file_tables (db w') = file_tables (db w) →
  admin_tables (db w') = admin_tables (db w) → readable b (fl_storage_path l) data w' →
  SoleCopy sec w' f l r s b data.
Proof.
  intros [] Ht Ha Hr. pose proof Ha as Ha'. unfold file_tables, admin_tables in *.
  injection Ht as Hf Href Hl _. injection Ha' as _ Hst _.
  constructor; rewrite ?Hf, ?Href, ?Hl, ?Hst; try done.
  destruct sc_backend as [c Hc]. exists c. by rewrite (backend_for_tables _ _ _ _ _ Ha).
Qed.

Lemma finish_ok s id data w w' :
  ready data w → fs w !! ss_temp_path s = Some data → is_part (ss_temp_path s) →
  Uploads.finish sec s id (ss_temp_path s) w = (w', Ok tt) →
  ∃ f, f_hash_sha256 f = compute_sha256 data ∧
    (FileService.download_file sec (f_id f) w').2 =
    Ok (FileService.mkDownloadResult data f (ss_content_type s) (Some (ss_original_name s))).
Proof.
  intros (Hok & Hst & Hfr & Hnew) Hd Hpart (ur & w1 & Hup & H)%bind_ok.
  rewrite (finalize_upload_core _ _ _ _ _ _ _ _ w w (hash_file_run _ data w Hd)) in Hup.
  apply (upload_core_new _ _ _ _ _ _ _ _ data) in Hup
    as (Hf & _ & l & r & st & b & Hs & Hpath & Hn); try done; [|by apply stores_upload_from_file].
  set (f := mkFile _ _ _ _ _) in *. exists f. split; [done|].
  apply bind_ok in H as ([] & w2 & Hm & Hrm).
  assert (same (λ w, (file_tables (db w), admin_tables (db w), fs w, remote w)) w1 w2) as Hq.
  { eapply guar_outcome, Hm. unfold UploadSession.mark_status. guar. }
  assert (file_tables (db w2) = file_tables (db w1) ∧ admin_tables (db w2) = admin_tables (db w1) ∧
    fs w2 = fs w1 ∧ remote w2 = remote w1) as (Ht & Ha & Hfs & Hrem).
  { unfold file_tables, admin_tables. injection Hq as -> -> -> -> -> -> -> -> ->. done. }
  assert ((fs w' = base.delete (ss_temp_path s) (fs w2) ∨ fs w' = fs w2) ∧
    db w' = db w2 ∧ remote w' = remote w2) as (Hfs' & Hdb' & Hrem').
  { revert Hrm. unfold ignore, try_with, fs_remove, fs_guard, ensure, modify. m_run.
    destruct (fs_writable w2); m_run; intros [= <-]; simpl; tauto. }
  assert (SoleCopy sec w' f l r st b data) as Hs'.
  { eapply sole_copy_stable; [exact Hs | by rewrite Hdb' | by rewrite Hdb' |].
    assert (readable b (fl_storage_path l) data w2) as Hr2.
    { eapply readable_stable; [apply Hs | done | by left]. }
    destruct Hfs' as [Hfs'|Hfs'].
    - eapply readable_remove_part; [exact Hpath | | | exact Hpart | exact Hr2 | done | done].
      + apply sha_hex_digits.
      + intros Heq. pose proof (sha_hex_length (sha_update data sha_new)) as Hlen.
        unfold compute_sha256 in Heq. rewrite Heq in Hlen. discriminate Hlen.
    - eapply readable_stable; [exact Hr2 | done | by left]. }
  rewrite (sole_copy_download _ _ _ _ _ _ _ _ Hs'). by rewrite Hn.
Qed.

(** ** A whole upload *)

(** The bytes of a payload. *)
Definition chunk_read (c : Chunk) : option bytes :=
  match c with inl _ => None | inr chunk => Some chunk end.
Definition body (payload : list Chunk) : bytes := mjoin (omap chunk_read payload).

Lemma body_chunks chunks : body (map inr chunks) = mjoin chunks.
Proof.
  unfold body. f_equal. induction chunks as [|c l IH]; [done|]. cbn. by rewrite IH.
Qed.

(** Requests of any users that append to the session and leave it short of its
    length, and the bytes they carry. *)
Inductive sends (id : Uuid) (total : Z) : bytes → World → World → Prop :=
  | sends_nil w : sends id total [] w w
  | sends_cons user req payload n rest w w1 w' :
      Uploads.patch sec user id req payload w = (w1, Ok n) → n < total →
      sends id total rest w1 w' → sends id total (body payload ++ rest) w w'.

(** What a session is about, besides its progress. *)
Definition purpose (s : UploadSession) : string * string * string * Z :=
  (ss_original_name s, ss_content_type s, ss_temp_path s, ss_total_size s).

Lemma sends_receiving id total data w w' :
  sends id total data w w' → ∀ s old, Receiving id s old w → ss_total_size s = total →
  ∃ s', Receiving id s' (old ++ data) w' ∧ purpose s' = purpose s ∧
    file_tables (db w') = file_tables (db w) ∧ storages (db w') = storages (db w) ∧
    draws w' = draws w.
Proof.
  induction 1 as [w|user req payload n rest w w1 w' Hp Hn _ IH]; intros s old Hr Ht.
  { exists s. by rewrite app_nil_r. }
  destruct (patch_steps _ _ _ _ _ _ _ _ _ Hr Hp) as (chunks & -> & _ & -> & Hr' & Hfin).
  rewrite (proj2 (Z.leb_gt _ _)) in Hfin by lia. subst w1.
  destruct (IH _ _ Hr' Ht) as (s' & Hr'' & Hpu & H1 & H2 & H3).
  exists s'. rewrite body_chunks, app_assoc. split_and!; [done..|]. by rewrite H3.
Qed.

Lemma create_ok user pid req w w' s :
  Uploads.create config user pid req w = (w', Ok s) →
  Receiving (ss_id s) s [] w' ∧
  file_tables (db w') = file_tables (db w) ∧ storages (db w') = storages (db w) ∧
  (draws w <= draws w')%N.
Proof.
  unfold Uploads.create. intros (p & w1 & Hw & H)%bind_ok.
  assert (same (λ w, (db w, fs w, draws w)) w w1) as Hq.
  { eapply guar_outcome, Hw. unfold Uploads.require_write, require_project_write_access,
      Project.find_by_id, UserProject.get_role. guar. }
  injection Hq as Hdb Hfs Hdr. clear Hw.
  apply bind_ok in H as (total & w2 & Hl & H). apply lift_ok in Hl as [-> _].
  apply bind_ok in H as ([] & w2 & He & H). apply ensure_ok in He as [-> Hpos%Z.ltb_lt].
  apply bind_ok in H as ([] & w2 & He & H). apply ensure_ok in He as [-> _].
  apply bind_ok in H as (md & w2 & Hl & H). apply lift_ok in Hl as [-> _].
  apply bind_ok in H as (id & w2 & Hi & H). rewrite new_uuid_eq in Hi. injection Hi as <- <-.
  apply bind_ok in H as ([] & w2 & Hg & H). apply map_err_ok in Hg. unfold fs_guard in Hg.
  apply bind_ok in Hg as (b & w3 & Hg & He). apply gets_ok in Hg as [-> ->].
  apply ensure_ok in He as [-> _].
  apply bind_ok in H as ([] & w2 & Hf & H). apply map_err_ok, fs_write_ok in Hf as [-> _].
  apply bind_ok in H as (t & w2 & Ht & H). apply gets_ok in Ht as [-> ->].
  apply sql_insert_ok in H as (-> & _ & _ & ->). simpl. split.
  - constructor; simpl; try done.
    + by rewrite lookup_insert_eq.
    + by rewrite lookup_insert_eq.
    + lia.
    + apply temp_path_part.
  - unfold file_tables. simpl. rewrite Hdb, Hdr. split_and!; [done..|lia].
Qed.

(** C2: an upload in pieces arrives whole: a session is created, any number of
    requests append to it, the last one reaches its declared length; the
    content, if the service did not know it, is then downloaded as the
    concatenation of everything sent, under the session's name and type. *)
Theorem resumable_round_trip user pid req last_user last_req payload data s w w1 w2 w3 :
  Uploads.create config user pid req w = (w1, Ok s) →
  sends (ss_id s) (ss_total_size s) data w1 w2 →
  Uploads.patch sec last_user (ss_id s) last_req payload w2 = (w3, Ok (ss_total_size s)) →
  ready (data ++ body payload) w →
  Z.of_nat (length (data ++ body payload)) = ss_total_size s ∧
  ∃ f, f_hash_sha256 f = compute_sha256 (data ++ body payload) ∧
    (FileService.download_file sec (f_id f) w3).2 =
    Ok (FileService.mkDownloadResult (data ++ body payload) f (ss_content_type s)
          (Some (ss_original_name s))).
Proof.
  intros (Hr & Ht & Hst & Hd)%create_ok Hsends Hp Hready.
  destruct (sends_receiving _ _ _ _ _ Hsends _ _ Hr eq_refl) as (s2 & Hr2 & Hpu & Ht2 & Hst2 & Hd2).
  injection Hpu as Hname Hct Htmp Htot.
  destruct (patch_steps _ _ _ _ _ _ _ _ _ Hr2 Hp) as (chunks & -> & _ & Hn & Hr3 & Hfin).
  rewrite body_chunks in *. rewrite Htot, Z.leb_refl in Hfin. simpl in Hr3.
  pose proof (rv_offset _ _ _ _ Hr3) as Hlen. simpl in Hlen. split; [exact Hlen|].
  rewrite <- Hname, <- Hct.
  apply (finish_ok (advanced (ss_total_size s) (now w2) s2) _ (data ++ mjoin chunks)) in Hfin;
    [exact Hfin | | apply Hr3 | apply Hr3].
  eapply ready_stable, Hready; simpl; [| |lia].
  - etrans; [|exact Ht]. etrans; [|exact Ht2]. done.
  - congruence.
Qed.
End upload.

(** ** Refusals *)

Section refusals.
Context {E : Env} (sec : string).

(** The first complaint about a request to append, if any. *)
Definition complaint (user : AuthenticatedUser) (id : Uuid) (req : TusHeaders)
    (o : option UploadSession) : option AppError :=
  match o with
  | None => Some (UploadSession.not_found id)
  | Some s =>
      if negb (is_admin user || N.eqb (ss_user_id s) (au_user_id user))
      then Some Uploads.not_upload_owner
      else if negb (UploadSession.is_in_progress s) then Some (Uploads.session_closed (ss_status s))
      else match upload_offset req ≫= parse_i64 with
           | None => Some Uploads.bad_offset
           | Some n =>
               if Z.eqb n (ss_offset_bytes s) then None
               else Some (Uploads.offset_conflict n (ss_offset_bytes s))
           end
  end.

(** C35: a request to append is refused, without any effect, when its session
    does not exist, belongs to someone else or is closed, or when it names no
    offset or another than the session's: 404, 403, 400, 400 and 409. *)
Theorem patch_refused user id req payload e w :
  complaint user id req (upload_sessions (db w) !! id) = Some e →
  Uploads.patch sec user id req payload w = (w, Err e) ∧
  status_code e ∈ [404; 403; 400; 409].
Proof.
  intros Hc. split.
  - unfold Uploads.patch, Uploads.load_owned_session, UploadSession.find_by_id, or_throw, sql_find,
      ensure. m_run. change (tbl (db w)) with (upload_sessions (db w)).
    destruct (upload_sessions (db w) !! id) as [s|]; simpl in Hc |- *; [|by injection Hc as <-].
    m_run. destruct (_ || _); simpl in Hc |- *; m_run; [|by injection Hc as <-].
    destruct (UploadSession.is_in_progress s); simpl in Hc |- *; m_run; [|by injection Hc as <-].
    unfold lift. m_run. destruct (upload_offset req ≫= parse_i64); simpl in Hc |- *;
      m_run; [|by injection Hc as <-].
    destruct (Z.eqb _ _); [done|]. m_run. by injection Hc as <-.
  - unfold complaint in Hc. repeat case_match; simplify_eq/=; set_solver.
Qed.

(** Of two requests that read the same offset, only one is counted: once
    one has recorded its progress, the other, whatever it received, is refused
    with 409 and the session keeps what the first recorded. *)
Theorem append_race id offset n m w w1 s :
  n ≠ offset → UploadSession.advance_offset id offset n w = (w1, Ok (Some s)) →
  ss_offset_bytes s = n ∧ upload_sessions (db w1) !! id = Some s ∧
  or_throw Uploads.concurrent_patch (UploadSession.advance_offset id offset m) w1 =
    (w1, Err Uploads.concurrent_patch).
Proof.
  intros Hne H. unfold UploadSession.advance_offset in *.
  apply bind_ok in H as (t & w2 & Ht & H). apply gets_ok in Ht as [-> ->].
  apply sql_set_id_if_ok in H as (r & Hr & _ & -> & ->).
  split; [done|]. split; [simpl; by rewrite lookup_insert_eq|].
  unfold or_throw, sql_set_id_if, lift. m_run. rewrite lookup_insert_eq. simpl.
  by rewrite (proj2 (Z.eqb_neq n offset)) by done.
Qed.
End refusals.

(** ** Instances *)

Definition settings : UploadSettings := mkUploadSettings 1000 3600 "/tmp".
Definition as_alice : AuthenticatedUser := mkAuthenticatedUser 100 "admin".
Definition at_offset (n : string) : TusHeaders := mkTusHeaders None None (Some n).

Definition session_created : World * Result UploadSession :=
  Uploads.create settings as_alice 10 (mkTusHeaders (Some "5") None None) deployment.
Definition session : UploadSession :=
  mkUploadSession 1002 10 100 "unnamed" "application/octet-stream" 5 0
    "/tmp/uploads/00000000-0000-0000-0000-0000000003e9.part" no_metadata "in_progress"
    (seconds 1000000) (seconds 1000000) (seconds 1003600).
Definition first_patch : World * Result Z :=
  Uploads.patch "k" as_alice 1002 (at_offset "0") [inr (text "he")] session_created.1.
Definition last_patch : World * Result Z :=
  Uploads.patch "k" as_alice 1002 (at_offset "2") [inr (text "l"); inr (text "lo")] first_patch.1.

Lemma resumable_round_trip_witness :
  ∃ f, f_hash_sha256 f = compute_sha256 hello ∧
    (FileService.download_file "k" (f_id f) last_patch.1).2 =
    Ok (FileService.mkDownloadResult hello f "application/octet-stream" (Some "unnamed")).
Proof.
  apply (resumable_round_trip settings "k" as_alice 10 (mkTusHeaders (Some "5") None None) as_alice
    (at_offset "2") [inr (text "l"); inr (text "lo")] (text "he") session deployment
    session_created.1 first_patch.1 last_patch.1).
  - apply run_ok. vm_compute. reflexivity.
  - apply (sends_cons "k" 1002 5 as_alice (at_offset "0") [inr (text "he")] 2 [] session_created.1
      first_patch.1 first_patch.1).
    + apply run_ok. vm_compute. reflexivity.
    + reflexivity.
    + apply sends_nil.
  - apply run_ok. vm_compute. reflexivity.
  - split; [exact deployment_files_ok|]. split; [exact deployment_storages_ok|].
    split; [exact deployment_fresh | exact (deployment_unknown _)].
Defined.

Lemma patch_refused_witness :
  Uploads.patch "k" as_alice 1002 (at_offset "3") [inr (text "lo")] first_patch.1 =
  (first_patch.1, Err (Uploads.offset_conflict 3 2)).
Proof.
  apply (patch_refused "k" as_alice 1002 (at_offset "3") [inr (text "lo")]
    (Uploads.offset_conflict 3 2) first_patch.1).
  vm_compute. reflexivity.
Defined.

Definition raced : World * Result (option UploadSession) :=
  UploadSession.advance_offset 1002 2 5 first_patch.1.

Lemma append_race_witness :
  or_throw Uploads.concurrent_patch (UploadSession.advance_offset 1002 2 4) raced.1 =
  (raced.1, Err Uploads.concurrent_patch).
Proof.
  apply (append_race 1002 2 5 4 first_patch.1 raced.1 (advanced 5 (seconds 1000000)
    (advanced 2 (seconds 1000000) session))).
  - discriminate.
  - apply run_ok. vm_compute. reflexivity.
Defined.
