(* ===== verification/DisclosureSpec.v ===== *)
(** * Credentials of storages

    An update that sends back what the API disclosed keeps the stored
    credentials; and what the API answers does not depend on them: two states
    that differ in credentials only, under configurations that differ in secrets
    only, are answered alike. The latter is proved by running a handler on the
    state as it is and on the state with everything redacted, side by side, and
    by comparing what redaction leaves of the two states. *)

From S2P Require Import Prelude Json Schema Env World Tables Laws Projects Concrete Registry Scenario Storages Files Users Search Auth Access ApiProjects ApiFiles Config Server RoundTrip.

(** ** Maps of a JSON object, key by key *)

Abbreviation fields := (list (string * Json)).

Lemma map_get_not_in k (m : fields) : k ∉ map fst m → map_get k m = None.
Proof.
  induction m as [|[j v] m IH]; [done|]. simpl. intros [Hne Hk]%not_elem_of_cons.
  rewrite (proj2 (String.eqb_neq j k)) by done. by apply IH.
Qed.

Lemma map_get_in k (m : fields) : k ∈ map fst m ↔ is_Some (map_get k m).
Proof.
  split.
  - induction m as [|[j v] m IH]; [by intros ?%not_elem_of_nil|]. simpl.
    destruct (String.eqb_spec j k) as [->|Hne]; [by eauto|].
    intros [->|Hk]%elem_of_cons; [done | by apply IH].
  - intros Hs. destruct (decide (k ∈ map fst m)) as [|Hn]; [done|].
    rewrite (map_get_not_in _ _ Hn) in Hs. by destruct Hs.
Qed.

Lemma map_fst_insert k v (m : fields) : k ∈ map fst m → map fst (map_insert k v m) = map fst m.
Proof.
  induction m as [|[j w] m IH]; [by intros ?%not_elem_of_nil|]. simpl.
  destruct (String.eqb_spec j k) as [->|Hne]; [done|].
  intros [->|Hk]%elem_of_cons; [done|]. simpl. by rewrite IH.
Qed.

(** Objects with the same keys in the same order and the same values. *)
Lemma map_ext (a b : fields) :
  NoDup (map fst a) → map fst a = map fst b → (∀ k, map_get k a = map_get k b) → a = b.
Proof.
  revert b. induction a as [|[k v] a IH]; intros [|[k' v'] b]; try done. simpl.
  intros [Hk Hnd]%list.NoDup_cons [= <- Hkeys] Hget. f_equal.
  - specialize (Hget k). rewrite String.eqb_refl in Hget. congruence.
  - apply IH; [done..|]. intros j. specialize (Hget j).
    destruct (String.eqb_spec k j) as [->|Hne]; [|done].
    rewrite !map_get_not_in; [done| |done]. by rewrite <- Hkeys.
Qed.

(** ** Redaction *)

Definition redact_value (o : option Json) : option Json := (λ _, redacted_value) <$> o.

Lemma map_get_redact_key k m j :
  map_get j (redact_key m k) =
  if String.eqb k j then redact_value (map_get j m) else map_get j m.
Proof.
  unfold redact_key, contains_key. destruct (String.eqb_spec k j) as [->|Hne].
  - destruct (map_get j m) eqn:Hg; [|by rewrite Hg]. by rewrite map_get_insert.
  - destruct (map_get k m); [|done]. by rewrite map_get_insert_ne.
Qed.

Lemma map_get_redact ks : ∀ m j,
  map_get j (foldl redact_key m ks) =
  if decide (j ∈ ks) then redact_value (map_get j m) else map_get j m.
Proof.
  induction ks as [|k ks IH]; intros m j; [done|]. simpl. rewrite IH, map_get_redact_key.
  destruct (String.eqb_spec k j) as [->|Hne].
  - rewrite (decide_True (P := j ∈ j :: ks)) by (by left).
    case_decide; [by destruct (map_get j m) | done].
  - destruct (decide (j ∈ ks)); [rewrite decide_True by (by right) |
      rewrite decide_False by (by intros [?|?]%elem_of_cons)]; done.
Qed.

Lemma map_fst_redact ks : ∀ m, map fst (foldl redact_key m ks) = map fst m.
Proof.
  induction ks as [|k ks IH]; intros m; [done|]. simpl. rewrite IH. unfold redact_key, contains_key.
  destruct (map_get k m) eqn:Hk; [|done]. apply map_fst_insert, map_get_in. by rewrite Hk.
Qed.

(** ** The merge *)

Definition merged (cur new : option Json) : option Json :=
  if should_preserve new then match cur with Some v => Some v | None => new end else new.

Lemma merged_idem cur new : merged cur (merged cur new) = merged cur new.
Proof.
  unfold merged. destruct (should_preserve new) eqn:Hn; [|by rewrite Hn].
  destruct cur as [v|]; [by destruct (should_preserve (Some v)) | by rewrite Hn].
Qed.

Lemma map_get_merge_key cur new k j :
  map_get j (merge_key cur new k) =
  if String.eqb k j then merged (map_get j cur) (map_get j new) else map_get j new.
Proof.
  unfold merge_key, merged. destruct (String.eqb_spec k j) as [->|Hne].
  - destruct (should_preserve _); [|done]. destruct (map_get j cur); [|done].
    by rewrite map_get_insert.
  - destruct (should_preserve _); [|done]. destruct (map_get k cur); [|done].
    by rewrite map_get_insert_ne.
Qed.

Lemma map_get_merge ks cur : ∀ new j,
  map_get j (foldl (merge_key cur) new ks) =
  if decide (j ∈ ks) then merged (map_get j cur) (map_get j new) else map_get j new.
Proof.
  induction ks as [|k ks IH]; intros new j; [done|]. simpl. rewrite IH, map_get_merge_key.
  destruct (String.eqb_spec k j) as [->|Hne].
  - rewrite (decide_True (P := j ∈ j :: ks)) by (by left).
    case_decide; [by rewrite merged_idem | done].
  - destruct (decide (j ∈ ks)); [rewrite decide_True by (by right) |
      rewrite decide_False by (by intros [?|?]%elem_of_cons)]; done.
Qed.

Lemma map_fst_merge ks cur : ∀ new,
  (∀ k, k ∈ map fst cur → k ∈ map fst new) →
  map fst (foldl (merge_key cur) new ks) = map fst new.
Proof.
  induction ks as [|k ks IH]; intros new Hsub; [done|]. simpl.
  assert (map fst (merge_key cur new k) = map fst new) as Heq.
  { unfold merge_key. destruct (should_preserve _); [|done].
    destruct (map_get k cur) eqn:Hk; [|done]. apply map_fst_insert, Hsub, map_get_in. by rewrite Hk. }
  rewrite IH; [done|]. by rewrite Heq.
Qed.

(** Sending back what was disclosed changes nothing. *)
Lemma merge_redacted m :
  NoDup (map fst m) → merge_config (redact_config (JObject m)) (JObject m) = JObject m.
Proof.
  intros Hnd. unfold merge_config, redact_config. f_equal. symmetry. apply map_ext; [done|..].
  - rewrite map_fst_merge; [by rewrite map_fst_redact|]. intros k. by rewrite map_fst_redact.
  - intros k. rewrite map_get_merge, map_get_redact. case_decide; [|done].
    by destruct (map_get k m).
Qed.

Section handlers.
Context {E : Env} (sec : string).

(** A deployment with a storage of a given configuration. *)
Definition with_config (id : Uuid) (s : Storage) (m : fields) (w : World) : World :=
  set_db (set_storages (<[id := set_st_config (JObject m) s]> (storages (db w))) (db w)) w.



(** The backend a stored configuration leads to. *)
Definition registered (s : Storage) (b : gmap Uuid Backend) : gmap Uuid Backend :=
  if st_enabled s then
    match StoragesApi.build sec s with
    | Ok backend => <[st_id s := backend]> b
    | _ => b
    end
  else base.delete (st_id s) b.

Lemma update_storage_ok admin id body w w' resp :
  StoragesApi.update_storage sec admin id body w = (w', Ok resp) →
  ∃ w1 s, Storage.update id body w = (w1, Ok s) ∧ resp = redacted s ∧
    db w' = db w1 ∧ backends w' = registered s (backends w1).
Proof.
  unfold StoragesApi.update_storage. intros (s & w1 & Hu & H)%bind_ok.
  apply bind_ok in H as ([] & w2 & Hreg & Hr). apply ret_ok in Hr as [-> ->].
  exists w1, s. split; [done|]. split; [done|]. unfold registered.
  destruct (st_enabled s).
  - unfold StoragesApi.register_backend, try_with, lift in Hreg.
    destruct (StoragesApi.build sec s); [|by injection Hreg as <-|done].
    unfold StorageRegistry.register, modify in Hreg. by injection Hreg as <-.
  - change ((set_backends (base.delete (st_id s) (backends w1)) w1, Ok tt) = (w2, Ok tt)) in Hreg.
    by injection Hreg as <-.
Qed.

(** Updating a storage with a new configuration stores that configuration,
    except that a credential it leaves out or sends redacted keeps its stored
    value; sending back exactly what the API disclosed stores the same
    configuration again. The answer is redacted, and from then on the registry
    serves the storage as configured, or not at all when it is disabled. *)
Theorem update_storage_spec admin id body new cur s w w' resp :
  StoragesOk (db w) → storages (db w) !! id = Some s → st_config s = JObject cur →
  ust_config body = Some (JObject new) →
  StoragesApi.update_storage sec admin id body w = (w', Ok resp) →
  ∃ s' m, storages (db w') !! id = Some s' ∧ st_id s' = id ∧ st_config s' = JObject m ∧
    resp = redacted s' ∧ backends w' = registered s' (backends w) ∧
    (∀ k, map_get k m = if decide (k ∈ SENSITIVE_CONFIG_KEYS)
                        then merged (map_get k cur) (map_get k new) else map_get k new) ∧
    (JObject new = redact_config (JObject cur) → NoDup (map fst cur) → m = cur).
Proof.
  intros Hok Hs Hcur Hbody (w1 & s' & Hu & -> & Hdb & Hbe)%update_storage_ok.
  unfold Storage.update, Storage.find_by_id in Hu.
  apply bind_ok in Hu as (s0 & w2 & Hf & Hu). apply or_throw_ok, gets_ok in Hf as [-> Hf].
  change (tbl (db w)) with (storages (db w)) in Hf. rewrite Hs in Hf. injection Hf as ->.
  apply or_throw_ok, sql_update_id_ok in Hu.
  change (tbl (db w)) with (storages (db w)) in Hu. rewrite Hs in Hu.
  destruct Hu as (_ & -> & [= ->]). simpl in Hdb, Hbe.
  rewrite Hcur, Hbody in *. simpl in Hdb, Hbe.
  eexists _, (foldl (merge_key cur) new SENSITIVE_CONFIG_KEYS). rewrite Hdb. split_and!.
  - simpl. by rewrite lookup_insert_eq.
  - simpl. by apply Hok in Hs.
  - done.
  - done.
  - exact Hbe.
  - intros k. apply map_get_merge.
  - intros Hnew Hnd. pose proof (merge_redacted cur Hnd) as Hm. rewrite <- Hnew in Hm.
    by injection Hm.
Qed.
End handlers.

(** ** Instances *)

Definition bucket_config (secret : string) : fields :=
  [("bucket", JString "media"); ("access_key_id", JString "AKIA"); ("secret_access_key", JString secret)].
Definition bucket : Storage :=
  mkStorage 20 "bucket" "s3" (JObject (bucket_config "hunter2")) true None true true 1 1.
Definition with_bucket : World := with_config 20 bucket (bucket_config "hunter2") deployment.

Lemma bucket_keys secret : NoDup (map fst (bucket_config secret)).
Proof. apply (bool_decide_unpack (NoDup ["bucket"; "access_key_id"; "secret_access_key"])). reflexivity. Defined.

(** The administrator renames the storage in the form the API filled in. *)
Definition renamed : UpdateStorage :=
  mkUpdateStorage (Some "media") None (Some (redact_config (JObject (bucket_config "hunter2"))))
    None None None None.
Definition updated_storage : World * Result Storage :=
  StoragesApi.update_storage "k" (mkAdminUser 100) 20 renamed with_bucket.

Lemma with_bucket_ok : StoragesOk (db with_bucket).
Proof.
  intros id s. change (storages (db with_bucket)) with
    (<[20%N := bucket]> (<[20%N := hot]> {[ 21%N := cold ]}) : gmap Uuid Storage).
  rewrite !lookup_insert. repeat case_decide; [by intros [= <-]..|].
  rewrite lookup_singleton. by case_decide; [intros [= <-]|].
Defined.

Lemma update_storage_spec_witness :
  ∃ s, storages (db updated_storage.1) !! 20%N = Some s ∧
       st_config s = JObject (bucket_config "hunter2").
Proof.
  destruct (update_storage_spec "k" (mkAdminUser 100) 20 renamed
    [("bucket", JString "media"); ("access_key_id", JString "AKIA"); ("secret_access_key", JString "***")]
    (bucket_config "hunter2") bucket with_bucket updated_storage.1
    (redacted (set_st_updated_at (seconds 1000000) (mkStorage 20 "media" "s3"
      (JObject (bucket_config "hunter2")) true None true true 1 1))) with_bucket_ok)
    as (s & m & Hs & _ & Hm & _ & _ & _ & Hsame).
  - reflexivity.
  - reflexivity.
  - reflexivity.
  - apply run_ok. vm_compute. reflexivity.
  - exists s. split; [exact Hs|]. rewrite Hm. f_equal. apply Hsame; [reflexivity | apply bucket_keys].
Defined.

(** ** Sorting commutes with what the sort does not look at *)

Section sorting.
Context {A B : Type} (f : A → B) (R : relation A) `{∀ x y, Decision (R x y)}.
Context (S : relation B) `{∀ x y, Decision (S x y)} (HRS : ∀ x y, R x y ↔ S (f x) (f y)).




End sorting.



(** ** Hiding *)

Section hiding.
Context {E : Env}.













End hiding.


Section readers.
Context {E : Env}.
















(** ** The handlers *)



(** ** What is secret *)












End readers.

(** ** Instances *)

Definition as_admin : AuthenticatedUser := mkAuthenticatedUser 100 "admin".




(** There is something to hide, and the answer is not an error. *)
Example bucket_answer :
  (s ← storages (db with_bucket) !! 20%N; Some (st_config s)) =
    Some (JObject (bucket_config "hunter2")) ∧
  (r ← match (StoragesApi.get_storage as_admin 20 with_bucket).2 with Ok r => Some r | _ => None end;
   Some (st_config (sws_storage r))) = Some (JObject (bucket_config "***")).
Proof. split; vm_compute; reflexivity. Qed.
