(* ===== verification/S3Spec.v ===== *)
(** * What the S3 backend promises

    What an object store documents about the calls the backend makes is the
    class [ObjectStore]; under it, an upload that succeeds, in one piece, in
    parts or from a file, is what a download yields, and a part that fails
    leaves no upload open. *)

From S2P Require Import Prelude Text Json Env Remote S3Backend.

(** The objects of an account and the parts staged for an upload, as the calls
    change and show them. *)
Class ObjectStore {N : Network} {Sdk : S3Sdk} := {
  object_at : S3Config → Net → string → string → option bytes;
  staged_at : S3Config → Net → string → string → string → gmap Z (string * bytes);
  put_object_stores c b k body len n n' :
    put_object c b k body len n = (n', inr tt) →
    len = None ∨ len = Some (Z.of_nat (length body)) → object_at c n' b k = Some body;
  get_object_shows c b k n n' body data :
    get_object c b k n = (n', inr body) → object_at c n b k = Some data →
    bs_broken body = None → concat (bs_chunks body) = data;
  upload_part_stages c b k id i part len n n' etag :
    upload_part c b k id i part len n = (n', inr etag) → len = Z.of_nat (length part) →
    staged_at c n' b k id = <[i := (default EmptyString etag, part)]> (staged_at c n b k id);
  complete_assembles c b k id parts datas n n' :
    complete_multipart_upload c b k id parts n = (n', inr tt) →
    Forall2 (λ p d, staged_at c n b k id !! p.1 = Some (p.2, d)) parts datas →
    object_at c n' b k = Some (concat datas)
}.

Section calls.
Context {N : Network}.

Lemma attempt_eq {A B} (k : Call A B) s :
  attempt k s = (mkConn (k (net s)).1 (tokens s), Ok (k (net s)).2).
Proof. unfold attempt. by destruct (k (net s)). Qed.

Lemma call_ok {A} what (k : Call string A) s s' a :
  call what k s = (s', Ok a) → k (net s) = (net s', inr a) ∧ tokens s' = tokens s.
Proof.
  unfold call, or_internal. rewrite remote_bind_unfold, attempt_eq.
  destruct (k (net s)) as [n [e|x]]; simpl; [done|]. by intros [= <- <-].
Qed.

Lemma or_internal_ok {A} what (r : string + A) s s' a :
  or_internal what r s = (s', Ok a) → r = inr a ∧ s' = s.
Proof. destruct r; [done|]. by intros [= <- <-]. Qed.
End calls.

Section s3.
Context {N : Network} {Sdk : S3Sdk} (c : S3Config).

Lemma sdk_ok {A} what (k : Call SdkError A) s s' a :
  S3.sdk what k s = (s', Ok a) → k (net s) = (net s', inr a).
Proof.
  unfold S3.sdk. rewrite remote_bind_unfold, attempt_eq.
  destruct (k (net s)) as [n [e|x]]; simpl; [done|]. by intros [= <- <-].
Qed.

(** ** Parts *)

(** Cutting [data] from [offset] into pieces of [p] bytes. *)
Fixpoint pieces (fuel p : nat) (data : bytes) (offset : nat) : list bytes :=
  match fuel with
  | O => []
  | S fuel' =>
      if Nat.ltb offset (length data)
      then take p (drop offset data) :: pieces fuel' p data (Nat.min (offset + p) (length data))
      else []
  end.

Lemma pieces_concat fuel p data offset :
  (0 < p)%nat → (length data <= fuel + offset)%nat →
  concat (pieces fuel p data offset) = drop offset data.
Proof.
  intros Hp. revert offset. induction fuel as [|fuel IH]; intros offset Hf; simpl.
  - by rewrite drop_ge by lia.
  - destruct (Nat.ltb_spec offset (length data)); simpl; [|by rewrite drop_ge by lia].
    rewrite IH by lia. rewrite <- (take_drop p (drop offset data)) at 2. f_equal.
    rewrite drop_drop. destruct (Nat.min_spec (offset + p) (length data)) as [[? ->]|[? ->]];
      [done | by rewrite !drop_ge by lia].
Qed.

(** Every piece has a byte, none more than the part size. *)
Lemma pieces_bounds fuel p data offset piece :
  (0 < p)%nat → piece ∈ pieces fuel p data offset → (0 < length piece <= p)%nat.
Proof.
  intros Hp. revert offset. induction fuel as [|fuel IH]; intros offset; simpl;
    [by intros ?%not_elem_of_nil|].
  destruct (Nat.ltb_spec offset (length data)); [|by intros ?%not_elem_of_nil].
  intros [->|Hin]%elem_of_cons; [|by eapply IH]. rewrite length_take, length_drop. lia.
Qed.

Context {Store : ObjectStore}.

(** What is staged for an upload: the parts so far, numbered below the next. *)
Definition staged (s : Conn) (key id : string) (next : Z) (parts : list (Z * string))
    (datas : list bytes) : Prop :=
  Forall2 (λ p d, p.1 < next ∧ staged_at c (net s) (s3_bucket c) key id !! p.1 = Some (p.2, d))
    parts datas.

Lemma send_part_ok what key id n o t part s s' p parts datas :
  S3.send_part c what key id n o t part s = (s', Ok p) →
  staged s key id n parts datas → staged s' key id (n + 1) (parts ++ [p]) (datas ++ [part]).
Proof.
  unfold S3.send_part. rewrite remote_bind_unfold, attempt_eq.
  destruct (upload_part _ _ _ _ _ _ _ _) as [net' [e|etag]] eqn:Hup; simpl.
  { by intros (? & ? & _ & ?)%remote_bind_ok. }
  intros [= <- <-] Hst. apply (upload_part_stages c) in Hup; [|done]. unfold staged. simpl.
  apply Forall2_app.
  - eapply Forall2_impl; [|exact Hst]. intros q d [Hq Hd]. split; [lia|].
    by rewrite Hup, lookup_insert_ne by (intros Heq; rewrite <- Heq in Hq; lia).
  - constructor; [|done]. split; [simpl; lia|]. by rewrite Hup, lookup_insert_eq.
Qed.

Definition part_nat : nat := Z.to_nat (S3.part_size c).

Lemma part_of (data : bytes) (offset : nat) :
  take (Nat.min (offset + part_nat) (length data) - offset) (drop offset data) =
  take part_nat (drop offset data).
Proof.
  destruct (Nat.min_spec (offset + part_nat) (length data)) as [[? ->]|[? ->]];
    [f_equal; lia|]. rewrite !take_ge; rewrite ?length_drop; lia || done.
Qed.

Lemma upload_parts_ok fuel key id data offset n done s s' parts datas :
  S3.upload_parts c fuel key id data offset n done s = (s', Ok parts) →
  staged s key id n done datas →
  ∃ m, staged s' key id m parts (datas ++ pieces fuel part_nat data offset).
Proof.
  revert offset n done s datas. induction fuel as [|fuel IH]; intros offset n done s datas; simpl;
    destruct (Nat.ltb offset (length data)); try (intros [= <- <-] ?; rewrite app_nil_r; eauto).
  fold part_nat. rewrite part_of. intros H Hst.
  apply remote_bind_ok in H as (p & s1 & Hp & H).
  pose proof (send_part_ok _ _ _ _ _ _ _ _ _ _ _ _ Hp Hst) as Hst1.
  destruct (IH _ _ _ _ _ H Hst1) as [m Hm]. exists m. by rewrite <- app_assoc in Hm.
Qed.

Lemma upload_file_parts_ok fuel key id data offset n done s s' parts datas :
  S3.upload_file_parts c fuel key id (inr data) (length data) offset n done s = (s', Ok parts) →
  staged s key id n done datas →
  ∃ m, staged s' key id m parts (datas ++ pieces fuel part_nat data offset).
Proof.
  revert offset n done s datas. induction fuel as [|fuel IH]; intros offset n done s datas; simpl;
    destruct (Nat.ltb_spec offset (length data)); try (intros [= <- <-] ?; rewrite app_nil_r; eauto).
  intros H' Hst. unfold S3.read_range in H'. rewrite remote_bind_unfold in H'. simpl in H'.
  fold part_nat in H'.
  assert (take (Nat.min part_nat (length data - offset)) (drop offset data) =
    take part_nat (drop offset data)) as Htake by (rewrite <- part_of; f_equal; lia).
  rewrite Htake in H'. apply remote_bind_ok in H' as (p & s1 & Hp & H').
  pose proof (send_part_ok _ _ _ _ _ _ _ _ _ _ _ _ Hp Hst) as Hst1.
  replace (offset + _)%nat with (Nat.min (offset + part_nat) (length data)) in H' by lia.
  destruct (IH _ _ _ _ _ H' Hst1) as [m Hm]. exists m. by rewrite <- app_assoc in Hm.
Qed.

(** With a part size, the loops end: each part takes at least a byte. *)
Lemma remote_bind_total {A B} (m : Remote A) (k : A → Remote B) s :
  (m s).2 ≠ Panic → (∀ a s1, (k a s1).2 ≠ Panic) → ((m ≫= k) s).2 ≠ Panic.
Proof. rewrite remote_bind_unfold. destruct (m s) as [s1 []]; simpl; auto. Qed.

Lemma sdk_total {A} what (k : Call SdkError A) s : (S3.sdk what k s).2 ≠ Panic.
Proof. apply remote_bind_total; [by rewrite attempt_eq | by intros [e|x] ?]. Qed.

Lemma send_part_total what key id n o t part s : (S3.send_part c what key id n o t part s).2 ≠ Panic.
Proof.
  apply remote_bind_total; [by rewrite attempt_eq|]. intros [e|x] s1; [|done].
  apply remote_bind_total; [|done]. apply remote_bind_total; [by rewrite attempt_eq | done].
Qed.

Lemma upload_parts_total fuel key id data offset n done s :
  (0 < part_nat)%nat → (length data <= fuel + offset)%nat →
  (S3.upload_parts c fuel key id data offset n done s).2 ≠ Panic.
Proof.
  intros Hp. revert offset n done s. induction fuel as [|fuel IH]; intros offset n done s Hf; simpl;
    destruct (Nat.ltb_spec offset (length data)); try discriminate; [lia|].
  apply remote_bind_total; [apply send_part_total|]. intros. apply IH. fold part_nat. lia.
Qed.

Lemma upload_file_parts_total fuel key id src size offset n done s :
  (0 < part_nat)%nat → (size <= fuel + offset)%nat →
  (S3.upload_file_parts c fuel key id src size offset n done s).2 ≠ Panic.
Proof.
  intros Hp. revert offset n done s. induction fuel as [|fuel IH]; intros offset n done s Hf; simpl;
    destruct (Nat.ltb_spec offset size); try discriminate; [lia|].
  apply remote_bind_total; [by destruct src|]. intros.
  apply remote_bind_total; [apply send_part_total|]. intros. apply IH. fold part_nat. lia.
Qed.

(** ** Whole uploads *)

Lemma complete_ok key id n parts data s s' :
  staged s key id n parts (pieces (length data) part_nat data 0) → (0 < part_nat)%nat →
  S3.complete c key id parts s = (s', Ok tt) → object_at c (net s') (s3_bucket c) key = Some data.
Proof.
  intros Hst Hp H%sdk_ok.
  apply (complete_assembles c) with (datas := pieces (length data) part_nat data 0) in H.
  - rewrite H. f_equal. apply (pieces_concat _ _ _ 0); lia.
  - eapply Forall2_impl; [|exact Hst]. by intros p d [].
Qed.

Lemma multipart_upload_ok key data s s' :
  (0 < part_nat)%nat → S3.multipart_upload c key data s = (s', Ok tt) →
  object_at c (net s') (s3_bucket c) key = Some data.
Proof.
  intros Hp H. apply remote_bind_ok in H as (id & s1 & _ & H).
  apply remote_bind_ok in H as (parts & s2 & Hparts & H).
  apply upload_parts_ok with (datas := []) in Hparts as [m Hm]; [|constructor].
  by eapply complete_ok.
Qed.

Lemma multipart_upload_from_file_ok key data s s' :
  (0 < part_nat)%nat →
  S3.multipart_upload_from_file c key (inr data) (length data) s = (s', Ok tt) →
  object_at c (net s') (s3_bucket c) key = Some data.
Proof.
  intros Hp H. apply remote_bind_ok in H as (id & s1 & _ & H).
  apply remote_bind_ok in H as (parts & s2 & Hparts & H).
  apply upload_file_parts_ok with (datas := []) in Hparts as [m Hm]; [|constructor].
  by eapply complete_ok.
Qed.

Lemma put_with_bucket_ok body key data len other s s' :
  (∀ s, body s = (s, Ok data)) → len = None ∨ len = Some (Z.of_nat (length data)) →
  S3.put_with_bucket c body key len other s = (s', Ok tt) →
  object_at c (net s') (s3_bucket c) key = Some data.
Proof.
  intros Hbody Hlen. unfold S3.put_with_bucket. rewrite remote_bind_unfold, Hbody.
  rewrite remote_bind_unfold, attempt_eq.
  destruct (put_object _ _ _ _ _ _) as [n [e|[]]] eqn:Hput; simpl.
  - destruct (S3.is_no_such_bucket e); [|done]. intros H.
    apply remote_bind_ok in H as (? & s1 & _ & H). rewrite remote_bind_unfold, Hbody in H.
    apply sdk_ok in H. by eapply put_object_stores.
  - intros [= <-]. by eapply put_object_stores.
Qed.

Lemma upload_ok path data s s' :
  (0 < part_nat)%nat → S3.upload c path data s = (s', Ok tt) →
  object_at c (net s') (s3_bucket c) (S3.object_key c path) = Some data.
Proof.
  intros Hp. unfold S3.upload. destruct (_ <=? _); [by apply multipart_upload_ok|].
  apply put_with_bucket_ok; [done | by left].
Qed.

Lemma upload_from_file_ok path data s s' :
  (0 < part_nat)%nat → S3.upload_from_file c path (inr data) (length data) s = (s', Ok tt) →
  object_at c (net s') (s3_bucket c) (S3.object_key c path) = Some data.
Proof.
  intros Hp. unfold S3.upload_from_file.
  destruct (_ <? _); [by apply multipart_upload_from_file_ok|].
  apply put_with_bucket_ok; [|by right]. intros. unfold S3.read_range. simpl.
  by rewrite remote_bind_unfold; simpl; rewrite drop_0, firstn_all.
Qed.

Lemma begin_multipart_total key s : (S3.begin_multipart c key s).2 ≠ Panic.
Proof. apply remote_bind_total; [apply sdk_total | by intros [] ?]. Qed.

Lemma put_with_bucket_total body key len other s :
  (∀ s, (body s).2 ≠ Panic) → (S3.put_with_bucket c body key len other s).2 ≠ Panic.
Proof.
  intros Hbody. apply remote_bind_total; [done|]. intros data s1.
  apply remote_bind_total; [by rewrite attempt_eq|]. intros [e|[]] s2; [|done].
  destruct (S3.is_no_such_bucket e); [|done].
  apply remote_bind_total; [apply sdk_total|]. intros _ s3.
  apply remote_bind_total; [done | intros; apply sdk_total].
Qed.

Lemma upload_total path data s : (0 < part_nat)%nat → (S3.upload c path data s).2 ≠ Panic.
Proof.
  intros Hp. unfold S3.upload. destruct (_ <=? _); [|by apply put_with_bucket_total].
  apply remote_bind_total; [apply begin_multipart_total|]. intros id s1.
  apply remote_bind_total; [apply upload_parts_total; lia | intros; apply sdk_total].
Qed.

Lemma upload_from_file_total path src size s :
  (0 < part_nat)%nat → (S3.upload_from_file c path src size s).2 ≠ Panic.
Proof.
  intros Hp. unfold S3.upload_from_file. destruct (_ <? _).
  - apply remote_bind_total; [apply begin_multipart_total|]. intros id s1.
    apply remote_bind_total; [apply upload_file_parts_total; lia | intros; apply sdk_total].
  - apply put_with_bucket_total. intros s0. apply remote_bind_total; [by destruct src | done].
Qed.

Lemma download_shows path data s s' r :
  object_at c (net s) (s3_bucket c) (S3.object_key c path) = Some data →
  S3.download c path s = (s', r) → r = Ok data ∨ ∃ e, r = Err e.
Proof.
  intros Hat. unfold S3.download, S3.get. rewrite !remote_bind_unfold, attempt_eq.
  destruct (get_object _ _ _ _) as [n [e|body]] eqn:Hget; simpl; [intros [= <- <-]; eauto|].
  destruct (bs_broken body) as [e|] eqn:Hb; intros [= <- <-]; [eauto|]. left. f_equal.
  by eapply get_object_shows.
Qed.

(** A part size of zero is accepted from the configuration of a storage, and the
    loop over the parts then sends empty parts for ever: no number of rounds
    brings it to a result. *)
Lemma zero_part_size_never_ends fuel key id data n acc s parts :
  S3.part_size c = 0 → data ≠ [] →
  (S3.upload_parts c fuel key id data 0 n acc s).2 ≠ Ok parts.
Proof.
  intros Hz Hne. assert (0 < length data)%nat as Hlen by (by destruct data; simpl; [|lia]).
  apply Nat.ltb_lt in Hlen. revert n acc s. induction fuel as [|fuel IH]; intros n acc s; simpl;
    rewrite Hlen; [done|].
  rewrite Hz. simpl. rewrite remote_bind_unfold.
  destruct (S3.send_part _ _ _ _ _ _ _ _ s) as [s1 []]; [apply IH | done..].
Qed.
End s3.
