(* ===== verification/WebSpec.v ===== *)
(** * What the HTTP backends promise

    What the services document about the requests the Azure, Google and Hetzner
    backends send is the class [WebStore]; under it, an upload that succeeds is
    what a download yields. Also: when an access token is asked for anew, what
    a listing collects, and what is read off a PROPFIND response. *)

From S2P Require Import Prelude Text Json Env Remote S3Backend AzureBackend GcsBackend.
From S2P Require Import HetznerBackend S3Spec.

(** The bytes a request carries. *)
Definition sent_bytes (b : Body) : option bytes :=
  match b with BytesBody d | StreamBody d => Some d | _ => None end.

(** What is stored under a URL, as the requests change and show it: a PUT of
    bytes (WebDAV, Azure) or a media upload (Google) answered with success
    stores them, an exchange of tokens changes nothing, a GET answered with
    success whose body arrives whole yields them. *)
Class WebStore {N : Network} {E : Env} {H : Http} := {
  stored_at : Net → string → option bytes;
  put_stores rq n n' r data :
    http_send rq n = (n', inr r) → rq_method rq = "PUT" → is_success r = true →
    sent_bytes (rq_body rq) = Some data → stored_at n' (rq_url rq) = Some data;
  media_upload_stores c op rq n n' r data :
    http_send rq n = (n', inr r) → rq_method rq = "POST" → rq_url rq = Gcs.upload_url c op →
    is_success r = true → sent_bytes (rq_body rq) = Some data →
    stored_at n' (Gcs.media_url c op) = Some data;
  exchange_keeps c jwt n url :
    stored_at (http_send (Gcs.token_request c jwt) n).1 url = stored_at n url;
  get_shows rq n n' r data :
    http_send rq n = (n', inr r) → rq_method rq = "GET" → stored_at n (rq_url rq) = Some data →
    is_success r = true → rs_broken r = None → concat (rs_chunks r) = data
}.

Section requests.
Context {N : Network} {E : Env} {H : Http}.

Lemma send_ok what rq s s' r :
  send what rq s = (s', Ok r) → http_send rq (net s) = (net s', inr r) ∧ tokens s' = tokens s.
Proof. apply call_ok. Qed.

Lemma require_success_ok what r s s' x :
  require_success what r s = (s', Ok x) → is_success r = true ∧ s' = s.
Proof. unfold require_success. destruct (is_success r); [|done]. by intros [= <- _]. Qed.

Lemma remote_ret_ok {A} (a b : A) s s' : mret (M := Remote) a s = (s', Ok b) → b = a ∧ s' = s.
Proof. by intros [= <- <-]. Qed.

Lemma of_result_ok {A} (r : Result A) s s' a : of_result r s = (s', Ok a) → r = Ok a ∧ s' = s.
Proof. by intros [= <- <-]. Qed.

Lemma utc_ok s s' t : utc s = (s', Ok t) → t = utc_now (net s) ∧ s' = s.
Proof. by intros [= <- <-]. Qed.

(** A body that was read is one that arrived whole. *)
Lemma body_bytes_ok r data :
  body_bytes r = inr data → rs_broken r = None ∧ concat (rs_chunks r) = data.
Proof. unfold body_bytes. destruct (rs_broken r); [done|]. by intros [= <-]. Qed.
End requests.

Lemma http_date_ok {N : Network} {H : Http} s s' d :
  Azure.http_date s = (s', Ok d) → d = strftime Azure.DATE_FORMAT (utc_now (net s)) ∧ s' = s.
Proof. by intros [= <- <-]. Qed.

(** Running a program backwards, one call at a time. *)
Ltac r_inv H :=
  repeat match type of H with
  | (_ ≫= _) _ = (_, Ok _) =>
      let s := fresh "s" in let a := fresh "a" in let Ha := fresh "Ha" in
      apply remote_bind_ok in H as (a & s & Ha & H);
      first
        [ apply utc_ok in Ha as [-> ->]
        | apply http_date_ok in Ha as [-> ->]
        | apply send_ok in Ha as [Ha _]
        | apply or_internal_ok in Ha as [Ha ->]
        | apply require_success_ok in Ha as [Ha ->]
        | apply of_result_ok in Ha as [Ha ->]
        | apply remote_ret_ok in Ha as [-> ->]
        | idtac ]
  end;
  simplify_eq/=.

Section uploads.
Context {N : Network} {E : Env} {H : Http} {W : WebStore}.

(** A response checked for the status "not found" and for success. *)
Lemma checked_ok what rq code nf msg s s' r :
  (resp ← send what rq;
   if Z.eqb (rs_status resp) code then fail nf else require_success msg resp;; mret resp) s =
    (s', Ok r) →
  http_send rq (net s) = (net s', inr r) ∧ is_success r = true.
Proof.
  intros Hr. r_inv Hr. destruct (Z.eqb _ _); [done|]. r_inv Hr.
  by apply remote_ret_ok in Hr as [-> ->].
Qed.

Lemma get_body_ok rq what r n n' data s d :
  http_send rq n = (n', inr r) → is_success r = true → rq_method rq = "GET" →
  stored_at n (rq_url rq) = Some data →
  or_internal (N := N) what (body_bytes r) s = (s, Ok d) → d = data.
Proof.
  intros Hsend Hs Hm Hat [Hb _]%or_internal_ok. apply body_bytes_ok in Hb as [Hbr <-].
  by eapply get_shows.
Qed.

(** ** Azure *)

Section azure.
Context {Sg : Signing} (c : AzureBlobConfig).

Definition azure_at (s : Conn) (path : string) : option bytes :=
  stored_at (net s) (Azure.blob_url c (Azure.blob_path c path)).

Lemma put_with_container_ok what put path data s s' :
  (∀ s s' r, put s = (s', Ok r) → is_success r = true → azure_at s' path = Some data) →
  Azure.put_with_container c what put s = (s', Ok tt) → azure_at s' path = Some data.
Proof.
  intros Hput. unfold Azure.put_with_container. intros Hr.
  apply remote_bind_ok in Hr as (r & s1 & H1 & Hr).
  destruct (is_success r) eqn:Hs; [injection Hr as <-; eauto|].
  destruct (str_contains _ _); [|done].
  apply remote_bind_ok in Hr as (? & s2 & _ & Hr).
  apply remote_bind_ok in Hr as (r2 & s3 & H2 & Hr).
  apply require_success_ok in Hr as [? ->]. eauto.
Qed.

Lemma azure_upload_ok path data s s' :
  Azure.upload c path data s = (s', Ok tt) → azure_at s' path = Some data.
Proof.
  apply put_with_container_ok. intros s1 s2 r Hr Hs. unfold Azure.upload_blob in Hr.
  r_inv Hr. apply send_ok in Hr as [Hr _]. by eapply put_stores in Hr.
Qed.

Lemma azure_upload_from_file_ok path data size s s' :
  Azure.upload_from_file c path (inr data) size s = (s', Ok tt) → azure_at s' path = Some data.
Proof.
  apply put_with_container_ok. intros s1 s2 r Hr Hs. unfold Azure.put_once in Hr.
  r_inv Hr. apply send_ok in Hr as [Hr _]. by eapply put_stores in Hr.
Qed.

Lemma azure_download_ok path data s s' d :
  azure_at s path = Some data → Azure.download c path s = (s', Ok d) → d = data.
Proof.
  intros Hat Hr. unfold Azure.download in Hr. apply remote_bind_ok in Hr as (r & s1 & Hget & Hr).
  unfold Azure.get, Azure.on_blob in Hget.
  assert ((date ← Azure.http_date;
    resp ← send "Azure download failed" (Azure.request "GET"
      (Azure.blob_url c (Azure.blob_path c path)) (Azure.shared_key_auth c "GET"
        (Azure.resource_of c (Azure.blob_path c path)) date None "" [] []) date [] NoBody);
    if Z.eqb (rs_status resp) NOT_FOUND then fail (NotFound ("File not found in Azure: " +:+ path))
    else require_success "Azure download failed with status" resp;; mret resp) s = (s1, Ok r))
    as Hget' by exact Hget.
  clear Hget. apply remote_bind_ok in Hget' as (date & s0 & Hd & Hget').
  apply http_date_ok in Hd as [-> ->]. apply checked_ok in Hget' as [Hsend Hs].
  pose proof (or_internal_ok _ _ _ _ _ Hr) as [_ ->]. by eapply get_body_ok in Hr.
Qed.
End azure.

(** ** Hetzner *)

Section hetzner.
Context {U : UrlDecode} {L : UnicodeCase} (c : HetznerStorageBoxConfig).

Definition hetzner_at (s : Conn) (path : string) : option bytes :=
  stored_at (net s) (Hetzner.webdav_url c path).

Lemma stored_success r : Hetzner.stored r = true → is_success r = true.
Proof.
  unfold Hetzner.stored, is_success. rewrite !orb_true_iff, !andb_true_iff, !Z.eqb_eq.
  rewrite Z.leb_le, Z.ltb_lt. lia.
Qed.

Lemma hetzner_put_ok path body b data s s' :
  (∀ s, body s = (s, Ok b)) → sent_bytes b = Some data →
  Hetzner.put c path body s = (s', Ok tt) → hetzner_at s' path = Some data.
Proof.
  intros Hbody Hb Hr. unfold Hetzner.put in Hr.
  apply remote_bind_ok in Hr as (? & s1 & _ & Hr).
  rewrite remote_bind_unfold, Hbody in Hr. r_inv Hr.
  destruct (Z.eqb _ 409).
  - apply remote_bind_ok in Hr as (? & s2 & _ & Hr). rewrite remote_bind_unfold, Hbody in Hr.
    r_inv Hr. destruct (Hetzner.stored _) eqn:Hs; [|done]. injection Hr as <-.
    eapply put_stores in Ha0; [done..| by apply stored_success | done].
  - destruct (Hetzner.stored _) eqn:Hs; [|done]. injection Hr as <-.
    eapply put_stores in Ha; [done..| by apply stored_success | done].
Qed.

Lemma hetzner_upload_ok path data s s' :
  Hetzner.upload c path data s = (s', Ok tt) → hetzner_at s' path = Some data.
Proof. by apply hetzner_put_ok with (BytesBody data). Qed.

Lemma hetzner_upload_from_file_ok path data s s' :
  Hetzner.upload_from_file c path (inr data) s = (s', Ok tt) → hetzner_at s' path = Some data.
Proof. by apply hetzner_put_ok with (StreamBody data). Qed.

Lemma hetzner_download_ok path data s s' d :
  hetzner_at s path = Some data → Hetzner.download c path s = (s', Ok d) → d = data.
Proof.
  intros Hat Hr. unfold Hetzner.download in Hr. apply remote_bind_ok in Hr as (r & s1 & Hget & Hr).
  apply checked_ok in Hget as [Hsend Hs].
  pose proof (or_internal_ok _ _ _ _ _ Hr) as [_ ->]. by eapply get_body_ok in Hr.
Qed.
End hetzner.

(** ** Google *)

Section gcs.
Context {Sg : Signing} {G : GcsSigning} (c : GcsConfig).

Definition gcs_at (s : Conn) (path : string) : option bytes :=
  stored_at (net s) (Gcs.media_url c (Gcs.object_path c path)).

Lemma exchange_token_keeps s s' tok url :
  Gcs.exchange_token c s = (s', Ok tok) → stored_at (net s') url = stored_at (net s) url.
Proof.
  intros Hr. unfold Gcs.exchange_token in Hr. apply remote_bind_ok in Hr as (now & s0 & Hnow & Hr).
  apply utc_ok in Hnow as [-> ->]. apply remote_bind_ok in Hr as (resp & s1 & Hsend & Hr).
  apply send_ok in Hsend as [Hsend _].
  assert (stored_at (net s1) url = stored_at (net s) url) as <-.
  { pose proof (exchange_keeps c (Gcs.create_jwt c (utc_now (net s) / usec_per_sec)) (net s) url)
      as Hk. by rewrite Hsend in Hk. }
  r_inv Hr. by injection Hr as <- _.
Qed.

Lemma get_access_token_run s :
  Gcs.get_access_token c s =
  match Gcs.cached_token c s with
  | Some t => if Gcs.fresh (utc_now (net s)) t then (s, Ok (ct_token t)) else Gcs.exchange_token c s
  | None => Gcs.exchange_token c s
  end.
Proof.
  unfold Gcs.get_access_token. rewrite remote_bind_unfold. simpl. rewrite remote_bind_unfold.
  destruct (Gcs.cached_token c s) as [t|]; [|done]. by destruct (Gcs.fresh _ t).
Qed.

Lemma get_access_token_keeps s s' tok url :
  Gcs.get_access_token c s = (s', Ok tok) → stored_at (net s') url = stored_at (net s) url.
Proof.
  rewrite get_access_token_run.
  destruct (Gcs.cached_token c s) as [t|]; [|apply exchange_token_keeps].
  destruct (Gcs.fresh _ t); [by intros [= <- _] | apply exchange_token_keeps].
Qed.

Lemma post_with_bucket_ok what post path data s s' :
  (∀ s s' r, post s = (s', Ok r) → is_success r = true → gcs_at s' path = Some data) →
  Gcs.post_with_bucket c what post s = (s', Ok tt) → gcs_at s' path = Some data.
Proof.
  intros Hpost. unfold Gcs.post_with_bucket. intros Hr.
  apply remote_bind_ok in Hr as (r & s1 & H1 & Hr).
  destruct (is_success r) eqn:Hs; [injection Hr as <-; eauto|].
  destruct (_ && _); [|done].
  apply remote_bind_ok in Hr as (? & s2 & _ & Hr).
  apply remote_bind_ok in Hr as (r2 & s3 & H2 & Hr).
  apply require_success_ok in Hr as [? ->]. eauto.
Qed.

Lemma gcs_upload_ok path data s s' :
  Gcs.upload c path data s = (s', Ok tt) → gcs_at s' path = Some data.
Proof.
  apply post_with_bucket_ok. intros s1 s2 r Hr Hs. unfold Gcs.post_bytes in Hr.
  r_inv Hr. apply send_ok in Hr as [Hr _]. by eapply media_upload_stores in Hr.
Qed.

Lemma gcs_upload_from_file_ok path data size s s' :
  Gcs.upload_from_file c path (inr data) size s = (s', Ok tt) → gcs_at s' path = Some data.
Proof.
  apply post_with_bucket_ok. intros s1 s2 r Hr Hs. unfold Gcs.post_once in Hr.
  r_inv Hr. apply send_ok in Hr as [Hr _]. by eapply media_upload_stores in Hr.
Qed.

Lemma gcs_download_ok path data s s' d :
  gcs_at s path = Some data → Gcs.download c path s = (s', Ok d) → d = data.
Proof.
  intros Hat Hr. unfold Gcs.download in Hr. apply remote_bind_ok in Hr as (r & s1 & Hget & Hr).
  unfold Gcs.get in Hget. apply remote_bind_ok in Hget as (tok & s2 & Htok & Hget).
  apply (get_access_token_keeps _ _ _ (Gcs.media_url c (Gcs.object_path c path))) in Htok.
  apply checked_ok in Hget as [Hsend Hs].
  pose proof (or_internal_ok _ _ _ _ _ Hr) as [_ ->].
  eapply get_body_ok in Hr; [done..|]. simpl. by rewrite Htok.
Qed.
End gcs.
End uploads.
