(* ===== verification/FileServerSpec.v ===== *)
(** * What the FTP, SFTP and SMB backends promise

    What the servers document about the calls the backends make is a class per
    protocol: a file as an account sees it, written by one connection and read
    by another. Under it, an upload that succeeds is what a download yields. *)

From S2P Require Import Prelude Text Json Env Remote S3Backend FileServers S3Spec.

(** A call that leaves what [view] shows as it was. *)
Definition keeps {N : Network} {A B} (view : Net → B) (k : Call string A) : Prop :=
  ∀ n, view (k n).1 = view n.

Section calls.
Context {N : Network} {B : Type} (view : Net → B).

Lemma call_keeps {A} what (k : Call string A) s s' a :
  keeps view k → call what k s = (s', Ok a) → view (net s') = view (net s).
Proof. intros Hk [H _]%call_ok. pose proof (Hk (net s)) as Hv. by rewrite H in Hv. Qed.

Lemma attempt_keeps {A} (k : Call string A) s s' a :
  keeps view k → attempt_ k s = (s', Ok a) → view (net s') = view (net s).
Proof.
  intros Hk. unfold attempt_. rewrite remote_bind_unfold, attempt_eq. intros [= <-]. apply Hk.
Qed.

Lemma for_parts_keeps {A} (f : A → Call string unit) l s s' a :
  (∀ x, keeps view (f x)) → for_parts (λ x, attempt_ (f x)) l s = (s', Ok a) →
  view (net s') = view (net s).
Proof.
  intros Hf. revert s. induction l as [|x l IH]; intros s; simpl; [by intros [= <-]|].
  intros (? & s1 & Hx & H)%remote_bind_ok. apply IH in H as ->. by eapply attempt_keeps in Hx.
Qed.
End calls.

(** ** FTP *)

Class FtpStore {N : Network} {F : FtpClient} := {
  (** The file a user of a server sees under a path. *)
  ftp_file : Net → string → string → string → option bytes;
  (** The server a stream is connected to, the user it is logged in as, and what
      a data stream delivers. *)
  ftp_server : FtpStream → string;
  ftp_user : Net → FtpStream → option string;
  ftp_delivers : DataStream → option bytes;
  ftp_connect_law addr n n' ftp : ftp_connect addr n = (n', inr ftp) → ftp_server ftp = addr;
  ftp_login_law ftp u p n n' : ftp_login ftp u p n = (n', inr tt) → ftp_user n' ftp = Some u;
  ftp_quiet_user h : keeps (λ n, ftp_user n h) (ftp_binary h) ∧
    ∀ d, keeps (λ n, ftp_user n h) (ftp_mkdir h d);
  ftp_quiet_files a u p :
    (∀ addr, keeps (λ n, ftp_file n a u p) (ftp_connect addr)) ∧
    (∀ h x y, keeps (λ n, ftp_file n a u p) (ftp_login h x y)) ∧
    (∀ h, keeps (λ n, ftp_file n a u p) (ftp_binary h)) ∧
    (∀ h, keeps (λ n, ftp_file n a u p) (ftp_quit h));
  ftp_put_law h u p d n n' : ftp_user n h = Some u →
    ftp_put_file h p d n = (n', inr tt) → ftp_file n' (ftp_server h) u p = Some d;
  ftp_retr_law h u p n n' ds : ftp_user n h = Some u →
    ftp_retr_as_stream h p n = (n', inr ds) → ftp_delivers ds = ftp_file n (ftp_server h) u p;
  ftp_read_law ds n n' buf d :
    ftp_read_to_end ds n = (n', inr buf) → ftp_delivers ds = Some d → buf = d
}.

Section ftp.
Context {N : Network} {F : FtpClient} {St : FtpStore} (c : FtpConfig).

Definition ftp_addr : string := ftp_host c +:+ ":" +:+ pretty (ftp_port c).
Definition ftp_at (s : Conn) (path : string) : option bytes :=
  ftp_file (net s) ftp_addr (ftp_username c) (Ftp.remote_path c path).

Lemma ftp_connected s s' h :
  Ftp.connect c s = (s', Ok h) →
  ftp_server h = ftp_addr ∧ ftp_user (net s') h = Some (ftp_username c) ∧
  ∀ path, ftp_at s' path = ftp_at s path.
Proof.
  unfold Ftp.connect. intros (h' & s1 & Hc & H)%remote_bind_ok.
  apply remote_bind_ok in H as ([] & s2 & Hl & H). apply remote_bind_ok in H as ([] & s3 & Hb & H).
  injection H as <- <-. split_and!.
  - apply call_ok in Hc as [Hc _]. by eapply ftp_connect_law.
  - apply call_ok in Hl as [Hl _]. apply ftp_login_law in Hl. rewrite <- Hl.
    eapply (call_keeps (λ n, ftp_user n h')), Hb. apply ftp_quiet_user.
  - intros path. unfold ftp_at.
    destruct (ftp_quiet_files ftp_addr (ftp_username c) (Ftp.remote_path c path)) as (K1 & K2 & K3 & _).
    erewrite (call_keeps _ _ _ _ _ _ (K3 _) Hb), (call_keeps _ _ _ _ _ _ (K2 _ _ _) Hl),
      (call_keeps _ _ _ _ _ _ (K1 _) Hc). done.
Qed.

Lemma ftp_upload_ok path data s s' :
  Ftp.upload c path data s = (s', Ok tt) → ftp_at s' path = Some data.
Proof.
  unfold Ftp.upload. intros (h & s1 & Hc & H)%remote_bind_ok.
  apply ftp_connected in Hc as (Hserver & Huser & _).
  apply remote_bind_ok in H as ([] & s2 & Hd & H). apply remote_bind_ok in H as ([] & s3 & Hp & H).
  unfold ftp_at.
  destruct (ftp_quiet_files ftp_addr (ftp_username c) (Ftp.remote_path c path)) as (_ & _ & _ & K).
  rewrite (attempt_keeps _ _ _ _ _ (K _) H). apply call_ok in Hp as [Hp _].
  eapply ftp_put_law in Hp; [by rewrite Hserver in Hp|]. rewrite <- Huser.
  eapply (for_parts_keeps (λ n, ftp_user n h)), Hd. intros d. apply ftp_quiet_user.
Qed.

Lemma ftp_download_ok path data s s' d :
  ftp_at s path = Some data → Ftp.download c path s = (s', Ok d) → d = data.
Proof.
  intros Hat. unfold Ftp.download. intros (h & s1 & Hc & H)%remote_bind_ok.
  apply ftp_connected in Hc as (Hserver & Huser & Hf). rewrite <- (Hf path) in Hat.
  rewrite remote_bind_unfold, attempt_eq in H.
  destruct (ftp_retr_as_stream h _ _) as [n [e|ds]] eqn:Hr; simpl in H;
    [by apply remote_bind_ok in H as (? & ? & ? & ?)|].
  rewrite remote_bind_unfold in H. simpl in H.
  apply remote_bind_ok in H as (buf & s2 & Hb & H). apply call_ok in Hb as [Hb _].
  apply remote_bind_ok in H as (? & s3 & _ & H). apply remote_bind_ok in H as (? & s4 & _ & H).
  injection H as _ <-. eapply ftp_read_law; [done|]. simpl.
  rewrite (ftp_retr_law _ _ _ _ _ _ Huser Hr), Hserver. exact Hat.
Qed.
End ftp.

(** ** SFTP *)

Class SftpStore {N : Network} {F : SftpClient} := {
  sftp_file : Net → string → string → string → option bytes;
  (** Where a connection, a channel and a session lead, who authenticated on
      them, and the path a file handle was created for. *)
  ssh_server : SshHandle → string;
  ssh_user : Net → SshHandle → option string;
  channel_of : SshChannel → string * string;
  session_of : SftpSession → string * string;
  created_at : SftpFile → string * string * string;
  ssh_connect_law addr n n' h : ssh_connect addr n = (n', inr h) → ssh_server h = addr;
  ssh_auth_law h u p n n' :
    ssh_authenticate_password h u p n = (n', inr true) → ssh_user n' h = Some u;
  ssh_open_law h u n n' ch : ssh_user n h = Some u →
    ssh_open_session h n = (n', inr ch) → channel_of ch = (ssh_server h, u);
  sftp_session_law ch n n' s : sftp_session ch n = (n', inr s) → session_of s = channel_of ch;
  sftp_quiet_files a u p :
    (∀ addr, keeps (λ n, sftp_file n a u p) (ssh_connect addr)) ∧
    (∀ h x y, keeps (λ n, sftp_file n a u p) (ssh_authenticate_password h x y)) ∧
    (∀ h, keeps (λ n, sftp_file n a u p) (ssh_open_session h)) ∧
    (∀ ch, keeps (λ n, sftp_file n a u p) (ssh_request_sftp ch)) ∧
    (∀ ch, keeps (λ n, sftp_file n a u p) (sftp_session ch)) ∧
    (∀ f, keeps (λ n, sftp_file n a u p) (sftp_shutdown f));
  sftp_create_law s p n n' f :
    sftp_create s p n = (n', inr f) → created_at f = (session_of s, p);
  (** A file that was just created is empty: what is written is its content. *)
  sftp_write_law f a u p d n n' : created_at f = (a, u, p) →
    sftp_write_all f d n = (n', inr tt) → sftp_file n' a u p = Some d;
  sftp_read_law s p n n' d data : sftp_read s p n = (n', inr d) →
    sftp_file n (session_of s).1 (session_of s).2 p = Some data → d = data
}.

Section sftp.
Context {N : Network} {F : SftpClient} {St : SftpStore} (c : FtpConfig).

Definition sftp_at (s : Conn) (path : string) : option bytes :=
  sftp_file (net s) (ftp_addr c) (ftp_username c) (Sftp.remote_path c path).

Lemma sftp_connected s s' h :
  Sftp.connect c s = (s', Ok h) →
  session_of h = (ftp_addr c, ftp_username c) ∧ ∀ path, sftp_at s' path = sftp_at s path.
Proof.
  unfold Sftp.connect. intros (h' & s1 & Hc & H)%remote_bind_ok.
  apply remote_bind_ok in H as ([] & s2 & Ha & H).
  2: { apply remote_bind_ok in H as (? & ? & ? & _). discriminate. }
  apply remote_bind_ok in H as ([] & s3 & Hu & H). injection Hu as <-.
  apply remote_bind_ok in H as (ch & s4 & Ho & H). apply remote_bind_ok in H as ([] & s5 & Hr & H).
  split.
  - apply call_ok in Hc as [Hc _], Ha as [Ha _], Ho as [Ho _], H as [H _].
    apply sftp_session_law in H as ->. apply ssh_auth_law in Ha. apply ssh_connect_law in Hc.
    rewrite (ssh_open_law _ _ _ _ _ Ha Ho), Hc. done.
  - intros path. unfold sftp_at.
    destruct (sftp_quiet_files (ftp_addr c) (ftp_username c) (Sftp.remote_path c path))
      as (K1 & K2 & K3 & K4 & K5 & _).
    erewrite (call_keeps _ _ _ _ _ _ (K5 _) H), (call_keeps _ _ _ _ _ _ (K4 _) Hr),
      (call_keeps _ _ _ _ _ _ (K3 _) Ho), (call_keeps _ _ _ _ _ _ (K2 _ _ _) Ha),
      (call_keeps _ _ _ _ _ _ (K1 _) Hc). done.
Qed.

Lemma sftp_upload_ok path data s s' :
  Sftp.upload c path data s = (s', Ok tt) → sftp_at s' path = Some data.
Proof.
  unfold Sftp.upload. intros (h & s1 & Hc & H)%remote_bind_ok.
  apply sftp_connected in Hc as (Hses & _). apply remote_bind_ok in H as ([] & s2 & _ & H).
  apply remote_bind_ok in H as (f & s3 & Hf & H). apply remote_bind_ok in H as ([] & s4 & Hw & H).
  apply call_ok in Hf as [Hf _]. apply sftp_create_law in Hf. rewrite Hses in Hf.
  unfold sftp_at.
  destruct (sftp_quiet_files (ftp_addr c) (ftp_username c) (Sftp.remote_path c path))
    as (_ & _ & _ & _ & _ & K).
  rewrite (call_keeps _ _ _ _ _ _ (K _) H). apply call_ok in Hw as [Hw _].
  by eapply sftp_write_law.
Qed.

Lemma sftp_download_ok path data s s' d :
  sftp_at s path = Some data → Sftp.download c path s = (s', Ok d) → d = data.
Proof.
  intros Hat. unfold Sftp.download. intros (h & s1 & Hc & H)%remote_bind_ok.
  apply sftp_connected in Hc as (Hses & Hf). rewrite <- (Hf path) in Hat.
  rewrite remote_bind_unfold, attempt_eq in H.
  destruct (sftp_read h _ _) as [n [e|buf]] eqn:Hr; simpl in H; [done|]. injection H as _ <-.
  eapply sftp_read_law; [done|]. by rewrite Hses.
Qed.
End sftp.

(** ** SMB *)

Class SmbStore {N : Network} {F : SmbLibrary} := {
  (** The file under a URL; the client and the URL a descriptor was opened on,
      and whether for writing a new file. *)
  smb_file : Net → string → option bytes;
  smb_opened : SmbFd → string;
  smb_open_law cl url o n n' fd : smb_open_with cl url o n = (n', inr fd) → smb_opened fd = url;
  smb_quiet_files url :
    (∀ a b d e g, keeps (λ n, smb_file n url) (smb_client a b d e g)) ∧
    (∀ cl fd, keeps (λ n, smb_file n url) (smb_close cl fd)) ∧
    (∀ cl u, keeps (λ n, smb_file n url) (smb_open_with cl u (mkSmbOpenOptions false true false)));
  (** Writing from the start leaves what an older, longer file has beyond. *)
  smb_write_law cl fd d n n' old :
    smb_write cl fd d n = (n', inr tt) → smb_file n (smb_opened fd) = Some old →
    smb_file n' (smb_opened fd) = Some (d ++ drop (length d) old);
  smb_create_law cl url n n' fd :
    smb_open_with cl url (mkSmbOpenOptions true false true) n = (n', inr fd) →
    smb_file n' url = Some (default [] (smb_file n url));
  smb_read_law cl fd n n' d data : smb_read cl fd n = (n', inr d) →
    smb_file n (smb_opened fd) = Some data → d = data
}.

Section samba.
Context {N : Network} {F : SmbLibrary} {St : SmbStore} (c : SambaConfig).

Definition samba_at (s : Conn) (path : string) : option bytes :=
  smb_file (net s) (Samba.file_url c path).

(** The file there was before the upload, empty when there was none. *)
Lemma samba_upload_ok path data s s' :
  Samba.upload c path data s = (s', Ok tt) →
  ∃ old, samba_at s' path = Some (data ++ drop (length data) old).
Proof.
  unfold Samba.upload. intros (cl & s1 & _ & H)%remote_bind_ok.
  apply remote_bind_ok in H as ([] & s2 & _ & H). apply remote_bind_ok in H as (fd & s3 & Ho & H).
  apply remote_bind_ok in H as ([] & s4 & Hw & H).
  apply call_ok in Ho as [Ho _], Hw as [Hw _].
  pose proof (smb_open_law _ _ _ _ _ _ Ho) as Hurl. apply smb_create_law in Ho.
  exists (default [] (smb_file (net s2) (Samba.file_url c path))).
  unfold samba_at. destruct (smb_quiet_files (Samba.file_url c path)) as (_ & K & _).
  rewrite (call_keeps _ _ _ _ _ _ (K _ _) H).
  eapply smb_write_law in Hw; [by rewrite Hurl in Hw | by rewrite Hurl].
Qed.

Lemma samba_download_ok path data s s' d :
  samba_at s path = Some data → Samba.download c path s = (s', Ok d) → d = data.
Proof.
  intros Hat. unfold Samba.download. intros (cl & s1 & Hc & H)%remote_bind_ok.
  unfold samba_at in Hat. destruct (smb_quiet_files (Samba.file_url c path)) as (K1 & _ & K3).
  unfold Samba.connect_sync in Hc. rewrite <- (call_keeps _ _ _ _ _ _ (K1 _ _ _ _ _) Hc) in Hat.
  rewrite remote_bind_unfold, attempt_eq in H. pose proof (K3 cl (Samba.file_url c path) (net s1)) as K.
  destruct (smb_open_with cl _ _ _) as [n [e|fd]] eqn:Ho; simpl in H, K;
    [by apply remote_bind_ok in H as (? & ? & ? & ?)|].
  rewrite <- K in Hat. apply smb_open_law in Ho. rewrite remote_bind_unfold in H. simpl in H.
  apply remote_bind_ok in H as (buf & s3 & Hr & H). apply call_ok in Hr as [Hr _].
  apply remote_bind_ok in H as (? & s4 & _ & H). injection H as _ <-.
  eapply smb_read_law; [done|]. by rewrite Ho.
Qed.
End samba.
