(* ===== verification/ConcreteNet.v ===== *)
(** * A concrete network

    Services to evaluate the remote backends on: one object store, one web
    server, one file server and one SMB share, kept in maps. They behave as
    documented (the classes of S3Spec.v, WebSpec.v and FileServerSpec.v). *)

From S2P Require Import Prelude Text Json Env World Concrete Remote S3Backend AzureBackend GcsBackend.
From S2P Require Import HetznerBackend FileServers S3Spec WebSpec FileServerSpec.

Record Services := mkServices {
  sv_clock : Timestamp;
  sv_buckets : gset string;
  sv_objects : gmap (string * string) bytes;
  sv_staged : gmap (string * string * string) (gmap Z (string * bytes));
  sv_web : gmap string bytes;
  sv_logins : gmap string string;
  sv_files : gmap (string * string * string) bytes;
  sv_shares : gmap string bytes
}.

Definition no_services : Services := mkServices (seconds 1000000) ∅ ∅ ∅ ∅ ∅ ∅ ∅.

Definition set_buckets (x : gset string) (n : Services) : Services :=
  mkServices (sv_clock n) x (sv_objects n) (sv_staged n) (sv_web n) (sv_logins n) (sv_files n)
    (sv_shares n).
Definition set_objects (x : gmap (string * string) bytes) (n : Services) : Services :=
  mkServices (sv_clock n) (sv_buckets n) x (sv_staged n) (sv_web n) (sv_logins n) (sv_files n)
    (sv_shares n).
Definition set_staged (x : gmap (string * string * string) (gmap Z (string * bytes)))
    (n : Services) : Services :=
  mkServices (sv_clock n) (sv_buckets n) (sv_objects n) x (sv_web n) (sv_logins n) (sv_files n)
    (sv_shares n).
Definition set_web (x : gmap string bytes) (n : Services) : Services :=
  mkServices (sv_clock n) (sv_buckets n) (sv_objects n) (sv_staged n) x (sv_logins n) (sv_files n)
    (sv_shares n).
Definition set_logins (x : gmap string string) (n : Services) : Services :=
  mkServices (sv_clock n) (sv_buckets n) (sv_objects n) (sv_staged n) (sv_web n) x (sv_files n)
    (sv_shares n).
Definition set_files (x : gmap (string * string * string) bytes) (n : Services) : Services :=
  mkServices (sv_clock n) (sv_buckets n) (sv_objects n) (sv_staged n) (sv_web n) (sv_logins n) x
    (sv_shares n).
Definition set_shares (x : gmap string bytes) (n : Services) : Services :=
  mkServices (sv_clock n) (sv_buckets n) (sv_objects n) (sv_staged n) (sv_web n) (sv_logins n)
    (sv_files n) x.

#[export] Instance concrete_network : Network := {| Net := Services; utc_now := sv_clock |}.

(** ** The object store *)

Definition sdk_error (code : string) : SdkError := mkSdkError "service error" code.

Definition staged_parts (n : Services) (b k id : string) : gmap Z (string * bytes) :=
  default ∅ (sv_staged n !! (b, k, id)).

(** The parts named, when each is staged under its etag. *)
Definition assemble (m : gmap Z (string * bytes)) (parts : list (Z * string)) : option bytes :=
  @concat Byte.byte <$> mapM (λ p : Z * string, '(etag, d) ← m !! p.1; if String.eqb etag p.2 then Some d else None) parts.

(** The keys of a bucket under a prefix, all on one page. *)
Definition keys_with (b prefix : string) (n : Services) : list string :=
  map (λ kv, kv.1.2) (filter (λ kv, kv.1.1 = b ∧ String.prefix prefix kv.1.2 = true)
    (map_to_list (sv_objects n))).

#[export] Instance concrete_sdk : S3Sdk := {|
  create_multipart_upload c b k n :=
    if bool_decide (b ∈ sv_buckets n)
    then (set_staged (<[(b, k, "upload-1") := ∅]> (sv_staged n)) n, inr (Some "upload-1"))
    else (n, inl (sdk_error "NoSuchBucket"));
  upload_part c b k id i part len n :=
    (set_staged (<[(b, k, id) := <[i := ("etag-" +:+ pretty i, part)]> (staged_parts n b k id)]>
       (sv_staged n)) n, inr (Some ("etag-" +:+ pretty i)));
  abort_multipart_upload c b k id n :=
    (set_staged (base.delete (b, k, id) (sv_staged n)) n, inr tt);
  complete_multipart_upload c b k id parts n :=
    match assemble (staged_parts n b k id) parts with
    | Some data => (set_objects (<[(b, k) := data]> (sv_objects n)) n, inr tt)
    | None => (n, inl (sdk_error "InvalidPart"))
    end;
  put_object c b k body len n :=
    if bool_decide (b ∈ sv_buckets n)
    then (set_objects (<[(b, k) := body]> (sv_objects n)) n, inr tt)
    else (n, inl (sdk_error "NoSuchBucket"));
  get_object c b k n :=
    match sv_objects n !! (b, k) with
    | Some data => (n, inr (mkByteStream [data] None))
    | None => (n, inl (mkSdkError "NoSuchKey" "NoSuchKey"))
    end;
  delete_object c b k n := (set_objects (base.delete (b, k) (sv_objects n)) n, inr tt);
  head_object c b k n :=
    match sv_objects n !! (b, k) with
    | Some _ => (n, inr tt)
    | None => (n, inl (mkSdkError "NotFound" "NotFound"))
    end;
  presigning_error secs := if 604800 <? secs then Some "too long" else None;
  presigned_get c b k secs n := (n, inr ("https://" +:+ b +:+ "/" +:+ k));
  list_buckets c n := (n, inr (map Some (elements (sv_buckets n))));
  create_bucket c b region n := (set_buckets ({[b]} ∪ sv_buckets n) n, inr tt);
  list_objects_v2 c b prefix tok n :=
    (n, inr (mkListPage (map Some (keys_with b prefix n)) (Some false) None))
|}.

Lemma assemble_ok m parts datas :
  Forall2 (λ (p : Z * string) (d : bytes), m !! p.1 = Some (p.2, d)) parts datas →
  assemble m parts = Some (concat datas).
Proof.
  intros Hf. unfold assemble. erewrite mapM_Some_2 with (k := datas); [done|].
  eapply Forall2_impl; [|exact Hf]. simpl. intros p d ->. simpl. by rewrite String.eqb_refl.
Qed.

#[export, program] Instance concrete_store : ObjectStore := {|
  object_at c n b k := sv_objects n !! (b, k);
  staged_at c n b k id := staged_parts n b k id
|}.
Next Obligation.
  intros c b k body len n n' Hp _. simpl in Hp. case_bool_decide; [|done]. injection Hp as <-.
  simpl. by rewrite lookup_insert_eq.
Qed.
Next Obligation.
  intros c b k n n' body data Hg Hat _. simpl in Hg. rewrite Hat in Hg. injection Hg as _ <-.
  simpl. apply app_nil_r.
Qed.
Next Obligation.
  intros c b k id i part len n n' etag Hu _. injection Hu as <- <-. unfold staged_parts at 1. simpl.
  by rewrite lookup_insert_eq.
Qed.
Next Obligation.
  intros c b k id parts datas n n' Hc Hst. simpl in Hc. rewrite (assemble_ok _ _ _ Hst) in Hc.
  injection Hc as <-. simpl. by rewrite lookup_insert_eq.
Qed.

(** ** The web server *)

(** Where the object of a media upload is read. *)
Definition upload_prefix : string := Gcs.GCS_UPLOAD_BASE +:+ "/b/".
Definition media_of (url : string) : option string :=
  rest ← strip_prefix upload_prefix url;
  i ← str_find "/" rest;
  op ← strip_prefix "/o?uploadType=media&name=" (str_drop i rest);
  Some (Gcs.GCS_API_V1 +:+ "/b/" +:+ str_take i rest +:+ "/o/" +:+ op +:+ "?alt=media").

Definition answer (status : Z) (body : string) : Response :=
  mkResponse status [String.list_byte_of_string body] None.

Definition serve (rq : Request) (n : Services) : Services * Response :=
  match rq_method rq with
  | "PUT" =>
      match sent_bytes (rq_body rq) with
      | Some data => (set_web (<[rq_url rq := data]> (sv_web n)) n, answer 201 "")
      | None => (n, answer 201 "")
      end
  | "POST" =>
      match sent_bytes (rq_body rq), media_of (rq_url rq) with
      | Some data, Some url => (set_web (<[url := data]> (sv_web n)) n, answer 200 "")
      | _, _ => (n, answer 200 "access_token=ya29")
      end
  | "GET" =>
      match sv_web n !! rq_url rq with
      | Some data => (n, mkResponse 200 [data] None)
      | None => (n, answer 404 "notFound")
      end
  | "DELETE" => (set_web (base.delete (rq_url rq) (sv_web n)) n, answer 204 "")
  | _ => (n, answer 207 "")
  end%string.

#[export] Instance concrete_http : Http := {|
  http_send rq n := let '(n', r) := serve rq n in (n', inr r);
  status_text z := pretty z;
  strftime fmt t := pretty (t / usec_per_sec)
|}.

#[export] Instance concrete_signing : Signing := {|
  base64_decode s := Some (String.list_byte_of_string s);
  base64_encode b := String.string_of_list_byte b;
  hmac_sha256 key msg := key ++ String.list_byte_of_string (":" +:+ msg);
  datetime_max := seconds (2 ^ 40)
|}.
#[export] Instance concrete_gcs_signing : GcsSigning := {|
  rsa_sign key data := String.list_byte_of_string key ++ data;
  base64url b := String.string_of_list_byte b;
  hex b := String.string_of_list_byte b
|}.
(** U+0130 and the Kelvin sign, which become longer and shorter; the other
    characters stay. *)
Definition char_of (codes : list nat) : string :=
  foldr (λ n s, String (Ascii.ascii_of_nat n) s) EmptyString codes.
#[export] Instance concrete_case : UnicodeCase := {| lower_wide _ c _ :=
  if String.eqb c (char_of [0xC4; 0xB0]%nat) then char_of [0x69; 0xCC; 0x87]%nat
  else if String.eqb c (char_of [0xE2; 0x84; 0xAA]%nat) then "k" else c |}.

#[export] Instance concrete_url : UrlDecode := {| urldecode s := Some s |}.

Lemma find_slash s t :
  str_mem slash s = false → str_find "/" (s +:+ String slash t) = Some (String.length s).
Proof.
  induction s as [|a s IH]; cbn [str_mem String.length]; [by destruct t|].
  rewrite orb_false_iff. intros [Ha Hs]. rewrite str_app_cons, str_find_cons, IH by done.
  destruct (String.prefix "/" _) eqn:Hp; [|done].
  apply str_prefix_cons in Hp as [<- _]. by rewrite Ascii.eqb_refl in Ha.
Qed.

Lemma media_of_upload c op : media_of (Gcs.upload_url c op) = Some (Gcs.media_url c op).
Proof.
  unfold media_of, Gcs.upload_url. rewrite <- (str_app_assoc Gcs.GCS_UPLOAD_BASE "/b/").
  fold upload_prefix. rewrite strip_prefix_app. cbn [mbind option_bind].
  change ("/o?uploadType=media&name=" +:+ urlencode op) with
    (String slash ("o?uploadType=media&name=" +:+ urlencode op)).
  rewrite find_slash by apply percent_no_slash. cbn [mbind option_bind].
  rewrite str_take_app, str_drop_length.
  change (String slash ("o?uploadType=media&name=" +:+ urlencode op)) with
    ("/o?uploadType=media&name=" +:+ urlencode op).
  rewrite strip_prefix_app. cbn [mbind option_bind].
  unfold Gcs.media_url, Gcs.object_url. by rewrite !str_app_assoc.
Qed.

#[export, program] Instance concrete_web : WebStore := {| stored_at n url := sv_web n !! url |}.
Next Obligation.
  intros [m u a h b] n n' r data Hs Hm _ Hd. simpl in *. subst m. cbn in Hs. rewrite Hd in Hs.
  injection Hs as <- _. simpl. by rewrite lookup_insert_eq.
Qed.
Next Obligation.
  intros c op [m u a h b] n n' r data Hs Hm Hu _ Hd. simpl in *. subst m u. cbn in Hs.
  rewrite Hd, media_of_upload in Hs. injection Hs as <- _. simpl. by rewrite lookup_insert_eq.
Qed.
Next Obligation. done. Qed.
Next Obligation.
  intros [m u a h b] n n' r data Hs Hm Hat _ _. simpl in *. subst m. cbn in Hs. rewrite Hat in Hs.
  injection Hs as _ <-. apply app_nil_r.
Qed.

(** ** The file servers *)

Definition not_logged_in : string := "530 not logged in".

#[export] Instance concrete_ftp : FtpClient := {|
  FtpStream := string;
  DataStream := option bytes;
  ftp_connect addr n := (n, inr addr);
  ftp_login h u p n := (set_logins (<[h := u]> (sv_logins n)) n, inr tt);
  ftp_binary h n := (n, inr tt);
  ftp_mkdir h d n := (n, inr tt);
  ftp_put_file h p d n :=
    match sv_logins n !! h with
    | Some u => (set_files (<[(h, u, p) := d]> (sv_files n)) n, inr tt)
    | None => (n, inl not_logged_in)
    end;
  ftp_retr_as_stream h p n :=
    match sv_logins n !! h with
    | Some u => (n, inr (sv_files n !! (h, u, p)))
    | None => (n, inl not_logged_in)
    end;
  ftp_read_to_end ds n := (n, match ds with Some d => inr d | None => inl "550" end);
  ftp_finalize_retr_stream h ds n := (n, inr tt);
  ftp_rm h p n := (n, inr tt);
  ftp_size h p n := (n, inr 0);
  ftp_nlst h d n := (n, inr []);
  ftp_quit h n := (n, inr tt)
|}.

#[export, program] Instance concrete_ftp_store : FtpStore := {|
  ftp_file n a u p := sv_files n !! (a, u, p);
  ftp_server h := h;
  ftp_user n h := sv_logins n !! h;
  ftp_delivers ds := ds
|}.
Next Obligation. by intros ? ? ? ? [= _ <-]. Qed.
Next Obligation. intros h u p n n' [= <-]. simpl. by rewrite lookup_insert_eq. Qed.
Next Obligation. done. Qed.
Next Obligation. done. Qed.
Next Obligation. intros h u p d n n' Hu. simpl in *. rewrite Hu. intros [= <-]. simpl. by rewrite lookup_insert_eq. Qed.
Next Obligation. intros h u p n n' ds Hu. simpl in *. rewrite Hu. by intros [= _ <-]. Qed.
Next Obligation. intros ds n n' buf d. simpl. destruct ds; [|done]. naive_solver. Qed.

#[export] Instance concrete_sftp : SftpClient := {|
  SshHandle := string;
  SshChannel := string * string;
  SftpSession := string * string;
  SftpFile := string * string * string;
  ssh_connect addr n := (n, inr addr);
  ssh_authenticate_password h u p n := (set_logins (<[h := u]> (sv_logins n)) n, inr true);
  ssh_open_session h n :=
    (n, match sv_logins n !! h with Some u => inr (h, u) | None => inl not_logged_in end);
  ssh_request_sftp ch n := (n, inr tt);
  sftp_session ch n := (n, inr ch);
  sftp_create_dir s d n := (n, inr tt);
  sftp_create s p n := (set_files (<[(s, p) := []]> (sv_files n)) n, inr (s, p));
  sftp_write_all f d n := (set_files (<[f := d]> (sv_files n)) n, inr tt);
  sftp_shutdown f n := (n, inr tt);
  sftp_read s p n :=
    (n, match sv_files n !! (s, p) with Some d => inr d | None => inl "No such file" end);
  sftp_remove_file s p n := (n, inr tt);
  sftp_try_exists s p n := (n, inr true);
  sftp_read_dir s d n := (n, inr [])
|}.

#[export, program] Instance concrete_sftp_store : SftpStore := {|
  sftp_file n a u p := sv_files n !! (a, u, p);
  ssh_server h := h;
  ssh_user n h := sv_logins n !! h;
  channel_of ch := ch;
  session_of s := s;
  created_at f := f
|}.
Next Obligation. by intros ? ? ? ? [= _ <-]. Qed.
Next Obligation. intros h u p n n' [= <-]. simpl. by rewrite lookup_insert_eq. Qed.
Next Obligation. intros h u n n' ch Hu. simpl in *. rewrite Hu. by intros [= _ <-]. Qed.
Next Obligation. by intros ? ? ? ? [= _ <-]. Qed.
Next Obligation. done. Qed.
Next Obligation. by intros ? ? ? ? ? [= _ <-]. Qed.
Next Obligation. intros f a u p d n n' Hf [= <-]. simpl in *. subst f. by rewrite lookup_insert_eq. Qed.
Next Obligation.
  intros [a u] p n n' d data Hr Hat. simpl in *. rewrite Hat in Hr. by injection Hr as _ <-.
Qed.

#[export] Instance concrete_smb : SmbLibrary := {|
  SmbClient := unit;
  SmbFd := string;
  smb_client a b d e g n := (n, inr tt);
  smb_mkdir cl url mode n := (n, inr tt);
  smb_open_with cl url o n :=
    if so_create o
    then (set_shares (<[url := default [] (sv_shares n !! url)]> (sv_shares n)) n, inr url)
    else (n, match sv_shares n !! url with Some _ => inr url | None => inl "No such file" end);
  smb_write cl fd d n :=
    match sv_shares n !! fd with
    | Some old => (set_shares (<[fd := d ++ drop (length d) old]> (sv_shares n)) n, inr tt)
    | None => (n, inl "bad descriptor")
    end;
  smb_read cl fd n :=
    (n, match sv_shares n !! fd with Some d => inr d | None => inl "bad descriptor" end);
  smb_close cl fd n := (n, inr tt);
  smb_unlink cl url n :=
    match sv_shares n !! url with
    | Some _ => (set_shares (base.delete url (sv_shares n)) n, inr tt)
    | None => (n, inl "No such file")
    end;
  smb_stat cl url n :=
    (n, match sv_shares n !! url with Some _ => inr tt | None => inl "No such file" end);
  smb_readdir cl url n := (n, inr [])
|}.

#[export, program] Instance concrete_smb_store : SmbStore := {|
  smb_file n url := sv_shares n !! url;
  smb_opened fd := fd
|}.
Next Obligation.
  intros cl url o n n' fd. simpl. destruct (so_create o); [by intros [= _ <-]|].
  destruct (_ !! _); [by intros [= _ <-] | done].
Qed.
Next Obligation. done. Qed.
Next Obligation.
  intros cl fd d n n' old. simpl. destruct (_ !! _) eqn:Ho; [|done]. intros [= <-] [= <-].
  simpl. by rewrite lookup_insert_eq.
Qed.
Next Obligation. intros cl url n n' fd [= <- _]. simpl. by rewrite lookup_insert_eq. Qed.
Next Obligation.
  intros cl fd n n' d data Hr Hat. simpl in *. rewrite Hat in Hr. by injection Hr as _ <-.
Qed.
