(* ===== verification/RemoteSpec.v ===== *)
(** * What every remote backend promises

    The contract of the trait [StorageBackend] for the backends of
    RemoteBackends.v: what is uploaded is what is downloaded, to memory or to a
    file; Google tokens are kept until shortly before they expire; paged listings
    are collected whole. Last, the file service on an object store. *)

From S2P Require Import Prelude Text Json Schema Env World Tables Concrete Remote S3Backend AzureBackend GcsBackend HetznerBackend FileServers RemoteBackends Scenario Storages Resolver FileService S3Spec WebSpec FileServerSpec ConcreteNet.

Section contract.
Context {N : Network} {E : Env} {H : Http} {Sdk : S3Sdk} {Sg : Signing} {G : GcsSigning}.
Context {U : UrlDecode} {L : UnicodeCase} {F : FtpClient} {Sf : SftpClient} {Sm : SmbLibrary}.

(** ** Uploads and downloads *)

Section readback.
Context {S3Store : ObjectStore} {Web : WebStore} {FtpSt : FtpStore} {SftpSt : SftpStore}.
Context {SmbSt : SmbStore}.

(** Multipart uploads need parts of at least a byte. *)
Definition parts_positive (b : Backend) : Prop :=
  match b with S3StorageBackend c => 0 < S3.part_size c | _ => True end.

(** What a download may yield after [data] was uploaded: an SMB file is not
    truncated when it is opened, so a longer one keeps its end. *)
Definition reads_back (b : Backend) (data d : bytes) : Prop :=
  match b with
  | SambaBackend _ => ∃ old, d = data ++ drop (length data) old
  | _ => d = data
  end.

Definition uploads (o : StorageOps) (path : string) (data : bytes) (s s' : Conn) : Prop :=
  so_upload o path data s = (s', Ok tt) ∨
  so_upload_from_file o path (inr data) (length data) s = (s', Ok tt).

(** C25: on every remote backend, what was uploaded under a path, from memory or
    from a local file, in one request or in parts, is what a download of that
    path yields; only on SMB may the end of an older, longer file remain. *)
Theorem remote_upload_download b o path data d s s1 s2 :
  backend_ops b = Some o → parts_positive b →
  uploads o path data s s1 → so_download o path s1 = (s2, Ok d) → reads_back b data d.
Proof.
  unfold uploads, reads_back. destruct b as [| c | c | c | c | c | c | c]; intros [= <-] Hb Hup Hd;
    simpl in *.
  - assert (object_at c (net s1) (s3_bucket c) (S3.object_key c path) = Some data) as Hat.
    { destruct Hup; [eapply upload_ok | eapply upload_from_file_ok]; try done; unfold part_nat; lia. }
    destruct (download_shows c path data s1 s2 (Ok d) Hat Hd) as [[= <-]|[? [=]]]. done.
  - eapply azure_download_ok, Hd. destruct Hup;
      [by eapply azure_upload_ok | by eapply azure_upload_from_file_ok].
  - eapply gcs_download_ok, Hd. destruct Hup;
      [by eapply gcs_upload_ok | by eapply gcs_upload_from_file_ok].
  - eapply hetzner_download_ok, Hd. destruct Hup;
      [by eapply hetzner_upload_ok | by eapply hetzner_upload_from_file_ok].
  - assert (Ftp.upload c path data s = (s1, Ok tt)) as Hu by by destruct Hup.
    eapply ftp_download_ok, Hd. by eapply ftp_upload_ok.
  - assert (Sftp.upload c path data s = (s1, Ok tt)) as Hu by by destruct Hup.
    eapply sftp_download_ok, Hd. by eapply sftp_upload_ok.
  - assert (Samba.upload c path data s = (s1, Ok tt)) as Hu by by destruct Hup.
    apply samba_upload_ok in Hu as [old Hat]. exists old. by eapply samba_download_ok.
Qed.
End readback.

(** ** Downloads to a file *)

Lemma streamed_agrees (get : Remote Response) what1 what2 s :
  match ((resp ← get; or_internal what1 (body_bytes resp)) s).2 with
  | Ok data => ((resp ← get; mret (streamed what2 resp)) s).2 = Ok (data, None)
  | Err _ => (∃ e, ((resp ← get; mret (streamed what2 resp)) s).2 = Err e) ∨
             ∃ part e, ((resp ← get; mret (streamed what2 resp)) s).2 = Ok (part, Some e)
  | Panic => ((resp ← get; mret (streamed what2 resp)) s).2 = Panic
  end.
Proof.
  rewrite !remote_bind_unfold. destruct (get s) as [s1 [resp|e|]]; simpl; eauto.
  unfold body_bytes, streamed. destruct (rs_broken resp); simpl; eauto.
Qed.

Lemma default_agrees (download : Remote bytes) s :
  match (download s).2 with
  | Ok data => (default_download_to_file download s).2 = Ok (data, None)
  | Err _ => (∃ e, (default_download_to_file download s).2 = Err e) ∨
             ∃ part e, (default_download_to_file download s).2 = Ok (part, Some e)
  | Panic => (default_download_to_file download s).2 = Panic
  end.
Proof.
  unfold default_download_to_file. rewrite remote_bind_unfold.
  destruct (download s) as [s1 [data|e|]]; simpl; eauto.
Qed.

(** Streaming to a local file delivers what a download would: the same
    bytes when the download succeeds, nothing when there is no object, and when
    the connection breaks the bytes that came before, with an error. *)
Theorem download_to_file_agrees b o path s :
  backend_ops b = Some o →
  match (so_download o path s).2 with
  | Ok data => (so_download_to_file o path s).2 = Ok (data, None)
  | Err _ => (∃ e, (so_download_to_file o path s).2 = Err e) ∨
             ∃ part e, (so_download_to_file o path s).2 = Ok (part, Some e)
  | Panic => (so_download_to_file o path s).2 = Panic
  end.
Proof.
  destruct b as [| c | c | c | c | c | c | c]; intros [= <-]; simpl.
  - unfold S3.download, S3.download_to_file. rewrite !remote_bind_unfold.
    destruct (S3.get c path s) as [s1 [body|e|]]; simpl; eauto.
    destruct (bs_broken body); simpl; eauto.
  - apply streamed_agrees.
  - apply streamed_agrees.
  - apply streamed_agrees.
  - apply default_agrees.
  - apply default_agrees.
  - apply default_agrees.
Qed.

(** ** Access tokens *)

(** An exchange caches the token of the response for the time the response
    states (an hour when it states none); from then on the token is handed out
    without any request as long as it has more than a minute to live, and asked
    for anew afterwards. *)
Theorem token_kept_until_expiry c s s1 tok :
  Gcs.exchange_token c s = (s1, Ok tok) →
  ∃ resp v,
    http_send (Gcs.token_request c (Gcs.create_jwt c (utc_now (net s) / usec_per_sec))) (net s) =
      (net s1, inr resp) ∧ is_success resp = true ∧ body_json resp = inr v ∧
    as_str (json_index "access_token" v) = Some tok ∧
    let lifetime := default 3600 (Gcs.as_i64 (json_index "expires_in" v)) in
    ∀ s2, tokens s2 = tokens s1 →
      Gcs.get_access_token c s2 =
      if utc_now (net s2) + seconds 60 <? utc_now (net s1) + seconds lifetime
      then (s2, Ok tok) else Gcs.exchange_token c s2.
Proof.
  intros Hr. unfold Gcs.exchange_token in Hr. apply remote_bind_ok in Hr as (now & s0 & Hnow & Hr).
  apply utc_ok in Hnow as [-> ->]. apply remote_bind_ok in Hr as (resp & s2 & Hsend & Hr).
  apply send_ok in Hsend as [Hsend _]. apply remote_bind_ok in Hr as ([] & s3 & Hs & Hr).
  apply require_success_ok in Hs as [Hs ->]. apply remote_bind_ok in Hr as (v & s3 & Hv & Hr).
  apply or_internal_ok in Hv as [Hv ->]. apply remote_bind_ok in Hr as (t & s3 & Ht & Hr).
  apply of_result_ok in Ht as [Ht ->]. apply remote_bind_ok in Hr as (later & s3 & Hl & Hr).
  apply utc_ok in Hl as [-> ->]. injection Hr as <- <-.
  exists resp, v. split; [done|]. split; [done|]. split; [done|].
  split; [destruct (as_str _); [by injection Ht as ->|done]|].
  simpl. intros s3 Htok. rewrite get_access_token_run. unfold Gcs.cached_token. rewrite Htok. simpl.
  rewrite filter_cons_True by done. simpl. done.
Qed.

(** ** Listings *)

(** The pages a bucket is listed in, from a continuation token on, with the keys
    they hold. *)
Inductive pages (c : S3Config) (prefix : string) :
    option string → Conn → nat → list string → Conn → Prop :=
  | last_page tok s page n :
      list_objects_v2 c (s3_bucket c) prefix tok (net s) = (n, inr page) →
      lp_is_truncated page ≠ Some true →
      pages c prefix tok s 1 (omap id (lp_contents page)) (mkConn n (tokens s))
  | more_pages tok s page n k keys s' :
      list_objects_v2 c (s3_bucket c) prefix tok (net s) = (n, inr page) →
      lp_is_truncated page = Some true →
      pages c prefix (lp_next_token page) (mkConn n (tokens s)) k keys s' →
      pages c prefix tok s (S k) (omap id (lp_contents page) ++ keys) s'.

Lemma list_pages_collect c prefix tok s k keys s' acc fuel :
  pages c prefix tok s k keys s' → (k <= fuel)%nat →
  S3.list_pages c fuel prefix tok acc s =
    (s', Ok (acc ++ map (relative (s3_prefix c)) keys)).
Proof.
  intros Hp. revert acc fuel. induction Hp as [tok s page n Hl Ht|tok s page n k keys s' Hl Ht Hp IH];
    intros acc [|fuel] Hk; try lia; simpl; unfold S3.sdk; rewrite !remote_bind_unfold, attempt_eq, Hl;
    simpl.
  - by rewrite bool_decide_false by done.
  - rewrite bool_decide_true by done. rewrite IH by lia. by rewrite map_app, app_assoc.
Qed.

(** C27: a listing ends with the pages of the bucket and returns, in their order,
    the paths under which the keys on all of them were stored. *)
Theorem list_collects_pages c prefix s k paths s' bound :
  pages c (S3.object_key c prefix) None s k (map (S3.object_key c) paths) s' → (k <= bound)%nat →
  S3.list c bound prefix s = (s', Ok paths).
Proof.
  intros Hp Hk. unfold S3.list. rewrite (list_pages_collect _ _ _ _ _ _ _ _ _ Hp Hk). simpl.
  rewrite map_map. rewrite (map_ext _ id), map_id; [done|]. intros p.
  apply relative_with_prefix.
Qed.
End contract.

(** ** Instances *)

Lemma remote_run_ok {A} (r : Conn * Result A) a : r.2 = Ok a → r = (r.1, Ok a).
Proof. destruct r. simpl. congruence. Qed.

(** A bucket written in parts of two bytes. *)
Definition tiny_parts : S3Config :=
  mkS3Config None "eu-central-1" "media" "app/" "key" "secret" (Some 1) (Some 2) false.
Definition with_bucket : Conn := mkConn (N := concrete_network) (set_buckets {["media"]} no_services) [].
Definition put_in_parts : Conn * Result unit := S3.upload tiny_parts "ab/cd/x" hello with_bucket.
Definition read_back : Conn * Result bytes := S3.download tiny_parts "ab/cd/x" put_in_parts.1.

Lemma remote_upload_download_witness :
  parts_positive (S3StorageBackend tiny_parts) ∧ reads_back (S3StorageBackend tiny_parts) hello hello.
Proof.
  split; [reflexivity|].
  apply (remote_upload_download (S3StorageBackend tiny_parts) (s3_ops tiny_parts) "ab/cd/x" hello hello
    with_bucket put_in_parts.1 read_back.1).
  - reflexivity.
  - reflexivity.
  - left. apply remote_run_ok. vm_compute. reflexivity.
  - apply remote_run_ok. vm_compute. reflexivity.
Defined.

Lemma download_to_file_agrees_witness :
  (so_download_to_file (s3_ops tiny_parts) "ab/cd/x" put_in_parts.1).2 = Ok (hello, None).
Proof.
  pose proof (download_to_file_agrees (S3StorageBackend tiny_parts) (s3_ops tiny_parts) "ab/cd/x"
    put_in_parts.1 eq_refl) as Hagree.
  assert ((so_download (s3_ops tiny_parts) "ab/cd/x" put_in_parts.1).2 = Ok hello) as Hd
    by (vm_compute; reflexivity).
  rewrite Hd in Hagree. exact Hagree.
Defined.

Definition service_account : GcsConfig :=
  mkGcsConfig "media" "" "sa@demo.iam.gserviceaccount.com" "pem" None None.
Definition exchanged : Conn * Result string := Gcs.exchange_token service_account with_bucket.

Lemma token_kept_until_expiry_witness :
  Gcs.get_access_token service_account exchanged.1 = (exchanged.1, Ok "ya29").
Proof.
  destruct (token_kept_until_expiry service_account with_bucket exchanged.1 "ya29")
    as (resp & v & Hsend & _ & Hv & _ & Hlater).
  { apply remote_run_ok. vm_compute. reflexivity. }
  specialize (Hlater exchanged.1 eq_refl). rewrite Hlater.
  apply (f_equal snd) in Hsend. vm_compute in Hsend. injection Hsend as <-.
  vm_compute in Hv. injection Hv as <-. reflexivity.
Defined.

(** Two objects listed under the prefix they were stored with. *)
Definition two_objects : Conn := (S3.upload tiny_parts "ab/cd/y" hello put_in_parts.1).1.
Lemma list_collects_pages_witness :
  S3.list tiny_parts 1 "ab" two_objects = (mkConn (net two_objects) (tokens two_objects), Ok ["ab/cd/y"; "ab/cd/x"]).
Proof.
  apply (list_collects_pages tiny_parts "ab" two_objects 1 ["ab/cd/y"; "ab/cd/x"] _ 1); [|done].
  assert (keys_with "media" "app/ab" (net two_objects) = ["app/ab/cd/y"; "app/ab/cd/x"]) as Hk
    by (vm_compute; reflexivity).
  replace (map (S3.object_key tiny_parts) ["ab/cd/y"; "ab/cd/x"]) with
    (omap id (map Some (keys_with "media" "app/ab" (net two_objects)))) by (by rewrite Hk).
  apply (last_page tiny_parts "app/ab" None two_objects
    (mkListPage (map Some (keys_with "media" "app/ab" (net two_objects))) (Some false) None)
    (net two_objects)).
  - reflexivity.
  - discriminate.
Defined.

(** ** A deployment on an object store

    The environment of RemoteBackends.v on the network of ConcreteNet.v, and a
    project whose only storage is an S3 account. *)

Definition cloud_env : Env := services_env (E := concrete_env).

Definition cloud_config : Json :=
  JObject [("access_key_id", JString "key"); ("secret_access_key", JString "secret");
           ("region", JString "eu-central-1"); ("prefix", JString "app")].
Definition cloud : Storage := mkStorage 20 "cloud" "s3" cloud_config true None true true 1 1.
Definition cloud_backend : Backend :=
  S3StorageBackend (mkS3Config None "eu-central-1" "" "app" "key" "secret" None None false).

Definition cloud_deployment : @World cloud_env :=
  @mkWorld cloud_env
    (set_users {[ 100%N := alice ]} (set_projects {[ 11%N := docs ]} (set_storages {[ 20%N := cloud ]}
       (set_project_storages {[ 32%N := assignment 32 11 20 ]} empty_db))))
    ∅ true (mkConn no_services []) {[ 20%N := cloud_backend ]} (seconds 1000000) 1000 ∅.

Definition in_cloud : @World cloud_env * Result FileService.UploadResult :=
  @FileService.upload_file cloud_env "k" 11 "a.txt" "text/plain" hello no_metadata cloud_deployment.
Definition from_cloud : Result FileService.DownloadResult :=
  (@FileService.download_file cloud_env "k" 1001 in_cloud.1).2.

(** The first upload of the project creates its bucket, stores the content under
    the path its hash spells, below the prefix of the storage, and the content
    is downloaded from there. *)
Example cloud_round_trip :
  (match from_cloud with Ok r => Some (FileService.dr_data r) | _ => None end,
   elements (sv_buckets (net (@remote cloud_env in_cloud.1))),
   (map_to_list (sv_objects (net (@remote cloud_env in_cloud.1)))).*2) =
  (Some hello, ["docs-000000"], [hello]).
Proof. vm_compute. reflexivity. Qed.
