(* ===== verification/PropfindSpec.v ===== *)
(** * Reading a PROPFIND response

    The scan of src/src/storage/hetzner.rs ([parse_propfind_hrefs]) over a
    response built from hrefs: it returns the paths of the files among them, in
    their order, whatever markup lies between, provided lowercasing keeps the
    length of every character in UTF-8. The tags are looked for in the lowercase
    of the text and the slices taken from the text: the two then have the same
    shape ([twins]). Where a character changes its length the slices are
    displaced, and may panic (the examples at the end). *)

From S2P Require Import Prelude Text Json Env World Concrete Remote HetznerBackend ConcreteNet.

(** ** Searching *)

(** The first occurrence, with the text before it. *)
Lemma str_find_app pat g s :
  str_contains pat g = false →
  (∀ g1 g2, g = g1 +:+ g2 → g2 ≠ EmptyString → String.prefix pat (g2 +:+ s) = false) →
  str_find pat (g +:+ s) = (λ n, String.length g + n)%nat <$> str_find pat s.
Proof.
  induction g as [|a g IH]; intros Hno Hcross.
  - rewrite str_app_nil_l. by destruct (str_find pat s).
  - rewrite str_app_cons, str_find_cons.
    pose proof (Hcross EmptyString (String a g) eq_refl ltac:(discriminate)) as H0.
    rewrite str_app_cons in H0. rewrite H0. rewrite IH.
    + by destruct (str_find pat s).
    + rewrite str_contains_cons in Hno. by apply orb_false_iff in Hno as [_ ->].
    + intros g1 g2 -> Hne. by apply (Hcross (String a g1) g2).
Qed.

(** A tag opens with the only [<] it has: it cannot start inside text that has
    none of it and end in what follows, when that starts with a [<]. *)
Definition lt : Ascii.ascii := "<"%char.

Lemma prefix_before_lt p g s :
  str_mem lt p = false → String.prefix p (g +:+ String lt s) = true → String.prefix p g = true.
Proof.
  revert g. induction p as [|b p IH]; intros [|a g]; try done.
  - rewrite str_app_nil_l, str_prefix_cons. simpl. intros Hm [-> _].
    by rewrite Ascii.eqb_refl in Hm.
  - rewrite str_app_cons, !str_prefix_cons. simpl. rewrite orb_false_iff. intros [_ Hm] [-> Hp].
    split; [done|]. by apply IH.
Qed.

Lemma contains_suffix pat g1 g2 : String.prefix pat g2 = true → str_contains pat (g1 +:+ g2) = true.
Proof.
  induction g1 as [|a g1 IH]; intros Hp.
  - rewrite str_app_nil_l. destruct g2; [by destruct pat|]. by rewrite str_contains_cons, Hp.
  - rewrite str_app_cons, str_contains_cons, IH by done. apply orb_true_r.
Qed.

(** A tag: a [<], then text without another. *)
Definition is_tag (t : string) : Prop :=
  match t with String c t' => c = lt ∧ str_mem lt t' = false | EmptyString => False end.

Lemma tag_not_across tag g1 g2 g s :
  is_tag tag → g = g1 +:+ g2 → str_contains tag g = false →
  g2 ≠ EmptyString → String.prefix tag (g2 +:+ String lt s) = false.
Proof.
  intros Ht -> Hno Hne. apply not_true_iff_false. intros Hp.
  apply not_true_iff_false in Hno. apply Hno, contains_suffix.
  destruct tag as [|b p], g2 as [|a g2]; try done. destruct Ht as [-> Hp'].
  rewrite str_app_cons, str_prefix_cons in Hp. destruct Hp as [<- Hp].
  rewrite str_prefix_cons. split; [done|]. by eapply prefix_before_lt.
Qed.

(** Up to the next tag. *)
Lemma find_next_tag tag other g s :
  is_tag tag → str_contains tag g = false → other = String lt s →
  str_find tag (g +:+ other) = (λ n, String.length g + n)%nat <$> str_find tag other.
Proof. intros Ht Hno ->. apply str_find_app; [done|]. intros g1 g2 Hg Hne. by eapply tag_not_across. Qed.

Lemma contains_find pat s : str_contains pat s = false → str_find pat s = None.
Proof.
  induction s as [|a s IH]; [by destruct pat|].
  rewrite str_contains_cons, str_find_cons, orb_false_iff. intros [-> Hs]. by rewrite IH.
Qed.

(** ** Positions *)

Lemma str_drop_drop a b s : str_drop b (str_drop a s) = str_drop (a + b) s.
Proof.
  revert s. induction a as [|a IH]; intros s; [done|]. destruct s as [|c s]; simpl; [by destruct b|].
  apply IH.
Qed.

Lemma str_drop_lower n s : str_drop n (ascii_lowercase s) = ascii_lowercase (str_drop n s).
Proof. revert s. induction n as [|n IH]; intros [|c s]; simpl; auto. Qed.

Lemma str_drop_len n s : String.length (str_drop n s) = (String.length s - n)%nat.
Proof. revert s. induction n as [|n IH]; intros [|c s]; simpl; auto. Qed.

Lemma str_drop_all n s : (String.length s <= n)%nat → str_drop n s = EmptyString.
Proof. revert s. induction n as [|n IH]; intros [|c s]; simpl; intros; try done; [lia|]. apply IH. lia. Qed.

Lemma str_take_all s : str_take (String.length s) s = s.
Proof. induction s as [|c s IH]; simpl; congruence. Qed.

(** Behind a byte that is a character a character starts. *)
Lemma valid_after_ascii p s1 a s2 :
  is_ascii a = true → valid_from p (s1 +:+ String a s2) = true → valid_from 0 s2 = true.
Proof.
  unfold is_ascii. rewrite Nat.ltb_lt. intros Ha. revert p.
  induction s1 as [|b s1 IH]; intros p.
  - rewrite str_app_nil_l. simpl. destruct p as [|p].
    + intros [_ Hv]%andb_true_iff. unfold utf8_width in Hv.
      destruct (Nat.ltb_spec (Ascii.nat_of_ascii a) 192); [done | lia].
    + unfold is_continuation.
      destruct (Nat.leb_spec 128 (Ascii.nat_of_ascii a)); [lia | done].
  - rewrite str_app_cons. simpl.
    by destruct p as [|p]; intros [_ Hv]%andb_true_iff; eapply IH.
Qed.

Lemma valid_start s : valid_from 0 s = true → is_char_boundary s 0 = true.
Proof. unfold is_char_boundary. destruct s as [|a s]; simpl; [done|]. by intros [? _]%andb_true_iff. Qed.

Lemma boundary_behind n a rest s :
  is_ascii a = true → valid_utf8 s = true → str_drop n s = String a rest →
  is_char_boundary s (S n) = true.
Proof.
  intros Ha Hv Hn. pose proof (str_drop_len n s) as Hlen. rewrite Hn in Hlen. simpl in Hlen.
  assert (str_drop (S n) s = rest) as Hrest by (by rewrite <- Nat.add_1_r, <- str_drop_drop, Hn).
  assert (valid_from 0 rest = true) as Hr.
  { apply (valid_after_ascii 0 (str_take n s) a); [done|]. by rewrite <- Hn, str_take_drop. }
  unfold is_char_boundary. rewrite Hrest. destruct rest as [|c rest].
  - apply Nat.eqb_eq. simpl in Hlen. lia.
  - simpl in Hr. by apply andb_true_iff in Hr as [? _].
Qed.

Lemma boundary_at n a rest s :
  is_continuation a = false → str_drop n s = String a rest → is_char_boundary s n = true.
Proof. unfold is_char_boundary. by intros Ha ->; rewrite Ha. Qed.

Lemma boundary_end s : is_char_boundary s (String.length s) = true.
Proof. unfold is_char_boundary. by rewrite str_drop_all, Nat.eqb_refl. Qed.

(** ** Texts of the same shape *)

(** Byte by byte, the same ASCII characters, and beyond ASCII bytes that start
    and continue characters at the same positions. *)
Definition twin (a b : Ascii.ascii) : Prop :=
  is_ascii a = is_ascii b ∧ is_continuation a = is_continuation b ∧ (is_ascii b = true → a = b).
Fixpoint twins (l t : string) : Prop :=
  match l, t with
  | EmptyString, EmptyString => True
  | String a l', String b t' => twin a b ∧ twins l' t'
  | _, _ => False
  end.

Fixpoint all_ascii (s : string) : Prop :=
  match s with String a s' => is_ascii a = true ∧ all_ascii s' | EmptyString => True end.

Lemma twins_refl s : twins s s.
Proof. induction s; simpl; [done|]. by repeat split. Qed.

Lemma twins_app l1 l2 t1 t2 : twins l1 t1 → twins l2 t2 → twins (l1 +:+ l2) (t1 +:+ t2).
Proof.
  revert t1. induction l1 as [|a l1 IH]; intros [|b t1]; try done.
  rewrite !str_app_cons. intros [? ?] ?. split; [done|]. by apply IH.
Qed.

Lemma twins_length l t : twins l t → String.length l = String.length t.
Proof. revert t. induction l as [|a l IH]; intros [|b t]; simpl; try done. intros [_ H]. f_equal; auto. Qed.

Lemma twins_drop n l t : twins l t → twins (str_drop n l) (str_drop n t).
Proof. revert l t. induction n as [|n IH]; intros [|a l] [|b t]; simpl; try done. intros [_ H]. auto. Qed.

Lemma twins_prefix p l t : all_ascii p → twins l t → String.prefix p l = String.prefix p t.
Proof.
  revert l t. induction p as [|c p IH]; intros [|a l] [|b t]; try done.
  intros [Hc Hp] [(Hab & _ & Heq) Ht]. apply eq_true_iff_eq. rewrite !str_prefix_cons, (IH l t Hp Ht).
  split; intros [-> Hpre]; (split; [|done]).
  - apply Heq. by rewrite <- Hab.
  - symmetry. by apply Heq.
Qed.

Lemma twins_find p l t : all_ascii p → twins l t → str_find p l = str_find p t.
Proof.
  intros Hp. revert t. induction l as [|a l IH]; intros [|b t] Ht; try done.
  rewrite !str_find_cons, (twins_prefix p _ _ Hp Ht). destruct Ht as [_ Ht]. by rewrite (IH t Ht).
Qed.

Lemma twins_boundary n l t : twins l t → is_char_boundary l n = is_char_boundary t n.
Proof.
  intros Ht. unfold is_char_boundary. rewrite (twins_length _ _ Ht).
  pose proof (twins_drop n _ _ Ht) as Hd.
  destruct (str_drop n l), (str_drop n t); try done. by destruct Hd as [(_ & -> & _) _].
Qed.

(** ** Characters that keep their size *)

(** One character: a byte that starts it, and as many that continue it as that
    byte says. *)
Fixpoint continues (s : string) : bool :=
  match s with String a s' => is_continuation a && continues s' | EmptyString => true end.
Definition is_char (c : string) : bool :=
  match c with
  | String a s => negb (is_continuation a) && continues s && Nat.eqb (String.length s) (utf8_width a - 1)
  | EmptyString => false
  end.
Definition wide (c : string) : bool := Nat.leb 2 (String.length c).

(** Whatever stands around it, every character of the text beyond ASCII has for
    its lowercase one character of its own length, as most have (the dotted
    capital I, U+0130, has two, and the Kelvin sign, U+212A, an ASCII one). *)
Definition steady {L : UnicodeCase} (s : string) : Prop :=
  Forall (λ c, ∀ before after,
            is_char (lower_wide before c after) = true ∧
            String.length (lower_wide before c after) = String.length c)
    (List.filter wide (utf8_chars s)).

Lemma split_chars_concat p s : let '(c, l) := split_chars p s in c +:+ String.concat EmptyString l = s.
Proof.
  revert p. induction s as [|a s IH]; intros p; [done|]. simpl. destruct p as [|p].
  - specialize (IH (utf8_width a - 1)%nat). destruct (split_chars _ s) as [c l].
    rewrite str_app_nil_l. destruct l as [|c' l]; simpl in *; by rewrite <- IH, ?str_app_nil_r.
  - specialize (IH p). destruct (split_chars p s) as [c l]. by rewrite str_app_cons, IH.
Qed.

Lemma split_chars_are p s :
  valid_from p s = true →
  let '(c, l) := split_chars p s in
  continues c = true ∧ String.length c = p ∧ Forall (λ c', is_char c' = true) l.
Proof.
  revert p. induction s as [|a s IH]; intros p; simpl.
  - intros ->%Nat.eqb_eq. by repeat split.
  - destruct p as [|p]; intros [Ha Hv]%andb_true_iff; specialize (IH _ Hv);
      destruct (split_chars _ s) as [c l]; destruct IH as (Hc & Hlen & Hl); simpl.
    + repeat split; [done..|]. constructor; [|done]. simpl. by rewrite Ha, Hc, Hlen, Nat.eqb_refl.
    + rewrite Ha, Hc, Hlen. by repeat split.
Qed.

Lemma continues_twins l t :
  continues l = true → continues t = true → String.length l = String.length t →
  twins l (ascii_lowercase t).
Proof.
  assert (∀ a, is_continuation a = true → is_ascii a = false ∧ ascii_lower a = a) as Hcont.
  { intros a. unfold is_continuation, is_ascii, ascii_lower.
    rewrite andb_true_iff, Nat.leb_le, Nat.ltb_lt, Nat.ltb_ge. intros [? _]. split; [lia|].
    destruct (Nat.leb_spec (Ascii.nat_of_ascii a) 90); [lia|]. by rewrite andb_false_r. }
  revert t. induction l as [|a l IH]; intros [|b t]; simpl; try done.
  rewrite !andb_true_iff. intros [Ha Hl] [Hb Ht] [= Hlen].
  destruct (Hcont a Ha) as [Ha' _], (Hcont b Hb) as [Hb' ->].
  split; [|by apply IH]. repeat split; congruence.
Qed.

Lemma char_twins l c :
  is_char l = true → is_char c = true → String.length l = String.length c → wide c = true →
  twins l (ascii_lowercase c).
Proof.
  assert (∀ a s, is_char (String a s) = true → wide (String a s) = true →
    is_ascii a = false ∧ is_continuation a = false ∧ ascii_lower a = a ∧ continues s = true) as Hlead.
  { intros a s. unfold is_char, wide, utf8_width, is_ascii, ascii_lower. simpl String.length.
    rewrite !andb_true_iff, Nat.eqb_eq, Nat.leb_le, negb_true_iff. intros [[Ha Hs] Hlen] Hw.
    destruct (Nat.ltb_spec (Ascii.nat_of_ascii a) 192); [lia|].
    destruct (Nat.ltb_spec (Ascii.nat_of_ascii a) 128); [lia|].
    destruct (Nat.leb_spec (Ascii.nat_of_ascii a) 90); [lia|]. by rewrite andb_false_r. }
  destruct l as [|a l], c as [|b c]; try done. intros Hl Hc Hlen Hw.
  destruct (Hlead a l Hl) as (Ha1 & Ha2 & _ & Ha4); [by unfold wide; rewrite Hlen|].
  destruct (Hlead b c Hc Hw) as (Hb1 & Hb2 & Hb3 & Hb4). injection Hlen as Hlen.
  simpl. rewrite Hb3. split; [repeat split; congruence | by apply continues_twins].
Qed.

Lemma narrow_char c : is_char c = true → wide c = false → ∃ a, c = String a EmptyString ∧ is_ascii a = true.
Proof.
  destruct c as [|a [|b c]]; try done. unfold is_char, is_continuation, is_ascii, utf8_width.
  intros Hc _. exists a. split; [done|]. apply Nat.ltb_lt. revert Hc. simpl String.length.
  destruct (Nat.leb_spec 128 (Ascii.nat_of_ascii a)), (Nat.ltb_spec (Ascii.nat_of_ascii a) 192);
    simpl; try lia; try done.
  repeat case_match; simpl; intros; done.
Qed.

(** The lowercase of such a text has the shape of its ASCII lowercase. *)
Lemma lowercase_twins {L : UnicodeCase} s :
  valid_utf8 s = true → steady s → twins (to_lowercase s) (ascii_lowercase s).
Proof.
  intros Hv Hs. unfold to_lowercase.
  pose proof (split_chars_concat 0 s) as Hcat. pose proof (split_chars_are 0 s Hv) as Hare.
  unfold steady, utf8_chars in *. destruct (split_chars 0 s) as [c l].
  destruct Hare as (_ & Hc & Hl). destruct c as [|? c]; [|done]. clear Hc. simpl in *.
  rewrite str_app_nil_l in Hcat. subst s. clear Hv. generalize EmptyString at 1.
  induction Hl as [|c l Hc Hl IH]; intros before; [done|].
  assert (String.concat EmptyString (c :: l) = c +:+ String.concat EmptyString l) as ->.
  { destruct l; simpl; [by rewrite str_app_nil_r | done]. }
  simpl in Hs |- *. rewrite ascii_lowercase_app. apply twins_app.
  - destruct (wide c) eqn:Hw.
    + apply Forall_cons_iff in Hs as [Hs _]. destruct (Hs before (String.concat EmptyString l)).
      destruct c as [|a [|b c]]; try done. by apply char_twins.
    + destruct (narrow_char c Hc Hw) as (a & -> & Ha). simpl. rewrite Ha. apply twins_refl.
  - apply IH. destruct (wide c); [|done]. by apply Forall_cons_iff in Hs as [_ Hs].
Qed.

(** ** Responses *)

(** Markup up to an href, and the href. *)
Definition element (gap href : string) (rest : string) : string :=
  gap +:+ "<D:href>" +:+ href +:+ "</D:href>" +:+ rest.
Fixpoint response (items : list (string * string)) (tail : string) : string :=
  match items with
  | [] => tail
  | (gap, href) :: items' => element gap href (response items' tail)
  end.

Definition free_of (tag s : string) : Prop := str_contains tag (ascii_lowercase s) = false.

Definition well_formed (items : list (string * string)) (tail : string) : Prop :=
  Forall (λ it, free_of "<d:href>" it.1 ∧ free_of "</d:href>" it.2) items ∧
  free_of "<d:href>" tail ∧ free_of "<href>" tail.

Section scan.
Context {U : UrlDecode} {L : UnicodeCase} (base_path : string).

(** What is left of the previous closing tag when a round starts. *)
Definition lead (b : bool) : string := if b then "/D:href>" else EmptyString.

Lemma free_of_lead tag b s :
  String.prefix "<" tag = true → free_of tag s → free_of tag (lead b +:+ s).
Proof.
  unfold free_of. destruct b; [|done]. destruct tag as [|c tag]; [done|].
  intros [<- _]%str_prefix_cons Hs. rewrite ascii_lowercase_app. exact Hs.
Qed.

(** A text, its lowercase and the position the scan is at. *)
Variables (xml lower : string).
Hypothesis shape : twins lower (ascii_lowercase xml).
Hypothesis valid : valid_utf8 xml = true.

Lemma lower_boundary n : is_char_boundary lower n = is_char_boundary xml n.
Proof using shape.
  rewrite (twins_boundary n _ _ shape). unfold is_char_boundary.
  rewrite str_drop_lower, ascii_lowercase_length. destruct (str_drop n xml) as [|a s]; [done|]. simpl.
  f_equal. unfold is_continuation, ascii_lower.
  destruct (Nat.leb 65 _ && Nat.leb (Ascii.nat_of_ascii a) 90) eqn:Ha; [|done].
  apply andb_true_iff in Ha as [_ Ha%Nat.leb_le]. rewrite Ascii.nat_ascii_embedding by lia.
  rewrite !(proj2 (Nat.leb_gt 128 _)) by lia. done.
Qed.

Lemma lower_rest from :
  is_char_boundary xml from = true → (from <= String.length xml)%nat →
  utf8_slice from (String.length lower) lower = Ok (str_drop from lower).
Proof using shape.
  intros Hb Hle. unfold utf8_slice. rewrite lower_boundary, Hb, boundary_end.
  rewrite (twins_length _ _ shape), ascii_lowercase_length.
  destruct (Nat.leb_spec from (String.length xml)); [|lia]. simpl. f_equal.
  rewrite <- (ascii_lowercase_length xml), <- (twins_length _ _ shape), <- str_drop_len.
  apply str_take_all.
Qed.

Lemma lower_find tag from :
  all_ascii tag → str_find tag (str_drop from lower) = str_find tag (ascii_lowercase (str_drop from xml)).
Proof using shape.
  intros Ht. rewrite <- str_drop_lower. apply twins_find; [done|]. by apply twins_drop.
Qed.

Lemma after_tag_next from gap href rest b :
  free_of "<d:href>" gap → str_drop from xml = lead b +:+ element gap href rest →
  is_char_boundary xml from = true →
  Hetzner.after_tag "<d:href>" "<href>" lower from =
  Ok (Some (from + String.length (lead b +:+ gap) + 8)%nat).
Proof using shape.
  intros Hgap Hx Hb. unfold Hetzner.after_tag. rewrite lower_rest; [|done|].
  - simpl. rewrite lower_find by done. rewrite Hx. unfold element.
    rewrite <- str_app_assoc, ascii_lowercase_app, (ascii_lowercase_app "<D:href>").
    erewrite find_next_tag; [|done | by apply free_of_lead | reflexivity].
    change (ascii_lowercase "<D:href>") with "<d:href>". rewrite str_find_here, ascii_lowercase_length.
    simpl. do 2 f_equal. lia.
  - pose proof (str_drop_len from xml) as Hlen. rewrite Hx in Hlen. unfold element in Hlen.
    rewrite !str_app_length in Hlen. simpl in Hlen. lia.
Qed.

Lemma before_tag_next from href rest :
  free_of "</d:href>" href → str_drop from xml = href +:+ "</D:href>" +:+ rest →
  is_char_boundary xml from = true →
  Hetzner.before_tag "</d:href>" "</href>" lower from = Ok (Some (from + String.length href)%nat).
Proof using shape.
  intros Hh Hx Hb. unfold Hetzner.before_tag. rewrite lower_rest; [|done|].
  - simpl. rewrite lower_find by done. rewrite Hx.
    rewrite ascii_lowercase_app, (ascii_lowercase_app "</D:href>").
    erewrite find_next_tag; [|done | done | reflexivity].
    change (ascii_lowercase "</D:href>") with "</d:href>". rewrite str_find_here, ascii_lowercase_length.
    simpl. do 2 f_equal. lia.
  - pose proof (str_drop_len from xml) as Hlen. rewrite Hx in Hlen.
    rewrite !str_app_length in Hlen. simpl in Hlen. lia.
Qed.

(** The href of an element, sliced out of the text itself. *)
Lemma href_slice open href rest :
  str_drop open xml = href +:+ "</D:href>" +:+ rest → is_char_boundary xml open = true →
  utf8_slice open (open + String.length href) xml = Ok href.
Proof.
  intros Hx Hb. unfold utf8_slice. rewrite Hb.
  rewrite (boundary_at (open + String.length href) lt ("/D:href>" +:+ rest)).
  - destruct (Nat.leb_spec open (open + String.length href)); [|lia]. simpl.
    replace (open + String.length href - open)%nat with (String.length href) by lia.
    by rewrite Hx, str_take_app.
  - done.
  - by rewrite <- str_drop_drop, Hx, str_drop_length.
Qed.

Definition href_paths (items : list (string * string)) : list string :=
  omap (λ it, Hetzner.href_path base_path (str_trim it.2)) items.

Lemma scan_response items tail from acc b fuel :
  well_formed items tail → str_drop from xml = lead b +:+ response items tail →
  is_char_boundary xml from = true → (from <= String.length xml)%nat → (length items < fuel)%nat →
  Hetzner.scan_hrefs fuel xml lower base_path from acc = Ok (acc ++ href_paths items).
Proof using shape valid.
  revert from acc b fuel. induction items as [|[gap href] items IH];
    intros from acc b [|fuel] [Hitems Htail] Hx Hb Hle Hfuel; simpl in Hfuel; try lia; simpl.
  - unfold Hetzner.after_tag. rewrite lower_rest by done. simpl. rewrite !lower_find by done. rewrite Hx.
    rewrite !contains_find by (by apply free_of_lead; destruct Htail). simpl. by rewrite app_nil_r.
  - inversion Hitems as [|? ? [Hgap Hhref] Hitems']; subst. simpl in Hx, Hgap, Hhref.
    rewrite (after_tag_next _ _ _ _ _ Hgap Hx Hb). simpl.
    set (open := (from + String.length (lead b +:+ gap) + 8)%nat).
    assert (∀ n, str_drop (from + String.length (lead b +:+ gap) + n) xml =
                 str_drop n ("<D:href>" +:+ href +:+ "</D:href>" +:+ response items tail)) as Hdrop.
    { intros n. unfold element in Hx. rewrite <- str_app_assoc in Hx.
      by rewrite <- Nat.add_assoc, <- str_drop_drop, Hx, <- str_drop_drop, str_drop_length. }
    pose proof (Hdrop 8%nat) as Hopen. fold open in Hopen.
    simpl in Hopen. rewrite str_app_nil_l in Hopen.
    assert (is_char_boundary xml open = true) as Hbo.
    { replace open with (S (from + String.length (lead b +:+ gap) + 7)) by (unfold open; lia).
      apply (boundary_behind _ ">" (href +:+ "</D:href>" +:+ response items tail)); [done | done |].
      by rewrite Hdrop. }
    rewrite (before_tag_next _ _ _ Hhref Hopen Hbo). simpl. rewrite (href_slice _ _ _ Hopen Hbo). simpl.
    assert (str_drop (open + String.length href + 1) xml = lead true +:+ response items tail) as Hnext.
    { by rewrite <- Nat.add_assoc, <- str_drop_drop, Hopen, <- str_drop_drop, str_drop_length. }
    erewrite (IH _ _ true); [|by split | done | by eapply boundary_at; [|exact Hnext] | | lia].
    + unfold href_paths. simpl. destruct (Hetzner.href_path _ _); simpl; [|done].
      by rewrite <- app_assoc.
    + pose proof (str_drop_len (open + String.length href + 1) xml) as Hlen.
      rewrite Hnext, str_app_length in Hlen. simpl in Hlen. lia.
Qed.
End scan.

Lemma response_length items tail : (length items <= String.length (response items tail))%nat.
Proof.
  induction items as [|[gap href] items IH]; simpl; [lia|]. unfold element.
  rewrite !str_app_length. simpl. lia.
Qed.

(** C26: read from a response that lists hrefs between arbitrary other markup, in
    which lowercasing changes no character's size, the listing is the files
    among them: hrefs that end in a slash are skipped, the others are trimmed,
    decoded and taken relative to the base path, in their order; the scan ends,
    panics nowhere and misses none. *)
Theorem propfind_lists_files `{U : UrlDecode, L : UnicodeCase} base_path items tail :
  well_formed items tail → valid_utf8 (response items tail) = true → steady (response items tail) →
  Hetzner.parse_propfind_hrefs (response items tail) base_path =
  Ok (omap (λ it, Hetzner.href_path base_path (str_trim it.2)) items).
Proof.
  intros Hw Hv Hs. unfold Hetzner.parse_propfind_hrefs.
  pose proof (lowercase_twins _ Hv Hs) as Ht.
  apply (scan_response base_path _ _ Ht Hv items tail 0 [] false); [done | done | | lia | ].
  - by apply valid_start.
  - rewrite (twins_length _ _ Ht), ascii_lowercase_length.
    pose proof (response_length items tail). lia.
Qed.

(** ** Instances *)

Definition tree : list (string * string) :=
  [("<D:multistatus xmlns:D='DAV:'> <D:response>", "/storage/");
   ("</D:response> <D:response>", "/storage/ab/cd/abcdef123456");
   ("<D:status>HTTP/1.1 200 OK</D:status> </D:response> <D:response>", " /storage/ef/gh/efgh789 ");
   ("</D:response> <D:response>", "/storage/été/€")].

Lemma propfind_lists_files_witness :
  Hetzner.parse_propfind_hrefs (response tree "</D:response></D:multistatus>") "storage" =
  Ok ["ab/cd/abcdef123456"; "ef/gh/efgh789"; "été/€"].
Proof.
  rewrite (propfind_lists_files "storage" tree "</D:response></D:multistatus>").
  - vm_compute. reflexivity.
  - split; [|split; reflexivity]. repeat constructor.
  - vm_compute. reflexivity.
  - unfold steady. replace (List.filter wide _) with ["é"; "é"; "€"] by (vm_compute; reflexivity).
    repeat constructor.
Defined.

(** The responses the code is tested on. *)
Example propfind_no_base_path :
  Hetzner.parse_propfind_hrefs ("<D:multistatus xmlns:D='DAV:'> <D:response> <D:href>/</D:href> " +:+
    "</D:response> <D:response> <D:href>/file1.txt</D:href> </D:response> <D:response> " +:+
    "<D:href>/subdir/</D:href> </D:response> <D:response> <D:href>/file2.txt</D:href> " +:+
    "</D:response> </D:multistatus>") "" = Ok ["file1.txt"; "file2.txt"].
Proof. vm_compute. reflexivity. Qed.

Example propfind_empty :
  Hetzner.parse_propfind_hrefs "<D:multistatus xmlns:D='DAV:'></D:multistatus>" "" = Ok [].
Proof. vm_compute. reflexivity. Qed.

(** The positions are those of the lowercase: where a character became longer,
    everything behind it is read a byte too far for each; where one became
    shorter, too early. *)
Definition dotted_I : string := char_of [0xC4; 0xB0]%nat.

Example propfind_shifted :
  Hetzner.parse_propfind_hrefs ("<D:displayname>" +:+ dotted_I +:+ "</D:displayname>" +:+
    "<D:href>/storage/ab</D:href>") "storage" = Ok ["ab<"].
Proof. vm_compute. reflexivity. Qed.

(** The slice may end inside a character: the listing panics. *)
Example propfind_panics :
  Hetzner.parse_propfind_hrefs ("<D:displayname>" +:+ dotted_I +:+ "</D:displayname>" +:+
    "<href>é</href>") "" = Panic.
Proof. vm_compute. reflexivity. Qed.
