(* ===== verification/ServerSpec.v ===== *)
(** * Starting, and keeping an administrator

    What the server is after its start (the registry, the first account), and
    that the accounts never lose their last administrator while the callers of
    the account handlers are administrators. *)

From S2P Require Import Prelude Text Json Schema Env World Tables Laws Concrete Projects LocalDisk.
From S2P Require Import Registry Scenario Storages Links Users Backups Auth Config Server FileService BulkService Uploads System Frames SystemLaws SystemSpec.

(** ** The registry after the start *)

Section registry.
Context {E : Env} (secret : string).

Definition build (s : Schema.Storage) : Result Backend :=
  create_backend (st_storage_type s) (st_config s) secret.

Definition load_one (s : Schema.Storage) : M unit :=
  try_with (lift (build s)) (λ backend, StorageRegistry.register (st_id s) backend)
    (λ _ : AppError, mret tt).

(** What the registry holds under an identifier after a list of storages. *)
Definition loaded (l : list Schema.Storage) (before after : gmap Uuid Backend) (id : Uuid) : Prop :=
  (∃ s b, s ∈ l ∧ st_id s = id ∧ build s = Ok b ∧ after !! id = Some b) ∨
  ((∀ s b, s ∈ l → st_id s = id → build s ≠ Ok b) ∧ after !! id = before !! id).

Lemma load_all_ok l w w' :
  for_each load_one l w = (w', Ok tt) →
  db w' = db w ∧ ∀ id, loaded l (backends w) (backends w') id.
Proof.
  revert w. induction l as [|s l IH]; intros w.
  - intros [= <-]. split; [done|]. intros id. right. split; [|done]. intros s b Hs. by apply not_elem_of_nil in Hs.
  - unfold for_each. simpl. rewrite bind_unfold. unfold load_one at 1, try_with, lift.
    destruct (build s) as [b|e|] eqn:Hb; [| |done]; simpl; intros [Hdb Hl]%IH; (split; [done|]);
      intros id; (destruct (Hl id) as [(s' & b' & Hin & Hid & Hb' & Ha)|[Hno Ha]];
        [by left; exists s', b'; split; [right|] |]).
    + simpl in Ha. destruct (decide (st_id s = id)) as [<-|Hne].
      * left. exists s, b. rewrite lookup_insert_eq in Ha. by repeat split; [left|..].
      * rewrite lookup_insert_ne in Ha by done. right. split; [|done].
        intros s' b' [->|Hin]%elem_of_cons; [done | by apply Hno].
    + right. split; [|done].
      intros s' b' [->|Hin]%elem_of_cons ?; [by rewrite Hb | by apply Hno].
Qed.

(** The registry holds one backend per enabled storage whose backend can be
    built from its configuration, and nothing else. *)
Definition registers_enabled (d : Db) (registry : gmap Uuid Backend) : Prop :=
  ∀ id b, registry !! id = Some b ↔
    ∃ s, storages d !! id = Some s ∧ st_enabled s = true ∧ build s = Ok b.

Lemma load_backends_registers w w' :
  (∀ id s, storages (db w) !! id = Some s → st_id s = id) → backends w = ∅ →
  load_backends_from_db secret w = (w', Ok tt) →
  db w' = db w ∧ registers_enabled (db w) (backends w').
Proof.
  intros Hid He. unfold load_backends_from_db, Storage.list_enabled. intros H. m_inv.
  apply load_all_ok in H as [Hdb Hl]. split; [done|]. intros id b.
  assert (∀ s, s ∈ order_by (desc st_created_at) (select_in st_enabled (db w)) ↔
               st_enabled s = true ∧ storages (db w) !! st_id s = Some s) as Hin.
  { intros s. rewrite elem_of_order_by, elem_of_select_in. simpl. split; intros [Hen H].
    - destruct H as [i Hi]. by rewrite (Hid _ _ Hi).
    - eauto. }
  destruct (Hl id) as [(s & b' & Hs & <- & Hb & ->)|[Hno ->]].
  - apply Hin in Hs as [Hen Hs]. split; [intros [= <-]; by exists s|].
    intros (s' & Hs' & _ & Hb'). congruence.
  - rewrite He, lookup_empty. split; [done|]. intros (s & Hs & Hen & Hb).
    pose proof (Hid _ _ Hs) as <-. by destruct (Hno s b ltac:(by apply Hin) eq_refl).
Qed.

Lemma load_backends_db w : db (load_backends_from_db secret w).1 = db w.
Proof.
  revert w. change (Guar (same db) (load_backends_from_db secret)).
  unfold load_backends_from_db, Storage.list_enabled, StorageRegistry.register.
  repeat first [guar_step | progress (unfold modify; intros ?; reflexivity)].
Qed.
End registry.

(** ** The first administrator *)

Section accounts.
Context {E : Env} (config : Config.AppConfig).

Lemma register_node_users w : users (db (Server.register_node config w).1) = users (db w).
Proof.
  revert w. change (Guar (same (λ w, users (db w))) (Server.register_node config)).
  unfold Server.register_node, Node.register. guar.
Qed.

Lemma expect_ok {A} (m : M A) w w' a : Server.expect m w = (w', Ok a) → m w = (w', Ok a).
Proof. unfold Server.expect, try_with. by destruct (m w) as [? []]. Qed.

(** What reaches the accounts: the registry is emptied and loaded, then the
    first account is made, then the node is registered. *)
Lemma start_steps w w' node :
  Server.start config w = (w', Ok node) →
  ∃ w1 w2, load_backends_from_db (Server.secret config) (set_backends ∅ w) = (w1, Ok tt) ∧
    db w1 = db w ∧ Server.create_default_admin config w1 = (w2, Ok tt) ∧
    Server.register_node config w2 = (w', Ok node).
Proof.
  unfold Server.start. intros H. apply bind_ok in H as ([] & w0 & [= <-] & H).
  apply bind_ok in H as ([] & w1 & Hl & H). apply bind_ok in H as ([] & w2 & Hc & H).
  pose proof (load_backends_db (Server.secret config) (set_backends ∅ w)) as Hdb.
  unfold ignore, try_with in Hl.
  destruct (load_backends_from_db _ _) as [w1' [[]|e|]] eqn:Hload; simpl in *; [| |done].
  - injection Hl as ->. by exists w1, w2.
  - exfalso. revert Hload. unfold load_backends_from_db, Storage.list_enabled.
    rewrite bind_unfold. simpl. generalize (order_by (desc st_created_at) (select_in st_enabled (db w))).
    intros l. generalize (set_backends ∅ w). induction l as [|s l IH]; intros w3; [done|].
    unfold for_each. simpl. rewrite bind_unfold. unfold try_with at 1, lift at 1.
    destruct (create_backend _ _ _); simpl; [apply IH..|done].
Qed.

Lemma no_users w : users (db w) = ∅ → User.count w = (w, Ok 0).
Proof.
  intros H. unfold User.count. rewrite bind_unfold. unfold sql_select, gets, select_in. cbn.
  by rewrite H.
Qed.

Context {HP : PasswordHash}.

Lemma create_default_admin_empty w w' :
  users (db w) = ∅ → Server.create_default_admin config w = (w', Ok tt) →
  ∃ u, users (db w') = {[u_id u := u]} ∧
    u_username u = Config.default_admin_username (Config.auth config) ∧ u_role u = "admin" ∧
    argon2_verify (Config.default_admin_password (Config.auth config)) (u_password_hash u) = true.
Proof.
  intros He H. unfold Server.create_default_admin in H. apply bind_ok in H as (n & w1 & Hn & H).
  apply expect_ok in Hn. rewrite no_users in Hn by done. injection Hn as <- <-. simpl in H.
  apply bind_ok in H as (h & w1 & Hh & H). apply expect_ok in Hh.
  unfold AuthService.hash_password in Hh. apply bind_ok in Hh as (k & w2 & [= <- <-] & Hh).
  apply lift_ok in Hh as [-> Hh].
  destruct (argon2_hash _ _) as [h'|] eqn:Hhash; [|done]. injection Hh as <-.
  apply bind_ok in H as (u & w2 & Hu & H). injection H as <-. apply expect_ok in Hu.
  apply sql_insert_ok in Hu as (-> & _ & _ & ->). simpl. rewrite He.
  match goal with |- context [ <[ _ := ?u ]> ∅ ] => exists u end.
  split; [by rewrite insert_empty|]. simpl. split; [done|]. split; [done|].
  by eapply argon2_verify_hash.
Qed.

Lemma login_single u w1 :
  users (db w1) = {[u_id u := u]} → ∀ password,
  argon2_verify password (u_password_hash u) = true →
  AuthRoutes.login (Server.auth_config config) (u_username u) password w1 =
  AuthRoutes.issue_tokens (Server.auth_config config) u w1.
Proof.
  intros Hu password Hpw. unfold AuthRoutes.login. rewrite bind_unfold.
  assert (User.find_by_username (u_username u) w1 = (w1, Ok (Some u))) as Hfind.
  { unfold User.find_by_username, sql_select_first, gets, select_in, rows_of. cbn.
    rewrite Hu, map_to_list_singleton. cbn. rewrite decide_True; [done | apply String.eqb_refl]. }
  unfold or_throw. rewrite bind_unfold, Hfind. simpl. rewrite bind_unfold.
  unfold AuthService.verify_password. by rewrite Hpw.
Qed.

Lemma some_users w :
  users (db w) ≠ ∅ → ∃ n, User.count w = (w, Ok n) ∧ n ≠ 0.
Proof.
  intros Hne. unfold User.count. rewrite bind_unfold. unfold sql_select, gets, select_in. cbn.
  eexists. split; [done|]. intros Hz. apply Hne, map_eq. intros i. rewrite lookup_empty.
  destruct (users (db w) !! i) as [x|] eqn:Hi; [|done]. exfalso.
  assert (x ∈ filter (λ _ : User, true = true) (rows_of (users (db w)))) as Hx
    by (apply list_elem_of_filter; split; [done | apply elem_of_rows; eauto]).
  destruct (filter _ (rows_of (users (db w)))); [by apply not_elem_of_nil in Hx | simpl in Hz; lia].
Qed.

Lemma create_default_admin_nonempty w :
  users (db w) ≠ ∅ → Server.create_default_admin config w = (w, Ok tt).
Proof.
  intros (n & Hn & Hne)%some_users. unfold Server.create_default_admin. rewrite bind_unfold.
  assert (Server.expect User.count w = (w, Ok n)) as -> by
    (unfold Server.expect, try_with; by rewrite Hn).
  by apply Z.eqb_neq in Hne as ->.
Qed.

Lemma start_keeps_users w :
  users (db w) ≠ ∅ → users (db (Server.start config w).1) = users (db w).
Proof.
  intros Hne. unfold Server.start. rewrite bind_unfold. simpl. rewrite bind_unfold.
  pose proof (load_backends_db (Server.secret config) (set_backends ∅ w)) as Hdb.
  unfold ignore, try_with at 1.
  assert (∀ w1, db w1 = db w →
    users (db ((Server.create_default_admin config ;; Server.register_node config) w1).1) =
    users (db w)) as Hrest.
  { intros w1 Hw1. rewrite bind_unfold, create_default_admin_nonempty by by rewrite Hw1.
    by rewrite register_node_users, Hw1. }
  destruct (load_backends_from_db _ _) as [w1 [[]|e|]]; simpl in *;
    [apply Hrest, Hdb | apply Hrest, Hdb | by rewrite Hdb].
Qed.

(** C18: a server started on a database without accounts has one, the configured
    administrator: signing in with the configured name and password is accepted
    and yields tokens for that account, and starting again, whatever happened
    in between to the rest of the state, leaves the accounts as they are. *)
Theorem first_administrator w w' node :
  users (db w) = ∅ → Server.start config w = (w', Ok node) →
  ∃ u, users (db w') = {[u_id u := u]} ∧ u_role u = "admin" ∧
    ∀ w1, users (db w1) = users (db w') →
      AuthRoutes.login (Server.auth_config config)
        (Config.default_admin_username (Config.auth config))
        (Config.default_admin_password (Config.auth config)) w1 =
      AuthRoutes.issue_tokens (Server.auth_config config) u w1 ∧
      users (db (Server.start config w1).1) = users (db w1).
Proof.
  intros He (w1 & w2 & _ & Hdb & Hc & Hr)%start_steps.
  apply create_default_admin_empty in Hc as (u & Hu & Hname & Hrole & Hpw); [|by rewrite Hdb].
  pose proof (register_node_users w2) as Hu'. rewrite Hr in Hu'. simpl in Hu'.
  exists u. split; [by rewrite Hu'|]. split; [done|]. intros w3 Hw3. rewrite Hu', Hu in Hw3.
  split; [by rewrite <- Hname; apply login_single|].
  apply start_keeps_users. rewrite Hw3. apply map_non_empty_singleton.
Qed.

Lemma create_default_admin_backends w :
  backends (Server.create_default_admin config w).1 = backends w.
Proof.
  revert w. change (Guar (same backends) (Server.create_default_admin config)).
  unfold Server.create_default_admin, Server.expect, User.count, User.create,
    AuthService.hash_password.
  repeat first [guar_step | progress (unfold draw; intros ?; reflexivity)].
Qed.

Lemma register_node_backends w : backends (Server.register_node config w).1 = backends w.
Proof.
  revert w. change (Guar (same backends) (Server.register_node config)).
  unfold Server.register_node, Node.register. guar.
Qed.

(** C19: after the start the registry holds exactly the backends of the enabled
    storages whose configuration is complete; a storage whose configuration is
    not does not keep the others, or the server, from starting. *)
Theorem start_registers_backends w w' node :
  (∀ id s, storages (db w) !! id = Some s → st_id s = id) →
  Server.start config w = (w', Ok node) →
  registers_enabled (Server.secret config) (db w) (backends w').
Proof.
  intros Hid (w1 & w2 & Hl & _ & Hc & Hr)%start_steps.
  apply load_backends_registers in Hl as [_ Hl]; [|done..].
  pose proof (create_default_admin_backends w1) as Hb. rewrite Hc in Hb.
  pose proof (register_node_backends w2) as Hb'. rewrite Hr in Hb'. simpl in Hb, Hb'.
  by rewrite Hb', Hb.
Qed.
End accounts.

(** ** Keeping an administrator *)

Definition is_administrator (a : Uuid) (d : Db) : Prop :=
  ∃ u, users d !! a = Some u ∧ u_id u = a ∧ u_role u = "admin".

Section administrators.
Context {E : Env} (config : Config.AppConfig).

Definition keeps (a : Uuid) : relation World :=
  preserves (λ w, is_administrator a (db w)).

(** What follows may rely on what the success of a first step shows. *)
Lemma guar_bind_post (R : relation World) `{!PreOrder R} {A B} (Q : A → Prop) (m : M A)
    (k : A → M B) :
  (∀ w w' x, m w = (w', Ok x) → Q x) → Guar R m → (∀ x, Q x → Guar R (k x)) → Guar R (m ≫= k).
Proof.
  intros HQ Hm Hk w. specialize (Hm w). rewrite bind_unfold.
  destruct (m w) as [w1 [x|e|]] eqn:Hw; simpl in *; [|done..].
  etrans; [done|]. by apply (Hk x), (HQ w w1).
Qed.

Lemma guar_transaction a {A} (m : M A) : Guar (keeps a) m → Guar (keeps a) (transaction m).
Proof.
  intros Hm w. specialize (Hm w). unfold transaction. destruct (m w) as [w' [x|e|]]; [done | |];
    by intros ?.
Qed.

(** A change of the accounts that spares [a]. *)
Lemma keeps_users a w us :
  (∀ u, users (db w) !! a = Some u → u_id u = a → u_role u = "admin" →
    ∃ u', us !! a = Some u' ∧ u_id u' = a ∧ u_role u' = "admin") →
  keeps a w (set_db (set_users us (db w)) w).
Proof. intros H (u & Hu & Hid & Hr). destruct (H u Hu Hid Hr) as (u' & ? & ? & ?). by exists u'. Qed.

Lemma keeps_create a input : Guar (keeps a) (User.create input).
Proof.
  intros w. unfold User.create.
  destruct (sql_insert _ w) as [w' [u|e|]] eqn:Hi; simpl;
    [|apply sql_insert_err in Hi as [-> _]; intros Ha; exact Ha | by destruct (sql_insert_no_panic _ _ _ Hi)].
  apply sql_insert_ok in Hi as (_ & Hnone & _ & ->). intros (x & Hx & Hid & Hr). exists x. simpl.
  split; [|done]. rewrite lookup_insert_ne; [done|]. intros Heq. simpl in Hnone. congruence.
Qed.

(** Everything an account handler does besides changing accounts. *)
Ltac spares :=
  repeat first
    [ guar_step
    | match goal with |- Guar _ draw => intros ? Ha; exact Ha end
    | match goal with |- ∀ _ _, keeps _ _ _ => intros ? ? Ha; exact Ha end
    | match goal with |- keeps _ ?w (set_draws _ ?w) => intros Ha; exact Ha end
    | match goal with |- keeps _ ?w (set_db _ ?w) => intros Ha; exact Ha end ].

Lemma keeps_set_role a user_id role :
  (user_id = a → role = "admin") →
  Guar (keeps a) (sql_update_id (R := Schema.User) user_id (set_u_role role)).
Proof.
  intros Hrole w. unfold sql_update_id. destruct (tbl (db w) !! user_id) as [x|] eqn:Hx;
    [|intros Ha; exact Ha].
  destruct (violates _ _); [intros Ha; exact Ha|]. apply keeps_users. intros u Hu Hid Hr.
  simpl in *. destruct (decide (user_id = a)) as [->|Hne].
  - rewrite Hu in Hx. injection Hx as <-. eexists. rewrite lookup_insert_eq. split; [done|].
    split; [done|]. simpl. by apply Hrole.
  - exists u. by rewrite lookup_insert_ne.
Qed.

Lemma keeps_set_hash a user_id h :
  Guar (keeps a) (sql_set_id (R := Schema.User) user_id (set_u_password_hash h)).
Proof.
  intros w. unfold sql_set_id, sql_set_id_if. destruct (tbl (db w) !! user_id) as [x|] eqn:Hx;
    [|intros Ha; exact Ha].
  apply keeps_users. intros u Hu Hid Hr. simpl in *. destruct (decide (user_id = a)) as [->|Hne].
  - rewrite Hu in Hx. injection Hx as <-. eexists. by rewrite lookup_insert_eq.
  - exists u. by rewrite lookup_insert_ne.
Qed.

Lemma keeps_apply_update a user_id user body hash :
  (∀ role, uur_role body = Some role → user_id = a → role = "admin") →
  Guar (keeps a) (AuthRoutes.apply_update user_id user body hash).
Proof.
  intros Hrole. unfold AuthRoutes.apply_update, RefreshToken.delete_by_user_id.
  apply guar_bind; [apply _| |intros user1; apply guar_bind; [apply _| |intros user2]].
  - destruct (uur_role body) as [role|]; [|spares].
    apply guar_or_throw; [apply _|]. apply keeps_set_role. by apply Hrole.
  - destruct hash as [h|]; [|spares]. apply guar_or_throw; [apply _|]. apply keeps_set_hash.
  - spares.
Qed.

Lemma keeps_update a user_id body :
  Guar (keeps a) (AuthRoutes.update_user (mkAdminUser a) user_id body).
Proof.
  unfold AuthRoutes.update_user, User.find_by_id, AuthService.hash_password.
  apply guar_bind; [apply _ | spares | intros _].
  apply guar_bind; [apply _ | spares | intros user].
  apply (guar_bind_post _ (λ _, ∀ role, uur_role body = Some role → user_id = a → role = "admin")).
  - intros w w' [] H role Hrole ->. rewrite Hrole in H. apply bind_ok in H as ([] & w1 & _ & H).
    apply ensure_ok in H as [_ H]. simpl in H. rewrite N.eqb_refl in H. simpl in H.
    by destruct (String.eqb_spec role "admin").
  - spares.
  - intros [] Hrole. apply guar_bind; [apply _ | spares | intros hash].
    by apply guar_transaction, keeps_apply_update.
Qed.

Lemma cascade_keeps_users ids d d' :
  delete_cascade (R := Schema.User) ids d = Some d' → users d' = users d.
Proof.
  unfold delete_cascade. revert d. induction ids as [|i ids IH]; intros d; simpl; [congruence|].
  unfold forget_user. destruct (exists_row _ (projects d)).
  - intros H. exfalso. clear IH. by induction ids.
  - intros H. by apply IH in H.
Qed.

Lemma keeps_delete_other a user_id :
  user_id ≠ a → Guar (keeps a) (sql_delete (λ u : Schema.User, N.eqb (u_id u) user_id)).
Proof.
  intros Hne w. unfold sql_delete. destruct (delete_cascade _ _) as [d'|] eqn:Hc;
    [|intros Ha; exact Ha].
  apply cascade_keeps_users in Hc. intros (u & Hu & Hid & Hr). exists u. simpl. rewrite Hc. simpl.
  split; [|done]. apply map_lookup_filter_Some. split; [done|]. simpl. rewrite Hid.
  by apply N.eqb_neq, not_eq_sym.
Qed.

Lemma keeps_delete a user_id :
  Guar (keeps a) (AuthRoutes.delete_user (mkAdminUser a) user_id).
Proof.
  unfold AuthRoutes.delete_user, Project.list_for_owner, SharedLink.delete_by_user,
    RefreshToken.delete_by_user_id, User.delete.
  apply (guar_bind_post _ (λ _, user_id ≠ a)).
  - intros w w' [] H. apply ensure_ok in H as [_ H]. by apply uuid_ne_true in H.
  - spares.
  - intros [] Hne. do 4 (apply guar_bind; [apply _ | spares | intros ?]).
    apply guar_bind; [apply _ | by apply keeps_delete_other | spares].
Qed.

Lemma keeps_create_user a req : Guar (keeps a) (AuthRoutes.create_user req).
Proof.
  unfold AuthRoutes.create_user, AuthService.hash_password. cbv zeta.
  repeat (apply guar_bind; [apply _ | spares | intros ?]).
  apply guar_map_err; [apply _ | apply keeps_create].
Qed.

Lemma keeps_start a c : Guar (keeps a) (Server.start c).
Proof.
  intros w Ha. unfold is_administrator. rewrite start_keeps_users; [exact Ha|].
  destruct Ha as (u & Hu & _). intros He. by rewrite He, lookup_empty in Hu.
Qed.

(** Requests that change or delete accounts pass the extractor of
    administrators: the caller is one at the time. *)
Definition authorised {s A m} (op : operation s A m) (w : World) : Prop :=
  match op with
  | op_update_user _ admin _ _ => is_administrator (ad_user_id admin) (db w)
  | op_delete_user _ admin _ => is_administrator (ad_user_id admin) (db w)
  | _ => True
  end.

Inductive account_step : World → World → Prop :=
  | step_authorised s A m (op : operation s A m) w : authorised op w → account_step w (m w).1
  | step_quiet w w' : users (db w') = users (db w) → account_step w w'.

Ltac other_tables :=
  idtac;
  let elsewhere :=
    apply (keeps_same _ users);
      [intros ? ? Hu; unfold is_administrator; by rewrite Hu | solve [guar]] in
  match goal with
  | |- Guar _ (Uploads.append_chunks _ _ _) => apply keeps_append_chunks
  | |- Guar _ (BulkService.add_entries _ _ _ _ _ _) => apply keeps_add_entries
  | |- Guar _ (FileService.try_locations _ _ _) =>
      apply guar_try_locations; [apply _ | intros ? ? ?; assumption | intros ?]
  | |- Guar _ (sql_insert _) => elsewhere
  | |- Guar _ (sql_update _ _) => elsewhere
  | |- Guar _ (sql_update_id _ _) => elsewhere
  | |- Guar _ (sql_set_id _ _) => elsewhere
  | |- Guar _ (sql_set_id_if _ _ _) => elsewhere
  | |- Guar _ (sql_delete _) =>
      apply (keeps_same _ users); [intros ? ? Hu; unfold is_administrator; by rewrite Hu|];
      apply guar_sql_delete_same; [done | by intros ? ? ? [= <-]]
  end.

(** The operations that leave the accounts alone. *)
Definition leaves_accounts {s A m} (op : operation s A m) : Prop :=
  match op with
  | op_start _ | op_create_user _ _ | op_update_user _ _ _ _ | op_delete_user _ _ _ => False
  | _ => True
  end.
Lemma keeps_otherwise a s A m (op : operation s A m) :
  leaves_accounts op → Guar (keeps a) m.
Proof.
  change (keeps a) with (preserves (on_db (is_administrator a))).
  destruct op; intros H; try (by destruct H); clear H; walk other_tables.
Qed.

Lemma account_step_keeps w w' :
  account_step w w' → (∃ a, is_administrator a (db w)) → ∃ a, is_administrator a (db w').
Proof.
  intros [s A m op w1 Hauth|w1 w2 Hu] [b Hb];
    [|exists b; unfold is_administrator; by rewrite Hu].
  assert (leaves_accounts op → ∃ a, is_administrator a (db (m w1).1)) as Hk.
  { intros H. exists b. exact (keeps_otherwise b _ _ _ op H w1 Hb). }
  destruct op; try exact (Hk I); clear Hk.
  - exists b. by apply keeps_start.
  - exists b. by apply keeps_create_user.
  - destruct admin as [a]. exists a. by apply keeps_update.
  - destruct admin as [a]. exists a. by apply keeps_delete.
Qed.

Context {HP : PasswordHash}.

(** C13: from the first start on, whatever the servers do, requests, rounds and
    restarts, whether they succeed or fail half-way, as long as those who call the
    account handlers are administrators at the time, there is an administrator. *)
Theorem administrator_remains w w0 node w' :
  users (db w) = ∅ → Server.start config w = (w0, Ok node) → rtc account_step w0 w' →
  ∃ a, is_administrator a (db w').
Proof.
  intros He (w1 & w2 & _ & Hdb & Hc & Hr)%start_steps.
  assert (users (db w1) = ∅) as He1 by by rewrite Hdb.
  destruct (create_default_admin_empty config w1 w2 He1 Hc) as (u & Hu & _ & Hrole & _).
  pose proof (register_node_users config w2) as Hu'. rewrite Hr in Hu'. simpl in Hu'.
  assert (∃ a, is_administrator a (db w0)) as Ha.
  { exists (u_id u), u. rewrite Hu', Hu, lookup_singleton_eq. done. }
  clear -Ha. intros Hs. induction Hs as [|w w1 w2 Hstep _ IH]; [done|].
  by apply IH, (account_step_keeps w).
Qed.
End administrators.

(** ** Witnesses: the first start of the deployment, without its accounts *)

Definition no_accounts : World := set_db (set_users ∅ (db deployment)) deployment.
Definition first_start : World * Result string := Server.start Config.default_config no_accounts.
Definition node_name : string := match first_start.2 with Ok n => n | _ => EmptyString end.

Lemma first_start_ok :
  Server.start Config.default_config no_accounts = (first_start.1, Ok node_name).
Proof. apply run_ok. vm_compute. reflexivity. Defined.

Lemma first_administrator_witness :
  ∃ u, users (db first_start.1) = {[u_id u := u]} ∧ u_role u = "admin" ∧
    ∀ w1, users (db w1) = users (db first_start.1) →
      AuthRoutes.login (Server.auth_config Config.default_config) "admin" "Innovare2026!" w1 =
      AuthRoutes.issue_tokens (Server.auth_config Config.default_config) u w1 ∧
      users (db (Server.start Config.default_config w1).1) = users (db w1).
Proof.
  exact (first_administrator Config.default_config no_accounts first_start.1 node_name eq_refl
    first_start_ok).
Defined.

Lemma deployment_storage_ids id s : storages (db no_accounts) !! id = Some s → st_id s = id.
Proof.
  change (storages (db no_accounts)) with (storages deployment_db).
  apply (map_Forall_to_list (λ i x, st_id x = i)). vm_compute. repeat constructor.
Defined.

Lemma start_registers_backends_witness :
  registers_enabled "change-me-in-production" (db no_accounts) (backends first_start.1).
Proof.
  exact (start_registers_backends Config.default_config no_accounts first_start.1 node_name
    deployment_storage_ids first_start_ok).
Defined.

(** The first administrator makes another and is demoted by it. *)
Definition first_admin : Uuid := gen_uuid 1.
Definition second_account : World * Result Schema.User :=
  AuthRoutes.create_user (mkCreateUserRequest "carol" "longer-secret" "admin") first_start.1.
Definition second_admin : Uuid := match second_account.2 with Ok u => u_id u | _ => 0%N end.
Definition demoted : World * Result Schema.User :=
  AuthRoutes.update_user (mkAdminUser second_admin) first_admin
    (mkUpdateUserRequest (Some "user") None) second_account.1.

Lemma administrator_remains_witness : ∃ a, is_administrator a (db demoted.1).
Proof.
  apply (administrator_remains Config.default_config no_accounts first_start.1 node_name
    demoted.1 eq_refl first_start_ok).
  eapply rtc_l; [refine (step_authorised _ _ _ (op_create_user server
    (mkCreateUserRequest "carol" "longer-secret" "admin")) _ I)|].
  eapply rtc_l; [|apply rtc_refl].
  refine (step_authorised _ _ _ (op_update_user server (mkAdminUser second_admin) first_admin
    (mkUpdateUserRequest (Some "user") None)) _ _).
  change (is_administrator second_admin (db second_account.1)).
  assert (match users (db second_account.1) !! second_admin with
          | Some u => N.eqb (u_id u) second_admin && String.eqb (u_role u) "admin"
          | None => false end = true) as H by (vm_compute; reflexivity).
  unfold is_administrator. destruct (users _ !! second_admin) as [u|]; [|done].
  apply andb_true_iff in H as [H1%N.eqb_eq H2%String.eqb_eq]. by exists u.
Defined.
