(* ===== verification/RoutesSpec.v ===== *)
(** * Every route is reachable, and guarded

    No resource shadows another: a request for a registered route, with any
    argument that is not itself a word of the routes, reaches the handler of
    that route. And the handlers that run for a caller who shows no valid token
    are the few that are meant to. *)

From S2P Require Import Prelude Text Json Schema Env World Tables Laws LocalDisk Auth Routes Concrete Scenario.

#[export] Instance Access_eq_dec : EqDecision Access.
Proof. solve_decision. Defined.
#[export] Instance Route_eq_dec : EqDecision Route.
Proof. solve_decision. Defined.
#[export] Instance Dispatch_eq_dec : EqDecision Routes.Dispatch.
Proof. solve_decision. Defined.

(** Induction through the services of a scope. *)
Section service_ind.
Context (P : Service → Prop).
Context (HR : ∀ pattern guards routes, P (Resource pattern guards routes)).
Context (HS : ∀ prefix services, Forall P services → P (Scope prefix services)).

Fixpoint service_nested_ind (sv : Service) : P sv :=
  match sv with
  | Resource pattern guards routes => HR pattern guards routes
  | Scope prefix services =>
      HS prefix services
        ((fix go (l : list Service) : Forall P l :=
            match l with
            | [] => Forall_nil_2 P
            | x :: l' => Forall_cons_2 P x l' (service_nested_ind x) (go l')
            end) services)
  end.
End service_ind.

(** The full patterns of a service, with their routes, and the words in them. *)
Fixpoint routes_of (sv : Service) : list (list string * Route) :=
  match sv with
  | Resource pattern _ routes => map (λ r, (segments pattern, r)) routes
  | Scope prefix services =>
      map (λ tr, (segments prefix ++ tr.1, tr.2)) (flat_map routes_of services)
  end.
Definition all_routes : list (list string * Route) :=
  flat_map routes_of Routes.configure_routes.

Fixpoint patterns_of (sv : Service) : list string :=
  match sv with
  | Resource pattern _ _ => segments pattern
  | Scope prefix services => segments prefix ++ flat_map patterns_of services
  end.
Definition words : list string :=
  filter (λ p, is_parameter p = false) (flat_map patterns_of Routes.configure_routes).

(** What may stand for a parameter. *)
Definition argument (s : string) : Prop := s ≠ EmptyString ∧ s ∉ words.

(** A path of a pattern. *)
Definition instance_of (template path : list string) : Prop :=
  Forall2 (λ p s, if is_parameter p then argument s else s = p) template path.

(** ** Paths with arguments left open *)

Inductive Sym := Word (s : string) | Argument.

Definition sym_of (p : string) : Sym := if is_parameter p then Argument else Word p.
Definition fits_sym (p : string) (x : Sym) : bool :=
  match x with Word s => fits p s | Argument => is_parameter p end.
Definition stands_for (x : Sym) (s : string) : Prop :=
  match x with Word l => s = l | Argument => argument s end.

Definition known (p : string) : Prop := is_parameter p = true ∨ p ∈ words.

Lemma fits_stands p x s : known p → stands_for x s → fits p s = fits_sym p x.
Proof.
  intros Hp Hx. destruct x as [l|]; simpl in *; [by subst|]. destruct Hx as [Hne Hw].
  unfold fits. destruct (is_parameter p) eqn:Hpar.
  - by destruct s.
  - destruct Hp as [?|Hp]; [congruence|]. apply String.eqb_neq. by intros ->.
Qed.

Section paths.
Context (sym : list Sym) (path : list string).

Lemma fits_all_stands l :
  Forall known l → ∀ sym path, Forall2 stands_for sym path →
  fits_all fits l path = fits_all fits_sym l sym.
Proof.
  intros Hl. induction Hl as [|p l Hp _ IH]; intros ? ? [|x s ? ? Hx Hr]; simpl; try done.
  by rewrite (fits_stands p x s Hp Hx), (IH _ _ Hr).
Qed.

Lemma strip_stands l :
  Forall known l → ∀ sym path, Forall2 stands_for sym path →
  match strip_segments fits_sym l sym with
  | Some sym' => ∃ path', strip_segments fits l path = Some path' ∧ Forall2 stands_for sym' path'
  | None => strip_segments fits l path = None
  end.
Proof.
  intros Hl. induction Hl as [|p l Hp _ IH]; intros sym0 path0 Hr; simpl; [eauto|].
  destruct Hr as [|x s xs ss Hx Hr]; [done|]. rewrite (fits_stands p x s Hp Hx).
  destruct (fits_sym p x); [by apply IH | done].
Qed.
End paths.

Definition sym_match (pattern : string) (path : list Sym) : bool :=
  fits_all fits_sym (segments pattern) path.
Definition sym_scope (prefix : string) (path : list Sym) : option (list Sym) :=
  strip_segments fits_sym (segments prefix) path.

Section reach.
Context {R : Routes.Router} {HR : RouterPatterns}.

Abbreviation dispatch_service :=
  (Routes.dispatch_service Routes.resource_match Routes.scope_match).
Abbreviation dispatch_sym := (Routes.dispatch_service sym_match sym_scope).

Lemma first_some_ext {A B} (f g : A → option B) l :
  Forall (λ x, f x = g x) l → Routes.first_some f l = Routes.first_some g l.
Proof. intros Hl. induction Hl as [|x l Hx _ IH]; simpl; [done|]. by rewrite Hx, IH. Qed.

Lemma dispatch_service_sym m sv :
  Forall known (patterns_of sv) → ∀ sym path, Forall2 stands_for sym path →
  dispatch_service m path sv = dispatch_sym m sym sv.
Proof.
  induction sv as [pattern guards routes|prefix services IH] using service_nested_ind;
    intros Hk sym path Hp; simpl in *.
  - unfold sym_match. by rewrite resource_match_spec, (fits_all_stands _ Hk sym path Hp).
  - apply Forall_app in Hk as [Hk Hks]. rewrite scope_match_spec. unfold sym_scope.
    pose proof (strip_stands (segments prefix) Hk sym path Hp) as Hs.
    destruct (strip_segments fits_sym _ sym) as [sym'|]; [|by rewrite Hs].
    destruct Hs as (path' & -> & Hp'). do 2 f_equal. apply first_some_ext.
    clear Hk. induction IH as [|sv svs Hsv _ IH]; simpl in *; [constructor|].
    apply Forall_app in Hks as [Hk Hks]. constructor; [by apply Hsv | by apply IH].
Qed.

Lemma all_known : Forall known (flat_map patterns_of Routes.configure_routes).
Proof.
  apply Forall_forall. intros p Hp%list_elem_of_In. unfold known, words.
  destruct (is_parameter p) eqn:Hpar; [by left | right]. by apply list_elem_of_filter.
Qed.

Lemma dispatch_sym_eq m sym path :
  Forall2 stands_for sym path →
  Routes.dispatch Routes.resource_match Routes.scope_match Routes.configure_routes m path =
  Routes.dispatch sym_match sym_scope Routes.configure_routes m sym.
Proof.
  intros Hp. unfold Routes.dispatch. f_equal. apply first_some_ext.
  pose proof all_known as Hk. induction Routes.configure_routes as [|sv svs IH]; simpl in *; [done|].
  apply Forall_app in Hk as [Hk Hks]. constructor; [by apply dispatch_service_sym | by apply IH].
Qed.

Definition reaches (tr : list string * Route) : bool :=
  bool_decide (Routes.dispatch sym_match sym_scope Routes.configure_routes (rt_method tr.2)
                 (map sym_of tr.1) = Routes.Found tr.2).

Lemma all_reached : forallb reaches all_routes = true.
Proof. vm_compute. reflexivity. Qed.

Lemma instance_stands template path :
  instance_of template path → Forall2 stands_for (map sym_of template) path.
Proof.
  intros Hi. induction Hi as [|p s l ss Hp _ IH]; simpl; constructor; [|done].
  unfold sym_of. by destruct (is_parameter p).
Qed.

(** A request for a registered route, with any arguments for its parameters
    that are not words of the routes themselves (identifiers and tokens never
    are), is dispatched to the handler of that route: no resource or scope
    registered before it takes the request away. *)
Theorem routes_reachable template r path :
  (template, r) ∈ all_routes → instance_of template path →
  Routes.dispatch Routes.resource_match Routes.scope_match Routes.configure_routes
    (rt_method r) path = Routes.Found r.
Proof.
  intros Hin Hi%instance_stands. rewrite (dispatch_sym_eq _ _ _ Hi).
  pose proof (proj1 (forallb_forall _ _) all_reached (template, r)) as Hr.
  apply bool_decide_eq_true in Hr; [exact Hr|]. by apply list_elem_of_In.
Qed.
End reach.

(** ** Who is admitted *)

(** The handlers without an extractor of the caller. *)
Definition open_handlers : list string :=
  ["health_check"; "download_local_temp"; "public_link_info"; "public_verify_password";
   "public_download"; "login"; "refresh"; "logout"; "uploads::options"].

Section admitted.
Context {E : Env} {R : Routes.Router} (config : AuthConfig).

Fixpoint declared (sv : Service) : list Route :=
  match sv with
  | Resource _ _ routes => routes
  | Scope _ services => flat_map declared services
  end.

Lemma first_some_in {A B} (f : A → option B) l b :
  Routes.first_some f l = Some b → ∃ x, x ∈ l ∧ f x = Some b.
Proof.
  induction l as [|x l IH]; simpl; [done|]. destruct (f x) eqn:Hx.
  - intros [= <-]. exists x. split; [by left | done].
  - intros (y & ? & ?)%IH. exists y. split; [by right | done].
Qed.

Lemma answer_found routes m r : Routes.answer routes m = Routes.Found r → r ∈ routes.
Proof.
  unfold Routes.answer. destruct (list_find _ routes) as [[i r']|] eqn:Hf; [|done].
  intros [= <-]. apply list_find_Some in Hf as [Hf _]. by eapply list_elem_of_lookup_2.
Qed.

Lemma dispatch_service_found m sv : ∀ path r,
  Routes.dispatch_service Routes.resource_match Routes.scope_match m path sv =
    Some (Routes.Found r) → r ∈ declared sv.
Proof.
  induction sv as [pattern guards routes|prefix services IH] using service_nested_ind;
    intros path r; simpl.
  - destruct (_ && _); [|done]. intros [= H]. by eapply answer_found.
  - destruct (Routes.scope_match prefix path) as [rest|]; [|done]. intros [= H].
    destruct (Routes.first_some _ services) as [d|] eqn:Hd; simpl in H; [|done]. subst d.
    apply first_some_in in Hd as (sv & Hin & Hsv). rewrite Forall_forall in IH.
    apply list_elem_of_In, in_flat_map. exists sv. split; [by apply list_elem_of_In|].
    apply list_elem_of_In, (IH sv) with rest; [by apply list_elem_of_In | exact Hsv].
Qed.

Lemma dispatch_found services m path r :
  Routes.dispatch Routes.resource_match Routes.scope_match services m path = Routes.Found r →
  r ∈ flat_map declared services.
Proof.
  unfold Routes.dispatch. destruct (Routes.first_some _ services) as [d|] eqn:Hd; simpl; [|done].
  intros ->. apply first_some_in in Hd as (sv & Hin & Hsv).
  apply list_elem_of_In, in_flat_map. exists sv. split; [by apply list_elem_of_In|].
  apply list_elem_of_In. by eapply dispatch_service_found.
Qed.

Lemma public_are_open :
  forallb (λ r, match rt_access r with
                | Public => bool_decide (rt_handler r ∈ open_handlers)
                | _ => true
                end) (flat_map declared Routes.configure_routes) = true.
Proof. vm_compute. reflexivity. Qed.

Lemma extract_user_db authorization w w' u :
  extract_user config authorization w = (w', Ok u) → w' = w.
Proof.
  unfold extract_user, AuthService.validate_access_token, now_secs. intros H. by m_inv.
Qed.

(** C17: whatever the method and the path, when a handler runs, either it is one
    of the few open ones, or the request carries a token that was valid at that
    time, an administrator's where the handler is for administrators; and
    finding that out has changed nothing. *)
Theorem callers_are_known m path authorization w w' r :
  Routes.respond config m path authorization w = (w', Ok (Routes.Found r)) →
  w' = w ∧
  (rt_handler r ∈ open_handlers ∨
   ∃ u, extract_user config authorization w = (w, Ok u) ∧
     (rt_access r = Admin → is_admin u = true)).
Proof.
  unfold Routes.respond.
  destruct (Routes.dispatch _ _ _ m path) as [r'| |] eqn:Hd; [|done|done].
  intros ([] & w1 & Ha & H)%bind_ok. apply ret_ok in H as [-> [= ->]].
  apply dispatch_found in Hd. unfold Routes.from_request in Ha.
  pose proof (proj1 (forallb_forall _ _) public_are_open r'
    ltac:(by apply list_elem_of_In)) as Hopen. cbv beta in Hopen.
  destruct (rt_access r').
  - apply ret_ok in Ha as [-> _]. split; [done|]. left. by apply bool_decide_eq_true in Hopen.
  - apply bind_ok in Ha as (u & w2 & Hu & Ha). apply ret_ok in Ha as [-> _].
    pose proof (extract_user_db _ _ _ _ Hu) as ->. split; [done|]. right. by exists u.
  - apply bind_ok in Ha as (a & w2 & Hu & Ha). apply ret_ok in Ha as [-> _].
    unfold extract_admin in Hu. apply bind_ok in Hu as (u & w3 & Hu & Hrest).
    pose proof (extract_user_db _ _ _ _ Hu) as ->. m_inv. split; [done|]. right. exists u.
    split; [done|]. intros _. unfold require_admin in *. by destruct (is_admin u).
Qed.
End admitted.

(** ** Witnesses: a router that does what the documentation says *)

#[export] Instance concrete_router : Routes.Router := {|
  Routes.resource_match pattern path := fits_all fits (segments pattern) path;
  Routes.scope_match prefix path := strip_segments fits (segments prefix) path
|}.
#[export] Instance concrete_patterns : RouterPatterns.
Proof. by constructor. Qed.

Definition a_file : string := "00000000-0000-0000-0000-000000000064".

Lemma routes_reachable_witness :
  Routes.dispatch Routes.resource_match Routes.scope_match Routes.configure_routes
    GET ["api"; "files"; a_file; "download"] = Routes.Found (user GET "download_file").
Proof.
  apply (routes_reachable ["api"; "files"; "{id}"; "download"] (user GET "download_file")).
  - apply (bool_decide_unpack _). vm_compute. exact I.
  - repeat constructor; simpl; try done.
    apply (bool_decide_unpack _). vm_compute. exact I.
Defined.

(** Other words are looked for in vain, and a known path does not take every
    method; a resource takes its methods whatever comes after it. *)
Example unknown_path :
  Routes.dispatch Routes.resource_match Routes.scope_match Routes.configure_routes
    GET ["api"; "nowhere"] = Routes.NoRoute ∧
  Routes.dispatch Routes.resource_match Routes.scope_match Routes.configure_routes
    DELETE ["api"; "projects"] = Routes.MethodNotAllowed ∧
  Routes.dispatch Routes.resource_match Routes.scope_match Routes.configure_routes
    DELETE ["api"; "backups"; "trigger"] = Routes.MethodNotAllowed.
Proof. vm_compute. done. Qed.

Definition any_auth : AuthConfig := mkAuthConfig "jwt" 900 604800.
Definition at_login : World * Result Routes.Dispatch :=
  Routes.respond any_auth POST ["api"; "auth"; "login"] None deployment.

Lemma callers_are_known_witness :
  at_login.1 = deployment ∧
  (rt_handler (public POST "login") ∈ open_handlers ∨
   ∃ u, extract_user any_auth None deployment = (deployment, Ok u) ∧
     (rt_access (public POST "login") = Admin → is_admin u = true)).
Proof.
  apply (callers_are_known any_auth POST ["api"; "auth"; "login"] None).
  apply run_ok. vm_compute. reflexivity.
Defined.
