(* ===== verification/Interleave.v ===== *)
(** * Programs of statements and their interleaving

    A computation of World.v goes from one state to another in a single step;
    a server interleaves many of them, statement by statement. [Prog] is a
    computation cut into its statements, [Cut] such a cutting of a given
    computation, which runs to the same outcome when nothing disturbs it, and
    [pool_step] the execution of any number of programs on one state: any of
    them takes its next statement, a statement fails before or after it took
    effect, a request is abandoned, another one arrives, the environment acts. *)

From S2P Require Import Prelude Json Schema Env World Tables Laws LocalDisk Registry.

(** ** Programs *)

Section prog.
Context {E : Env}.

(** Finished, or a statement and what follows each of its outcomes. *)
Inductive Prog (A : Type) : Type :=
  | Done (r : Result A)
  | Step {X : Type} (m : M X) (k : Result X → Prog A).

Fixpoint run {A} (p : Prog A) : M A := λ w,
  match p with
  | Done _ r => (w, r)
  | Step _ m k => run (k (m w).2) (m w).1
  end.

(** [p], and then what its outcome asks for. *)
Fixpoint continue {A B} (p : Prog A) (k : Result A → Prog B) : Prog B :=
  match p with
  | Done _ r => k r
  | Step _ m k' => Step B m (λ r, continue (k' r) k)
  end.

(** The [?] operator, and [match] on the outcome of a call. *)
Definition on_result {A B} (f : A → Prog B) (g : AppError → Prog B) (r : Result A) : Prog B :=
  match r with
  | Ok a => f a
  | Err e => g e
  | Panic => Done _ Panic
  end.
Definition on_ok {A B} (f : A → Prog B) : Result A → Prog B := on_result f (λ e, Done _ (Err e)).

Lemma run_continue {A B} (p : Prog A) (k : Result A → Prog B) w :
  run (continue p k) w = run (k (run p w).2) (run p w).1.
Proof. revert w. induction p as [r|X m k' IH]; intros w; simpl; [done | apply IH]. Qed.

(** Every statement the program can come to satisfies [S]. *)
Fixpoint Every (S : ∀ X, M X → Prop) {A} (p : Prog A) : Prop :=
  match p with
  | Done _ _ => True
  | Step _ m k => S _ m ∧ ∀ r, Every S (k r)
  end.

Lemma every_continue S {A B} (p : Prog A) (k : Result A → Prog B) :
  Every S p → (∀ r, Every S (k r)) → Every S (continue p k).
Proof. induction p as [r|X m k' IH]; simpl; [auto|]. intros [Hm Hk'] Hk. split; auto. Qed.

Lemma every_on_result S {A B} (f : A → Prog B) g r :
  (∀ a, Every S (f a)) → (∀ e, Every S (g e)) → Every S (on_result f g r).
Proof. destruct r; simpl; auto. Qed.

Lemma every_impl (S T : ∀ X, M X → Prop) {A} (p : Prog A) :
  (∀ X m, S X m → T X m) → Every S p → Every T p.
Proof. intros HST. induction p as [r|X m k IH]; simpl; [done|]. intros [? ?]. auto. Qed.

(** ** Statements *)

(** What the code does in one step as seen from its peers: a SQL statement, a
    transaction, a call to the file system, to a remote service or to the
    registry, a random draw, a look at the clock. *)
Inductive Statement : ∀ X, M X → Prop :=
  | stmt_gets {X} (f : World → X) : Statement X (gets f)
  | stmt_modify f : Statement unit (modify f)
  | stmt_remote {X} (f : RemoteState → RemoteState * Result X) : Statement X (remote_step f)
  | stmt_draw : Statement N draw
  | stmt_insert `{Table R} mk : Statement R (sql_insert mk)
  | stmt_update `{Table R} P f : Statement (list R) (sql_update P f)
  | stmt_update_id `{Table R} id f : Statement (option R) (sql_update_id id f)
  | stmt_set_id_if `{Table R} id P f : Statement (option R) (sql_set_id_if id P f)
  | stmt_delete `{Table R} P : Statement (list R) (sql_delete P)
  | stmt_transaction {X} (m : M X) : Statement X (transaction m).

(** ** Cutting a computation *)

Section cut.
Context (G : relation World).

Definition lawful X (m : M X) : Prop := Statement X m ∧ Guar G m.

(** [m] as a program of statements, each of which does to the state what [G] says. *)
Record Cut {A} (m : M A) : Type := mkCut {
  prog : Prog A;
  run_prog w : run prog w = m w;
  prog_lawful : Every lawful prog
}.

Lemma cut_done_run {A} (m : M A) r w : (∀ w, m w = (w, r)) → run (Done A r) w = m w.
Proof. by intros ->. Qed.
Definition cut_done {A} (m : M A) (r : Result A) (H : ∀ w, m w = (w, r)) : Cut m :=
  mkCut _ m (Done A r) (λ w, cut_done_run m r w H) I.

Lemma cut_stmt_run {A} (m : M A) w : run (Step A m (Done A)) w = m w.
Proof. simpl. by destruct (m w). Qed.
Lemma cut_stmt_every {A} (m : M A) : lawful A m → Every lawful (Step A m (Done A)).
Proof. by split. Qed.
Definition cut_stmt {A} (m : M A) (H : lawful A m) : Cut m :=
  mkCut _ m (Step A m (Done A)) (cut_stmt_run m) (cut_stmt_every m H).

Definition seq_prog {A B} (p : Prog A) (f : A → Prog B) (g : AppError → Prog B) : Prog B :=
  continue p (on_result f g).

Lemma cut_try_run {A B} (m : M A) (k : A → M B) h
    (cm : Cut m) (ck : ∀ a, Cut (k a)) (ch : ∀ e, Cut (h e)) w :
  run (seq_prog (prog _ cm) (λ a, prog _ (ck a)) (λ e, prog _ (ch e))) w = try_with m k h w.
Proof.
  unfold seq_prog, try_with. rewrite run_continue, run_prog.
  destruct (m w) as [w' [a|e|]]; simpl; [apply run_prog..|done].
Qed.
Lemma cut_try_every {A B} (m : M A) (k : A → M B) h
    (cm : Cut m) (ck : ∀ a, Cut (k a)) (ch : ∀ e, Cut (h e)) :
  Every lawful (seq_prog (prog _ cm) (λ a, prog _ (ck a)) (λ e, prog _ (ch e))).
Proof.
  apply every_continue; [apply prog_lawful|]. intros r.
  apply every_on_result; intros; apply prog_lawful.
Qed.
Definition cut_try {A B} (m : M A) (k : A → M B) h
    (cm : Cut m) (ck : ∀ a, Cut (k a)) (ch : ∀ e, Cut (h e)) : Cut (try_with m k h) :=
  mkCut _ _ _ (cut_try_run m k h cm ck ch) (cut_try_every m k h cm ck ch).

Definition cut_ret {A} (a : A) : Cut (mret a) := cut_done (mret a) (Ok a) (λ w, eq_refl).
Definition cut_throw {A} e : Cut (throw e : M A) := cut_done (throw e) (Err e) (λ w, eq_refl).
Definition cut_lift {A} (r : Result A) : Cut (lift r) := cut_done (lift r) r (λ w, eq_refl).
Definition cut_ensure b e : Cut (ensure b e) :=
  match b return Cut (ensure b e) with true => cut_ret tt | false => cut_throw e end.

Lemma cut_bind_run {A B} (m : M A) (k : A → M B) (cm : Cut m) (ck : ∀ a, Cut (k a)) w :
  run (seq_prog (prog _ cm) (λ a, prog _ (ck a)) (λ e, Done B (Err e))) w = (m ≫= k) w.
Proof.
  unfold seq_prog. rewrite run_continue, run_prog, bind_unfold.
  destruct (m w) as [w' [a|e|]]; simpl; [apply run_prog|done..].
Qed.
Lemma cut_bind_every {A B} (m : M A) (k : A → M B) (cm : Cut m) (ck : ∀ a, Cut (k a)) :
  Every lawful (seq_prog (prog _ cm) (λ a, prog _ (ck a)) (λ e, Done B (Err e))).
Proof.
  apply every_continue; [apply prog_lawful|]. intros r.
  apply every_on_result; intros; [apply prog_lawful | done].
Qed.
Definition cut_bind {A B} (m : M A) (k : A → M B) (cm : Cut m) (ck : ∀ a, Cut (k a)) :
    Cut (m ≫= k) :=
  mkCut _ _ _ (cut_bind_run m k cm ck) (cut_bind_every m k cm ck).

(** A call whose results are known to satisfy a test. *)
Definition such {A B} (P : A → bool) (a : A) (f : P a = true → Prog B) : Prog B :=
  match Bool.bool_dec (P a) true with left H => f H | right _ => Done B Panic end.

Lemma cut_such_run {A B} (P : A → bool) (m : M A) (k : A → M B)
    (HP : ∀ w w' a, m w = (w', Ok a) → P a = true)
    (cm : Cut m) (ck : ∀ a, P a = true → Cut (k a)) w :
  run (seq_prog (prog _ cm) (λ a, such P a (λ H, prog _ (ck a H))) (λ e, Done B (Err e))) w =
  (m ≫= k) w.
Proof.
  unfold seq_prog. rewrite run_continue, run_prog, bind_unfold.
  destruct (m w) as [w' [a|e|]] eqn:Hm; simpl; [|done..]. unfold such.
  destruct (Bool.bool_dec _ _) as [H|H]; [apply run_prog|]. by apply HP in Hm.
Qed.
Lemma cut_such_every {A B} (P : A → bool) (m : M A) (k : A → M B)
    (cm : Cut m) (ck : ∀ a, P a = true → Cut (k a)) :
  Every lawful (seq_prog (prog _ cm) (λ a, such P a (λ H, prog _ (ck a H))) (λ e, Done B (Err e))).
Proof.
  apply every_continue; [apply prog_lawful|]. intros r.
  apply every_on_result; intros; [|done]. unfold such.
  destruct (Bool.bool_dec _ _); [apply prog_lawful | done].
Qed.
Definition cut_such {A B} (P : A → bool) (m : M A) (k : A → M B)
    (HP : ∀ w w' a, m w = (w', Ok a) → P a = true)
    (cm : Cut m) (ck : ∀ a, P a = true → Cut (k a)) : Cut (m ≫= k) :=
  mkCut _ _ _ (cut_such_run P m k HP cm ck) (cut_such_every P m k cm ck).

Definition cut_foldM {A B} (f : B → A → M B) (cf : ∀ b a, Cut (f b a)) :
    ∀ l b, Cut (foldM f b l) :=
  fix go l b :=
    match l return Cut (foldM f b l) with
    | [] => cut_ret b
    | x :: l' => cut_bind (f b x) (λ b', foldM f b' l') (cf b x) (go l')
    end.

Definition cut_for_each {A} (f : A → M unit) (cf : ∀ a, Cut (f a)) l : Cut (for_each f l) :=
  cut_foldM (λ _, f) (λ _, cf) l tt.
End cut.
End prog.

#[global] Arguments Done {E A}.
#[global] Arguments Step {E A X}.
#[global] Arguments prog {E G A m}.

(** ** Pools of programs *)

Section pool.
Context {E : Env} {A : Type} (spawn : Prog A → Prop) (env : relation World).

Definition Pool : Type := list (Prog A) * World.

Inductive pool_step : relation Pool :=
  (** A request arrives, a task is started. *)
  | pool_spawn ts p w : spawn p → pool_step (ts, w) (ts ++ [p], w)
  (** One of them executes its next statement. *)
  | pool_run ts1 {X} (m : M X) k ts2 w :
      pool_step (ts1 ++ Step m k :: ts2, w) (ts1 ++ k (m w).2 :: ts2, (m w).1)
  (** The statement fails, or its answer is lost. *)
  | pool_fault ts1 {X} (m : M X) k ts2 w e :
      pool_step (ts1 ++ Step m k :: ts2, w) (ts1 ++ k (Err e) :: ts2, w)
  | pool_lost ts1 {X} (m : M X) k ts2 w e :
      pool_step (ts1 ++ Step m k :: ts2, w) (ts1 ++ k (Err e) :: ts2, (m w).1)
  (** It is dropped: its client is gone, or its process is. *)
  | pool_drop ts1 {X} (m : M X) k ts2 w : pool_step (ts1 ++ Step m k :: ts2, w) (ts1 ++ ts2, w)
  | pool_env ts w w' : env w w' → pool_step (ts, w) (ts, w').

(** A program left alone runs to its end. *)
Lemma pool_completes ts p w : rtc pool_step (ts ++ [p], w) (ts ++ [Done (run p w).2], (run p w).1).
Proof.
  revert w. induction p as [r|X m k IH]; intros w; simpl; [apply rtc_refl|].
  eapply rtc_l; [apply (pool_run ts m k [])|]. apply IH.
Qed.

Lemma pool_request ts p w :
  spawn p → rtc pool_step (ts, w) (ts ++ [Done (run p w).2], (run p w).1).
Proof. intros Hp. eapply rtc_l; [by apply pool_spawn | apply pool_completes]. Qed.

(** An executable schedule: which program takes the next step, time after time. *)
Fixpoint exec (schedule : list nat) (c : Pool) : Pool :=
  match schedule with
  | [] => c
  | i :: schedule' =>
      exec schedule'
        match c.1 !! i with
        | Some (Step m k) => (<[i := k (m c.2).2]> c.1, (m c.2).1)
        | _ => c
        end
  end.

Lemma exec_one i c : exec [i] c = c ∨ pool_step c (exec [i] c).
Proof.
  destruct c as [ts w]. simpl. destruct (ts !! i) as [[r|X m k]|] eqn:Hi; [by left| |by left]. right.
  pose proof (pool_run (take i ts) m k (drop (S i) ts) w) as Hp.
  rewrite take_drop_middle in Hp by done.
  by rewrite <- insert_take_drop in Hp by by eapply lookup_lt_Some.
Qed.

Lemma exec_steps schedule c : rtc pool_step c (exec schedule c).
Proof.
  revert c. induction schedule as [|i schedule IH]; intros c; [apply rtc_refl|].
  change (exec (i :: schedule) c) with (exec schedule (exec [i] c)).
  destruct (exec_one i c) as [->|Hs]; [apply IH | eapply rtc_l; [exact Hs | apply IH]].
Qed.

(** An amortised count: [paid] of the outcomes of the finished programs is
    covered by what the state has [left], or had when the credit a running
    program holds was taken from it. [adm] is what is assumed of the states a
    step connects. *)
Section credit.
Context (J : World → Prop) (adm : relation World) (left : World → Z) (paid : Result A → Z).

(** A change of the state that gives [n] of credit. *)
Definition gives (n : Z) (w w' : World) : Prop :=
  adm w w' → J w' ∧ n + left w' ≤ left w.

(** A program with credit [n] pays for itself, whatever the states in which its
    statements are executed and whichever of them fail. *)
Fixpoint Pays (n : Z) (p : Prog A) : Prop :=
  match p with
  | Done r => paid r ≤ n
  | Step m k =>
      (∀ w, J w → ∃ i, 0 ≤ i ∧ gives i w (m w).1 ∧ Pays (n + i) (k (m w).2)) ∧
      ∀ e, Pays n (k (Err e))
  end.

(** A statement that gives nothing and takes nothing. *)
Definition neutral X (m : M X) : Prop := ∀ w, J w → gives 0 w (m w).1.

Lemma pays_continue {B} n (p : Prog B) (k : Result B → Prog A) :
  Every neutral p → (∀ r, Pays n (k r)) → Pays n (continue p k).
Proof.
  induction p as [r|X m k' IH]; simpl; [auto|]. intros [Hm Hk'] Hk. split; [|auto].
  intros w HJ. exists 0. split; [done|]. split; [by apply Hm|]. rewrite Z.add_0_r. auto.
Qed.

Lemma pays_seq {B D} n (p : Prog B) (f : B → Prog D) g (k : Result D → Prog A) :
  Every neutral p → (∀ b, Pays n (continue (f b) k)) → (∀ e, Pays n (continue (g e) k)) →
  Pays n (k Panic) → Pays n (continue (seq_prog p f g) k).
Proof.
  intros Hp Hf Hg Hk. unfold seq_prog. induction p as [r|X m k' IH]; simpl in *.
  - by destruct r; simpl.
  - destruct Hp as [Hm Hk']. split; [|auto].
    intros w HJ. exists 0. split; [done|]. split; [by apply Hm|]. rewrite Z.add_0_r. auto.
Qed.

(** A computation in the middle of another. *)
Lemma pays_assoc {B D} n (p : Prog D) (k : Result D → Prog B) (K : Result B → Prog A) :
  Pays n (continue p (λ r, continue (k r) K)) → Pays n (continue (continue p k) K).
Proof.
  revert n. induction p as [r|X q k' IH]; intros n; simpl; [done|].
  intros [Hq He]. split; [|auto].
  intros w Hw. destruct (Hq w Hw) as (i & Hi & Hg & Hk). eauto.
Qed.

(** Programs cut from the code, when what their statements do is neutral. *)
Section cuts.
Context (G : relation World) (G_neutral : ∀ w w', G w w' → J w → gives 0 w w').

Lemma cut_neutral {B} {m : M B} (c : Cut G m) : Every neutral (prog c).
Proof.
  eapply every_impl; [|apply prog_lawful]. intros X n [_ Hn] w Hw. by apply G_neutral; [apply Hn|].
Qed.

Lemma pays_cut {B} {m : M B} n (c : Cut G m) (k : Result B → Result A) :
  (∀ r, paid (k r) ≤ n) → Pays n (continue (prog c) (λ r, Done (k r))).
Proof. intros Hk. by apply pays_continue; [apply cut_neutral|]. Qed.

Lemma pays_bind {B D} n (m : M B) (k : B → M D) (cm : Cut G m) (ck : ∀ b, Cut G (k b))
    (K : Result D → Prog A) :
  (∀ b, Pays n (continue (prog (ck b)) K)) → (∀ e, Pays n (K (Err e))) → Pays n (K Panic) →
  Pays n (continue (prog (cut_bind G m k cm ck)) K).
Proof. intros Hk He Hp. apply pays_seq; [apply cut_neutral | done..]. Qed.

Lemma pays_such {B D} n (P : B → bool) (m : M B) (k : B → M D) HP (cm : Cut G m)
    (ck : ∀ b, P b = true → Cut G (k b)) (K : Result D → Prog A) :
  (∀ b (H : P b = true), Pays n (continue (prog (ck b H)) K)) →
  (∀ e, Pays n (K (Err e))) → Pays n (K Panic) →
  Pays n (continue (prog (cut_such G P m k HP cm ck)) K).
Proof.
  intros Hk He Hp. apply pays_seq; [apply cut_neutral | | done..].
  intros b. unfold such. by destruct (Bool.bool_dec _ _).
Qed.

(** A test of the code. *)
Lemma pays_ensure {D} n b e (k : unit → M D) (ck : ∀ u, Cut G (k u)) (K : Result D → Prog A) :
  (b = true → Pays n (continue (prog (ck tt)) K)) → Pays n (K (Err e)) →
  Pays n (continue (prog (cut_bind G _ _ (cut_ensure G b e) ck)) K).
Proof. destruct b; simpl; auto. Qed.

Lemma pays_lift {B D} n (r : Result B) (k : B → M D) (ck : ∀ b, Cut G (k b)) (K : Result D → Prog A) :
  (∀ b, r = Ok b → Pays n (continue (prog (ck b)) K)) →
  (∀ e, Pays n (K (Err e))) → Pays n (K Panic) →
  Pays n (continue (prog (cut_bind G _ _ (cut_lift G r) ck)) K).
Proof. intros Hk He Hp. destruct r as [b|e|]; [by apply Hk | apply He | exact Hp]. Qed.
End cuts.

Definition adm_step (c c' : Pool) : Prop := pool_step c c' ∧ adm c.2 c'.2.

Definition finished (p : Prog A) : Z := match p with Done r => paid r | Step _ _ => 0 end.

(** A schedule whose every step passes a check of the assumption. *)
Fixpoint checked (check : World → World → bool) (schedule : list nat) (c : Pool) : bool :=
  match schedule with
  | [] => true
  | i :: schedule' => check c.2 (exec [i] c).2 && checked check schedule' (exec [i] c)
  end.

Lemma exec_checked check schedule c :
  (∀ w w', check w w' = true → adm w w') →
  checked check schedule c = true → rtc adm_step c (exec schedule c).
Proof.
  intros Hc. revert c. induction schedule as [|i schedule IH]; intros c; [intros; apply rtc_refl|].
  cbn [checked]. intros [Hnew Hrest]%andb_prop.
  change (exec (i :: schedule) c) with (exec schedule (exec [i] c)).
  destruct (exec_one i c) as [Heq|Hs].
  - rewrite Heq in Hrest |- *. by apply IH.
  - eapply rtc_l; [split; [exact Hs | by apply Hc] | by apply IH].
Qed.

Hypothesis spawn_pays : ∀ p, spawn p → Pays 0 p.
Hypothesis env_neutral : ∀ w w', env w w' → J w → gives 0 w w'.

(** The programs of the pool hold [n] of credit together. *)
Inductive Covered : list (Prog A) → Z → Prop :=
  | covered_nil : Covered [] 0
  | covered_cons p ts n i : 0 ≤ i → Pays i p → Covered ts n → Covered (p :: ts) (i + n).

Lemma covered_app ts1 ts2 n :
  Covered (ts1 ++ ts2) n ↔ ∃ n1 n2, n = n1 + n2 ∧ Covered ts1 n1 ∧ Covered ts2 n2.
Proof.
  revert n. induction ts1 as [|p ts1 IH]; intros n; simpl; split.
  - intros H. exists 0, n. split_and!; [lia | constructor | done].
  - intros (n1 & n2 & -> & H1 & H2). by inversion H1.
  - inversion 1 as [|? ? n0 i Hi Hp Hc]; subst. apply IH in Hc as (n1 & n2 & -> & H1 & H2).
    exists (i + n1), n2. split_and!; [lia | by constructor | done].
  - intros (n1 & n2 & -> & H1 & H2). inversion H1 as [|? ? n0 i Hi Hp Hc]; subst.
    rewrite <- Z.add_assoc. constructor; [done..|]. apply IH. eauto.
Qed.

Lemma covered_inv p ts n :
  Covered (p :: ts) n → ∃ i n', n = i + n' ∧ 0 ≤ i ∧ Pays i p ∧ Covered ts n'.
Proof. inversion 1; eauto 10. Qed.

Lemma covered_finished ts n : (∀ r, 0 ≤ paid r) → Covered ts n → sum_z finished ts ≤ n.
Proof.
  intros Hpos. induction 1 as [|p ts n i Hi Hp _ IH]; simpl; [done|].
  destruct p; simpl in *; lia.
Qed.

Definition within (b : Z) (c : Pool) : Prop := J c.2 ∧ ∃ n, Covered c.1 n ∧ n + left c.2 ≤ b.

(** Replacing a program of the pool. *)
Lemma covered_replace ts1 p ts2 n :
  Covered (ts1 ++ p :: ts2) n →
  ∃ i n', n = i + n' ∧ 0 ≤ i ∧ Pays i p ∧ Covered (ts1 ++ ts2) n' ∧
    ∀ q j, 0 ≤ j → Pays j q → Covered (ts1 ++ q :: ts2) (j + n').
Proof.
  intros (n1 & n2 & -> & H1 & (i & n' & -> & Hi & Hp & H2)%covered_inv)%covered_app.
  exists i, (n1 + n'). split_and!; [lia | done | done | apply covered_app; eauto|].
  intros q j Hj Hq. apply covered_app. exists n1, (j + n'). split_and!; [lia | done | by constructor].
Qed.

Lemma step_within b c c' : adm_step c c' → within b c → within b c'.
Proof.
  intros [Hstep Ha] [HJ (n & Hc & Hb)].
  destruct Hstep as [ts p w Hp|ts1 X m k ts2 w|ts1 X m k ts2 w e|ts1 X m k ts2 w e
    |ts1 X m k ts2 w|ts w w' He]; unfold within; simpl in *.
  - split; [done|]. exists n. split; [|done]. apply covered_app. exists n, (0 + 0).
    split_and!; [lia | done | constructor; [done | by apply spawn_pays | constructor]].
  - apply covered_replace in Hc as (i & n' & -> & Hi & [Hm _] & _ & Hr).
    destruct (Hm w HJ) as (j & Hj & Hg & Hk). destruct (Hg Ha) as [? ?]. split; [done|].
    exists (i + j + n'). split; [apply Hr; [lia | done] | lia].
  - apply covered_replace in Hc as (i & n' & -> & Hi & [_ He] & _ & Hr).
    split; [done|]. exists (i + n'). split; [apply Hr; [lia | done] | lia].
  - apply covered_replace in Hc as (i & n' & -> & Hi & [Hm He] & _ & Hr).
    destruct (Hm w HJ) as (j & Hj & Hg & _). destruct (Hg Ha) as [? ?]. split; [done|].
    exists (i + n'). split; [apply Hr; [lia | done] | lia].
  - apply covered_replace in Hc as (i & n' & -> & Hi & _ & Hd & _).
    split; [done|]. exists n'. split; [done | lia].
  - destruct (env_neutral w w' He HJ Ha) as [? ?]. split; [done|]. exists n. split; [done | lia].
Qed.

(** What was paid is covered by what was left. *)
Theorem paid_bound c ts w :
  (∀ r, 0 ≤ paid r) → (∀ w, 0 ≤ left w) → J c.2 → c.1 = [] →
  rtc adm_step c (ts, w) → sum_z finished ts ≤ left c.2.
Proof.
  intros Hpaid Hleft HJ Hnil Hs.
  assert (within (left c.2) c) as Hw.
  { split; [done|]. exists 0. rewrite Hnil. split; [constructor | lia]. }
  assert (within (left c.2) (ts, w)) as [_ (n & Hc & Hb)].
  { revert Hw. generalize (left c.2) as b. clear HJ Hnil.
    induction Hs as [|c c1 c2 Hstep _ IH]; intros b Hw; [done|]. apply IH. by eapply step_within. }
  apply covered_finished in Hc; [|done]. specialize (Hleft w). simpl in *. lia.
Qed.
End credit.

(** An invariant every statement preserves, faults and all. *)
Theorem pool_invariant (J : World → Prop) c c' :
  (∀ p, spawn p → Every (λ X m, Guar (preserves J) m) p) →
  (∀ w w', env w w' → J w → J w') →
  rtc pool_step c c' →
  J c.2 → Forall (Every (λ X m, Guar (preserves J) m)) c.1 →
  J c'.2 ∧ Forall (Every (λ X m, Guar (preserves J) m)) c'.1.
Proof.
  intros Hspawn Henv Hs HJ Hts. induction Hs as [c|c c1 c2 Hstep _ IH]; [done|].
  apply IH; clear IH; destruct Hstep as [ts p w Hp|ts1 X m k ts2 w|ts1 X m k ts2 w e|ts1 X m k ts2 w e
    |ts1 X m k ts2 w|ts w w' He]; simpl in *;
    repeat (rewrite ?Forall_app, ?Forall_cons_iff in * ); simpl in *.
  all: repeat match goal with H : _ ∧ _ |- _ => destruct H end; split_and?; eauto using Forall_nil.
  all: match goal with H : Guar _ ?m |- _ => exact (H w HJ) end.
Qed.
End pool.
