(* ===== verification/Threads.v ===== *)
(** * The operations as programs

    Every operation of the system (System.v) cut into the statements its code
    executes, with what each of them does to the files, references, copies and
    tasks, to the shared links, the refresh tokens and the upload sessions
    ([law]); the cuttings are found by walking through the operations. [thread]
    is the program of an operation. *)

From S2P Require Import Prelude Json Schema Env World Tables Laws Projects LocalDisk Registry Storages Files SyncTasks Users Links Backups Search Resolver FileService TierService BulkService SharedLinkService BackupService SyncWorker Auth Access Uploads ApiProjects ApiFiles ApiBackups ApiBulk Config Server System Frames SystemLaws Integrity LinkSpec SystemSpec Interleave.

(** ** What a statement may do *)

Section law.
Context {E : Env}.

(** A link is new, or keeps its token and its limit and never loses count. *)
Definition link_kept (d d' : Db) : Prop := ∀ id l', shared_links d' !! id = Some l' →
  shared_links d !! id = None ∨
  ∃ l, shared_links d !! id = Some l ∧ sl_token l' = sl_token l ∧
       sl_max_downloads l' = sl_max_downloads l ∧ sl_download_count l ≤ sl_download_count l'.
Definition links_law (w w' : World) : Prop :=
  LinksOk (db w) → LinksOk (db w') ∧ link_kept (db w) (db w').

(** A refresh token is new, or what it was. *)
Definition tokens_law (w w' : World) : Prop := ∀ id r, refresh_tokens (db w') !! id = Some r →
  refresh_tokens (db w) !! id = None ∨ refresh_tokens (db w) !! id = Some r.

(** An upload session is new, or keeps its length and never loses ground. *)
Definition sessions_law (w w' : World) : Prop := ∀ id s',
  upload_sessions (db w') !! id = Some s' →
  upload_sessions (db w) !! id = None ∨
  ∃ s, upload_sessions (db w) !! id = Some s ∧ ss_total_size s' = ss_total_size s ∧
       ss_offset_bytes s ≤ ss_offset_bytes s'.

Definition law (w w' : World) : Prop :=
  preserves (on_db FilesOk) w w' ∧ links_law w w' ∧ tokens_law w w' ∧ sessions_law w w'.

Lemma law_of {A} (m : M A) :
  Keeps FilesOk m → Guar links_law m → Guar tokens_law m → Guar sessions_law m → Guar law m.
Proof. intros ? ? ? ? w. by split_and!. Qed.

(** Rows of a table may go, none changes. *)
Definition loses {R} (f : Db → gmap Uuid R) : relation World := λ w w', f (db w') ⊆ f (db w).
#[export] Instance loses_preorder {R} (f : Db → gmap Uuid R) : PreOrder (loses f).
Proof. unfold loses. split; [intros w; reflexivity | intros ? ? ? H1 H2; by etrans]. Qed.

Lemma links_loses {A} (m : M A) : Guar (loses shared_links) m → Guar links_law m.
Proof.
  intros Hm w Hok. specialize (Hm w). split; [by eapply LinksOk_sub|].
  intros id l' Hl'. right. exists l'. split_and!; [by eapply lookup_weaken | done..].
Qed.
Lemma tokens_loses {A} (m : M A) : Guar (loses refresh_tokens) m → Guar tokens_law m.
Proof. intros Hm w id r Hr. right. eapply lookup_weaken; [exact Hr | apply Hm]. Qed.
Lemma sessions_loses {A} (m : M A) : Guar (loses upload_sessions) m → Guar sessions_law m.
Proof.
  intros Hm w id s Hs. right. exists s. split_and!; [|done..].
  eapply lookup_weaken; [exact Hs | apply Hm].
Qed.

Lemma law_quiet {A} (m : M A) : (∀ w, db (m w).1 = db w) → Guar law m.
Proof.
  intros Hm. apply law_of; [by apply keeps_quiet|apply links_loses|apply tokens_loses|apply sessions_loses];
    intros w; unfold loses; by rewrite Hm.
Qed.

(** Deletions and their cascades. *)
Lemma cascade_loses {R R'} `{Table R} (f : Db → gmap Uuid R') ids d d' :
  (∀ id d d', on_delete (R := R) id d = Some d' → f d' ⊆ f d) →
  delete_cascade (R := R) ids d = Some d' → f d' ⊆ f d.
Proof.
  intros Hf. revert d. unfold delete_cascade.
  induction ids as [|i ids IH]; intros d; simpl; [by intros [= ->]|].
  destruct (on_delete i d) as [d1|] eqn:Hd; [intros Hc; etrans; [by eapply IH | eauto]|].
  intros Hc. exfalso. clear -Hc. by induction ids.
Qed.

Lemma loses_delete {R R'} `{Table R} (f : Db → gmap Uuid R') P :
  (∀ t d, t ⊆ tbl d → f (set_tbl t d) ⊆ f d) →
  (∀ id d d', on_delete (R := R) id d = Some d' → f d' ⊆ f d) →
  Guar (loses f) (sql_delete (R := R) P).
Proof.
  intros Ht Hf w. unfold sql_delete, loses.
  destruct (delete_cascade _ _) as [d'|] eqn:Hc; [|done]. simpl.
  apply (cascade_loses f) in Hc; [|done]. etrans; [exact Hc|]. apply Ht, map_filter_subseteq.
Qed.

Lemma forget_user_loses id d d' : forget_user id d = Some d' →
  shared_links d' ⊆ shared_links d ∧ refresh_tokens d' ⊆ refresh_tokens d ∧
  upload_sessions d' ⊆ upload_sessions d.
Proof.
  unfold forget_user. destruct (exists_row _ _); [done|]. intros [= <-].
  split_and!; first [done | apply map_filter_subseteq].
Qed.

Lemma loses_transaction {R} (f : Db → gmap Uuid R) {A} (m : M A) :
  Guar (loses f) m → Guar (loses f) (transaction m).
Proof.
  intros Hm w. specialize (Hm w). unfold transaction, loses in *.
  destruct (m w) as [w' []]; simpl in *; done.
Qed.

Lemma law_create_token mk : Guar tokens_law (sql_insert (R := Schema.RefreshToken) mk).
Proof.
  intros w id r. unfold sql_insert, insert_row. rewrite bind_unfold, new_uuid_eq. cbn -[violates].
  change (tbl (db w)) with (refresh_tokens (db w)).
  destruct (refresh_tokens (db w) !! gen_uuid (draws w)) eqn:Hid; [by right|].
  destruct (violates _ _); [by right|]. simpl. rewrite lookup_insert.
  case_decide; [subst; by left | by right].
Qed.

Lemma law_create_link mk :
  (∀ id t, sl_id (mk id t) = id) → Guar links_law (sql_insert (R := Schema.SharedLink) mk).
Proof.
  intros Hmk w Hok. unfold sql_insert, insert_row. rewrite bind_unfold, new_uuid_eq. cbn -[violates].
  change (tbl (db w)) with (shared_links (db w)).
  assert (link_kept (db w) (db w)) as Hrefl by (intros ? l ?; right; by exists l).
  destruct (shared_links (db w) !! gen_uuid (draws w)) eqn:Hid; [by split|].
  destruct (violates _ _) eqn:Hv; [by split|]. split; simpl; [by eapply LinksOk_add|].
  intros id l'. simpl. rewrite lookup_insert. case_decide; [subst; by left|].
  intros ?. right. by exists l'.
Qed.

Lemma law_create_session mk :
  Guar sessions_law (sql_insert (R := Schema.UploadSession) mk).
Proof.
  intros w id s. unfold sql_insert, insert_row. rewrite bind_unfold, new_uuid_eq. cbn -[violates].
  change (tbl (db w)) with (upload_sessions (db w)).
  destruct (upload_sessions (db w) !! gen_uuid (draws w)) eqn:Hid; [by right; exists s|].
  destruct (violates _ _); [by right; exists s|]. simpl. rewrite lookup_insert.
  case_decide; [subst; by left | by right; exists s].
Qed.

Lemma law_set_session id P f :
  (∀ s, P s = true →
    ss_total_size (f s) = ss_total_size s ∧ ss_offset_bytes s ≤ ss_offset_bytes (f s)) →
  Guar sessions_law (sql_set_id_if (R := Schema.UploadSession) id P f).
Proof.
  intros Hf w i s'. unfold sql_set_id_if. change (tbl (db w)) with (upload_sessions (db w)).
  destruct (upload_sessions (db w) !! id) as [s|] eqn:Hs; [|by right; exists s'].
  destruct (P s) eqn:HP; [|by right; exists s']. simpl. rewrite lookup_insert.
  case_decide; [|by right; exists s'].
  intros [= <-]. subst. right. exists s. split; [done | by apply Hf].
Qed.

Lemma law_set_link id P f :
  (∀ l, sl_id (f l) = sl_id l ∧ sl_token (f l) = sl_token l ∧
        sl_max_downloads (f l) = sl_max_downloads l ∧
        sl_download_count l ≤ sl_download_count (f l)) →
  Guar links_law (sql_set_id_if (R := Schema.SharedLink) id P f).
Proof.
  intros Hf w Hok. unfold sql_set_id_if. change (tbl (db w)) with (shared_links (db w)).
  assert (link_kept (db w) (db w)) as Hrefl by (intros ? l ?; right; by exists l).
  destruct (shared_links (db w) !! id) as [l|] eqn:Hl; [|by split].
  destruct (P l); [|by split]. destruct (Hf l) as (Hi & Ht & Hm & Hc). split; simpl.
  - by apply (LinksOk_set (db w) _ id l (f l)).
  - intros i l'. simpl. rewrite lookup_insert. case_decide.
    + intros [= <-]. subst. right. by exists l.
    + intros ?. right. by exists l'.
Qed.
End law.

(** ** Walking through the code *)

Create HintDb cuts.

(** What a statement does to the files, and to the links. *)
Ltac law_files :=
  first
  [ apply keeps_create_file | apply keeps_create_ref | apply keeps_create_task
  | apply keeps_create_location | apply keeps_set_ref
  | apply keeps_set_location; [done || apply with_status_keeps]
  | apply keeps_set_task; [done]
  | apply keeps_update_locations; [done || apply with_status_keeps]
  | apply keeps_update_tasks; [done]
  | apply keeps_delete_refs | apply keeps_delete_locations | apply keeps_delete_files
  | apply (keeps_same FilesOk file_tables); [exact FilesOk_tables |];
    first [ solve [guar]
          | apply guar_sql_delete_same; [done | first [exact forget_user_files | by intros ? ? ? [= <-]]] ] ].

Ltac loses_rows :=
  first
  [ apply loses_delete;
    [ intros ? ? ?; first [reflexivity | assumption]
    | intros ? ? ? Hd; first
        [ apply forget_user_loses in Hd; apply Hd
        | injection Hd as <-; first [reflexivity | apply map_filter_subseteq] ] ]
  | solve [repeat first [guar_step | intros; unfold loses; reflexivity]] ].

Ltac law_links :=
  first
  [ apply law_create_link; done
  | apply law_set_link; intros ?; simpl; split_and!; first [done | lia]
  | apply links_loses; loses_rows ].

Ltac law_tokens := first [ apply law_create_token | apply tokens_loses; loses_rows ].

Ltac law_sessions :=
  first
  [ apply law_create_session
  | apply law_set_session; intros ? ?; simpl in *; split; [done | lia]
  | apply sessions_loses; loses_rows ].

Ltac statement := first
  [ apply stmt_gets | apply stmt_modify | apply stmt_remote | apply stmt_draw | apply stmt_insert
  | apply stmt_update | apply stmt_update_id | apply stmt_set_id_if | apply stmt_delete
  | apply stmt_transaction ].

Ltac cut_leaf :=
  apply cut_stmt; split;
  [ statement
  | first [ apply law_quiet; intros ?; first [ reflexivity | cbv [remote_step modify]; cbn; by case_match ]
          | apply law_of; [law_files | law_links | law_tokens | law_sessions]
          | apply law_of;
            [ apply keeps_transaction; walk law_files
            | apply links_loses, loses_transaction; walk loses_rows
            | apply tokens_loses, loses_transaction; walk loses_rows
            | apply sessions_loses, loses_transaction; walk loses_rows ] ] ].

Ltac cut_head :=
  match goal with |- Cut _ ?m => let h := head_of m in progress (unfold h) end.

Ltac cut_flow :=
  match goal with
  | |- Cut _ (_ ≫= _) => refine (cut_bind _ _ _ _ _)
  | |- Cut _ (mret _) => exact (cut_ret _ _)
  | |- Cut _ (throw _) => exact (cut_throw _ _)
  | |- Cut _ (lift _) => exact (cut_lift _ _)
  | |- Cut _ (ensure _ _) => exact (cut_ensure _ _ _)
  | |- Cut _ (or_throw _ _) => unfold or_throw
  | |- Cut _ (fetch_one _) => unfold fetch_one
  | |- Cut _ (map_err _ _) => unfold map_err
  | |- Cut _ (ok _) => unfold ok
  | |- Cut _ (ignore _) => unfold ignore
  | |- Cut _ (try_with _ _ _) => refine (cut_try _ _ _ _ _ _ _)
  | |- Cut _ (for_each _ _) => refine (cut_for_each _ _ _ _)
  | |- Cut _ (foldM _ _ _) => refine (cut_foldM _ _ _ _ _)
  | |- Cut _ (match ?x with _ => _ end) => destruct x
  | |- Cut _ (let _ := _ in _) => cbv zeta
  | |- ∀ _, _ => intros ?
  end.

Ltac cut_step := first [ cut_flow | solve [auto 1 with cuts nocore] | cut_leaf | cut_head ].
Ltac cut := repeat cut_step.

(** ** The services *)

Section cuts.
Context {E : Env}.
Abbreviation C := (Cut law).

Definition cut_upload b p d : C (be_upload b p d).
Proof. cut. Defined.
Definition cut_upload_from_file b p s : C (be_upload_from_file b p s).
Proof. cut. Defined.
Definition cut_download b p : C (be_download b p).
Proof. cut. Defined.
Definition cut_download_to_file b p q : C (be_download_to_file b p q).
Proof. cut. Defined.
Definition cut_delete b p : C (be_delete b p).
Proof. cut. Defined.
Definition cut_temp_url b p n o : C (be_generate_temp_url b p n o).
Proof. cut. Defined.
Definition cut_create_container b n : C (be_create_container b n).
Proof. cut. Defined.
#[local] Hint Resolve cut_upload cut_upload_from_file cut_download cut_download_to_file cut_delete
  cut_temp_url cut_create_container : cuts.

Definition cut_resolve_project_backend s pid sec : C (resolve_project_backend s pid sec).
Proof. cut. Defined.
#[local] Hint Resolve cut_resolve_project_backend : cuts.
Definition cut_resolve_backends sid refs sec : C (resolve_backends_for_location sid refs sec).
Proof. cut. Defined.

Definition cut_first_registered P l : C (FileService.first_registered P l).
Proof. induction l as [|s l IH]; simpl; cut; exact IH. Defined.
Definition cut_pick_source ids l : ∀ o, C (FileService.pick_source ids o l).
Proof. induction l as [|s l IH]; intros o; simpl; cut; apply IH. Defined.
Definition cut_try_backends p l : C (FileService.try_backends p l).
Proof. induction l as [|s l IH]; simpl; cut; exact IH. Defined.
Definition cut_first_url p n o l : C (FileService.first_url p n o l).
Proof. induction l as [|s l IH]; simpl; cut; exact IH. Defined.
#[local] Hint Resolve cut_resolve_backends cut_first_registered cut_pick_source cut_try_backends
  cut_first_url : cuts.

Definition cut_touch id : C (FileLocation.touch_accessed id).
Proof. cut. Defined.
#[local] Hint Resolve cut_touch : cuts.
Definition cut_try_locations sec refs l : C (FileService.try_locations sec refs l).
Proof. induction l as [|s l IH]; simpl; cut; exact IH. Defined.
#[local] Hint Resolve cut_try_locations : cuts.

Definition cut_record_references pid f n s name md l :
  C (FileService.record_references_and_sync pid f n s name md l).
Proof. cut. Defined.
#[local] Hint Resolve cut_record_references : cuts.
Definition cut_upload_file sec pid name ct data md :
  C (FileService.upload_file sec pid name ct data md).
Proof. cut. Defined.
Definition cut_finalize_upload sec pid name ct tmp md :
  C (FileService.finalize_upload sec pid name ct tmp md).
Proof. cut. Defined.
Definition cut_download_file sec id : C (FileService.download_file sec id).
Proof. cut. Defined.
Definition cut_temp_links sec id n b o : C (FileService.generate_temp_links sec id n b o).
Proof. cut. Defined.
Definition cut_bulk_delete pid fs : C (FileService.bulk_delete pid fs).
Proof. cut. Defined.
#[local] Hint Resolve cut_upload_file cut_finalize_upload cut_download_file cut_temp_links
  cut_bulk_delete : cuts.

Definition cut_append_chunks session payload :
  ∀ written, C (Uploads.append_chunks session written payload).
Proof. induction payload as [|[e|chunk] payload IH]; intros written; simpl; cut; apply IH. Defined.
Definition cut_add_entries backend job locations :
  ∀ entries processed st, C (BulkService.add_entries backend job locations entries processed st).
Proof. induction locations as [|l ls IH]; intros entries processed st; simpl; cut; apply IH. Defined.
#[local] Hint Resolve cut_append_chunks cut_add_entries : cuts.

Definition cut_finalize_task sec p tmp t : C (SyncWorker.finalize_task sec p tmp t).
Proof. cut. Defined.
#[local] Hint Resolve cut_finalize_task : cuts.
Definition cut_poll sec dir n : C (SyncWorker.poll_and_process sec dir n).
Proof. cut. Defined.
Definition cut_scan : C TierService.scan_and_archive.
Proof. cut. Defined.
#[local] Hint Resolve cut_poll cut_scan : cuts.

(** The download through a shared link, statement by statement: the link, the
    gate, the file and its copies, and last the count. *)
Definition cut_find_link token : C (SharedLink.find_by_token token).
Proof. cut. Defined.
Definition cut_authorize jwt link dl : C (SharedLinkService.authorize_download jwt link dl).
Proof. cut. Defined.
Definition cut_increment id : C (SharedLink.increment_download_count id).
Proof. refine (cut_bind _ _ _ _ (λ t, cut_bind _ _ _ _ (λ o, cut_ret _ _))); cut_leaf. Defined.
Definition cut_download_via_link jwt sec token dl :
  C (SharedLinkService.download_via_link jwt sec token dl).
Proof.
  refine (cut_bind _ _ _ (cut_find_link token) (λ link, _)).
  refine (cut_bind _ _ _ (cut_authorize jwt link dl) (λ _, _)).
  refine (cut_bind _ _ _ _ (λ file, _)); [cut|].
  refine (cut_bind _ _ _ _ (λ locations, _)); [cut|].
  refine (cut_bind _ _ _ _ (λ _, _)); [cut|].
  refine (cut_bind _ _ _ _ (λ all_refs, _)); [cut|].
  refine (cut_bind _ _ _ _ (λ got, _)); [cut|].
  refine (cut_bind _ _ _ (cut_increment (sl_id link)) (λ incremented, _)). cut.
Defined.
(** The exchange of a refresh token: it is consumed before anything else. *)
Definition cut_consume h : C (RefreshToken.consume_by_hash h).
Proof. refine (cut_bind _ _ _ _ (λ t, cut_bind _ _ _ _ (λ gone, cut_ret _ _))); cut_leaf. Defined.
Definition cut_refresh config token : C (AuthRoutes.refresh config token).
Proof.
  refine (cut_bind _ _ _ (cut_bind _ _ _ (cut_consume _) (λ o, cut_lift _ _)) (λ stored, _)). cut.
Defined.
#[local] Hint Resolve cut_download_via_link cut_refresh : cuts.

(** The request to append: the session, its checks, the chunks one by one, the
    compare-and-set of the offset, and what completes the upload. *)
Definition cut_load_session user id : C (Uploads.load_owned_session user id).
Proof.
  refine (cut_bind _ _ _ _ (λ session, cut_bind _ _ _ (cut_ensure _ _ _) (λ _, cut_ret _ _))). cut.
Defined.
Definition cut_advance id e n : e ≤ n → C (UploadSession.advance_offset id e n).
Proof.
  intros H. refine (cut_bind _ _ _ _ (λ t, _)); cut_leaf.
Defined.

(** How much a PATCH can have appended. *)
Definition fits (session : Schema.UploadSession) (n : Z) : bool :=
  (0 <=? n) &&
  (Z.eqb n 0 || (ss_offset_bytes session + n <=? ss_total_size session)).

Lemma append_chunks_fits session payload w w' n :
  Uploads.append_chunks session 0 payload w = (w', Ok n) → fits session n = true.
Proof. unfold fits. intros H%append_chunks_grows. lia. Qed.

Lemma fits_grows session n : fits session n = true → ss_offset_bytes session ≤ ss_offset_bytes session + n.
Proof. unfold fits. lia. Qed.

Definition cut_patch sec user id req payload : C (Uploads.patch sec user id req payload).
Proof.
  refine (cut_bind _ _ _ (cut_load_session user id) (λ session, _)).
  refine (cut_bind _ _ _ (cut_ensure _ _ _) (λ _, _)).
  refine (cut_bind _ _ _ (cut_lift _ _) (λ client_offset, _)).
  refine (cut_bind _ _ _ (cut_ensure _ _ _) (λ _, _)).
  refine (cut_bind _ _ _ _ (λ _, _)); [cut|].
  refine (cut_such _ (fits session) _ _ (append_chunks_fits session payload)
            (cut_append_chunks session payload 0) (λ written Hfits, _)).
  refine (cut_bind _ _ _ (cut_bind _ _ _ (cut_advance _ _ _ (fits_grows _ _ Hfits))
            (λ o, cut_lift _ _)) (λ updated, _)).
  cut.
Defined.
#[local] Hint Resolve cut_patch : cuts.

Definition cut_operation s A (m : M A) (o : operation s A m) : C m.
Proof. destruct o; cut. Defined.

(** What a finished request has given out: the file of a shared link, by its
    token, new tokens for a refresh token, or the acknowledgement of so many
    bytes of an upload. *)
Inductive Answer :=
  | Served (token : string) | Renewed (token : string) | Appended (id : Uuid) (n : Z) | Other.

Definition client_offset (req : TusHeaders) : Z := default 0 (upload_offset req ≫= parse_i64).

Definition answer {s A} {m : M A} (o : operation s A m) : Result A → Answer :=
  match o in operation _ A _ return Result A → Answer with
  | op_public_download _ token _ => λ r, if is_ok r then Served token else Other
  | op_refresh _ token => λ r, if is_ok r then Renewed token else Other
  | op_patch _ _ id req _ => λ r,
      match r with Ok new_offset => Appended id (new_offset - client_offset req) | _ => Other end
  | _ => λ _, Other
  end.

(** The program of an operation. *)
Definition thread {s A} {m : M A} (o : operation s A m) : Prog Answer :=
  continue (prog (cut_operation s A m o)) (λ r, Done (Ok (answer o r))).

Lemma run_thread {s A} {m : M A} (o : operation s A m) w :
  run (thread o) w = ((m w).1, Ok (answer o (m w).2)).
Proof. unfold thread. by rewrite run_continue, run_prog. Qed.
End cuts.
