(* ===== verification/Workers.v ===== *)
(** * The process: workers, their loops, and shutdown

    The tasks [main] spawns (src/src/main.rs, [run] and [spawn] of
    src/src/workers) as state machines that share the state of the system and
    one cancellation token, the tasks requests leave behind, and the sequence by
    which [main] waits for some of these and not for others.

    A round of a worker, a request and a task are programs of statements
    (Threads.v), executed one statement at a time, any of which may fail; one
    that is dropped half-way has done the statements it had done. A [select!]
    whose branches are both ready takes either: a step that takes another branch
    while the cancellation is ready is marked as late. A timer fires by a step of
    its own, never before the select that waits for it has been polled, unless
    its duration is zero. *)

From S2P Require Import Prelude Json Schema Env World Tables Laws Links BackupService BulkService SyncWorker TierService ApiBackups Config Server System Interleave Threads.

(** A [tokio::time::sleep]: not polled yet, polled and pending, elapsed. *)
Inductive Sleep := Fresh | Waiting | Elapsed.

Section states.
Context {E : Env}.

(** [SyncWorker::run]: at the head of the loop, in [poll_and_process], asleep. *)
Inductive SyncState := SyncTop | SyncRound (p : Prog bool) | SyncSleeping (t : Sleep) | SyncStopped.

(** [TierWorker::run] and [BackupWorker::run]: a round can be dropped. *)
Inductive RoundState := InRound (p : Prog unit) | RoundSleeping (t : Sleep) | RoundStopped.

(** [UploadCleanupWorker::run]: a sweep, then a loop of pauses and sweeps. *)
Inductive CleanupState := Sweeping (p : Prog unit) | CleanupSleeping (t : Sleep) | CleanupStopped.

(** [spawn_heartbeat]: the ticks of the interval that are due, and whether the
    worker is waiting for one or acting on one. *)
Inductive BeatState := AwaitingTick (due : nat) | Beating (due : nat) (p : Prog unit) | BeatStopped.

Inductive Worker :=
  | SyncW (s : SyncState)
  | TierW (s : RoundState)
  | BackupW (s : RoundState)
  | CleanupW (s : CleanupState)
  | HeartbeatW (node : string) (s : BeatState).

Definition is_stopped (k : Worker) : bool :=
  match k with
  | SyncW SyncStopped | TierW RoundStopped | BackupW RoundStopped
  | CleanupW CleanupStopped | HeartbeatW _ BeatStopped => true
  | _ => false
  end.

(** A program executes its next statement, which succeeds, fails, or succeeds
    without the program learning of it. *)
Inductive advance {A} : Prog A → World → Prog A → World → Prop :=
  | advance_run {X} (m : M X) k w : advance (Step m k) w (k (m w).2) (m w).1
  | advance_fault {X} (m : M X) k w e : advance (Step m k) w (k (Err e)) w
  | advance_lost {X} (m : M X) k w e : advance (Step m k) w (k (Err e)) (m w).1.
End states.

Module Workers.
Section workers.
Context {E : Env} (s : Deployment).

(** The pauses, in seconds. *)
Definition poll_interval : Z := Config.poll_interval_secs (Config.sync (dp_config s)).
Definition scan_interval : Z := Config.tier_scan_interval_secs (Config.sync (dp_config s)).
Definition check_interval : Z := Config.check_interval_secs (Config.backup (dp_config s)).

(** Whether a sleep may be over at the first poll. *)
Definition over (interval : Z) (t : Sleep) : Prop := t = Elapsed ∨ (t = Fresh ∧ interval = 0).

(** The rounds of the workers. *)
Definition sync_round : Prog bool := prog (cut_operation s _ _ (op_sync s)).
Definition tier_round : Prog unit := prog (cut_operation s _ _ (op_tier s)).
Definition backup_round : Prog unit := prog (cut_operation s _ _ (op_backup s)).
Definition sweep : Prog unit := prog (cut_operation s _ _ (op_cleanup s)).
Definition heartbeat (node : string) : Prog unit :=
  prog (cut_operation s _ _ (op_heartbeat s node)).

(** ** One step of a worker, given the token; the flag marks a late choice *)

Inductive sync_step (cancelled : bool) : bool → SyncState → World → SyncState → World → Prop :=
  | sync_shutdown w :
      cancelled = true → sync_step cancelled false SyncTop w SyncStopped w
  | sync_begins w :
      cancelled = false → sync_step cancelled false SyncTop w (SyncRound sync_round) w
  | sync_works p p' w w' :
      advance p w p' w' → sync_step cancelled false (SyncRound p) w (SyncRound p') w'
  | sync_worked w : sync_step cancelled false (SyncRound (Done (Ok true))) w SyncTop w
  | sync_idle w :
      sync_step cancelled false (SyncRound (Done (Ok false))) w (SyncSleeping Fresh) w
  | sync_panicked r w : is_ok r = false →
      sync_step cancelled false (SyncRound (Done r)) w SyncStopped w
  | sync_sleeps w : cancelled = false →
      sync_step cancelled false (SyncSleeping Fresh) w (SyncSleeping Waiting) w
  | sync_wakes t w : over poll_interval t →
      sync_step cancelled cancelled (SyncSleeping t) w SyncTop w
  | sync_shutdown_asleep t w : cancelled = true →
      sync_step cancelled false (SyncSleeping t) w SyncStopped w.

(** The loop of the tier and the backup worker. *)
Inductive round_step (round : Prog unit) (interval : Z) (cancelled : bool) :
    bool → RoundState → World → RoundState → World → Prop :=
  | round_works p p' w w' :
      advance p w p' w' → round_step round interval cancelled false (InRound p) w (InRound p') w'
  | round_done w :
      round_step round interval cancelled false (InRound (Done (Ok tt))) w (RoundSleeping Fresh) w
  | round_panicked r w : is_ok r = false →
      round_step round interval cancelled false (InRound (Done r)) w RoundStopped w
  | round_dropped p w : cancelled = true →
      round_step round interval cancelled false (InRound p) w RoundStopped w
  | round_sleeps w : cancelled = false →
      round_step round interval cancelled false (RoundSleeping Fresh) w (RoundSleeping Waiting) w
  | round_wakes t w : over interval t →
      round_step round interval cancelled cancelled (RoundSleeping t) w (InRound round) w
  | round_shutdown_asleep t w : cancelled = true →
      round_step round interval cancelled false (RoundSleeping t) w RoundStopped w.

Definition tier_step := round_step tier_round scan_interval.
Definition backup_step := round_step backup_round check_interval.

Inductive cleanup_step (cancelled : bool) : bool → CleanupState → World → CleanupState → World → Prop :=
  | cleanup_works p p' w w' :
      advance p w p' w' → cleanup_step cancelled false (Sweeping p) w (Sweeping p') w'
  | cleanup_swept r w : is_ok r = true →
      cleanup_step cancelled false (Sweeping (Done r)) w (CleanupSleeping Fresh) w
  | cleanup_panicked r w : is_ok r = false →
      cleanup_step cancelled false (Sweeping (Done r)) w CleanupStopped w
  | cleanup_sleeps w : cancelled = false →
      cleanup_step cancelled false (CleanupSleeping Fresh) w (CleanupSleeping Waiting) w
  | cleanup_wakes t w : over (Server.cleanup_interval (dp_config s)) t →
      cleanup_step cancelled cancelled (CleanupSleeping t) w (Sweeping sweep) w
  | cleanup_shutdown t w : cancelled = true →
      cleanup_step cancelled false (CleanupSleeping t) w CleanupStopped w.

Inductive beat_step (node : string) (cancelled : bool) :
    bool → BeatState → World → BeatState → World → Prop :=
  | beat_shutdown n w : cancelled = true →
      beat_step node cancelled false (AwaitingTick n) w BeatStopped w
  | beat_tick n w :
      beat_step node cancelled cancelled (AwaitingTick (S n)) w (Beating n (heartbeat node)) w
  | beat_works n p p' w w' :
      advance p w p' w' → beat_step node cancelled false (Beating n p) w (Beating n p') w'
  | beat_done n r w : is_ok r = true →
      beat_step node cancelled false (Beating n (Done r)) w (AwaitingTick n) w
  | beat_panicked n r w : is_ok r = false →
      beat_step node cancelled false (Beating n (Done r)) w BeatStopped w.

Inductive worker_step (cancelled late : bool) : Worker → World → Worker → World → Prop :=
  | step_sync a b w w' : sync_step cancelled late a w b w' →
      worker_step cancelled late (SyncW a) w (SyncW b) w'
  | step_tier a b w w' : tier_step cancelled late a w b w' →
      worker_step cancelled late (TierW a) w (TierW b) w'
  | step_backup a b w w' : backup_step cancelled late a w b w' →
      worker_step cancelled late (BackupW a) w (BackupW b) w'
  | step_cleanup a b w w' : cleanup_step cancelled late a w b w' →
      worker_step cancelled late (CleanupW a) w (CleanupW b) w'
  | step_beat node a b w w' : beat_step node cancelled late a w b w' →
      worker_step cancelled late (HeartbeatW node a) w (HeartbeatW node b) w'.

(** A timer fires: a sleep that has been polled elapses, a tick falls due. *)
Inductive timer_step : Worker → Worker → Prop :=
  | timer_sync : timer_step (SyncW (SyncSleeping Waiting)) (SyncW (SyncSleeping Elapsed))
  | timer_tier : timer_step (TierW (RoundSleeping Waiting)) (TierW (RoundSleeping Elapsed))
  | timer_backup : timer_step (BackupW (RoundSleeping Waiting)) (BackupW (RoundSleeping Elapsed))
  | timer_cleanup :
      timer_step (CleanupW (CleanupSleeping Waiting)) (CleanupW (CleanupSleeping Elapsed))
  | timer_beat node n :
      timer_step (HeartbeatW node (AwaitingTick n)) (HeartbeatW node (AwaitingTick (S n)))
  | timer_beating node n p :
      timer_step (HeartbeatW node (Beating n p)) (HeartbeatW node (Beating (S n) p)).

(** ** The tasks requests leave behind *)

(** Spawned on the [TaskTracker] of [main]: manual backups, of a configuration
    or none, with the record made for each (src/src/api/backups.rs). *)
Inductive tracked_task : Prog unit → Prop :=
  | task_backup config record :
      tracked_task (prog (cut_operation s _ _ (op_run_triggered s config record))).

Definition cut_record (ev : RecordAccessEvent) : Cut law (FileAccessEvent.record ev).
Proof. cut. Defined.

(** Spawned with [tokio::spawn] and nowhere recorded: exports (bulk_service.rs)
    and the recordings of accesses (models.rs). *)
Inductive untracked_task : Prog unit → Prop :=
  | task_export storage_id job st :
      untracked_task (continue (prog (cut_operation s _ _ (op_run_export s storage_id job st)))
                        (λ _, Done (Ok tt)))
  | task_record ev : untracked_task (prog (cut_record ev)).

(** ** The process *)

(** [SyncWorker::spawn_workers]. *)
Definition spawn_sync : list Worker :=
  replicate (Z.to_nat (Config.num_workers (Config.sync (dp_config s)))) (SyncW SyncTop).

(** What [main] spawns, in the order in which it awaits the handles. The first
    tick of an interval is due at once. *)
Definition spawn (node : string) : list Worker :=
  spawn_sync ++ [TierW (InRound tier_round)] ++
  (if Config.enabled (Config.backup (dp_config s)) then [BackupW (InRound backup_round)] else []) ++
  [CleanupW (Sweeping sweep); HeartbeatW node (AwaitingTick 1)].

(** [main] from the spawns on: the server runs; then the handles are awaited one
    after the other; then the tracker of the ad-hoc tasks; then it returns. *)
Inductive MainState := Serving | Awaiting (next : nat) | AwaitingTasks | Returned.

Record Process := mkProcess {
  main : MainState;
  cancelled : bool;
  workers : list Worker;
  (** The requests being handled. *)
  requests : list (Prog Answer);
  (** The tasks on the [TaskTracker] that have not ended. *)
  tasks : list (Prog unit);
  (** Those that are on no tracker. *)
  detached : list (Prog unit);
  world : World
}.

Definition spawned (node : string) (w : World) : Process :=
  mkProcess Serving false (spawn node) [] [] [] w.

(** A step of [main]. When the server has stopped, it handles no request any
    more: those that took too long have been dropped. *)
Inductive main_step : Process → Process → Prop :=
  | main_server_stops c ks rs ts us w :
      main_step (mkProcess Serving c ks rs ts us w) (mkProcess (Awaiting 0) true ks [] ts us w)
  | main_joins c i k ks rs ts us w : ks !! i = Some k → is_stopped k = true →
      main_step (mkProcess (Awaiting i) c ks rs ts us w) (mkProcess (Awaiting (S i)) c ks rs ts us w)
  | main_joined_all c i ks rs ts us w : ks !! i = None →
      main_step (mkProcess (Awaiting i) c ks rs ts us w) (mkProcess AwaitingTasks c ks rs ts us w)
  | main_returns c ks rs us w :
      main_step (mkProcess AwaitingTasks c ks rs [] us w) (mkProcess Returned c ks rs [] us w).

(** One of several programs takes its next statement, has ended, or is dropped. *)
Inductive programs_step {A} (droppable : Prop) : list (Prog A) → World → list (Prog A) → World → Prop :=
  | program_advances l1 p p' l2 w w' : advance p w p' w' →
      programs_step droppable (l1 ++ p :: l2) w (l1 ++ p' :: l2) w'
  | program_ended l1 r l2 w : programs_step droppable (l1 ++ Done r :: l2) w (l1 ++ l2) w
  | program_dropped l1 p l2 w : droppable → programs_step droppable (l1 ++ p :: l2) w (l1 ++ l2) w.

(** While the server runs, requests arrive, may lose their client, and leave
    tasks. The threads of the server that spawned a task may end with it, and
    the process ends some time after [main] has returned: from then on the tasks
    can be dropped. *)
Inductive step : bool → Process → Process → Prop :=
  | step_main p p' : main_step p p' → step false p p'
  | step_arrives c ks rs ts us w A (m : M A) (o : operation s A m) :
      step false (mkProcess Serving c ks rs ts us w) (mkProcess Serving c ks (rs ++ [thread o]) ts us w)
  | step_request a c ks rs rs' ts us w w' : programs_step True rs w rs' w' →
      step false (mkProcess a c ks rs ts us w) (mkProcess a c ks rs' ts us w')
  | step_spawn c ks rs ts us w p : tracked_task p →
      step false (mkProcess Serving c ks rs ts us w) (mkProcess Serving c ks rs (ts ++ [p]) us w)
  | step_spawn_detached c ks rs ts us w p : untracked_task p →
      step false (mkProcess Serving c ks rs ts us w) (mkProcess Serving c ks rs ts (us ++ [p]) w)
  | step_task a c ks rs ts ts' us w w' : programs_step (a ≠ Serving) ts w ts' w' →
      step false (mkProcess a c ks rs ts us w) (mkProcess a c ks rs ts' us w')
  | step_detached a c ks rs ts us us' w w' : programs_step (a ≠ Serving) us w us' w' →
      step false (mkProcess a c ks rs ts us w) (mkProcess a c ks rs ts us' w')
  | step_worker late a c ks rs ts us i k k' w w' : ks !! i = Some k → worker_step c late k w k' w' →
      step late (mkProcess a c ks rs ts us w) (mkProcess a c (<[i := k']> ks) rs ts us w').

(** What happens around the process: timers, and whatever the clock, the other
    servers and the storages do to the state they share. *)
Inductive tick : Process → Process → Prop :=
  | tick_world a c ks rs ts us w w' :
      tick (mkProcess a c ks rs ts us w) (mkProcess a c ks rs ts us w')
  | tick_worker a c ks rs ts us i k k' w : ks !! i = Some k → timer_step k k' →
      tick (mkProcess a c ks rs ts us w) (mkProcess a c (<[i := k']> ks) rs ts us w).
End workers.
End Workers.
