(* ===== verification/InterleaveSpec.v ===== *)
(** * Requests that overlap

    What holds when the operations of the system run at the same time, each a
    sequence of statements between which the others execute theirs, statements
    fail, answers are lost and clients or whole servers disappear half-way:
    the integrity of the file tables, the quota of shared links, the single use
    of refresh tokens, and the bytes acknowledged to resumable uploads. *)

From S2P Require Import Prelude Json Schema Env World Tables Laws Projects LocalDisk Registry Storages Files SyncTasks Users Links Backups Search Resolver FileService TierService BulkService SharedLinkService BackupService SyncWorker Auth Access Uploads ApiProjects ApiFiles ApiBackups ApiBulk Config Server System Frames SystemLaws Integrity LinkSpec SystemSpec Interleave Threads Concrete Scenario UploadSpec.

Section pools.
Context {E : Env}.

(** Any operation of any server may start; the handlers that only read are
    part of the environment. *)
Definition starts (p : Prog Answer) : Prop :=
  ∃ s A (m : M A) (o : operation s A m), p = thread o.
Definition outside : relation World := λ w w', db w' = db w.
Abbreviation running := (rtc (pool_step starts outside)).

Lemma thread_every (S : ∀ X, M X → Prop) s A (m : M A) (o : operation s A m) :
  (∀ X (n : M X), lawful law X n → S X n) → Every S (thread o).
Proof.
  intros HS. apply every_continue; [|done]. eapply every_impl; [exact HS | apply prog_lawful].
Qed.

(** The system that runs one operation at a time is a special case. *)
Lemma system_in_pool w w' ts : rtc system_step w w' → ∃ ts', running (ts, w) (ts', w').
Proof.
  intros Hs. revert ts. induction Hs as [w|w w1 w2 Hstep _ IH]; intros ts; [eexists; apply rtc_refl|].
  destruct Hstep as [s A m w o|w w1 Hdb].
  - destruct (IH (ts ++ [Done (Ok (answer o (m w).2))])) as [ts' Hr]. exists ts'.
    etrans; [|exact Hr]. pose proof (pool_request starts outside ts (thread o) w) as Hp.
    rewrite run_thread in Hp. apply Hp. by exists s, A, m, o.
  - destruct (IH ts) as [ts' Hr]. exists ts'. eapply rtc_l; [by apply pool_env | done].
Qed.

(** C4: starting from empty file tables, whatever requests, background tasks
    and worker rounds run at the same time, on any number of servers, in
    whichever order their statements are executed, whichever of these fail or
    are answered to nobody, and wherever a request or a server is cut off:
    content is stored under one file row per hash, every reference, copy and
    task names an existing file, and a storage holds at most one recorded copy
    of a file. *)
Theorem interleaved_integrity w ts w' :
  file_tables (db w) = (∅, ∅, ∅, ∅) → running ([], w) (ts, w') → FilesOk (db w').
Proof.
  intros He Hs. refine (proj1 (pool_invariant _ _ (on_db FilesOk) _ _ _ _ Hs _ _)).
  - intros p (s & A & m & o & ->). apply thread_every. intros X n [_ Hn] w1. apply Hn.
  - intros w1 w2 Hdb. unfold on_db. by rewrite Hdb.
  - by apply FilesOk_empty.
  - constructor.
Qed.

(** ** The quota of a shared link *)

Section quota.
Context (lid : Uuid) (token : string) (m : Z).

(** The link in question, if it is there, is the one the token names. *)
Definition link_known (w : World) : Prop :=
  LinksOk (db w) ∧
  (∀ l, shared_links (db w) !! lid = Some l → sl_token l = token ∧ sl_max_downloads l = Some m) ∧
  (∀ id l, shared_links (db w) !! id = Some l → sl_token l = token → id = lid).

(** Identifiers and tokens are drawn at random: a link that appears has
    neither those of our link, even when that was deleted. *)
Definition links_fresh (w w' : World) : Prop := ∀ id l,
  shared_links (db w') !! id = Some l → shared_links (db w) !! id = None →
  id ≠ lid ∧ sl_token l ≠ token.

(** The downloads it has left. *)
Definition quota_left (w : World) : Z :=
  match shared_links (db w) !! lid with
  | Some l => Z.max 0 (m - sl_download_count l)
  | None => 0
  end.

Definition served_by (r : Result Answer) : Z :=
  match r with Ok (Served t) => if String.eqb t token then 1 else 0 | _ => 0 end.

Abbreviation gives := (gives link_known links_fresh quota_left).
Abbreviation Pays := (Pays link_known links_fresh quota_left served_by).

Lemma links_gives w w' : links_law w w' → link_known w → gives 0 w w'.
Proof.
  intros Hlaw (Hok & Hl & Ht) Hfresh. destruct (Hlaw Hok) as [Hok' Hkept].
  assert (∀ id l', shared_links (db w') !! id = Some l' → id = lid ∨ sl_token l' = token →
    ∃ l, shared_links (db w) !! id = Some l ∧ sl_token l' = sl_token l ∧
      sl_max_downloads l' = sl_max_downloads l ∧ sl_download_count l ≤ sl_download_count l') as Hold.
  { intros id l' Hl' Hours. destruct (Hkept _ _ Hl') as [Hn|H]; [|done].
    destruct (Hfresh _ _ Hl' Hn). naive_solver. }
  split; [split_and!; [done|..]|].
  - intros l' Hl'. destruct (Hold _ _ Hl' ltac:(by left)) as (l & ? & -> & -> & _). eauto.
  - intros id l' Hl' Htok. destruct (Hold _ _ Hl' ltac:(by right)) as (l & ? & ? & _). eapply Ht; eauto.
    congruence.
  - unfold quota_left. destruct (shared_links (db w') !! lid) as [l'|] eqn:Hl'.
    + destruct (Hold _ _ Hl' ltac:(by left)) as (l & -> & _ & _ & ?). lia.
    + destruct (shared_links (db w) !! lid); lia.
Qed.

Lemma law_gives w w' : law w w' → link_known w → gives 0 w w'.
Proof. intros (_ & Hlinks & _). by apply links_gives. Qed.

(** A program that serves nobody by the token pays for itself. *)
Lemma pays_other {A} {n : M A} (c : Cut law n) (k : Result A → Answer) :
  (∀ r, k r ≠ Served token) → Pays 0 (continue (prog c) (λ r, Done (Ok (k r)))).
Proof.
  intros Hk. apply (pays_cut _ _ _ _ law law_gives _ c (λ r, Ok (k r))). intros r. simpl.
  specialize (Hk r). destruct (k r) as [t|t|i j|]; [|done..].
  destruct (String.eqb_spec t token); [by subst | done].
Qed.

(** Counting a download of the link pays for it. *)
Lemma count_gives t w :
  link_known w →
  let r := sql_set_id_if lid SharedLink.below_limit (λ l, set_sl_download_count
             (sl_download_count l + 1) (set_sl_last_accessed_at (Some t) l)) w in
  gives (match r.2 with Ok (Some _) => 1 | _ => 0 end) w r.1.
Proof.
  intros Hw. assert (gives 0 w (sql_set_id_if lid SharedLink.below_limit (λ l, set_sl_download_count
    (sl_download_count l + 1) (set_sl_last_accessed_at (Some t) l)) w).1) as Hg.
  { apply links_gives; [|done]. apply law_set_link. intros l. simpl. split_and!; lia || done. }
  intros r Hfresh. destruct (Hg Hfresh) as [Hw' Hle]. split; [done|]. revert Hle.
  destruct Hw as (_ & Hl & _). subst r. unfold sql_set_id_if, quota_left in *.
  change (tbl (db w)) with (shared_links (db w)).
  destruct (shared_links (db w) !! lid) as [l|] eqn:Hlid; [|by simpl; rewrite Hlid].
  destruct (SharedLink.below_limit l) eqn:Hb; simpl; [|by rewrite Hlid].
  rewrite lookup_insert_eq. simpl. unfold SharedLink.below_limit in Hb.
  destruct (Hl l eq_refl) as [_ Hm]. rewrite Hm in Hb. lia.
Qed.

Lemma pays_find {B} (k : SharedLink → Prog B) K :
  (∀ e, Pays 0 (K (Err e))) → Pays 0 (K Panic) →
  (∀ link, sl_id link = lid → Pays 0 (continue (k link) K)) →
  Pays 0 (continue (seq_prog (prog (cut_find_link token)) k (λ e, Done (Err e))) K).
Proof.
  intros He Hp Hk. unfold cut_find_link. cbn. split; [|by intros e; apply He].
  intros w Hw. exists 0. split; [done|]. split; [by intros _; split|].
  fold (link_of (db w) token). destruct (link_of (db w) token) as [link|] eqn:Hl; simpl; [|apply He].
  apply Hk. destruct Hw as (Hok & _ & Hours).
  destruct (link_of_Some _ _ _ Hok Hl) as [Ht Hid]. by apply (Hours _ link).
Qed.

Lemma pays_increment {B} (k : bool → Prog B) K :
  (∀ e, Pays 0 (K (Err e))) → Pays 0 (K Panic) →
  Pays 0 (continue (k false) K) → Pays 1 (continue (k true) K) →
  Pays 0 (continue (seq_prog (prog (cut_increment lid)) k (λ e, Done (Err e))) K).
Proof.
  intros He Hp Hno Hyes. unfold cut_increment. cbn. split; [|by intros e; apply He].
  intros w Hw. exists 0. split; [done|]. split; [by intros _; split|]. cbn.
  split; [|by intros e; apply He]. intros w1 Hw1.
  pose proof (count_gives (now w) w1 Hw1) as Hg.
  change (sql_set_id_if lid _ _ w1) with (sql_set_id_if lid SharedLink.below_limit (λ l,
    set_sl_download_count (sl_download_count l + 1)
      (set_sl_last_accessed_at (Some (now w)) l)) w1). revert Hg.
  destruct (sql_set_id_if _ _ _ w1) as [w2 [[l|]|e|]]; intros Hg;
    eexists; (split; [|split; [exact Hg|]]);
    first [done | exact Hyes | exact Hno | exact (He e) | exact Hp].
Qed.

Lemma served_bounds r : 0 ≤ served_by r ≤ 1.
Proof. unfold served_by. destruct r as [[]|e|]; try lia. destruct (String.eqb _ _); lia. Qed.

Lemma pays_service jwt sec dl K :
  (∀ e, Pays 0 (K (Err e))) → Pays 0 (K Panic) → (∀ a, Pays 1 (K (Ok a))) →
  Pays 0 (continue (prog (cut_download_via_link jwt sec token dl)) K).
Proof.
  intros He Hp Hk. unfold cut_download_via_link. apply pays_find; [done..|]. intros link Hid.
  cbv beta.
  do 6 (apply (pays_bind _ _ _ _ law law_gives); [|done..]; intros ?; cbv beta).
  rewrite Hid. apply pays_increment; [exact He | exact Hp | exact (He _) | exact (Hk _)].
Qed.

Lemma pays_download s dl : Pays 0 (thread (op_public_download s token dl)).
Proof.
  unfold thread. simpl (cut_operation _ _ _ _). apply pays_assoc.
  apply pays_service; [done..|]. intros a.
  apply (pays_cut _ _ _ _ law law_gives _ _ (λ r, Ok (answer (op_public_download s token dl) r))).
  intros r. apply served_bounds.
Qed.

(** Downloads by other tokens, and everything else. *)
Lemma thread_pays s A (n : M A) (o : operation s A n) : Pays 0 (thread o).
Proof.
  destruct o; try (apply pays_other; intros r; simpl; first [done | by destruct r]).
  match goal with |- context [op_public_download _ ?t _] =>
    destruct (decide (t = token)) as [->|Ht]; [apply pays_download|] end.
  apply pays_other. intros r. simpl. destruct (is_ok r); congruence.
Qed.

(** The answers served by the token. *)
Definition served (ts : list (Prog Answer)) : Z := sum_z (finished served_by) ts.

Lemma outside_neutral w w' : outside w w' → link_known w → gives 0 w w'.
Proof.
  intros Hdb Hw. apply links_gives; [|done]. intros Hok. unfold outside in Hdb. rewrite Hdb. split; [done|].
  intros id l ?. right. by exists l.
Qed.

(** C7: a link limited to [m] downloads that has served [c] serves at most
    [m - c] more, however many requests for it are under way at once, in
    whatever order their statements and those of everything else the system
    does are executed, and whichever of them fail or are cut off. *)
Theorem interleaved_quota w ts w' l :
  LinksOk (db w) → shared_links (db w) !! lid = Some l →
  sl_token l = token → sl_max_downloads l = Some m →
  rtc (adm_step starts outside links_fresh) ([], w) (ts, w') →
  served ts ≤ Z.max 0 (m - sl_download_count l).
Proof.
  intros Hok Hl Htok Hm Hs.
  replace (Z.max 0 (m - sl_download_count l)) with (quota_left w) by (unfold quota_left; by rewrite Hl).
  apply (paid_bound starts outside link_known links_fresh quota_left served_by) in Hs; [exact Hs|..].
  - intros p (s & A & n & o & ->). apply thread_pays.
  - exact outside_neutral.
  - intros r. apply served_bounds.
  - intros w0. unfold quota_left. case_match; lia.
  - split; [done|]. split.
    + intros l' Hl'. simpl in Hl'. by simplify_eq.
    + intros id l' Hl' Ht. simpl in Hl'. apply (ok_link_token _ Hok id lid l' l); congruence.
  - done.
Qed.
End quota.

(** ** Refresh tokens *)

Section renewals.
Context (token : string).
Let h : string := AuthService.hash_refresh_token token.

(** Refresh tokens are drawn at random: none that appears has the same hash. *)
Definition tokens_fresh (w w' : World) : Prop := ∀ id r,
  refresh_tokens (db w') !! id = Some r → refresh_tokens (db w) !! id = None →
  rt_token_hash r ≠ h.

(** The rows of the token. *)
Definition rows_of_token (w : World) : gmap Uuid RefreshToken :=
  filter (λ kv, rt_token_hash kv.2 = h) (refresh_tokens (db w)).
Definition uses_left (w : World) : Z := Z.of_nat (size (rows_of_token w)).

Definition renewed_by (r : Result Answer) : Z :=
  match r with Ok (Renewed t) => if String.eqb t token then 1 else 0 | _ => 0 end.

Definition always (w : World) : Prop := True.
Abbreviation gives := (gives always tokens_fresh uses_left).
Abbreviation Pays := (Pays always tokens_fresh uses_left renewed_by).

Lemma tokens_gives w w' : tokens_law w w' → gives 0 w w'.
Proof.
  intros Hlaw Hfresh. split; [done|]. unfold uses_left.
  enough (size (rows_of_token w') ≤ size (rows_of_token w))%nat by lia.
  apply map_subseteq_size, map_subseteq_spec. intros id r. unfold rows_of_token.
  rewrite !map_lookup_filter_Some. intros [Hr Hh]. split; [|done].
  destruct (Hlaw _ _ Hr) as [Hn|]; [|done]. by destruct (Hfresh _ _ Hr Hn).
Qed.

Lemma renewal_law_gives w w' : law w w' → always w → gives 0 w w'.
Proof. intros (_ & _ & Htokens & _) _. by apply tokens_gives. Qed.

(** Consuming a row of the token pays for it. *)
Lemma consume_gives t w :
  let r := sql_delete (R := RefreshToken) (RefreshToken.is_valid t h) w in
  gives (match r.2 with Ok (_ :: _) => 1 | _ => 0 end) w r.1.
Proof.
  rewrite sql_delete_plain by done. intros r _. split; [done|]. subst r. simpl.
  unfold uses_left, rows_of_token. simpl.
  change (tbl (db w)) with (refresh_tokens (db w)).
  assert (filter (λ kv : Uuid * RefreshToken, rt_token_hash kv.2 = h)
    (filter (λ kv : Uuid * RefreshToken, RefreshToken.is_valid t h kv.2 = false)
       (refresh_tokens (db w))) ⊆
    filter (λ kv, rt_token_hash kv.2 = h) (refresh_tokens (db w))) as Hsub.
  { apply map_subseteq_spec. intros id r. rewrite !map_lookup_filter_Some. tauto. }
  destruct (filter _ (rows_of _)) as [|r l] eqn:Hgone; [apply map_subseteq_size in Hsub; lia|].
  assert (r ∈ filter (λ r, RefreshToken.is_valid t h r = true) (rows_of (refresh_tokens (db w))))
    as [Hv [id Hid]%elem_of_rows]%list_elem_of_filter by (rewrite Hgone; by left).
  enough (size (filter (λ kv : Uuid * RefreshToken, rt_token_hash kv.2 = h)
    (filter (λ kv : Uuid * RefreshToken, RefreshToken.is_valid t h kv.2 = false)
       (refresh_tokens (db w)))) <
    size (filter (λ kv, rt_token_hash kv.2 = h) (refresh_tokens (db w))))%nat by lia.
  apply map_subset_size. split; [done|]. intros Hsup.
  assert (filter (λ kv, rt_token_hash kv.2 = h) (refresh_tokens (db w)) !! id = Some r) as Hr.
  { apply map_lookup_filter_Some. split; [done|]. simpl. unfold RefreshToken.is_valid in Hv.
    by apply andb_prop in Hv as [Hv%String.eqb_eq _]. }
  pose proof (lookup_weaken _ _ _ _ Hr Hsup) as Hr'.
  apply map_lookup_filter_Some in Hr' as [Hr' _].
  apply map_lookup_filter_Some in Hr' as [_ Hr']. simpl in Hr'. congruence.
Qed.

Lemma pays_consume {B} (k : RefreshToken → Prog B) (K : Result B → Prog Answer) e0 :
  (∀ e, Pays 0 (K (Err e))) → Pays 0 (K Panic) → (∀ r, Pays 1 (continue (k r) K)) →
  Pays 0 (continue (seq_prog (prog (cut_bind law _ _ (cut_consume h)
    (λ o, cut_lift law (ok_or o e0)))) k (λ e, Done (Err e))) K).
Proof.
  intros He Hp Hk. unfold cut_consume. cbn. split; [|by intros e; apply He].
  intros w _. exists 0. split; [done|]. split; [by intros _; split|]. cbn.
  split; [|by intros e; apply He]. intros w1 _. pose proof (consume_gives (now w) w1) as Hg.
  destruct (sql_delete _ w1) as [w2 [[|r gone]|e|]];
    eexists; (split; [|split; [exact Hg|]]);
    first [done | exact (He _) | exact (Hk r) | exact Hp].
Qed.

Lemma pays_refresh s : Pays 0 (thread (op_refresh s token)).
Proof.
  unfold thread. simpl (cut_operation _ _ _ _). unfold cut_refresh.
  apply pays_consume; [done..|]. intros r.
  apply (pays_cut _ _ _ _ law renewal_law_gives _ _ (λ x, Ok (answer (op_refresh s token) x))).
  intros x. simpl. destruct (is_ok x); simpl; [|done]. by rewrite String.eqb_refl.
Qed.

Lemma thread_renews s A (n : M A) (o : operation s A n) : Pays 0 (thread o).
Proof.
  assert (∀ k : Result A → Answer, (∀ r, renewed_by (Ok (k r)) ≤ 0) →
    Pays 0 (continue (prog (cut_operation s A n o)) (λ r, Done (Ok (k r))))) as Hother
    by (intros k; apply (pays_cut _ _ _ _ law renewal_law_gives _ _ (λ r, Ok (k r)))).
  destruct o; try (apply Hother; intros r; simpl; first [done | by destruct r]).
  match goal with |- context [op_refresh _ ?t] =>
    destruct (decide (t = token)) as [->|Ht]; [apply pays_refresh|];
    apply Hother; intros r; simpl; destruct (is_ok r); simpl; [|done];
    by destruct (String.eqb_spec t token) end.
Qed.

Lemma uses_left_one w :
  (∀ i j r r', refresh_tokens (db w) !! i = Some r → refresh_tokens (db w) !! j = Some r' →
     rt_token_hash r = rt_token_hash r' → i = j) → uses_left w ≤ 1.
Proof.
  intros Hu. unfold uses_left. destruct (map_choose_or_empty (rows_of_token w)) as [(i & r & Hr)| ->];
    [|by rewrite map_size_empty].
  enough (size (rows_of_token w) ≤ size ({[ i := r ]} : gmap Uuid RefreshToken))%nat as Hs
    by (rewrite map_size_singleton in Hs; lia).
  apply map_subseteq_size, map_subseteq_spec. intros j r' Hr'.
  unfold rows_of_token in *. pose proof Hr as Hi. pose proof Hr' as Hj.
  apply map_lookup_filter_Some in Hi as [Hi Hhi]. apply map_lookup_filter_Some in Hj as [Hj Hhj].
  assert (i = j) as <- by (eapply Hu; [done..|]; simpl in *; congruence).
  rewrite Hr in Hr'. by rewrite lookup_singleton_eq.
Qed.

(** The requests answered with new tokens for the token. *)
Definition renewed (ts : list (Prog Answer)) : Z := sum_z (finished renewed_by) ts.

(** C22: a refresh token is exchanged for new tokens at most once, however many
    requests present it at the same time, to however many servers, in whatever
    order their statements are executed and whichever of them fail. *)
Theorem interleaved_renewal w ts w' :
  (∀ i j r r', refresh_tokens (db w) !! i = Some r → refresh_tokens (db w) !! j = Some r' →
     rt_token_hash r = rt_token_hash r' → i = j) →
  rtc (adm_step starts outside tokens_fresh) ([], w) (ts, w') → renewed ts ≤ 1.
Proof.
  intros Hu Hs. transitivity (uses_left w); [|by apply uses_left_one].
  apply (paid_bound starts outside always tokens_fresh uses_left renewed_by) in Hs; [exact Hs|..].
  - intros p (s & A & n & o & ->). apply thread_renews.
  - intros w1 w2 Hdb _. apply tokens_gives. intros id r Hr. right. by rewrite <- Hdb.
  - intros [[]|e|]; simpl; try lia. destruct (String.eqb _ _); lia.
  - intros w0. unfold uses_left. lia.
  - done.
  - done.
Qed.
End renewals.

(** ** Resumable uploads *)

Section appends.
Context (sid : Uuid) (total : Z).

(** The session in question has the length it was declared with. *)
Definition session_known (w : World) : Prop :=
  ∀ s, upload_sessions (db w) !! sid = Some s → ss_total_size s = total.

(** Identifiers are drawn at random: no other session comes to have its own. *)
Definition sessions_fresh (w w' : World) : Prop :=
  upload_sessions (db w) !! sid = None → upload_sessions (db w') !! sid = None.

(** The bytes it lacks. *)
Definition lacking (w : World) : Z :=
  match upload_sessions (db w) !! sid with
  | Some s => Z.max 0 (total - ss_offset_bytes s)
  | None => 0
  end.

Definition appended_by (r : Result Answer) : Z :=
  match r with Ok (Appended id n) => if N.eqb id sid then Z.max 0 n else 0 | _ => 0 end.

Abbreviation gives := (gives session_known sessions_fresh lacking).
Abbreviation Pays := (Pays session_known sessions_fresh lacking appended_by).

Lemma sessions_gives w w' : sessions_law w w' → session_known w → gives 0 w w'.
Proof.
  intros Hlaw Hw Hfresh. unfold lacking.
  destruct (upload_sessions (db w') !! sid) as [s'|] eqn:Hs'.
  - destruct (Hlaw _ _ Hs') as [Hn|(s & Hs & Ht & Ho)]; [by rewrite (Hfresh Hn) in Hs'|].
    rewrite Hs. split; [|lia]. intros s0. rewrite Hs'. intros [= <-]. rewrite Ht. by apply Hw.
  - split; [by intros s0; rewrite Hs'|]. destruct (upload_sessions (db w) !! sid); lia.
Qed.

Lemma append_law_gives w w' : law w w' → session_known w → gives 0 w w'.
Proof. intros (_ & _ & _ & Hs). by apply sessions_gives. Qed.

(** Advancing the offset pays for what was appended. *)
Lemma advance_gives t session n w :
  ss_total_size session = total → fits session n = true → session_known w →
  let r := sql_set_id_if sid
             (λ s, Z.eqb (ss_offset_bytes s) (ss_offset_bytes session) && UploadSession.is_in_progress s)
             (λ s, set_ss_offset_bytes (ss_offset_bytes session + n) (set_ss_updated_at t s)) w in
  (∀ s, r.2 = Ok (Some s) → ss_offset_bytes s = ss_offset_bytes session + n) ∧
  gives (match r.2 with Ok (Some _) => n | _ => 0 end) w r.1.
Proof.
  intros Ht Hfits Hw. unfold sql_set_id_if. cbv zeta.
  change (tbl (db w)) with (upload_sessions (db w)).
  destruct (upload_sessions (db w) !! sid) as [s|] eqn:Hs; [|by split].
  destruct (_ && _) eqn:HP; [|by split].
  cbn [fst snd]. split; [intros s' Heq; by injection Heq as <-|]. intros _.
  specialize (Hw s Hs). unfold fits in Hfits. split.
  - intros s'. simpl. rewrite lookup_insert_eq. by intros [= <-].
  - unfold lacking. simpl. rewrite lookup_insert_eq, Hs. simpl. lia.
Qed.

Lemma pays_load {B} user (k : UploadSession → Prog B) K :
  (∀ e, Pays 0 (K (Err e))) → Pays 0 (K Panic) →
  (∀ session, ss_total_size session = total → Pays 0 (continue (k session) K)) →
  Pays 0 (continue (seq_prog (prog (cut_load_session user sid)) k (λ e, Done (Err e))) K).
Proof.
  intros He Hp Hk. unfold cut_load_session. cbn. split; [|by intros e; apply He].
  intros w Hw. exists 0. split; [done|]. split; [by intros _; split|]. cbn.
  change (tbl (db w)) with (upload_sessions (db w)).
  destruct (upload_sessions (db w) !! sid) as [session|] eqn:Hs; cbn; [|apply He].
  destruct (_ || _); cbn; [apply Hk, Hw, Hs | apply He].
Qed.

Lemma pays_advance {B} session n (H : ss_offset_bytes session ≤ ss_offset_bytes session + n)
    (k : UploadSession → Prog B) K :
  ss_total_size session = total → fits session n = true →
  (∀ e, Pays 0 (K (Err e))) → Pays 0 (K Panic) →
  (∀ s, ss_offset_bytes s = ss_offset_bytes session + n → Pays n (continue (k s) K)) →
  Pays 0 (continue (seq_prog (prog (cut_bind law _ _ (cut_advance sid _ _ H)
    (λ o, cut_lift law (ok_or o Uploads.concurrent_patch)))) k (λ e, Done (Err e))) K).
Proof.
  intros Ht Hfits He Hp Hk. unfold cut_advance. cbn. split; [|by intros e; apply He].
  intros w Hw. exists 0. split; [done|]. split; [by intros _; split|]. cbn.
  split; [|by intros e; apply He]. intros w1 Hw1.
  pose proof (advance_gives (now w) session n w1 Ht Hfits Hw1) as [Hs Hg]. revert Hs Hg.
  destruct (sql_set_id_if _ _ _ w1) as [w2 [[s|]|e|]]; intros Hs Hg;
    eexists; (split; [|split; [exact Hg|]]);
    first [by apply Hk, Hs | done | exact (He _) | exact Hp | unfold fits in Hfits; simpl; lia].
Qed.

Lemma pays_patch s user req payload : Pays 0 (thread (op_patch s user sid req payload)).
Proof.
  unfold thread. simpl (cut_operation _ _ _ _). unfold cut_patch.
  apply pays_load; [done..|]. intros session Ht. cbv beta.
  apply (pays_ensure _ _ _ _ law); [intros _|done].
  apply (pays_lift _ _ _ _ law); [intros client Hclient|done..].
  apply (pays_ensure _ _ _ _ law); [intros Hsame%Z.eqb_eq|done].
  apply (pays_bind _ _ _ _ law append_law_gives); [intros _|done..].
  apply (pays_such _ _ _ _ law append_law_gives); [intros n Hfits|done..].
  apply (pays_advance session n (fits_grows session n Hfits)); [done..|]. intros updated Hupd. cbv beta.
  apply (pays_bind _ _ _ _ law append_law_gives);
    [intros _| |]; [|unfold fits in Hfits; simpl; lia..].
  simpl. unfold client_offset. destruct (upload_offset req ≫= parse_i64); [|done].
  injection Hclient as ->. rewrite N.eqb_refl. unfold fits in Hfits. simpl. lia.
Qed.

Lemma thread_appends s A (n : M A) (o : operation s A n) : Pays 0 (thread o).
Proof.
  assert (∀ k : Result A → Answer, (∀ r, appended_by (Ok (k r)) ≤ 0) →
    Pays 0 (continue (prog (cut_operation s A n o)) (λ r, Done (Ok (k r))))) as Hother
    by (intros k; apply (pays_cut _ _ _ _ law append_law_gives _ _ (λ r, Ok (k r)))).
  destruct o; try (apply Hother; intros r; simpl; first [done | by destruct r]).
  match goal with |- context [op_patch _ _ ?i _ _] =>
    destruct (decide (i = sid)) as [->|Hi]; [apply pays_patch|] end.
  apply Hother. intros [b|e|]; simpl; [|done..]. by rewrite (proj2 (N.eqb_neq _ _) Hi).
Qed.

(** The bytes of the upload that were acknowledged. *)
Definition appended (ts : list (Prog Answer)) : Z := sum_z (finished appended_by) ts.

(** C8: the requests that append to an upload acknowledge no more bytes than it
    lacks, however many of them overlap, from however many clients, in whatever
    order their statements are executed and whichever of them fail: no byte of
    the upload is acknowledged twice. *)
Theorem interleaved_appends w ts w' s :
  upload_sessions (db w) !! sid = Some s → ss_total_size s = total →
  rtc (adm_step starts outside sessions_fresh) ([], w) (ts, w') →
  appended ts ≤ Z.max 0 (total - ss_offset_bytes s).
Proof.
  intros Hs Ht Hrun.
  replace (Z.max 0 (total - ss_offset_bytes s)) with (lacking w) by (unfold lacking; by rewrite Hs).
  apply (paid_bound starts outside session_known sessions_fresh lacking appended_by) in Hrun;
    [exact Hrun|..].
  - intros p (d & A & n & o & ->). apply thread_appends.
  - intros w1 w2 Hdb Hw. apply sessions_gives; [|done]. intros id s' Hs'. right.
    unfold outside in Hdb. rewrite Hdb in Hs'. by exists s'.
  - intros [[]|e|]; simpl; try lia. destruct (N.eqb _ _); lia.
  - intros w0. unfold lacking. case_match; lia.
  - intros s'. simpl. congruence.
  - done.
Qed.
End appends.
End pools.

(** ** Schedules *)

Section schedules.
Context {E : Env}.

(** No row of a table that was not there before satisfies [P]. *)
Definition no_new_row {R} (P : R → bool) (t t' : gmap Uuid R) : bool :=
  forallb (λ kv, match t !! kv.1 with Some _ => true | None => negb (P kv.2) end) (map_to_list t').

Lemma no_new_row_spec {R} (P : R → bool) t t' id r :
  no_new_row P t t' = true → t' !! id = Some r → t !! id = None → P r = false.
Proof.
  unfold no_new_row. rewrite forallb_forall. intros Hall Hr Hn. apply negb_true_iff.
  specialize (Hall (id, r)). simpl in Hall. rewrite Hn in Hall. apply Hall.
  by apply list_elem_of_In, elem_of_map_to_list.
Qed.

Definition no_link (w w' : World) : bool :=
  no_new_row (λ _, true) (shared_links (db w)) (shared_links (db w')).
Definition no_token (h : string) (w w' : World) : bool :=
  no_new_row (λ r, String.eqb (rt_token_hash r) h) (refresh_tokens (db w)) (refresh_tokens (db w')).

Definition no_session (sid : Uuid) (w w' : World) : bool :=
  match upload_sessions (db w) !! sid, upload_sessions (db w') !! sid with
  | None, Some _ => false
  | _, _ => true
  end.

Lemma no_session_fresh sid w w' : no_session sid w w' = true → sessions_fresh sid w w'.
Proof. unfold no_session, sessions_fresh. intros Hc Hn. rewrite Hn in Hc. by case_match. Qed.

Lemma no_link_fresh lid token w w' : no_link w w' = true → links_fresh lid token w w'.
Proof. intros Hc id l Hl Hn. by pose proof (no_new_row_spec _ _ _ _ _ Hc Hl Hn). Qed.

Lemma no_token_fresh token w w' :
  no_token (AuthService.hash_refresh_token token) w w' = true → tokens_fresh token w w'.
Proof.
  intros Hc id r Hr Hn. pose proof (no_new_row_spec _ _ _ _ _ Hc Hr Hn) as Hh. simpl in Hh.
  by apply String.eqb_neq.
Qed.
End schedules.

(** Taking turns, [n] times around. *)
Definition in_turns (n : nat) (threads : list nat) : list nat := concat (replicate n threads).

(** Two uploads of the same content to one project, statement by statement. *)
Definition an_upload : Prog Answer := thread (op_upload server administrator 10 note_txt).
Definition two_uploads : list (Prog Answer) * World :=
  exec (in_turns 30 [0; 1]%nat) ([an_upload; an_upload], deployment).

Lemma an_upload_starts : starts an_upload.
Proof. by do 4 eexists. Qed.

Example two_uploads_one_content :
  (map f_hash_sha256 (rows_of (files (db two_uploads.2))),
   map fr_file_id (rows_of (file_references (db two_uploads.2))),
   length (rows_of (file_locations (db two_uploads.2)))) =
  ([compute_sha256 hello], [1001%N; 1001%N], 1%nat).
Proof. vm_compute. reflexivity. Qed.

Lemma interleaved_integrity_witness : FilesOk (db two_uploads.2).
Proof.
  apply (interleaved_integrity deployment two_uploads.1 two_uploads.2); [reflexivity|].
  eapply rtc_l; [apply pool_spawn, an_upload_starts|].
  eapply rtc_l; [apply pool_spawn, an_upload_starts|].
  assert (rtc (pool_step starts outside) ([an_upload; an_upload], deployment) two_uploads) as Hs
    by apply exec_steps.
  destruct two_uploads. exact Hs.
Defined.

(** Three downloads at once of a link that has two left. *)
Definition linked : World :=
  (SharedLinkService.create_link
    (mkCreateSharedLinkInput 1001 10 101 "user" None None (Some 2)) uploaded).1.
Definition a_download : Prog Answer :=
  thread (op_public_download server "token-1004" None).
Definition three_downloads : list (Prog Answer) * World :=
  exec (in_turns 40 [0; 1; 2]%nat) ([a_download; a_download; a_download], linked).
Definition linked_link : SharedLink :=
  mkSharedLink 1006 "token-1004" 1001 10 "a.txt" 101 None None (Some 2) 0 None true (seconds 1000000).

(** All three pass the gate before the first is counted; the third is refused
    when it comes to be counted. *)
Example two_of_three_served : served "token-1004" three_downloads.1 = 2.
Proof. vm_compute. reflexivity. Qed.

Lemma linked_ok : LinksOk (db linked).
Proof.
  apply create_link_grows. split; intros *;
    (replace (shared_links _) with (∅ : gmap Uuid SharedLink) by (vm_compute; reflexivity));
    by rewrite lookup_empty.
Qed.

Lemma interleaved_quota_witness : served "token-1004" three_downloads.1 ≤ 2.
Proof.
  apply (interleaved_quota 1006 "token-1004" 2 linked three_downloads.1 three_downloads.2 linked_link).
  - exact linked_ok.
  - vm_compute. reflexivity.
  - reflexivity.
  - reflexivity.
  - do 3 (eapply rtc_l;
      [split; [apply pool_spawn; by do 4 eexists | apply no_link_fresh; vm_compute; reflexivity]|]).
    assert (rtc (adm_step starts outside (links_fresh 1006 "token-1004"))
      ([a_download; a_download; a_download], linked) three_downloads) as Hs
      by (apply (exec_checked _ _ _ no_link); [exact (no_link_fresh _ _) | vm_compute; reflexivity]).
    destruct three_downloads. exact Hs.
Defined.

(** Two requests present the same refresh token. *)
Definition signed_in : World * Result Tokens :=
  AuthRoutes.login (dp_auth server) "bob" "hunter2" deployment.
Definition bob_refresh_token : string :=
  match signed_in.2 with Ok t => refresh_token t | _ => "" end.
Definition a_refresh : Prog Answer := thread (op_refresh server bob_refresh_token).
Definition two_refreshes : list (Prog Answer) * World :=
  exec (in_turns 20 [0; 1]%nat) ([a_refresh; a_refresh], signed_in.1).

Example one_of_two_renewed : renewed bob_refresh_token two_refreshes.1 = 1.
Proof. vm_compute. reflexivity. Qed.

Lemma interleaved_renewal_witness : renewed bob_refresh_token two_refreshes.1 ≤ 1.
Proof.
  apply (interleaved_renewal bob_refresh_token signed_in.1 two_refreshes.1 two_refreshes.2).
  - intros i j r r'.
    assert (map fst (map_to_list (refresh_tokens (db signed_in.1))) = [1002%N]) as Hone
      by (vm_compute; reflexivity).
    assert (∀ i r, refresh_tokens (db signed_in.1) !! i = Some r → i = 1002%N) as Hkey.
    { intros k x Hx. apply elem_of_map_to_list, (list_elem_of_fmap_2 fst) in Hx.
      change (fst <$> map_to_list (refresh_tokens (db signed_in.1)))
        with (map fst (map_to_list (refresh_tokens (db signed_in.1)))) in Hx.
      rewrite Hone in Hx. by apply list_elem_of_singleton in Hx. }
    intros ->%Hkey ->%Hkey _. reflexivity.
  - do 2 (eapply rtc_l;
      [split; [apply pool_spawn; by do 4 eexists | apply no_token_fresh; vm_compute; reflexivity]|]).
    assert (rtc (adm_step starts outside (tokens_fresh bob_refresh_token))
      ([a_refresh; a_refresh], signed_in.1) two_refreshes) as Hs
      by (apply (exec_checked _ _ _ (no_token (AuthService.hash_refresh_token bob_refresh_token)));
          [exact (no_token_fresh _) | vm_compute; reflexivity]).
    destruct two_refreshes. exact Hs.
Defined.

(** Two overlapping PATCHes at the start of an upload of five bytes, and one
    that goes on where the first of them to be counted got. *)
Definition a_patch (offset : string) (payload : list Chunk) : Prog Answer :=
  thread (op_patch server as_alice 1002 (at_offset offset) payload).
Definition patches : list (Prog Answer) :=
  [a_patch "0" [inr (text "he")]; a_patch "0" [inr (text "HE")]; a_patch "2" [inr (text "llo")]].
Definition three_patches : list (Prog Answer) * World :=
  exec (in_turns 40 [0; 1]%nat ++ in_turns 60 [2]%nat) (patches, session_created.1).

(** The bytes of the one that is refused are not acknowledged. *)
Example each_byte_acknowledged_once : appended 1002 three_patches.1 = 5.
Proof. vm_compute. reflexivity. Qed.

Lemma interleaved_appends_witness : appended 1002 three_patches.1 ≤ 5.
Proof.
  apply (interleaved_appends 1002 5 session_created.1 three_patches.1 three_patches.2 session).
  - vm_compute. reflexivity.
  - reflexivity.
  - do 3 (eapply rtc_l;
      [split; [apply pool_spawn; by do 4 eexists | apply no_session_fresh; vm_compute; reflexivity]|]).
    assert (rtc (adm_step starts outside (sessions_fresh 1002)) (patches, session_created.1) three_patches)
      as Hs by (apply (exec_checked _ _ _ (no_session 1002));
                [exact (no_session_fresh _) | vm_compute; reflexivity]).
    destruct three_patches. exact Hs.
Defined.
