(* ===== verification/WorkersSpec.v ===== *)
(** * Shutting down

    [main] returns once every worker has stopped and every tracked task has
    ended, whatever runs on being tasks on no tracker; and it does return: an
    execution in which it does not is one whose selects pass over the ready
    cancellation again and again. *)

From S2P Require Import Prelude Json Schema Env World Tables Laws BulkService Config Server System Interleave Threads Workers Concrete Scenario SystemSpec.

Import Workers.

#[local] Opaque sync_round tier_round backup_round sweep heartbeat.

Section shutdown.
Context {E : Env} (s : Deployment).

Abbreviation step := (step s).
Abbreviation worker_step := (worker_step s).

(** The process, and what happens around it. *)
Definition event (p p' : Process) : Prop := tick p p' ∨ ∃ late, step late p p'.

(** ** What [main] knows when it goes on *)











(** ** It does return *)

(** What a program comes to in one statement. *)
Definition child {A} (q p : Prog A) : Prop :=
  match p with Done _ => False | Step _ k => ∃ r, q = k r end.

Lemma child_wf {A} : well_founded (@child A).
Proof. intros p. induction p as [r|X m k IH]; constructor; [intros q []|]. intros q [r ->]. apply IH. Qed.

Lemma advance_child {A} (p p' : Prog A) w w' : advance p w p' w' → child p' p.
Proof. intros []; simpl; eauto. Qed.

(** What becomes of a worker after the cancellation, by steps that are not late. *)
Lemma sync_next a w b w' : sync_step s true false a w b w' →
  match a with
  | SyncRound p =>
      (∃ q, child q p ∧ b = SyncRound q) ∨ b = SyncTop ∨ b = SyncSleeping Fresh ∨ b = SyncStopped
  | SyncTop | SyncSleeping _ => b = SyncStopped
  | SyncStopped => False
  end.
Proof. intros H. inversion H; subst; try done; eauto 8 using advance_child. Qed.

Lemma round_next round interval a w b w' : round_step round interval true false a w b w' →
  match a with
  | InRound p => (∃ q, child q p ∧ b = InRound q) ∨ b = RoundSleeping Fresh ∨ b = RoundStopped
  | RoundSleeping _ => b = RoundStopped
  | RoundStopped => False
  end.
Proof. intros H. inversion H; subst; try done; eauto 8 using advance_child. Qed.

Lemma cleanup_next a w b w' : cleanup_step s true false a w b w' →
  match a with
  | Sweeping p => (∃ q, child q p ∧ b = Sweeping q) ∨ b = CleanupSleeping Fresh ∨ b = CleanupStopped
  | CleanupSleeping _ => b = CleanupStopped
  | CleanupStopped => False
  end.
Proof. intros H. inversion H; subst; try done; eauto 8 using advance_child. Qed.

Lemma beat_next node a w b w' : beat_step s node true false a w b w' →
  match a with
  | Beating n p => (∃ q, child q p ∧ b = Beating n q) ∨ b = AwaitingTick n ∨ b = BeatStopped
  | AwaitingTick _ => b = BeatStopped
  | BeatStopped => False
  end.
Proof. intros H. inversion H; subst; try done; eauto 8 using advance_child. Qed.

(** How far a worker is: stopped, between rounds, or in one. *)
Inductive Stage := Ended | Resting | InSync (p : Prog bool) | InWork (p : Prog unit).

Definition round_stage (r : RoundState) : Stage :=
  match r with InRound p => InWork p | RoundSleeping _ => Resting | RoundStopped => Ended end.
Definition stage (k : Worker) : Stage :=
  match k with
  | SyncW SyncTop | SyncW (SyncSleeping _) => Resting
  | SyncW (SyncRound p) => InSync p
  | TierW r | BackupW r => round_stage r
  | CleanupW (Sweeping p) => InWork p
  | CleanupW (CleanupSleeping _) => Resting
  | HeartbeatW _ (AwaitingTick _) => Resting
  | HeartbeatW _ (Beating _ p) => InWork p
  | SyncW SyncStopped | CleanupW CleanupStopped | HeartbeatW _ BeatStopped => Ended
  end.

Definition stage_lighter (y x : Stage) : Prop :=
  match y, x with
  | Ended, (Resting | InSync _ | InWork _) | Resting, (InSync _ | InWork _) => True
  | InSync q, InSync p => child q p
  | InWork q, InWork p => child q p
  | _, _ => False
  end.

Lemma timer_stage k k' : timer_step k k' → stage k' = stage k.
Proof. by destruct 1. Qed.

Lemma round_lighter round interval a w b w' :
  round_step round interval true false a w b w' → stage_lighter (round_stage b) (round_stage a).
Proof. intros H%round_next. destruct a; naive_solver. Qed.

Lemma worker_lighter k w k' w' : worker_step true false k w k' w' → stage_lighter (stage k') (stage k).
Proof.
  intros [a b w1 w2 H|a b w1 w2 H|a b w1 w2 H|a b w1 w2 H|node a b w1 w2 H].
  - apply sync_next in H. destruct a; naive_solver.
  - by eapply round_lighter.
  - by eapply round_lighter.
  - apply cleanup_next in H. destruct a; naive_solver.
  - apply beat_next in H. destruct a; naive_solver.
Qed.

Lemma stage_wf : well_founded stage_lighter.
Proof.
  assert (Acc stage_lighter Ended) as He by (constructor; by intros []).
  assert (Acc stage_lighter Resting) as Hr by (constructor; by intros []).
  intros [| |p|p]; [exact He | exact Hr | |];
    induction (child_wf p) as [p _ IH]; constructor; intros [| |q|q] H;
    first [exact He | exact Hr | exact (IH q H) | destruct H].
Qed.

(** The process as a list of agents, each of which has a bounded way to go. *)
Inductive Agent :=
  | OfMain (n : nat)
  | OfWorker (x : Stage)
  | OfRequest (p : Prog Answer)
  | OfTask (p : Prog unit).

Definition lighter (y x : Agent) : Prop :=
  match y, x with
  | OfMain m, OfMain n => (m < n)%nat
  | OfWorker y, OfWorker x => stage_lighter y x
  | OfRequest q, OfRequest p => child q p
  | OfTask q, OfTask p => child q p
  | _, _ => False
  end.

Lemma acc_main n : Acc lighter (OfMain n).
Proof. induction (lt_wf n) as [n _ IH]. constructor. intros [] H; first [exact (IH _ H) | destruct H]. Qed.
Lemma acc_worker x : Acc lighter (OfWorker x).
Proof. induction (stage_wf x) as [x _ IH]. constructor. intros [] H; first [exact (IH _ H) | destruct H]. Qed.
Lemma acc_request p : Acc lighter (OfRequest p).
Proof. induction (child_wf p) as [p _ IH]. constructor. intros [] H; first [exact (IH _ H) | destruct H]. Qed.
Lemma acc_task p : Acc lighter (OfTask p).
Proof. induction (child_wf p) as [p _ IH]. constructor. intros [] H; first [exact (IH _ H) | destruct H]. Qed.

(** One of the agents gets lighter, or is gone. *)
Definition one_lighter (l' l : list Agent) : Prop :=
  ∃ l1 x l2 o, l = l1 ++ x :: l2 ∧ l' = l1 ++ option_list o ++ l2 ∧ ∀ y, o = Some y → lighter y x.

Lemma acc_cons x : Acc lighter x → ∀ l, Acc one_lighter l → Acc one_lighter (x :: l).
Proof.
  induction 1 as [x _ IHx]. induction 1 as [l Hl IHl].
  constructor. intros l' (l1 & x' & l2 & o & Heq & -> & Ho).
  destruct l1 as [|x1 l1]; injection Heq as -> ->; simpl.
  - destruct o as [y|]; simpl; [|by constructor]. apply IHx; [by apply Ho | by constructor].
  - apply IHl. by exists l1, x', l2, o.
Qed.

Lemma acc_agents l : Forall (Acc lighter) l → Acc one_lighter l.
Proof.
  induction 1 as [|x l Hx _ IH]; [|by apply acc_cons].
  constructor. intros ? (l1 & ? & ? & ? & Hn & _). by destruct l1.
Qed.

Lemma one_lighter_in pre l l' post :
  one_lighter l' l → one_lighter (pre ++ l' ++ post) (pre ++ l ++ post).
Proof.
  intros (l1 & x & l2 & o & -> & -> & Ho). exists (pre ++ l1), x, (l2 ++ post), o.
  by rewrite <- !app_assoc.
Qed.

Definition main_weight (p : Process) : nat :=
  match main p with
  | Serving => 0
  | Awaiting i => 2 + (length (workers p) - i)
  | AwaitingTasks => 1
  | Returned => 0
  end.

Definition worker_agents (ks : list Worker) : list Agent := map (λ k, OfWorker (stage k)) ks.
Definition agents (p : Process) : list Agent :=
  [OfMain (main_weight p)] ++ worker_agents (workers p) ++
  map OfRequest (requests p) ++ map OfTask (tasks p) ++ map OfTask (detached p).

Lemma agents_acc p : Acc one_lighter (agents p).
Proof.
  apply acc_agents. unfold agents, worker_agents. rewrite !Forall_app, Forall_singleton, !Forall_map.
  split_and!; [apply acc_main | | | |]; apply Forall_forall; intros; simpl;
    auto using acc_worker, acc_request, acc_task.
Qed.

Lemma programs_lighter {A} (f : Prog A → Agent) d l w l' w' :
  (∀ q p, child q p → lighter (f q) (f p)) →
  programs_step d l w l' w' → one_lighter (map f l') (map f l).
Proof.
  intros Hf [l1 p p' l2 w1 w2 Hp|l1 r l2 w1|l1 p l2 w1 _]; rewrite !map_app; simpl.
  - exists (map f l1), (f p), (map f l2), (Some (f p')). split_and!; [done..|].
    intros y [= <-]. by eapply Hf, advance_child.
  - by exists (map f l1), (f (Done r)), (map f l2), None.
  - by exists (map f l1), (f p), (map f l2), None.
Qed.

Lemma worker_replaced ks i k k' w w' :
  ks !! i = Some k → worker_step true false k w k' w' →
  one_lighter (worker_agents (<[i := k']> ks)) (worker_agents ks).
Proof.
  intros Hk Hw. unfold worker_agents. rewrite insert_take_drop by by eapply lookup_lt_Some.
  rewrite <- (take_drop_middle _ _ _ Hk) at 3. rewrite !map_app. simpl.
  eexists _, _, _, (Some _). split_and!; [done..|]. intros y [= <-]. by eapply worker_lighter.
Qed.

Definition shutting_down (p : Process) : Prop := main p ≠ Serving ∧ cancelled p = true.

Lemma step_shutting late p p' : shutting_down p → step late p p' → shutting_down p'.
Proof. intros [Hm Hc] Hs. unfold shutting_down. destruct Hs as [p p' Hp| | | | | | |]; try done. by destruct Hp. Qed.

Lemma step_lighter p p' :
  shutting_down p → step false p p' → one_lighter (agents p') (agents p).
Proof.
  intros [Hm Hc] Hs. remember false as late eqn:Hlate.
  destruct Hs as [p p' Hp| |a c ks rs rs' ts us w w' Hp| | |a c ks rs ts ts' us w w' Hp
    |a c ks rs ts us us' w w' Hp|late a c ks rs ts us i k k' w w' Hk Hw]; simpl in *; try done;
    unfold agents; simpl.
  - assert (main_weight p' < main_weight p ∧ workers p' = workers p ∧ requests p' = requests p ∧
      tasks p' = tasks p ∧ detached p' = detached p)%nat as (Hw & -> & -> & -> & ->).
    { destruct Hp as [|c i k ks rs ts us w Hk _| |]; simpl in *; try done; unfold main_weight; simpl.
      - apply lookup_lt_Some in Hk. split_and!; [lia | done..].
      - split_and!; [lia | done..].
      - split_and!; [lia | done..]. }
    exists [], (OfMain (main_weight p)). eexists _, (Some (OfMain (main_weight p'))).
    split_and!; [done..|]. by intros y [= <-].
  - apply (programs_lighter OfRequest) in Hp; [|done].
    exact (one_lighter_in (_ :: worker_agents ks) _ _ (map OfTask ts ++ map OfTask us) Hp).
  - apply (programs_lighter OfTask) in Hp; [|done].
    apply (one_lighter_in (OfMain (main_weight (mkProcess a c ks rs ts us w)) :: worker_agents ks ++ map OfRequest rs) _ _ (map OfTask us)) in Hp.
    simpl in Hp. rewrite <- !app_assoc in Hp. exact Hp.
  - apply (programs_lighter OfTask) in Hp; [|done].
    apply (one_lighter_in (OfMain (main_weight (mkProcess a c ks rs ts us w)) :: worker_agents ks ++ map OfRequest rs ++ map OfTask ts) _ _ []) in Hp.
    simpl in Hp. rewrite <- !app_assoc, !app_nil_r in Hp. exact Hp.
  - subst. apply (worker_replaced _ _ _ _ _ _ Hk) in Hw.
    assert (main_weight (mkProcess a true (<[i:=k']> ks) rs ts us w') =
            main_weight (mkProcess a true ks rs ts us w)) as ->
      by (unfold main_weight; simpl; by rewrite length_insert).
    exact (one_lighter_in [_] _ _ _ Hw).
Qed.

Lemma ticks_agents p p' :
  rtc tick p p' → shutting_down p → agents p' = agents p ∧ shutting_down p'.
Proof.
  induction 1 as [|p p1 p2 Ht _ IH]; [done|]. intros Hp.
  assert (agents p1 = agents p ∧ shutting_down p1) as [<- Hp1]; [|by apply IH].
  destruct Ht as [|a c ks rs ts us i k k' w Hk Ht]; [done|]. split; [|done].
  unfold agents, main_weight. simpl. rewrite length_insert. do 2 f_equal. unfold worker_agents.
  rewrite list_fmap_insert. apply list_insert_id. rewrite list_lookup_fmap, Hk. simpl.
  by rewrite (timer_stage _ _ Ht).
Qed.

(** Until [main] has returned there is a step to take, and one that is not late. *)
Lemma advance_exists {A} (p : Prog A) w : (∃ r, p = Done r) ∨ ∃ p' w', advance p w p' w'.
Proof. destruct p as [r|X m k]; [by left; exists r | right; do 2 eexists; apply advance_run]. Qed.

Lemma round_step_exists round interval a w :
  a ≠ RoundStopped → ∃ b w', round_step round interval true false a w b w'.
Proof.
  destruct a as [p|t|]; intros Ha; [|do 2 eexists; by apply round_shutdown_asleep | done].
  do 2 eexists. by apply round_dropped.
Qed.

Lemma worker_step_exists k w : is_stopped k = false → ∃ k' w', worker_step true false k w k' w'.
Proof.
  destruct k as [[|p|t|]|a|a|[p|t|]|node [n|n p|]]; intros Hk; try discriminate Hk.
  - do 2 eexists. by apply step_sync, sync_shutdown.
  - destruct (advance_exists p w) as [[[[]|e|] ->]|(p' & w' & Hp)]; do 2 eexists; apply step_sync;
      [by apply sync_worked | by apply sync_idle | by apply sync_panicked | by apply sync_panicked
      | by apply sync_works].
  - do 2 eexists. by apply step_sync, sync_shutdown_asleep.
  - destruct (round_step_exists (tier_round s) (scan_interval s) a w) as (b & w' & H);
      [by intros -> | do 2 eexists; by apply step_tier].
  - destruct (round_step_exists (backup_round s) (check_interval s) a w) as (b & w' & H);
      [by intros -> | do 2 eexists; by apply step_backup].
  - destruct (advance_exists p w) as [[r ->]|(p' & w' & Hp)];
      [destruct (is_ok r) eqn:Hr|]; do 2 eexists; apply step_cleanup;
      [by apply cleanup_swept | by apply cleanup_panicked | by apply cleanup_works].
  - do 2 eexists. by apply step_cleanup, cleanup_shutdown.
  - do 2 eexists. by apply step_beat, beat_shutdown.
  - destruct (advance_exists p w) as [[r ->]|(p' & w' & Hp)];
      [destruct (is_ok r) eqn:Hr|]; do 2 eexists; apply step_beat;
      [by apply beat_done | by apply beat_panicked | by apply beat_works].
Qed.

Lemma progress p :
  shutting_down p → main p = Returned ∨ ∃ p', step false p p' ∧ detached p' = detached p.
Proof.
  destruct p as [a c ks rs ts us w]. intros [Hm Hc]. simpl in *. subst c.
  destruct a as [|i| |]; [done| | |by left]; right.
  - destruct (ks !! i) as [k|] eqn:Hk; [|by eexists; split; [by apply step_main, main_joined_all|]].
    destruct (is_stopped k) eqn:Hst; [by eexists; split; [by eapply step_main, main_joins|]|].
    destruct (worker_step_exists k w Hst) as (k' & w' & Hw).
    by eexists; split; [by eapply step_worker|].
  - destruct ts as [|p ts]; [by eexists; split; [by apply step_main, main_returns|]|].
    destruct (advance_exists p w) as [[r ->]|(p' & w' & Hp)];
      (eexists; split; [eapply step_task|done]);
      [apply (program_ended _ []) | by apply (program_advances _ [])].
Qed.

Lemma event_shutting p p' : event p p' → shutting_down p → shutting_down p'.
Proof.
  intros [Ht|[late Hs]] Hp; [|by eapply step_shutting].
  apply rtc_once in Ht. by apply ticks_agents in Ht as [_ ?].
Qed.

(** C14: from the moment the HTTP server has stopped, [main] is on its way to
    return, with every configuration, whatever the interleaving, the timers and
    the failures: an execution that does not end passes over a ready cancellation
    again and again, and until [main] returns there is always a step to take that
    does not. (The calls a statement makes to a storage are taken to end.) *)
Theorem shutdown_terminates p :
  shutting_down p →
  (∀ (run : nat → Process) (late : nat → bool),
     run 0%nat = p → (∀ i, ∃ q, rtc tick (run i) q ∧ step (late i) q (run (S i))) →
     ∀ n, ∃ i, (n ≤ i)%nat ∧ late i = true) ∧
  (∀ p', rtc event p p' → main p' = Returned ∨ ∃ p'', step false p' p'').
Proof.
  intros Hp. split.
  - intros run late <- Hrun n.
    assert (∀ i, shutting_down (run i)) as Hall.
    { intros i. induction i as [|i IH]; [done|]. destruct (Hrun i) as (q & Hq & Hs).
      apply ticks_agents in Hq as [_ Hq]; [|done]. by eapply step_shutting. }
    enough (∀ l, Acc one_lighter l → ∀ n, agents (run n) = l → ∃ i, (n ≤ i)%nat ∧ late i = true) as He
      by (eapply He; [apply agents_acc | reflexivity]).
    clear n. intros l Hl. induction Hl as [l _ IH]. intros n <-.
    destruct (late n) eqn:Hlate; [by exists n|]. destruct (Hrun n) as (q & Hq & Hs).
    apply ticks_agents in Hq as [Hq Hsq]; [|done]. rewrite Hlate in Hs.
    apply step_lighter in Hs; [|done]. rewrite Hq in Hs.
    destruct (IH _ Hs (S n) eq_refl) as (i & Hi & Hli). exists i. split; [lia | done].
  - intros p' Hs. assert (shutting_down p') as Hp'.
    { revert Hp. induction Hs; eauto using event_shutting. }
    destruct (progress p' Hp') as [|(p'' & Hp'' & _)]; eauto.
Qed.

End shutdown.

(** ** Witnesses: the default settings, on the small deployment *)

Definition stopping : Process :=
  mkProcess (Awaiting 0) true (spawn server "node-1") [] [] [] deployment.

(** The first synchronisation worker sees the token. *)
Definition first_stopped : Process :=
  mkProcess (Awaiting 0) true (<[0%nat := SyncW SyncStopped]> (spawn server "node-1")) [] [] [] deployment.

Lemma shutdown_terminates_witness :
  (∀ (run : nat → Process) (late : nat → bool),
     run 0%nat = stopping → (∀ i, ∃ q, rtc tick (run i) q ∧ step server (late i) q (run (S i))) →
     ∀ n, ∃ i, (n ≤ i)%nat ∧ late i = true) ∧
  (main first_stopped = Returned ∨ ∃ p, step server false first_stopped p).
Proof.
  assert (shutting_down stopping) as Hp by by split.
  split; [exact (proj1 (shutdown_terminates server stopping Hp))|].
  apply (proj2 (shutdown_terminates server stopping Hp)).
  apply rtc_once. right. exists false.
  apply (step_worker server false _ _ _ _ _ _ 0 (SyncW SyncTop)); [reflexivity|].
  by apply step_sync, sync_shutdown.
Defined.




