(* ===== verification/Defects.v ===== *)
(** * Runs that depart from the code's intent

    Concrete executions of the modelled operations on the deployment of
    Scenario.v whose outcome is not the one the code means to have: each
    [Example] evaluates the operations as they are written. *)

From S2P Require Import Prelude Json Schema Env World Tables Laws Projects Concrete LocalDisk Registry.
From S2P Require Import Scenario Storages Files Users Links Backups FileService Auth Access Uploads.
From S2P Require Import Remote FileServers ConcreteNet Search BulkService ApiFiles.
From S2P Require Import ApiProjects Dashboard RoundTrip SyncSpec ClaimSpec BackupSpec UploadSpec.
From S2P Require Import System SystemSpec Interleave Threads InterleaveSpec.

(** ** A failed upload claims its content (src/src/services/file_service.rs, [upload_file])

    The row of the content is inserted before the bytes are stored. When
    storing them fails, the row stays; the next upload of the same content is
    answered as a duplicate, stores nothing, and cannot be downloaded. *)

Definition disk_full : World :=
  mkWorld deployment_db ∅ false (mkObjects true ∅) (backends deployment) (now deployment)
    (draws deployment) ∅.
Definition failed_upload : World * Result FileService.UploadResult :=
  FileService.upload_file "k" 10 "a.txt" "text/plain" hello no_metadata disk_full.
Definition disk_emptied : World :=
  mkWorld (db failed_upload.1) (fs failed_upload.1) true (remote failed_upload.1)
    (backends failed_upload.1) (now failed_upload.1) (draws failed_upload.1) ∅.
Definition second_upload : World * Result FileService.UploadResult :=
  FileService.upload_file "k" 10 "a.txt" "text/plain" hello no_metadata disk_emptied.

Example failed_upload_claims_content :
  (is_ok failed_upload.2,
   match second_upload.2 with Ok r => Some (FileService.ur_is_duplicate r) | _ => None end,
   size (fs second_upload.1),
   match second_upload.2 with
   | Ok r => is_ok (FileService.download_file "k" (f_id (FileService.ur_file r)) second_upload.1).2
   | _ => true end) = (false, Some true, 0%nat, false).
Proof. vm_compute. reflexivity. Qed.

(** ** The sweep deletes uploads in progress
       (src/src/workers/upload_cleanup_worker.rs, [reconcile_orphans])

    The name of a temporary file carries an identifier drawn before the row of
    the session draws its own, so no session is found under it. *)

Definition swept : World * Result unit :=
  UploadCleanupWorker.sweep "/tmp/uploads" (days 1) None first_patch.1.

Example sweep_deletes_live_part :
  (fs first_patch.1 !! ss_temp_path session, fs swept.1 !! ss_temp_path session,
   ss_status <$> upload_sessions (db swept.1) !! 1002%N) =
  (Some (text "he"), None, Some "in_progress").
Proof. vm_compute. reflexivity. Qed.

(** ** A refused PATCH leaves its bytes behind (src/src/api/uploads.rs, [patch])

    The chunks read before an overrun (or a connection error) stay in the
    temporary file while the offset does not move; the client that resumes at
    the offset it is told completes another content than the one it sent. *)

Definition overrun : World * Result Z :=
  Uploads.patch "k" as_alice 1002 (at_offset "0") [inr (text "hel"); inr (text "lo!")]
    session_created.1.
Definition resumed : World * Result Z :=
  Uploads.patch "k" as_alice 1002 (at_offset "0") [inr hello] overrun.1.

Example overrun_corrupts_upload :
  (overrun.2, fs overrun.1 !! ss_temp_path session, resumed.2,
   map f_hash_sha256 (rows_of (files (db resumed.1)))) =
  (Err Uploads.chunk_overrun, Some (text "hel"), Ok 5, [compute_sha256 (text "helhello")]).
Proof. vm_compute. reflexivity. Qed.

(** ** Two PATCHes at one offset mix their bytes (src/src/api/uploads.rs, [patch])

    The offset is compared when the session is loaded and again when it is
    advanced; in between both requests append to the file. One is refused,
    with its bytes left in the middle of the upload. *)

Definition patching (offset : string) (payload : list Chunk) : Prog Z :=
  prog (cut_operation _ _ _ (op_patch server as_alice 1002 (at_offset offset) payload)).
Definition overlapping : list (Prog Z) * World :=
  exec (in_turns 40 [0; 1]%nat)
    ([patching "0" [inr (text "he")]; patching "0" [inr (text "HE")]], session_created.1).
Definition completed : World * Result Z :=
  Uploads.patch "k" as_alice 1002 (at_offset "2") [inr (text "llo")] overlapping.2.

Example overlapping_patches_mix :
  (map (λ p, match p with Done r => Some r | _ => None end) overlapping.1, completed.2,
   map f_hash_sha256 (rows_of (files (db completed.1)))) =
  ([Some (Ok 2); Some (Err Uploads.concurrent_patch)], Ok 5,
   [compute_sha256 (text "heHEllo")]).
Proof. vm_compute. reflexivity. Qed.

(** ** A listing misses what is not named by a digest (src/src/storage/local.rs, [list])

    The directory to search is taken from the first characters of the prefix
    whatever they are, as if every file lay where [resolve_path] puts digests; a
    file of another name is not found under its own prefixes, and what the
    listing gives of a file in a directory is not a path that downloads it. *)

Definition dump_path : string := "backups/db.sql".
Definition dumped : World := (local_upload "/data" dump_path hello world0).1.

Example list_misses_plain_names :
  ((local_download "/data" dump_path dumped).2, (local_list "/data" "backups" dumped).2,
   (local_list "/data" "" dumped).2, (local_download "/data" "db.sql" dumped).2) =
  (Ok hello, Ok [], Ok ["db.sql"], Err (local_not_found "db.sql")).
Proof. vm_compute. reflexivity. Qed.

(** ** Two first starts at once (src/src/main.rs)

    Two servers started together on an empty database both count no account and
    both create the administrator; the name is taken for the second, and the
    [expect] ends its process. *)

Definition no_accounts : World := set_db (set_users ∅ deployment_db) deployment.
Definition starting : Prog string := prog (cut_operation _ _ _ (op_start server)).
Definition two_starts : list (Prog string) * World :=
  exec (in_turns 40 [0; 1]%nat) ([starting; starting], no_accounts).

Example one_of_two_starts_panics :
  (map (λ p, match p with Done (Ok _) => "started" | Done Panic => "panicked" | _ => "" end)
     two_starts.1, map u_username (rows_of (users (db two_starts.2)))) =
  (["started"; "panicked"], ["admin"]).
Proof. vm_compute. reflexivity. Qed.

(** ** An unusable configuration leaves the old backend in service
       (src/src/api/storages.rs, [update_storage]) *)

Definition misconfigure : UpdateStorage :=
  mkUpdateStorage None (Some "ftp") (Some (JObject [])) None None None None.
Definition misconfigured : World * Result Storage :=
  StoragesApi.update_storage "k" (mkAdminUser 100) 20 misconfigure deployment.

Example old_backend_stays :
  (match misconfigured.2 with Ok s => Some (st_storage_type s) | _ => None end,
   backends misconfigured.1 !! 20%N) = (Some "ftp", Some (LocalDiskBackend "/data/hot" "k")).
Proof. vm_compute. reflexivity. Qed.

(** ** The candidates for deletion come newest first
       (src/src/db/models.rs, [list_oldest_completed_by_config]) *)

Example candidates_newest_first :
  match (BackupRecord.list_oldest_completed_by_config 50 1 three_backups).2 with
  | Ok l => map br_id l
  | _ => [] end = [62%N; 61%N].
Proof. vm_compute. reflexivity. Qed.

(** ** A refused deletion of a user deletes their tokens
       (src/src/api/auth_routes.rs, [delete_user])

    Only live projects are counted; a project in the trash still references
    its owner, so the last statement fails after the first two took effect. *)

Definition trashed : World :=
  set_db (set_projects {[ 10%N := mkProject 10 "Photos" "photos" None (Some 101%N) 0 0 (Some 5) ]}
    (set_refresh_tokens {[ 70%N := mkRefreshToken 70 101 "h" (seconds 2000000) 0 ]}
       deployment_db)) deployment.
Definition bob_deleted : World * Result unit :=
  AuthRoutes.delete_user (mkAdminUser 100) 101 trashed.

Example refused_deletion_has_effect :
  (bob_deleted.2, size (users (db bob_deleted.1)), size (refresh_tokens (db bob_deleted.1))) =
  (Err (Database foreign_key_violation), 2%nat, 0%nat).
Proof. vm_compute. reflexivity. Qed.

(** ** An overwritten SMB file keeps its end (src/src/storage/samba.rs, [upload])

    The file is opened to be created and written, not to be truncated: a shorter
    content leaves the end of the longer one it replaces. *)

Definition share : SambaConfig := mkSambaConfig "nas" "data" "u" "p" "WORKGROUP" "".
Definition long_text : bytes := String.list_byte_of_string "a long text".
Definition short_text : bytes := String.list_byte_of_string "brief".
Definition overwritten : Conn * Result bytes :=
  let s1 := (Samba.upload share "backup.sql" long_text (mkConn no_services [])).1 in
  Samba.download share "backup.sql" (Samba.upload share "backup.sql" short_text s1).1.

Example smb_overwrite_keeps_tail :
  overwritten.2 = Ok (String.list_byte_of_string "briefg text").
Proof. vm_compute. reflexivity. Qed.

(** ** Contents live in the containers of their projects, but three operations
       look for them in the storage's own backend

    Uploads write below the container of the project (services/backend_resolver.rs).
    The clean-up of a bulk deletion (services/file_service.rs), the handler of
    signed local links (api/files.rs) and exports (services/bulk_service.rs) take
    the backend of the registry instead. *)

Definition stored_once : World * Result FileService.UploadResult :=
  FileService.upload_file "k" 10 "a.txt" "text/plain" hello no_metadata deployment.
Definition small_files : BulkDeleteFilters := mkBulkDeleteFilters None None None (Some 1) None None.
Definition bulk_deleted : World * Result BulkDeleteResult :=
  FileService.bulk_delete 10 small_files stored_once.1.

(** Five bytes are reported freed, no row is left, and the content is still there. *)
Example bulk_delete_leaves_bytes :
  (match bulk_deleted.2 with Ok r => Some (bdr_freed_bytes r) | _ => None end,
   size (files (db bulk_deleted.1)), size (fs bulk_deleted.1)) = (Some 5, 0%nat, 1%nat).
Proof. vm_compute. reflexivity. Qed.

(** A temporary link to the only copy, followed at once. *)
Definition stored_file : Uuid :=
  match stored_once.2 with Ok r => f_id (FileService.ur_file r) | _ => 0%N end.
Definition stored_path : string :=
  match map_to_list (file_locations (db stored_once.1)) with
  | (_, fl) :: _ => fl_storage_path fl
  | [] => EmptyString
  end.
Example signed_link_finds_nothing :
  (match (FileService.generate_temp_links "k" stored_file 60 false None stored_once.1).2 with
   | Ok l => length l | _ => 0%nat end,
   (FilesApi.download_local_temp "k" stored_path 1000060
      (sign_token "k" stored_path 1000060) stored_once.1).2) =
  (1%nat, Err (NotFound ("File not found in local storage: " +:+ stored_path))).
Proof. vm_compute. reflexivity. Qed.

(** The export of a storage with one copy is completed and empty. *)
Definition count_entries (l : list (string * bytes)) : Result bytes :=
  Ok (repeat Byte.x01 (length l)).
Definition exported : World * Result ExportStore :=
  BulkService.run_export count_entries 20 7
    (mkExportStore {[7%N := mkExportJobStatus 7 20 InProgress 1 0 0 None]} ∅) stored_once.1.
Example export_is_empty :
  (match exported.2 with
   | Ok st => (ej_status <$> export_jobs st !! 7%N, ej_processed_files <$> export_jobs st !! 7%N,
               export_data st !! 7%N)
   | _ => (None, None, None)
   end) = (Some Completed, Some 1, Some []).
Proof. vm_compute. reflexivity. Qed.

(** ** An access token outlives the role it was issued for (src/src/api/auth.rs)

    The administrator's check reads the role from the token. An administrator
    who was demoted keeps the powers for the life of the token, and can then
    remove the administrator who is left: the guards against removing or
    demoting oneself do not keep an administrator. *)

Definition session_settings : AuthConfig := mkAuthConfig "s" 900 86400.
Definition alice_signs_in : World * Result Tokens :=
  AuthRoutes.login session_settings "alice" "secret" deployment.
Definition alice_token : option string :=
  match alice_signs_in.2 with Ok t => Some ("Bearer " +:+ access_token t) | _ => None end.
Definition two_admins : World * Result User :=
  AuthRoutes.create_user (mkCreateUserRequest "carol" "longer-secret" "admin") alice_signs_in.1.
Definition carol : Uuid := match two_admins.2 with Ok u => u_id u | _ => 0%N end.
Definition alice_demoted : World * Result User :=
  AuthRoutes.update_user (mkAdminUser carol) 100 (mkUpdateUserRequest (Some "user") None)
    two_admins.1.
Definition with_stale_token : World * Result unit :=
  (admin ← extract_admin session_settings alice_token; AuthRoutes.delete_user admin carol)
    alice_demoted.1.
Example stale_token_removes_last_admin :
  (is_ok with_stale_token.2, map u_role (rows_of (users (db with_stale_token.1)))) =
  (true, ["user"; "user"]).
Proof. vm_compute. reflexivity. Qed.
