(* ===== verification/ExportSpec.v ===== *)
(** * Exports

    A job is in progress until its task has run, then completed with the
    archive of the copies that could be read, or failed; a finished archive is
    handed out once. *)

From S2P Require Import Prelude Text Json Schema Env World Tables Laws Concrete Projects LocalDisk.
From S2P Require Import Registry Scenario Storages Files FileService BulkService Defects.

Section export.
Context {E : Env} (tar_gz : list (string * bytes) → Result bytes).

Lemma caught_ok {A} (m : M A) w w' r :
  BulkService.caught m w = (w', Ok r) →
  match r with inr a => m w = (w', Ok a) | inl e => m w = (w', Err e) end.
Proof. unfold BulkService.caught, try_with. destruct (m w) as [w1 []]; by intros [= <- <-]. Qed.

(** Reading changes nothing. *)
Lemma be_download_pure b p w : (be_download b p w).1 = w.
Proof.
  destruct b; simpl; [|reflexivity..].
  revert w. change (Guar (same id) (local_download base_path p)).
  unfold local_download, fs_exists, fs_read. guar.
Qed.

(** The entry a copy makes: none when it cannot be read. *)
Definition entry_of (b : Backend) (w : World) (fl : Schema.FileLocation) : option (string * bytes) :=
  f ← files (db w) !! fl_file_id fl;
  match (be_download b (fl_storage_path fl) w).2, str_slice 0 2 (f_hash_sha256 f) with
  | Ok data, Ok dir => Some (dir +:+ "/" +:+ f_hash_sha256 f, data)
  | _, _ => None
  end.

Definition with_progress (job : Uuid) (k : Z) (j : ExportJobStatus) (st : ExportStore) : Prop :=
  export_jobs st !! job = Some (BulkService.set_progress k j).

Lemma add_entries_ok b job j ls entries n st w w' st' r :
  with_progress job n j st →
  BulkService.add_entries b job ls entries n st w = (w', Ok (st', r)) →
  w' = w ∧ export_data st' = export_data st ∧
  ∃ k, with_progress job k j st' ∧
    match r with
    | Ok es => es = entries ++ omap (entry_of b w) ls ∧ k = n + Z.of_nat (length ls)
    | Err _ => True
    | Panic => False
    end.
Proof.
  revert entries n st. induction ls as [|fl ls IH]; intros entries n st Hj H; simpl in H.
  - injection H as <- <- <-. rewrite app_nil_r, Z.add_0_r. eauto 10.
  - apply bind_ok in H as ([e|f] & w1 & Hf & H); apply caught_ok in Hf.
    + injection H as <- <- <-. split; [|eauto].
      apply (guar_outcome (same id)) in Hf; [done|]. unfold File.find_by_id. guar.
    + unfold File.find_by_id in Hf. apply or_throw_ok, gets_ok in Hf as [-> Hf]. symmetry in Hf.
      change (files (db w) !! fl_file_id fl = Some f) in Hf.
      apply bind_ok in H as (o & w1 & Ho & H). apply bind_ok in H as (es & w2 & Hes & H).
      pose proof (be_download_pure b (fl_storage_path fl) w) as Hpure.
      unfold ok, try_with in Ho.
      destruct (be_download b (fl_storage_path fl) w) as [w3 d] eqn:Hd. simpl in Hpure. subst w3.
      assert (with_progress job (n + 1) j
        (BulkService.update_job (BulkService.set_progress (n + 1)) job st)) as Hj'.
      { unfold with_progress in *. simpl. by rewrite lookup_alter_eq, Hj. }
      assert (w1 = w ∧ w2 = w ∧ es = entries ++ option_list (entry_of b w fl)) as (-> & -> & ->).
      { unfold entry_of. rewrite Hf. simpl. rewrite Hd. simpl.
        destruct d as [data|e|]; [| |done]; injection Ho as <- <-.
        - apply bind_ok in Hes as (dir & w3 & Hdir & Hes). injection Hes as <- <-.
          apply lift_ok in Hdir as [-> ->]. done.
        - injection Hes as <- <-. by rewrite app_nil_r. }
      apply IH in H as (-> & Hdata & k & Hk & Hr); [|done].
      split; [done|]. split; [done|]. exists k. split; [done|].
      destruct r as [es'|e|]; [|done..]. destruct Hr as [-> ->]. simpl length.
      split; [|lia]. rewrite <- app_assoc. f_equal. simpl. by destruct (entry_of b w fl).
Qed.

(** The copies an export works through: the synced ones, oldest first. *)
Definition exported_copies (storage_id : Uuid) (d : Db) : list Schema.FileLocation :=
  order_by (asc fl_created_at)
    (select_in (λ fl, N.eqb (fl_storage_id fl) storage_id && TierService.is_synced fl) d).

Definition export_entries (storage_id : Uuid) (w : World) : list (string * bytes) :=
  match backends w !! storage_id with
  | Some b => omap (entry_of b w) (exported_copies storage_id (db w))
  | None => []
  end.

Definition in_progress (job : Uuid) (st : ExportStore) : Prop :=
  ∃ j, with_progress job 0 j st ∧ ej_status j = InProgress.

Definition job_outcome (storage_id job : Uuid) (w : World) (st : ExportStore) : Prop :=
  ∃ j, export_jobs st !! job = Some j ∧
  ((ej_status j = Failed ∧ is_Some (ej_error j) ∧
    BulkService.get_export_data job st = Err BulkService.not_completed) ∨
   ∃ archive st', ej_status j = Completed ∧
     tar_gz (export_entries storage_id w) = Ok archive ∧
     ej_processed_files j = Z.of_nat (length (exported_copies storage_id (db w))) ∧
     BulkService.get_export_data job st = Ok (archive, st') ∧
     BulkService.get_export_data job st' = Err BulkService.data_gone).

Lemma not_completed_yet job j st :
  export_jobs st !! job = Some j → ej_status j ≠ Completed →
  BulkService.get_export_data job st = Err BulkService.not_completed.
Proof.
  intros Hj Hs. unfold BulkService.get_export_data, BulkService.get_export_status. rewrite Hj.
  simpl. by rewrite bool_decide_eq_false_2.
Qed.

Lemma finish_job_ok storage_id job k j r st w w' st' :
  with_progress job k j st → BulkService.finish_job job r st w = (w', Ok st') →
  (∀ archive, r = Ok archive → tar_gz (export_entries storage_id w) = Ok archive ∧
    k = Z.of_nat (length (exported_copies storage_id (db w)))) →
  w' = w ∧ job_outcome storage_id job w st'.
Proof.
  unfold with_progress. intros Hj H Hr. destruct r as [archive|e|]; [| |done]; injection H as <- <-;
    (split; [done|]).
  - destruct (Hr archive eq_refl) as [Htar Hk].
    exists (BulkService.set_completed (Z.of_nat (length archive)) (BulkService.set_progress k j)).
    simpl. rewrite lookup_alter_eq, Hj. split; [done|]. right.
    eexists archive, _. split; [done|]. split; [done|]. split; [done|].
    unfold BulkService.get_export_data, BulkService.get_export_status. simpl.
    rewrite lookup_alter_eq, Hj. simpl. rewrite lookup_insert_eq. simpl. split; [done|].
    simpl. rewrite lookup_alter_eq, Hj. simpl. by rewrite lookup_delete_eq.
  - exists (BulkService.set_failed (display_error e) (BulkService.set_progress k j)).
    simpl. rewrite lookup_alter_eq, Hj. split; [done|]. left. split; [done|]. split; [by eexists|].
    eapply not_completed_yet; [simpl; by rewrite lookup_alter_eq, Hj | done].
Qed.

Lemma run_export_ok storage_id job st st' w w' :
  in_progress job st → BulkService.run_export tar_gz storage_id job st w = (w', Ok st') →
  w' = w ∧ job_outcome storage_id job w st'.
Proof.
  intros (j & Hj & _) H. unfold BulkService.run_export, BulkService.build_tar_gz_archive in H.
  apply bind_ok in H as ([st1 r] & w1 & Hb & H). apply bind_ok in Hb as (l & w2 & Hl & Hb).
  apply gets_ok in Hl as [-> ->]. apply bind_ok in Hb as ([e|b] & w2 & Hg & Hb);
    apply caught_ok in Hg.
  - injection Hb as <- <- <-. apply (guar_outcome (same id)) in Hg;
      [|unfold StorageRegistry.get; guar]. unfold same, id in Hg. subst w2.
    by eapply finish_job_ok.
  - unfold StorageRegistry.get in Hg. apply or_throw_ok, gets_ok in Hg as [-> Hg].
    apply bind_ok in Hb as ([st2 r2] & w2 & Ha & Hb). injection Hb as <- <- <-.
    eapply add_entries_ok in Ha as (-> & _ & k & Hk & Hr); [|done].
    eapply finish_job_ok; [done..|]. intros archive Harc. destruct r2 as [es|e|]; [|done..].
    destruct Hr as [-> ->]. simpl in Harc. unfold export_entries. by rewrite <- Hg.
Qed.

(** C20: a started export is in progress and has nothing to download. Once its
    task has run, at whatever later time and whatever became of the other jobs,
    either the job has failed and says why, or it is completed, counts every
    copy of the storage, and its archive, made of exactly the copies that could
    be read under the names of their hashes, is handed out once and is gone
    afterwards. *)
Theorem export_lifecycle storage_id st w w1 job st1 :
  BulkService.start_export storage_id st w = (w1, Ok (job, st1)) →
  in_progress job st1 ∧
  BulkService.get_export_data job st1 = Err BulkService.not_completed ∧
  ∀ st2 w2 st3 w3, in_progress job st2 →
    BulkService.run_export tar_gz storage_id job st2 w2 = (w3, Ok st3) →
    w3 = w2 ∧ job_outcome storage_id job w2 st3.
Proof.
  unfold BulkService.start_export. intros H. apply bind_ok in H as (s & w2 & _ & H).
  apply bind_ok in H as (id & w3 & _ & H). apply bind_ok in H as (l & w4 & _ & H).
  injection H as _ <- <-.
  split; [|split].
  - exists (mkExportJobStatus id storage_id InProgress (Z.of_nat (length l)) 0 0 None).
    split; [apply lookup_insert_eq | done].
  - eapply not_completed_yet; [apply lookup_insert_eq | done].
  - intros st2 w5 st3 w6 Hin Hrun. by apply (run_export_ok _ _ st2).
Qed.
End export.

(** The export of the hot storage after one upload. *)
Definition no_jobs : ExportStore := mkExportStore ∅ ∅.
Definition started : World * Result (Uuid * ExportStore) :=
  BulkService.start_export 20 no_jobs stored_once.1.
Definition job : Uuid := match started.2 with Ok (id, _) => id | _ => 0%N end.
Definition jobs : ExportStore := match started.2 with Ok (_, st) => st | _ => no_jobs end.
Definition finished : World * Result ExportStore :=
  BulkService.run_export count_entries 20 job jobs started.1.
Definition jobs' : ExportStore := match finished.2 with Ok st => st | _ => no_jobs end.

Lemma export_lifecycle_witness : job_outcome count_entries 20 job started.1 jobs'.
Proof.
  destruct (export_lifecycle count_entries 20 no_jobs stored_once.1 started.1 job jobs)
    as (Hin & _ & Hrun).
  - apply run_ok. vm_compute. reflexivity.
  - apply (Hrun jobs started.1 jobs' finished.1 Hin). apply run_ok. vm_compute. reflexivity.
Defined.
